(** * XMPP channel adapter: inbound policy pipeline, JID utilities, outbound sender

    A shallow embedding of the TypeScript sources of the XMPP extension
    (normalize.ts, policy.ts, muc.ts, monitor.ts, inbound.ts, send.ts,
    client.ts, presence.ts, probe.ts, accounts.ts, channel.ts) together with
    machine-checked statements of the properties the specification lists for
    them and of further properties of the code.

    Conventions of the embedding.
    - A JavaScript string is a [string]: a sequence of code units below 256
      (the Latin-1 range).  Whitespace ([String.prototype.trim], the
      regular-expression class \s) is what ECMAScript counts as such in that
      range: TAB, LF, VT, FF, CR, SPACE and NO-BREAK SPACE.  [toLowerCase]
      maps A-Z and the capital letters U+00C0 to U+00DE (U+00D7 is no letter)
      to their small forms and leaves every other unit alone.
    - [undefined] is [None]; an exception is an explicit error result.
    - An object used as a dictionary ([rooms], [accounts]) is an association
      list of its own keys in insertion order, which is the order
      [Object.keys] enumerates.  A read [obj[key]] of such an object falls
      through to [Object.prototype] when the object has no own property of
      that name; the reads of the code are modelled with that fall-through.
    - Host services (pairing store, command detector and gate, mention
      patterns, routing, session store, envelope, dispatcher, transport) are
      fields of a record the pipeline is parameterised by; the pairing store
      is threaded through as explicit state.  A host function the code
      awaits can reject, and what the code does then is part of the model;
      a host function the code calls synchronously is taken to return.  The
      dispatcher is a strategy tree: it calls [deliver] and [onError] any
      number of times and then settles. *)

From Stdlib Require Import Bool List Arith Lia ZArith Ascii String.
Import ListNotations.
Open Scope string_scope.
Open Scope bool_scope.
Open Scope nat_scope.

(* ------------------------------------------------------------------ *)
(** ** JavaScript string primitives *)

Module JS.

(** The units below 256 that ECMAScript counts as white space or as a line
    terminator: TAB, LF, VT, FF, CR, SPACE and NO-BREAK SPACE (U+00A0).  This
    is the set [String.prototype.trim] removes and the class \s matches. *)
Definition isWhitespace (c : ascii) : bool :=
  let n := nat_of_ascii c in
  ((9 <=? n) && (n <=? 13)) || (n =? 32) || (n =? 160).

(** [toLowerCase] on one unit below 256: A-Z and the capital letters of the
    Latin-1 block (U+00C0 to U+00DE, the multiplication sign U+00D7 apart) move
    up by 32; every other unit is its own lower case.  Two units below 256 are
    equal under the regular-expression flag i exactly when their lower cases
    are equal. *)
Definition lowerUnit (c : ascii) : ascii :=
  let n := nat_of_ascii c in
  if ((65 <=? n) && (n <=? 90)) || ((192 <=? n) && (n <=? 222) && negb (n =? 215))
  then ascii_of_nat (n + 32) else c.

Fixpoint toLowerCase (s : string) : string :=
  match s with
  | EmptyString => EmptyString
  | String c r => String (lowerUnit c) (toLowerCase r)
  end.

Fixpoint allChars (p : ascii -> bool) (s : string) : bool :=
  match s with
  | EmptyString => true
  | String c r => p c && allChars p r
  end.

Definition truthy (s : string) : bool :=
  match s with EmptyString => false | _ => true end.

Fixpoint trimStart (s : string) : string :=
  match s with
  | EmptyString => EmptyString
  | String c r => if isWhitespace c then trimStart r else s
  end.

Fixpoint trimEnd (s : string) : string :=
  match s with
  | EmptyString => EmptyString
  | String c r =>
      let r' := trimEnd r in
      if isWhitespace c && negb (truthy r') then EmptyString else String c r'
  end.

Definition trim (s : string) : string := trimEnd (trimStart s).

Definition startsWith (p s : string) : bool := String.prefix p s.

(** [s.slice(n)] for [0 <= n]. *)
Fixpoint slice (n : nat) (s : string) : string :=
  match n, s with
  | O, _ => s
  | S k, EmptyString => EmptyString
  | S k, String _ r => slice k r
  end.

(** [s.includes(sub)]. *)
Fixpoint includes (sub s : string) : bool :=
  String.prefix sub s ||
  match s with
  | EmptyString => false
  | String _ r => includes sub r
  end.

(** Cut [s] at the first occurrence of [sep]: what [indexOf] followed by the
    two [slice] calls computes.  [None] when [sep] does not occur. *)
Fixpoint splitFirst (sep : ascii) (s : string) : option (string * string) :=
  match s with
  | EmptyString => None
  | String c r =>
      if Ascii.eqb c sep then Some (EmptyString, r)
      else match splitFirst sep r with
           | Some (a, b) => Some (String c a, b)
           | None => None
           end
  end.

(** [s.split(sep)] for a one-character separator: never the empty list. *)
Fixpoint split (sep : ascii) (s : string) : list string :=
  match s with
  | EmptyString => [EmptyString]
  | String c r =>
      if Ascii.eqb c sep then EmptyString :: split sep r
      else match split sep r with
           | [] => [String c EmptyString]
           | h :: t => String c h :: t
           end
  end.

(** [s.replace(/pat/g, rep)] for a literal, non-empty pattern: matches are
    taken left to right and do not overlap.  [skip] counts the units of a
    match that are still to be consumed. *)
Fixpoint replaceAllFrom (pat rep : string) (skip : nat) (s : string) : string :=
  match s with
  | EmptyString => EmptyString
  | String c r =>
      match skip with
      | S k => replaceAllFrom pat rep k r
      | O =>
          if String.prefix pat s
          then rep ++ replaceAllFrom pat rep (String.length pat - 1) r
          else String c (replaceAllFrom pat rep 0 r)
      end
  end.

Definition replaceAll (pat rep s : string) : string := replaceAllFrom pat rep 0 s.

Definition LF : string := String (ascii_of_nat 10) EmptyString.

(** Insertion-ordered [Set<string>]: [add] and [has]. *)
Definition setHas (x : string) (l : list string) : bool :=
  existsb (String.eqb x) l.

Definition setAdd (x : string) (l : list string) : list string :=
  if setHas x l then l else l ++ [x].

(** The names of the properties that every plain object inherits from
    [Object.prototype].  A read [obj[key]] of a key that [obj] does not own
    finds them: it returns a function, or for "__proto__" the prototype
    object, in any case a truthy value.  [Object.keys] does not list them. *)
Definition OBJECT_PROTOTYPE_KEYS : list string :=
  ["constructor"; "__defineGetter__"; "__defineSetter__"; "hasOwnProperty";
   "__lookupGetter__"; "__lookupSetter__"; "isPrototypeOf"; "propertyIsEnumerable";
   "toString"; "valueOf"; "__proto__"; "toLocaleString"].

Definition isInherited (key : string) : bool := setHas key OBJECT_PROTOTYPE_KEYS.

End JS.

(* ------------------------------------------------------------------ *)
(** ** The JID package

    normalize.ts imports [jid] from @xmpp/jid, a third-party package that is
    not part of the repository.  The module below follows the package: a JID
    string is cut at the first "/" (resource) and then at the first "@"
    (local part); an empty domain is rejected with an exception; the domain
    and the local part are stored in lower case; a local part in which, once
    its XEP-0106 escape sequences are set aside, one of the ten reserved
    characters (space, double quote, ampersand, apostrophe, "/", ":", "<",
    ">", "@", backslash) is left is stored escaped: trimmed, every backslash
    written as "\5c", then every other reserved character as its sequence. *)

Module XmppJid.

Record JID := mkJIDRecord {
  local : string;
  domain : string;
  resource : string
}.

Definition bslash : string := String (ascii_of_nat 92) EmptyString.
Definition dquote : string := String (ascii_of_nat 34) EmptyString.

(** The characters of XEP-0106 other than the backslash, with their
    two-digit codes, in the order in which [escape] replaces them. *)
Definition escapeTable : list (string * string) :=
  [ (" ", "20"); (dquote, "22"); ("&", "26"); ("'", "27"); ("/", "2f");
    (":", "3a"); ("<", "3c"); (">", "3e"); ("@", "40") ].

Definition escapeCodes : list string :=
  ["20"; "22"; "26"; "27"; "2f"; "3a"; "3c"; "3e"; "40"; "5c"].

Definition isReserved (c : ascii) : bool :=
  let n := nat_of_ascii c in
  (n =? 32) || (n =? 34) || (n =? 38) || (n =? 39) || (n =? 47) ||
  (n =? 58) || (n =? 60) || (n =? 62) || (n =? 64) || (n =? 92).

(** escaping.detect: drop every escape sequence, then look for a reserved
    character. *)
Definition detect (l : string) : bool :=
  if negb (JS.truthy l) then false
  else
    let tmp := fold_left (fun acc code => JS.replaceAll (bslash ++ code) "" acc)
                         escapeCodes l in
    negb (JS.allChars (fun c => negb (isReserved c)) tmp).

(** escaping.escape: trim, write every backslash as its escape sequence
    "\5c", then every other reserved character as its own, in the order of
    the table. *)
Definition escape (l : string) : string :=
  fold_left (fun acc '(ch, code) => JS.replaceAll ch (bslash ++ code) acc)
            ((bslash, "5c") :: escapeTable) (JS.trim l).

Definition setLocal (l : string) : string :=
  JS.toLowerCase (if detect l then escape l else l).

(** [new JID(local, domain, resource)]: throws on an empty domain. *)
Definition newJID (l : option string) (d : string) (r : option string) : option JID :=
  if negb (JS.truthy d) then None
  else Some {| local := setLocal (match l with Some x => x | None => "" end);
               domain := JS.toLowerCase d;
               resource := match r with Some x => x | None => "" end |}.

(** [jid(s)] with one argument, i.e. parse.js. *)
Definition parseJid (s : string) : option JID :=
  let '(s1, r) := match JS.splitFirst "/" s with
                  | Some (a, b) => (a, Some b)
                  | None => (s, None)
                  end in
  let '(l, d) := match JS.splitFirst "@" s1 with
                 | Some (a, b) => (Some a, b)
                 | None => (None, s1)
                 end in
  newJID l d r.

(** [j.bare()]. A JID object stores a non-empty domain, so the constructor
    call cannot throw here; the fallback branch is never taken. *)
Definition bare (j : JID) : JID :=
  if JS.truthy (resource j)
  then match newJID (Some (local j)) (domain j) None with
       | Some b => b
       | None => j
       end
  else j.

(** [j.toString()]. *)
Definition toString (j : JID) : string :=
  let s := if JS.truthy (local j) then local j ++ "@" ++ domain j else domain j in
  if JS.truthy (resource j) then s ++ "/" ++ resource j else s.

End XmppJid.

(* ------------------------------------------------------------------ *)
(** ** normalize.ts *)

(** XMPP_TARGET_PATTERN = /^[^\s]+@[^\s]+$/u : no whitespace anywhere and an
    "@" that is neither the first nor the last unit. *)
Fixpoint hasInnerAt (s : string) : bool :=
  match s with
  | EmptyString => false
  | String c r =>
      match r with
      | EmptyString => false
      | String _ _ => Ascii.eqb c "@" || hasInnerAt r
      end
  end.

Definition XMPP_TARGET_PATTERN_test (s : string) : bool :=
  JS.allChars (fun c => negb (JS.isWhitespace c)) s &&
  match s with
  | EmptyString => false
  | String _ r => hasInnerAt r
  end.

Definition isRoomJid (jidString : string) : bool :=
  match XmppJid.parseJid jidString with
  | Some parsed =>
      let domain := JS.toLowerCase (XmppJid.domain parsed) in
      JS.includes "conference" domain || JS.includes "muc" domain
  | None => false
  end.

Definition normalizeXmppBareJid (jidString : string) : string :=
  match XmppJid.parseJid jidString with
  | Some parsed => XmppJid.toString (XmppJid.bare parsed)
  | None => JS.trim jidString
  end.

Definition looksLikeXmppJid (raw : string) : bool :=
  let trimmed := JS.trim raw in
  if negb (JS.truthy trimmed) then false
  else if negb (XMPP_TARGET_PATTERN_test trimmed) then false
  else match XmppJid.parseJid trimmed with
       | Some _ => true
       | None => false
       end.

Definition normalizeXmppJid (raw : string) : option string :=
  let trimmed := JS.trim raw in
  if negb (JS.truthy trimmed) then None
  else
    let target := trimmed in
    let lowered := JS.toLowerCase target in
    let target := if JS.startsWith "xmpp:" lowered
                  then JS.trim (JS.slice 5 target) else target in
    let target := if JS.startsWith "room:" lowered
                  then JS.trim (JS.slice 5 target) else target in
    let target := if JS.startsWith "user:" lowered
                  then JS.trim (JS.slice 5 target) else target in
    if negb (JS.truthy target) || negb (looksLikeXmppJid target) then None
    else match XmppJid.parseJid target with
         | Some parsed => Some (XmppJid.toString (XmppJid.bare parsed))
         | None => None
         end.

Definition normalizeXmppMessagingTarget (raw : string) : option string :=
  normalizeXmppJid raw.

Definition normalizeXmppAllowEntry (raw : string) : string :=
  let value := JS.toLowerCase (JS.trim raw) in
  if negb (JS.truthy value) then ""
  else
    let value := if JS.startsWith "xmpp:" value then JS.slice 5 value else value in
    let value := if JS.startsWith "user:" value then JS.slice 5 value else value in
    let value := if JS.startsWith "room:" value then JS.slice 5 value else value in
    let value := JS.trim value in
    if JS.truthy value && negb (String.eqb value "*")
    then match XmppJid.parseJid value with
         | Some parsed => JS.toLowerCase (XmppJid.toString (XmppJid.bare parsed))
         | None => value
         end
    else value.

(** Entries are given after [String(entry)]. *)
Definition normalizeXmppAllowlist (entries : option (list string)) : list string :=
  filter JS.truthy
         (map normalizeXmppAllowEntry (match entries with Some l => l | None => [] end)).

(* ------------------------------------------------------------------ *)
(** ** types.ts *)

Inductive DmPolicy := DmPairing | DmAllowlist | DmOpen | DmDisabled.
Inductive GroupPolicy := GroupAllowlist | GroupOpen | GroupDisabled.
Inductive MessageType := Chat | Groupchat.

Record XmppRoomConfig := {
  roomRequireMention : option bool;
  roomEnabled : option bool;
  roomAllowFrom : option (list string);
  roomSkills : option (list string);
  roomSystemPrompt : option string
}.

(** [Record<string, XmppRoomConfig>], in key insertion order. *)
Definition Rooms := list (string * XmppRoomConfig).

Record XmppAccountConfig := {
  dmPolicy : option DmPolicy;
  allowFrom : option (list string);
  groupPolicy : option GroupPolicy;
  groupAllowFrom : option (list string);
  rooms : option Rooms;
  autoJoinRooms : option (list string);
  blockStreaming : option bool
}.

Record ResolvedXmppAccount := {
  accountId : string;
  configured : bool;
  jid : string;
  bareJid : string;
  config : XmppAccountConfig
}.

Record XmppInboundMessage := {
  messageId : string;
  target : string;
  senderJid : string;
  senderBareJid : string;
  senderResource : option string;
  senderNickname : option string;
  text : string;
  timestamp : Z;
  isGroup : bool;
  stanzaId : option string
}.

(* ------------------------------------------------------------------ *)
(** ** normalize.ts, continued: allowlist matching *)

Definition buildXmppAllowlistCandidates (message : XmppInboundMessage) : list string :=
  let candidates := [] in
  let candidates :=
    if JS.truthy (senderBareJid message)
    then JS.setAdd (JS.toLowerCase (senderBareJid message)) candidates
    else candidates in
  let candidates :=
    if JS.truthy (senderJid message)
    then JS.setAdd (JS.toLowerCase (senderJid message)) candidates
    else candidates in
  match senderNickname message with
  | Some nick =>
      if isGroup message && JS.truthy nick
      then JS.setAdd (JS.toLowerCase nick) candidates
      else candidates
  | None => candidates
  end.

Record AllowlistMatch := {
  matchAllowed : bool;
  matchSource : option string
}.

Definition resolveXmppAllowlistMatch (allowFromList : list string)
    (message : XmppInboundMessage) : AllowlistMatch :=
  let allowSet :=
    filter JS.truthy (map (fun entry => JS.toLowerCase (JS.trim entry)) allowFromList) in
  if JS.setHas "*" allowSet
  then {| matchAllowed := true; matchSource := Some "wildcard" |}
  else match find (fun candidate => JS.setHas candidate allowSet)
                  (buildXmppAllowlistCandidates message) with
       | Some candidate => {| matchAllowed := true; matchSource := Some candidate |}
       | None => {| matchAllowed := false; matchSource := None |}
       end.

(* ------------------------------------------------------------------ *)
(** ** policy.ts *)

Record XmppRoomMatch := {
  roomAllowed : bool;
  roomConfig : option XmppRoomConfig;
  wildcardConfig : option XmppRoomConfig;
  hasConfiguredRooms : bool
}.

Record XmppGroupAccessGate := {
  gateAllowed : bool;
  gateReason : string
}.

(** The own property of [rooms] stored under [key], [None] when [rooms] has
    no such key. *)
Fixpoint roomsGet (rs : Rooms) (key : string) : option XmppRoomConfig :=
  match rs with
  | [] => None
  | (k, v) :: rest => if String.eqb k key then Some v else roomsGet rest key
  end.

(** [Object.keys(rooms)] *)
Definition roomsKeys (rs : Rooms) : list string := map fst rs.

(** What the code gets when it reads one of the properties inherited from
    [Object.prototype] as a room config: a function (or the prototype object)
    on which each of the fields [requireMention], [enabled], [allowFrom],
    [skills] and [systemPrompt] is undefined. *)
Definition inheritedProperty : XmppRoomConfig :=
  {| roomRequireMention := None; roomEnabled := None; roomAllowFrom := None;
     roomSkills := None; roomSystemPrompt := None |}.

(** [rooms[key]]: [rooms] is a plain object ([params.rooms ?? {}]), so the
    read finds the own property under [key] and, when there is none, the
    property of that name inherited from [Object.prototype]. *)
Definition roomsRead (rs : Rooms) (key : string) : option XmppRoomConfig :=
  match roomsGet rs key with
  | Some v => Some v
  | None => if JS.isInherited key then Some inheritedProperty else None
  end.

Definition resolveXmppRoomMatch (roomsOpt : option Rooms) (target : string)
    : XmppRoomMatch :=
  let rs := match roomsOpt with Some r => r | None => [] end in
  let hasRooms := 0 <? List.length (roomsKeys rs) in
  let noMatch :=
    match roomsRead rs "*" with
    | Some wildcard =>
        {| roomAllowed := true; roomConfig := None;
           wildcardConfig := Some wildcard; hasConfiguredRooms := hasRooms |}
    | None =>
        {| roomAllowed := false; roomConfig := None;
           wildcardConfig := None; hasConfiguredRooms := hasRooms |}
    end in
  match roomsRead rs target with
  | Some direct =>
      {| roomAllowed := true; roomConfig := Some direct;
         wildcardConfig := roomsRead rs "*"; hasConfiguredRooms := hasRooms |}
  | None =>
      let targetLower := JS.toLowerCase target in
      match find (fun key => String.eqb (JS.toLowerCase key) targetLower)
                 (roomsKeys rs) with
      | Some directKey =>
          if JS.truthy directKey
          then match roomsRead rs directKey with
               | Some matched =>
                   {| roomAllowed := true; roomConfig := Some matched;
                      wildcardConfig := roomsRead rs "*";
                      hasConfiguredRooms := hasRooms |}
               | None => noMatch
               end
          else noMatch
      | None => noMatch
      end
  end.

Definition enabledIsFalse (c : option XmppRoomConfig) : bool :=
  match c with
  | Some rc => match roomEnabled rc with Some false => true | _ => false end
  | None => false
  end.

Definition resolveXmppGroupAccessGate (groupPolicyOpt : option GroupPolicy)
    (roomMatch : XmppRoomMatch) : XmppGroupAccessGate :=
  let policy := match groupPolicyOpt with Some p => p | None => GroupAllowlist end in
  match policy with
  | GroupDisabled => {| gateAllowed := false; gateReason := "groupPolicy=disabled" |}
  | _ =>
      let checkDisables :=
        if enabledIsFalse (roomConfig roomMatch) || enabledIsFalse (wildcardConfig roomMatch)
        then {| gateAllowed := false; gateReason := "disabled" |}
        else {| gateAllowed := true;
                gateReason := match policy with
                              | GroupOpen => "open"
                              | _ => "allowlisted"
                              end |} in
      match policy with
      | GroupAllowlist =>
          if negb (hasConfiguredRooms roomMatch)
          then {| gateAllowed := false;
                  gateReason := "groupPolicy=allowlist and no rooms configured" |}
          else if negb (roomAllowed roomMatch)
          then {| gateAllowed := false; gateReason := "not allowlisted" |}
          else checkDisables
      | _ => checkDisables
      end
  end.

Definition resolveXmppRequireMention (roomCfg wildcardCfg : option XmppRoomConfig)
    : bool :=
  match match roomCfg with Some rc => roomRequireMention rc | None => None end with
  | Some b => b
  | None =>
      match match wildcardCfg with Some wc => roomRequireMention wc | None => None end with
      | Some b => b
      | None => true
      end
  end.

Record MentionGate := {
  shouldSkip : bool;
  mentionReason : string
}.

Definition resolveXmppMentionGate (isGroupMsg requireMention wasMentioned
    hasControlCommand allowTextCommands commandAuthorized : bool) : MentionGate :=
  if negb isGroupMsg then {| shouldSkip := false; mentionReason := "direct" |}
  else if negb requireMention
  then {| shouldSkip := false; mentionReason := "mention-not-required" |}
  else if wasMentioned then {| shouldSkip := false; mentionReason := "mentioned" |}
  else if hasControlCommand && allowTextCommands && commandAuthorized
  then {| shouldSkip := false; mentionReason := "authorized-command" |}
  else {| shouldSkip := true; mentionReason := "missing-mention" |}.

Definition resolveXmppGroupSenderAllowed (groupPolicyOpt : option GroupPolicy)
    (message : XmppInboundMessage) (outerAllowFrom innerAllowFrom : list string)
    : bool :=
  let policy := match groupPolicyOpt with Some p => p | None => GroupAllowlist end in
  let inner := normalizeXmppAllowlist (Some innerAllowFrom) in
  let outer := normalizeXmppAllowlist (Some outerAllowFrom) in
  if 0 <? List.length inner
  then matchAllowed (resolveXmppAllowlistMatch inner message)
  else if 0 <? List.length outer
  then matchAllowed (resolveXmppAllowlistMatch outer message)
  else match policy with GroupOpen => true | _ => false end.

(* ------------------------------------------------------------------ *)
(** ** monitor.ts *)

Record InboundTarget := {
  itIsGroup : bool;
  itTarget : string;
  itSenderJid : string;
  itSenderBareJid : string;
  itSenderNickname : option string;
  itSenderResource : option string
}.

Definition resolveXmppInboundTarget (from type : string) : InboundTarget :=
  let isGroupMsg := String.eqb type "groupchat" in
  if isGroupMsg then
    let parts := JS.split "/" from in
    let roomJid := nth 0 parts "" in
    let nickname := nth_error parts 1 in
    {| itIsGroup := true; itTarget := roomJid; itSenderJid := from;
       itSenderBareJid := roomJid; itSenderNickname := nickname;
       itSenderResource := None |}
  else
    let bare := normalizeXmppBareJid from in
    let res := if JS.includes "/" from then nth_error (JS.split "/" from) 1 else None in
    {| itIsGroup := false; itTarget := bare; itSenderJid := from;
       itSenderBareJid := bare; itSenderNickname := None;
       itSenderResource := res |}.

(** client.ts, [XmppMessageEvent]; [delay] is the delayed-delivery time in ms. *)
Record XmppMessageEvent := {
  evFrom : string;
  evTo : string;
  evBody : string;
  evType : string;
  evId : option string;
  evDelay : option Z
}.

(** What the [onMessage] callback of [monitorXmppProvider] does with one event,
    in order. *)
Inductive MonitorAction :=
| RecordInboundActivity (account : string) (at_ : Z)
| CallOnMessage (m : XmppInboundMessage)
| CallHandleXmppInbound (m : XmppInboundMessage).

(** [hasClient]: the monitor still holds its client; [customOnMessage]:
    [opts.onMessage] was supplied; [now] and [freshId] are the values of
    [Date.now()] and [makeXmppMessageId()]. *)
Definition monitorOnMessage (account : ResolvedXmppAccount) (hasClient customOnMessage : bool)
    (now : Z) (freshId : string) (event : XmppMessageEvent) : list MonitorAction :=
  if negb hasClient then []
  else
    let fromBareJid := normalizeXmppBareJid (evFrom event) in
    if String.eqb fromBareJid (bareJid account) then []
    else
      let inboundTarget := resolveXmppInboundTarget (evFrom event) (evType event) in
      let message :=
        {| messageId := match evId event with
                        | Some i => if JS.truthy i then i else freshId
                        | None => freshId
                        end;
           target := itTarget inboundTarget;
           senderJid := itSenderJid inboundTarget;
           senderBareJid := itSenderBareJid inboundTarget;
           senderNickname := itSenderNickname inboundTarget;
           senderResource := itSenderResource inboundTarget;
           text := evBody event;
           timestamp := match evDelay event with Some d => d | None => now end;
           isGroup := itIsGroup inboundTarget;
           stanzaId := evId event |} in
      RecordInboundActivity (accountId account) (timestamp message) ::
      (if customOnMessage then [CallOnMessage message]
       else [CallHandleXmppInbound message]).

(* ------------------------------------------------------------------ *)
(** ** Host services and observable effects *)

(** Outcome of handing a stanza to the transport. *)
Inductive Sent := SendFailed (err : string) | SendOk (id : string).

(** The route [resolveAgentRoute] returns, as far as the pipeline reads it. *)
Record AgentRoute := {
  routeAgentId : string;
  routeSessionKey : string;
  routeAccountId : string
}.

(** The context payload of [handleXmppInbound], field by field. *)
Record InboundContext := {
  ctxBody : string;
  ctxRawBody : string;
  ctxCommandBody : string;
  ctxFrom : string;
  ctxTo : string;
  ctxSessionKey : option string;
  ctxAccountId : string;
  ctxChatType : string;
  ctxConversationLabel : string;
  ctxSenderName : string;
  ctxSenderId : string;
  ctxGroupSubject : option string;
  ctxGroupSystemPrompt : option string;
  ctxProvider : string;
  ctxSurface : string;
  ctxWasMentioned : option bool;
  ctxMessageSid : string;
  ctxTimestamp : Z;
  ctxOriginatingChannel : string;
  ctxOriginatingTo : string;
  ctxCommandAuthorized : bool
}.

(** The payload the dispatcher hands to the [deliver] callback. *)
Record ReplyPayload := {
  payloadText : option string;
  payloadMediaUrls : option (list string);
  payloadMediaUrl : option string;
  payloadReplyToId : option string
}.

(** What [dispatchReplyWithBufferedBlockDispatcher] does with the callbacks
    it is given, as a strategy of the host: it calls [deliver] with a payload
    and goes on according to the outcome of that call ([None] when the call
    is fulfilled, the rendered error when it is rejected), or it calls
    [onError], or its own promise settles (fulfilled or rejected).  The calls
    are made one after the other. *)
Inductive Dispatcher :=
| DispatchSettled (ok : bool)
| DispatchDeliver (payload : ReplyPayload) (next : option string -> Dispatcher)
| DispatchOnError (err kind : string) (next : Dispatcher).

Inductive Effect :=
| StatusInbound (at_ : Z)                        (* statusSink({lastInboundAt}) *)
| StatusOutbound                                 (* statusSink({lastOutboundAt}) *)
| Log (line : string)                            (* runtime.log *)
| LogError (line : string)                       (* runtime.error *)
| LogInboundDrop (reason tgt : string)           (* logInboundDrop *)
| PairingUpsert (channel id name : string)       (* upsertPairingRequest *)
| SendStanza (live : bool) (to body : string) (type : MessageType)
| ActivityOutbound (account : string)            (* activity.record, outbound *)
| SessionRecord (storePath sessionKey : string) (ctx : InboundContext)
                                                 (* recordInboundSession *)
| AgentDispatch (ctx : InboundContext) (skillFilter : option (list string))
                (disableBlockStreaming : option bool).
                                 (* dispatchReplyWithBufferedBlockDispatcher *)

(** The host plugin API the extension consumes.  [Store] is the state of the
    shared pairing store.  A [None] result stands for a rejected promise or a
    thrown exception.  The functions the pipeline calls without awaiting or
    catching are taken to return; the values the host hands out only to get
    them back (envelope options, reply prefix options, [config.session.store])
    are part of the host. *)
Record Host (Store : Type) := {
  (** channel |-> the approved entries *)
  readAllowFromStore : string -> Store -> option (list string);
  (** channel, id, meta.name |-> (code, created) and the new store *)
  upsertPairingRequest :
    string -> string -> string -> Store -> option (string * bool * Store);
  (** idLine, code |-> reply text, or [inl] of the rendered error it throws *)
  buildPairingReply : string -> string -> string + string;
  shouldHandleTextCommands : bool;
  hasControlCommand : string -> bool;
  (** useAccessGroups, authorizer.configured, authorizer.allowed,
      allowTextCommands, hasControlCommand |-> (commandAuthorized, shouldBlock) *)
  resolveControlCommandGate : bool -> bool -> bool -> bool -> bool -> bool * bool;
  matchesMentionPatterns : string -> bool;
  convertMarkdownTables : string -> string;
  (** [client.sendMessage] on the monitor's live client *)
  liveSend : string -> string -> MessageType -> Sent;
  (** connect a transient client, send, stop it *)
  transientSend : string -> string -> MessageType -> Sent;
  (** routing.resolveAgentRoute: accountId, peer.kind, peer.id *)
  resolveAgentRoute : string -> string -> string -> AgentRoute;
  (** session.resolveStorePath: agentId *)
  resolveStorePath : string -> string;
  (** session.readSessionUpdatedAt: storePath, sessionKey *)
  readSessionUpdatedAt : string -> string -> option Z;
  (** reply.formatAgentEnvelope: from, timestamp, previousTimestamp, body *)
  formatAgentEnvelope : string -> Z -> option Z -> string -> string;
  finalizeInboundContext : InboundContext -> InboundContext;
  (** session.recordInboundSession: storePath, sessionKey, ctx |-> the errors
      it passes to [onRecordError], in order, and whether its promise is
      fulfilled *)
  recordInboundSession : string -> string -> InboundContext -> list string * bool;
  (** reply.dispatchReplyWithBufferedBlockDispatcher: ctx,
      replyOptions.skillFilter, replyOptions.disableBlockStreaming *)
  dispatchReplyWithBufferedBlockDispatcher :
    InboundContext -> option (list string) -> option bool -> Dispatcher
}.

Arguments readAllowFromStore {Store} _ _ _.
Arguments upsertPairingRequest {Store} _ _ _ _ _.
Arguments buildPairingReply {Store} _ _ _.
Arguments shouldHandleTextCommands {Store} _.
Arguments hasControlCommand {Store} _ _.
Arguments resolveControlCommandGate {Store} _ _ _ _ _ _.
Arguments matchesMentionPatterns {Store} _ _.
Arguments convertMarkdownTables {Store} _ _.
Arguments liveSend {Store} _ _ _ _.
Arguments transientSend {Store} _ _ _ _.
Arguments resolveAgentRoute {Store} _ _ _ _.
Arguments resolveStorePath {Store} _ _.
Arguments readSessionUpdatedAt {Store} _ _ _.
Arguments formatAgentEnvelope {Store} _ _ _ _ _.
Arguments finalizeInboundContext {Store} _ _.
Arguments recordInboundSession {Store} _ _ _ _.
Arguments dispatchReplyWithBufferedBlockDispatcher {Store} _ _ _ _.

(* ------------------------------------------------------------------ *)
(** ** send.ts *)

Inductive SendError :=
| ErrNotConfigured (account : string)
| ErrInvalidTarget (to : string)
| ErrEmptyMessage
| ErrTransport (err : string).

Definition sendErrorMessage (e : SendError) : string :=
  match e with
  | ErrNotConfigured a =>
      "XMPP is not configured for account " ++ XmppJid.dquote ++ a ++ XmppJid.dquote
      ++ " (need jid and password in channels.xmpp)."
  | ErrInvalidTarget to => "Invalid XMPP target: " ++ to
  | ErrEmptyMessage => "Message must be non-empty for XMPP sends"
  | ErrTransport err => err
  end.

Record SendXmppOptions := {
  optReplyTo : option string;
  optTarget : option string;
  (** the supplied client, as the value of its [isReady()] *)
  optClient : option bool
}.

Record SendXmppResult := {
  resMessageId : string;
  resTarget : string
}.

Definition truthyOpt (o : option string) : option string :=
  match o with
  | Some x => if JS.truthy x then Some x else None
  | None => None
  end.

Definition resolveTarget (to : string) (opts : SendXmppOptions) : SendError + string :=
  match truthyOpt (normalizeXmppMessagingTarget to) with
  | Some fromArg => inr fromArg
  | None =>
      match truthyOpt (normalizeXmppMessagingTarget
                         (match optTarget opts with Some t => t | None => "" end)) with
      | Some fromOpt => inr fromOpt
      | None => inl (ErrInvalidTarget to)
      end
  end.

Definition replyMarker (id : string) : string :=
  JS.LF ++ JS.LF ++ "[reply:" ++ id ++ "]".

(** The payload handed to the transport. *)
Definition sendPayload {Store} (h : Host Store) (text : string) (opts : SendXmppOptions)
    : string :=
  let prepared := convertMarkdownTables h (JS.trim text) in
  match truthyOpt (optReplyTo opts) with
  | Some id => prepared ++ replyMarker id
  | None => prepared
  end.

Definition sendMessageType (target : string) : MessageType :=
  if isRoomJid target then Groupchat else Chat.

(** The part of [sendMessageXmpp] between the account check and the send:
    target, payload (rejected when blank) and message type. *)
Definition prepareSend {Store} (h : Host Store) (to text : string)
    (opts : SendXmppOptions) : SendError + (string * string * MessageType) :=
  match resolveTarget to opts with
  | inl e => inl e
  | inr tgt =>
      let payload := sendPayload h text opts in
      if negb (JS.truthy (JS.trim payload)) then inl ErrEmptyMessage
      else inr (tgt, payload, sendMessageType tgt)
  end.

(** [freshId] is the value [makeXmppMessageId()] would return. *)
Definition sendMessageXmpp {Store} (h : Host Store) (account : ResolvedXmppAccount)
    (freshId : string) (to text : string) (opts : SendXmppOptions)
    : (SendError + SendXmppResult) * list Effect :=
  if negb (configured account) then (inl (ErrNotConfigured (accountId account)), [])
  else
    match prepareSend h to text opts with
    | inl e => (inl e, [])
    | inr (tgt, payload, messageType) =>
        let live := match optClient opts with Some true => true | _ => false end in
        match (if live then liveSend h tgt payload messageType
               else transientSend h tgt payload messageType) with
        | SendFailed err => (inl (ErrTransport err), [])
        | SendOk id =>
            (inr {| resMessageId := if JS.truthy id then id else freshId;
                    resTarget := tgt |},
             [SendStanza live tgt payload messageType;
              ActivityOutbound (accountId account)])
        end
    end.

(* ------------------------------------------------------------------ *)
(** ** inbound.ts *)

Definition CHANNEL_ID : string := "xmpp".

Fixpoint joinLines (l : list string) : string :=
  match l with
  | [] => ""
  | [x] => x
  | x :: rest => x ++ JS.LF ++ joinLines rest
  end.

(** The message type [deliverXmppReply] picks when it is given a client. *)
Definition liveReplyMessageType (tgt : string) : MessageType :=
  if JS.includes "@conference." tgt || JS.includes "@muc." tgt
  then Groupchat else Chat.

(** [String(err)] for an error thrown by [sendMessageXmpp]. *)
Definition renderSendError (e : SendError) : string :=
  match e with
  | ErrTransport err => err
  | _ => "Error: " ++ sendErrorMessage e
  end.

(** Returns [Some] of the rendered error when the call throws. *)
Definition deliverXmppReply {Store} (h : Host Store) (account : ResolvedXmppAccount)
    (freshId : string) (payload : ReplyPayload) (tgt : string) (client : option bool)
    : option string * list Effect :=
  let txt := match payloadText payload with Some t => t | None => "" end in
  let mediaList :=
    match payloadMediaUrls payload with
    | Some (u :: us) => u :: us
    | _ => match truthyOpt (payloadMediaUrl payload) with
           | Some u => [u]
           | None => []
           end
    end in
  if negb (JS.truthy (JS.trim txt)) && (List.length mediaList =? 0) then (None, [])
  else
    let mediaBlock := joinLines (map (fun url => "Attachment: " ++ url) mediaList) in
    let combined :=
      if JS.truthy (JS.trim txt)
      then if JS.truthy mediaBlock
           then JS.trim txt ++ JS.LF ++ JS.LF ++ mediaBlock
           else JS.trim txt
      else mediaBlock in
    match client with
    | Some _ =>
        let messageType := liveReplyMessageType tgt in
        match liveSend h tgt combined messageType with
        | SendFailed err => (Some err, [])
        | SendOk _ => (None, [SendStanza true tgt combined messageType; StatusOutbound])
        end
    | None =>
        match sendMessageXmpp h account freshId tgt combined
                {| optReplyTo := payloadReplyToId payload;
                   optTarget := None; optClient := None |} with
        | (inl e, effs) => (Some (renderSendError e), effs)
        | (inr _, effs) => (None, (effs ++ [StatusOutbound])%list)
        end
    end.

(** *** Explicit mention: new RegExp(`\\b${escaped localpart}\\b[:,]?`, "i").
    The local part is escaped, so it matches literally; the optional trailing
    ":" or "," never makes [test] fail. *)

Definition isWordChar (c : ascii) : bool :=
  let n := nat_of_ascii c in
  ((48 <=? n) && (n <=? 57)) || ((65 <=? n) && (n <=? 90)) ||
  ((97 <=? n) && (n <=? 122)) || (n =? 95).

Definition isWordOpt (c : option ascii) : bool :=
  match c with Some x => isWordChar x | None => false end.

(** \b between the unit [before] and the unit [after]. *)
Definition wordBoundary (before after : option ascii) : bool :=
  xorb (isWordOpt before) (isWordOpt after).

Definition headChar (s : string) : option ascii :=
  match s with String c _ => Some c | EmptyString => None end.

(** Match the literal [pat] case-insensitively at the start of [s];
    [prev] is the unit consumed last.  On success returns that last unit and
    the rest of [s]. *)
Fixpoint matchLiteralCI (pat s : string) (prev : option ascii)
    : option (option ascii * string) :=
  match pat with
  | EmptyString => Some (prev, s)
  | String p pat' =>
      match s with
      | EmptyString => None
      | String c s' =>
          if Ascii.eqb (JS.lowerUnit p) (JS.lowerUnit c)
          then matchLiteralCI pat' s' (Some c)
          else None
      end
  end.

Definition mentionMatchesAt (localpart : string) (prev : option ascii) (s : string) : bool :=
  wordBoundary prev (headChar s) &&
  match matchLiteralCI localpart s prev with
  | Some (lastUnit, rest) => wordBoundary lastUnit (headChar rest)
  | None => false
  end.

Fixpoint mentionSearch (localpart : string) (prev : option ascii) (s : string) : bool :=
  mentionMatchesAt localpart prev s ||
  match s with
  | EmptyString => false
  | String c r => mentionSearch localpart (Some c) r
  end.

(** [explicitMentionRegex ? explicitMentionRegex.test(rawBody) : false] *)
Definition explicitMentionTest (botJid rawBody : string) : bool :=
  let botLocalpart := nth 0 (JS.split "@" botJid) "" in
  if JS.truthy botLocalpart then mentionSearch botLocalpart None rawBody else false.

Record PipelineConfig := {
  (** config.channels?.defaults?.groupPolicy *)
  defaultGroupPolicy : option GroupPolicy;
  (** config.commands?.useAccessGroups *)
  useAccessGroupsSetting : option bool
}.

(** Result of one run of an asynchronous handler: what it did, the store it
    left behind, and whether its promise was fulfilled. *)
Record Run (Store : Type) := {
  effects : list Effect;
  finalStore : Store;
  fulfilled : bool
}.
Arguments effects {Store} _.
Arguments finalStore {Store} _.
Arguments fulfilled {Store} _.

Definition senderDisplayOf (message : XmppInboundMessage) : string :=
  if isGroup message
  then match senderNickname message with Some n => n | None => "undefined" end
       ++ "@" ++ target message
  else senderBareJid message.

Definition dmPolicyName (p : DmPolicy) : string :=
  match p with
  | DmPairing => "pairing" | DmAllowlist => "allowlist"
  | DmOpen => "open" | DmDisabled => "disabled"
  end.

Definition groupPolicyName (p : GroupPolicy) : string :=
  match p with
  | GroupAllowlist => "allowlist" | GroupOpen => "open" | GroupDisabled => "disabled"
  end.

Section Inbound.

Context {Store : Type}.
Variable h : Host Store.
Variable cfg : PipelineConfig.
Variable account : ResolvedXmppAccount.
Variable client : option bool.
Variable freshId : string.

Definition effectiveDmPolicy : DmPolicy :=
  match dmPolicy (config account) with Some p => p | None => DmPairing end.

Definition effectiveGroupPolicy : GroupPolicy :=
  match groupPolicy (config account) with
  | Some p => p
  | None => match defaultGroupPolicy cfg with Some p => p | None => GroupAllowlist end
  end.

Definition storeAllowList (st : Store) : list string :=
  normalizeXmppAllowlist
    (Some (match readAllowFromStore h CHANNEL_ID st with Some l => l | None => [] end)).

Definition effectiveAllowFrom (st : Store) : list string :=
  filter JS.truthy
         (normalizeXmppAllowlist (allowFrom (config account)) ++ storeAllowList st)%list.

Definition effectiveGroupAllowFrom (st : Store) : list string :=
  filter JS.truthy
         (normalizeXmppAllowlist (groupAllowFrom (config account)) ++ storeAllowList st)%list.

(** The pairing challenge: the body of [if (dmPolicy === "pairing")]. *)
Definition pairingChallenge (message : XmppInboundMessage) (st : Store) : Run Store :=
  match upsertPairingRequest h CHANNEL_ID (JS.toLowerCase (senderBareJid message))
                             (senderBareJid message) st with
  | None =>
      {| effects := [PairingUpsert CHANNEL_ID (JS.toLowerCase (senderBareJid message))
                                   (senderBareJid message)];
         finalStore := st; fulfilled := false |}
  | Some (code, created, st') =>
      let upsert := PairingUpsert CHANNEL_ID (JS.toLowerCase (senderBareJid message))
                                  (senderBareJid message) in
      let failed err :=
        [LogError ("xmpp: pairing reply failed for " ++ senderDisplayOf message
                   ++ ": " ++ err)] in
      let replyEffects :=
        if created then
          match buildPairingReply h ("Your XMPP JID: " ++ senderBareJid message) code with
          | inl err => failed err
          | inr reply =>
              match deliverXmppReply h account freshId
                      {| payloadText := Some reply; payloadMediaUrls := None;
                         payloadMediaUrl := None; payloadReplyToId := None |}
                      (senderBareJid message) client with
              | (None, effs) => effs
              | (Some err, effs) => (effs ++ failed err)%list
              end
          end
        else [] in
      {| effects := upsert :: replyEffects; finalStore := st'; fulfilled := true |}
  end.

(** DM policy enforcement, the [else] branch of [if (message.isGroup)].
    [inl] continues the pipeline, [inr] is an early return (or a rejection). *)
Definition enforceDmPolicy (message : XmppInboundMessage) (st : Store)
    : unit + Run Store :=
  let dmPol := effectiveDmPolicy in
  match dmPol with
  | DmDisabled =>
      inr {| effects := [Log ("xmpp: drop DM sender=" ++ senderDisplayOf message
                              ++ " (dmPolicy=disabled)")];
             finalStore := st; fulfilled := true |}
  | DmOpen => inl tt
  | _ =>
      let dmAllowed :=
        matchAllowed (resolveXmppAllowlistMatch (effectiveAllowFrom st) message) in
      if dmAllowed then inl tt
      else
        let dropLine := Log ("xmpp: drop DM sender " ++ senderDisplayOf message
                             ++ " (dmPolicy=" ++ dmPolicyName dmPol ++ ")") in
        match dmPol with
        | DmPairing =>
            let r := pairingChallenge message st in
            if fulfilled r
            then inr {| effects := (effects r ++ [dropLine])%list;
                        finalStore := finalStore r; fulfilled := true |}
            else inr r
        | _ => inr {| effects := [dropLine]; finalStore := st; fulfilled := true |}
        end
  end.

(** Mention detection and the mention gate. *)
Definition wasMentionedIn (rawBody : string) : bool :=
  matchesMentionPatterns h rawBody || explicitMentionTest (jid account) rawBody.

Definition mentionStage (message : XmppInboundMessage) (roomMatch : XmppRoomMatch)
    (rawBody : string) (hasCommand allowTextCommands commandAuthorized : bool)
    : MentionGate :=
  let wasMentioned := wasMentionedIn rawBody in
  let requireMention :=
    if isGroup message
    then resolveXmppRequireMention (roomConfig roomMatch) (wildcardConfig roomMatch)
    else false in
  resolveXmppMentionGate (isGroup message) requireMention wasMentioned
                         hasCommand allowTextCommands commandAuthorized.

(** The argument of [finalizeInboundContext]. *)
Definition inboundContext (message : XmppInboundMessage) (rawBody : string)
    (wasMentioned commandAuthorized : bool) (roomMatch : XmppRoomMatch)
    (route : AgentRoute) (body : string) : InboundContext :=
  let peerId := target message in
  let fromLabel := if isGroup message then target message else senderDisplayOf message in
  let groupSystemPrompt :=
    match roomConfig roomMatch with
    | Some rc => truthyOpt (option_map JS.trim (roomSystemPrompt rc))
    | None => None
    end in
  {| ctxBody := body;
     ctxRawBody := rawBody;
     ctxCommandBody := rawBody;
     ctxFrom := if isGroup message then "xmpp:room:" ++ target message
                else "xmpp:" ++ senderBareJid message;
     ctxTo := "xmpp:" ++ peerId;
     ctxSessionKey := Some (routeSessionKey route);
     ctxAccountId := routeAccountId route;
     ctxChatType := if isGroup message then "group" else "direct";
     ctxConversationLabel := fromLabel;
     ctxSenderName := match truthyOpt (senderNickname message) with
                      | Some n => n
                      | None => senderBareJid message
                      end;
     ctxSenderId := senderBareJid message;
     ctxGroupSubject := if isGroup message then Some (target message) else None;
     ctxGroupSystemPrompt := if isGroup message then groupSystemPrompt else None;
     ctxProvider := CHANNEL_ID;
     ctxSurface := CHANNEL_ID;
     ctxWasMentioned := if isGroup message then Some wasMentioned else None;
     ctxMessageSid := messageId message;
     ctxTimestamp := timestamp message;
     ctxOriginatingChannel := CHANNEL_ID;
     ctxOriginatingTo := "xmpp:" ++ peerId;
     ctxCommandAuthorized := commandAuthorized |}.

(** The dispatcher at work: every [deliver] call is [deliverXmppReply] to the
    peer of the message, every [onError] call logs.  Returns what was done
    and whether the promise of the dispatcher is fulfilled. *)
Fixpoint runDispatcher (peerId : string) (d : Dispatcher) : list Effect * bool :=
  match d with
  | DispatchSettled ok => ([], ok)
  | DispatchDeliver payload next =>
      let '(err, effs) := deliverXmppReply h account freshId payload peerId client in
      let '(rest, ok) := runDispatcher peerId (next err) in
      ((effs ++ rest)%list, ok)
  | DispatchOnError err kind next =>
      let '(rest, ok) := runDispatcher peerId next in
      (LogError ("xmpp " ++ kind ++ " reply failed: " ++ err) :: rest, ok)
  end.

(** "Route to agent": the part of [handleXmppInbound] after the gates.
    Returns what it does and whether the run is fulfilled. *)
Definition routeToAgent (message : XmppInboundMessage) (rawBody : string)
    (wasMentioned commandAuthorized : bool) (roomMatch : XmppRoomMatch)
    : list Effect * bool :=
  let peerId := target message in
  let route := resolveAgentRoute h (accountId account)
                 (if isGroup message then "group" else "direct") peerId in
  let fromLabel := if isGroup message then target message else senderDisplayOf message in
  let storePath := resolveStorePath h (routeAgentId route) in
  let previousTimestamp := readSessionUpdatedAt h storePath (routeSessionKey route) in
  let body := formatAgentEnvelope h fromLabel (timestamp message) previousTimestamp rawBody in
  let ctxPayload :=
    finalizeInboundContext h
      (inboundContext message rawBody wasMentioned commandAuthorized roomMatch route body) in
  let sessionKey :=
    match ctxSessionKey ctxPayload with Some k => k | None => routeSessionKey route end in
  let '(recordErrors, recorded) := recordInboundSession h storePath sessionKey ctxPayload in
  let recording :=
    SessionRecord storePath sessionKey ctxPayload
    :: map (fun err => LogError ("xmpp: failed updating session meta: " ++ err))
           recordErrors in
  if negb recorded then (recording, false)
  else
    let skillFilter :=
      match roomConfig roomMatch with Some rc => roomSkills rc | None => None end in
    let disableBlockStreaming := option_map negb (blockStreaming (config account)) in
    let '(delivered, ok) :=
      runDispatcher peerId
        (dispatchReplyWithBufferedBlockDispatcher h ctxPayload skillFilter
                                                  disableBlockStreaming) in
    ((recording ++ AgentDispatch ctxPayload skillFilter disableBlockStreaming
                :: delivered)%list, ok).

(** The values [handleXmppInbound] computes before it starts gating. *)
Definition roomMatchOf (message : XmppInboundMessage) : XmppRoomMatch :=
  resolveXmppRoomMatch (rooms (config account)) (target message).

Definition groupAccessOf (message : XmppInboundMessage) : XmppGroupAccessGate :=
  resolveXmppGroupAccessGate (Some effectiveGroupPolicy) (roomMatchOf message).

Definition roomAllowFromOf (message : XmppInboundMessage) : list string :=
  let roomMatch := roomMatchOf message in
  let directRoomAllowFrom :=
    normalizeXmppAllowlist
      (match roomConfig roomMatch with Some rc => roomAllowFrom rc | None => None end) in
  let wildcardRoomAllowFrom :=
    normalizeXmppAllowlist
      (match wildcardConfig roomMatch with Some rc => roomAllowFrom rc | None => None end) in
  if 0 <? List.length directRoomAllowFrom
  then directRoomAllowFrom else wildcardRoomAllowFrom.

Definition commandAllowFromOf (message : XmppInboundMessage) (st : Store) : list string :=
  if isGroup message then effectiveGroupAllowFrom st else effectiveAllowFrom st.

(** [commandGate]: the pair (commandAuthorized, shouldBlock). *)
Definition commandGateOf (message : XmppInboundMessage) (st : Store) : bool * bool :=
  let useAccessGroups :=
    match useAccessGroupsSetting cfg with Some false => false | _ => true end in
  let senderAllowedForCommands :=
    matchAllowed (resolveXmppAllowlistMatch (commandAllowFromOf message st) message) in
  resolveControlCommandGate h useAccessGroups
    (0 <? List.length (commandAllowFromOf message st)) senderAllowedForCommands
    (shouldHandleTextCommands h) (hasControlCommand h (JS.trim (text message))).

Definition groupSenderAllowedOf (message : XmppInboundMessage) (st : Store) : bool :=
  resolveXmppGroupSenderAllowed (Some effectiveGroupPolicy) message
    (effectiveGroupAllowFrom st) (roomAllowFromOf message).

Definition mentionGateOf (message : XmppInboundMessage) (st : Store) : MentionGate :=
  mentionStage message (roomMatchOf message) (JS.trim (text message))
    (hasControlCommand h (JS.trim (text message))) (shouldHandleTextCommands h)
    (fst (commandGateOf message st)).

Definition handleXmppInbound (message : XmppInboundMessage) (st : Store) : Run Store :=
  let rawBody := JS.trim (text message) in
  if negb (JS.truthy rawBody)
  then {| effects := []; finalStore := st; fulfilled := true |}
  else
    let seen := [StatusInbound (timestamp message)] in
    let senderDisplay := senderDisplayOf message in
    let groupAccess := groupAccessOf message in
    if isGroup message && negb (gateAllowed groupAccess)
    then {| effects := (seen ++ [Log ("xmpp: drop room " ++ target message ++ " ("
                                      ++ gateReason groupAccess ++ ")")])%list;
            finalStore := st; fulfilled := true |}
    else
      let commandGate := commandGateOf message st in
      let commandAuthorized := fst commandGate in
      let senderStage : unit + Run Store :=
        if isGroup message
        then if groupSenderAllowedOf message st
             then inl tt
             else inr {| effects := [Log ("xmpp: drop group sender " ++ senderDisplay
                                          ++ " (policy="
                                          ++ groupPolicyName effectiveGroupPolicy ++ ")")];
                         finalStore := st; fulfilled := true |}
        else enforceDmPolicy message st in
      match senderStage with
      | inr r => {| effects := (seen ++ effects r)%list;
                    finalStore := finalStore r; fulfilled := fulfilled r |}
      | inl _ =>
          if isGroup message && snd commandGate
          then {| effects := (seen ++ [LogInboundDrop "control command (unauthorized)"
                                                      senderDisplay])%list;
                  finalStore := st; fulfilled := true |}
          else
            let mentionGate := mentionGateOf message st in
            if shouldSkip mentionGate
            then {| effects := (seen ++ [Log ("xmpp: drop room " ++ target message ++ " ("
                                              ++ mentionReason mentionGate ++ ")")])%list;
                    finalStore := st; fulfilled := true |}
            else
              let routed := routeToAgent message rawBody (wasMentionedIn rawBody)
                                         commandAuthorized (roomMatchOf message) in
              {| effects := (seen ++ fst routed)%list;
                 finalStore := st; fulfilled := snd routed |}
      end.

(** Messages of one account are handled one after the other; the pairing
    store is handed from one run to the next, the other services of the host
    answer every message in the same way. *)
Fixpoint handleAll (messages : list XmppInboundMessage) (st : Store)
    : list Effect * Store :=
  match messages with
  | [] => ([], st)
  | m :: rest =>
      let r := handleXmppInbound m st in
      let '(effs, st') := handleAll rest (finalStore r) in
      ((effects r ++ effs)%list, st')
  end.

End Inbound.

(* ------------------------------------------------------------------ *)
(** ** client.ts: the connect phase of [connectXmppClient]

    [xmpp.start()] is the only asynchronous operation the function waits for.
    Its behaviour is an input of the model: the time at which the promise
    settles, and how.  [Promise.race] against the timer is decided by which of
    the two settles first (the start wins only when it settles strictly
    earlier). *)

Open Scope Z_scope.

Inductive StartBehaviour :=
| StartOnline (afterMs : Z)
| StartFails (afterMs : Z) (err : string)
| StartNeverSettles.

(** Calls made on the underlying client object. *)
Inductive XmppCall := CallStart | CallStop.

Inductive ConnectResult :=
| Connected
| ConnectError (message : string)
| ConnectNeverReturns.

Record ConnectRun := {
  connectResult : ConnectResult;
  xmppCalls : list XmppCall;
  (** the promise of [xmpp.start()] is still unsettled when the function
      settles, and nothing has stopped the client *)
  startStillPending : bool
}.

(** [options.connectTimeoutMs || 15000] *)
Definition connectTimeout (connectTimeoutMs : option Z) : Z :=
  match connectTimeoutMs with
  | Some t => if t =? 0 then 15000 else t
  | None => 15000
  end.

Definition TIMEOUT_MESSAGE : string := "XMPP connection timeout".

Definition connectXmppClient (jidString : string) (connectTimeoutMs : option Z)
    (start : StartBehaviour) : ConnectRun :=
  let parts := JS.split "@" jidString in
  let localpart := nth 0 parts ""%string in
  let domain := match nth_error parts 1 with Some d => d | None => ""%string end in
  if negb (JS.truthy localpart) || negb (JS.truthy domain)
  then {| connectResult := ConnectError ("Invalid JID format: " ++ jidString);
          xmppCalls := []; startStillPending := false |}
  else
    let timeoutMs := connectTimeout connectTimeoutMs in
    let timedOut := {| connectResult := ConnectError TIMEOUT_MESSAGE;
                       xmppCalls := [CallStart]; startStillPending := true |} in
    if 0 <? timeoutMs then
      match start with
      | StartOnline t =>
          if t <? timeoutMs
          then {| connectResult := Connected; xmppCalls := [CallStart];
                  startStillPending := false |}
          else timedOut
      | StartFails t err =>
          if t <? timeoutMs
          then {| connectResult := ConnectError err; xmppCalls := [CallStart];
                  startStillPending := false |}
          else timedOut
      | StartNeverSettles => timedOut
      end
    else
      match start with
      | StartOnline _ =>
          {| connectResult := Connected; xmppCalls := [CallStart];
             startStillPending := false |}
      | StartFails _ err =>
          {| connectResult := ConnectError err; xmppCalls := [CallStart];
             startStillPending := false |}
      | StartNeverSettles =>
          {| connectResult := ConnectNeverReturns; xmppCalls := [CallStart];
             startStillPending := true |}
      end.

(** ** probe.ts *)

Record XmppProbe := {
  probeOk : bool;
  probeError : option string
}.

(** [opts?.timeoutMs ?? 8000] *)
Definition probeConnectTimeout (timeoutMs : option Z) : Z :=
  match timeoutMs with Some t => t | None => 8000 end.

(** [None] when the probe itself never returns. *)
Definition probeXmpp (account : ResolvedXmppAccount) (timeoutMs : option Z)
    (start : StartBehaviour) : option XmppProbe * list XmppCall :=
  if negb (configured account)
  then (Some {| probeOk := false; probeError := Some "missing JID or password"%string |}, [])
  else
    let run := connectXmppClient (jid account)
                 (Some (probeConnectTimeout timeoutMs)) start in
    match connectResult run with
    | Connected =>
        (Some {| probeOk := true; probeError := None |},
         (xmppCalls run ++ [CallStop])%list)
    | ConnectError msg =>
        (Some {| probeOk := false; probeError := Some msg |}, xmppCalls run)
    | ConnectNeverReturns => (None, xmppCalls run)
    end.

Close Scope Z_scope.

(* ------------------------------------------------------------------ *)
(** ** Shapes used in the statements *)

(** A unit that is neither whitespace nor reserved by XEP-0106. *)
Definition plainUnit (c : ascii) : bool :=
  negb (JS.isWhitespace c) && negb (XmppJid.isReserved c).

(** [v] reads local@domain with both parts non-empty and made of plain
    units only (so there is exactly one "@", no "/", no ":" and no
    backslash). *)
Definition plainBareJid (v : string) : bool :=
  match JS.splitFirst "@" v with
  | Some (l, d) =>
      JS.truthy l && JS.truthy d && JS.allChars plainUnit l && JS.allChars plainUnit d
  | None => false
  end.

Definition noSendOptions : SendXmppOptions :=
  {| optReplyTo := None; optTarget := None; optClient := None |}.

(** [opts?.target ?? ""] *)
Definition optTargetOf (opts : SendXmppOptions) : string :=
  match optTarget opts with Some t => t | None => "" end.

(** The timer of [connectXmppClient] fires before [xmpp.start()] settles. *)
Definition timerWins (timeoutMs : Z) (start : StartBehaviour) : Prop :=
  match start with
  | StartOnline t => (timeoutMs <= t)%Z
  | StartFails t _ => (timeoutMs <= t)%Z
  | StartNeverSettles => True
  end.

(** The JID passes the format check at the head of [connectXmppClient]. *)
Definition jidFormatOk (jidString : string) : bool :=
  JS.truthy (nth 0 (JS.split "@" jidString) "")
  && JS.truthy (match nth_error (JS.split "@" jidString) 1 with
                | Some d => d | None => "" end).

(** local@domain, optionally followed by "/" and a resource. *)
Definition fullJid (l d : string) (r : option string) : string :=
  l ++ String "@" (d ++ match r with Some x => String "/" x | None => "" end).

(** The payload of the pairing reply: [{ text: reply }]. *)
Definition pairingReplyPayload (reply : string) : ReplyPayload :=
  {| payloadText := Some reply; payloadMediaUrls := None;
     payloadMediaUrl := None; payloadReplyToId := None |}.

(** [from.split("/")[0]]: the part of [from] before its first "/". *)
Definition beforeFirstSlash (from : string) : string :=
  match JS.splitFirst "/" from with
  | Some (a, _) => a
  | None => from
  end.

(** The message the monitor builds from an event (the [message] object of
    the [onMessage] callback). *)
Definition deliveredMessage (acts : list MonitorAction) : option XmppInboundMessage :=
  match acts with
  | [_; CallOnMessage m] => Some m
  | [_; CallHandleXmppInbound m] => Some m
  | _ => None
  end.

Definition isSend (e : Effect) : bool :=
  match e with SendStanza _ _ _ _ => true | _ => false end.

Definition isDispatch (e : Effect) : bool :=
  match e with AgentDispatch _ _ _ => true | _ => false end.

Definition isUpsert (e : Effect) : bool :=
  match e with PairingUpsert _ _ _ => true | _ => false end.

Definition isSessionRecord (e : Effect) : bool :=
  match e with SessionRecord _ _ _ => true | _ => false end.

(** The run sent a stanza although it never handed the message to the
    agent.  The agent's replies are sent after the session record, so this
    stanza is the pairing reply. *)
Definition sentPairingReply (effs : list Effect) : bool :=
  existsb isSend effs && negb (existsb isSessionRecord effs).

(** [x] is an entry of the allowlist as [resolveXmppAllowlistMatch] reads it:
    trimmed, in lower case, empty entries dropped. *)
Definition allowEntries (allowFromList : list string) : list string :=
  filter JS.truthy (map (fun entry => JS.toLowerCase (JS.trim entry)) allowFromList).

Section PairingReplies.

Context {Store : Type}.
Variable h : Host Store.
Variable cfg : PipelineConfig.
Variable account : ResolvedXmppAccount.
Variable client : option bool.
Variable freshId : string.

(** Number of messages of the sequence whose sender bare JID, in lower case,
    is [id] and whose handling sent a pairing reply. *)
Fixpoint pairingRepliesTo (id : string) (messages : list XmppInboundMessage)
    (st : Store) : nat :=
  match messages with
  | [] => 0
  | m :: rest =>
      let r := handleXmppInbound h cfg account client freshId m st in
      (if String.eqb (JS.toLowerCase (senderBareJid m)) id
          && sentPairingReply (effects r)
       then 1 else 0)
      + pairingRepliesTo id rest (finalStore r)
  end.

(** Idempotence contract of the pairing store for this channel: [created] is
    reported only for an id without a pending request, an upsert leaves the id
    pending, and pending requests stay pending. *)
Definition PairingStoreContract (pending : Store -> string -> bool) : Prop :=
  forall id name st code created st',
    upsertPairingRequest h CHANNEL_ID id name st = Some (code, created, st') ->
    (created = true -> pending st id = false) /\
    pending st' id = true /\
    (forall x, pending st x = true -> pending st' x = true).

End PairingReplies.

(* ------------------------------------------------------------------ *)
(** ** A reference host

    Modelled from the spec: the host-side collaborators (pairing store,
    control-command gate, transport) are not part of the extension.  The
    pairing store is "persisted idempotently ... keyed by (channel, bareJid)":
    its state is the list of ids with a pending request, and a request for an
    id already pending is a no-op reported with created = false.  The command
    gate "authorize[s] the command iff the sender is already allowlisted" and
    blocks unauthorized commands.  The agent runtime behind the dispatcher
    answers every message once, with its raw body.  This host is only used to
    instantiate the general statements at concrete inputs. *)

Definition specUpsert (channel id name : string) (st : list string)
    : option (string * bool * list string) :=
  if JS.setHas id st then Some ("CODE-" ++ id, false, st)
  else Some ("CODE-" ++ id, true, id :: st).

Definition specControlCommandGate
    (useAccessGroups configuredList allowed allowTextCommands hasCommand : bool)
    : bool * bool :=
  let commandAuthorized := configuredList && allowed in
  (commandAuthorized, allowTextCommands && hasCommand && negb commandAuthorized).

Definition specRoute (accountId kind peerId : string) : AgentRoute :=
  {| routeAgentId := "main";
     routeSessionKey := "agent:main:xmpp:" ++ kind ++ ":" ++ peerId;
     routeAccountId := accountId |}.

Definition specDispatcher (ctx : InboundContext) (skillFilter : option (list string))
    (disableBlockStreaming : option bool) : Dispatcher :=
  DispatchDeliver {| payloadText := Some ("echo: " ++ ctxRawBody ctx);
                     payloadMediaUrls := None; payloadMediaUrl := None;
                     payloadReplyToId := None |}
                  (fun _ => DispatchSettled true).

Definition hostWithApproved (approved : list string) : Host (list string) :=
  {| readAllowFromStore := fun _ _ => Some approved;
     upsertPairingRequest := specUpsert;
     buildPairingReply := fun idLine code => inr (idLine ++ " code: " ++ code);
     shouldHandleTextCommands := true;
     hasControlCommand := fun body => JS.startsWith "/" body;
     resolveControlCommandGate := specControlCommandGate;
     matchesMentionPatterns := fun _ => false;
     convertMarkdownTables := fun s => s;
     liveSend := fun _ _ _ => SendOk "m1";
     transientSend := fun _ _ _ => SendOk "m2";
     resolveAgentRoute := specRoute;
     resolveStorePath := fun agentId => "sessions/" ++ agentId;
     readSessionUpdatedAt := fun _ _ => None;
     formatAgentEnvelope := fun from _ _ body => "[XMPP " ++ from ++ "] " ++ body;
     finalizeInboundContext := fun ctx => ctx;
     recordInboundSession := fun _ _ _ => ([], true);
     dispatchReplyWithBufferedBlockDispatcher := specDispatcher |}.

(** The reference host before anybody has been approved. *)
Definition specHost : Host (list string) := hostWithApproved [].

Definition specPending (st : list string) (id : string) : bool := JS.setHas id st.

Definition emptyAccountConfig : XmppAccountConfig :=
  {| dmPolicy := None; allowFrom := None; groupPolicy := None;
     groupAllowFrom := None; rooms := None; autoJoinRooms := None;
       blockStreaming := None |}.

Definition agentAccount (c : XmppAccountConfig) : ResolvedXmppAccount :=
  {| accountId := "default"; configured := true;
     jid := "agent@localhost"; bareJid := "agent@localhost"; config := c |}.

Definition plainConfig : PipelineConfig :=
  {| defaultGroupPolicy := None; useAccessGroupsSetting := None |}.

Definition directMessage (from body : string) : XmppInboundMessage :=
  {| messageId := "id"; target := from; senderJid := from; senderBareJid := from;
     senderResource := None; senderNickname := None; text := body;
     timestamp := 0%Z; isGroup := false; stanzaId := None |}.

Definition groupMessage (room nick body : string) : XmppInboundMessage :=
  {| messageId := "id"; target := room; senderJid := room ++ "/" ++ nick;
     senderBareJid := room; senderResource := None; senderNickname := Some nick;
     text := body; timestamp := 0%Z; isGroup := true; stanzaId := None |}.

(** [params.rooms ?? {}] *)
Definition roomsOf (o : option Rooms) : Rooms :=
  match o with Some r => r | None => [] end.

Definition policyOf (o : option GroupPolicy) : GroupPolicy :=
  match o with Some p => p | None => GroupAllowlist end.

(** Inputs at which the unauthorized-command block fires in a room that does
    not require a mention. *)
Definition openRoomAccount : ResolvedXmppAccount :=
  agentAccount
    {| dmPolicy := None; allowFrom := None; groupPolicy := Some GroupOpen;
       groupAllowFrom := None;
       rooms := Some [("*", {| roomRequireMention := Some false; roomEnabled := None;
                               roomAllowFrom := None; roomSkills := None;
                               roomSystemPrompt := None |})];
       autoJoinRooms := None;
       blockStreaming := None |}.

Definition statusCommand : XmppInboundMessage :=
  groupMessage "room@conference.localhost" "alice" "/status".

(** The unit a scan has consumed last after reading [s], starting from
    [prev]. *)
Fixpoint lastUnit (prev : option ascii) (s : string) : option ascii :=
  match s with
  | EmptyString => prev
  | String c r => lastUnit (Some c) r
  end.


(** The spec's wording of the explicit mention, "the account's localpart as
    a word (case-insensitive ...)", spelled out.  A word boundary lies
    between two neighbours (units of the text, or its start or its end) of
    which exactly one is a word unit: a letter, a digit or an underscore. *)
Definition atWordBoundary (before after : option ascii) : Prop :=
  isWordOpt before <> isWordOpt after.

(** [localpart] occurs in [body] as a word: [body] has a stretch [mid] that
    equals [localpart] up to case, with a word boundary on either side of
    it. *)
Definition occursAsWord (localpart body : string) : Prop :=
  exists pre mid post,
    body = pre ++ mid ++ post /\
    JS.toLowerCase mid = JS.toLowerCase localpart /\
    atWordBoundary (lastUnit None pre) (headChar (mid ++ post)) /\
    atWordBoundary (lastUnit None (pre ++ mid)) (headChar post).

(** Modelled from the spec: the control-command gate of the host, which is
    not part of the extension ("authorize the command iff the sender is
    already allowlisted.  In groups, unauthorized commands are blocked before
    agent routing").  What is used of it: a sender matched by a configured
    allowlist is authorized, and a command is blocked exactly when it is a
    text command that is allowed on the channel and not authorized. *)
Definition CommandGateContract {Store} (h : Host Store) : Prop :=
  forall useAccessGroups configuredList allowed allowTextCommands hasCommand,
    let gate := resolveControlCommandGate h useAccessGroups configuredList allowed
                                          allowTextCommands hasCommand in
    (configuredList = true -> allowed = true -> fst gate = true) /\
    (snd gate = true <->
     allowTextCommands = true /\ hasCommand = true /\ fst gate = false).

(** Inputs used to instantiate the statements. *)

(** What the constructor guarantees of a JID object: local part and domain
    are in lower case and the domain is not empty. *)
Definition canonical (j : XmppJid.JID) : Prop :=
  JS.toLowerCase (XmppJid.local j) = XmppJid.local j /\
  JS.toLowerCase (XmppJid.domain j) = XmppJid.domain j /\
  JS.truthy (XmppJid.domain j) = true.

Definition roomEvent : XmppMessageEvent :=
  {| evFrom := "Room@conference.localhost/alice"; evTo := "agent@localhost";
     evBody := "hello"; evType := "groupchat"; evId := Some "s1"; evDelay := None |}.

Definition selfEvent : XmppMessageEvent :=
  {| evFrom := "Agent@Localhost/openclaw"; evTo := "room@conference.localhost";
     evBody := "echo"; evType := "chat"; evId := None; evDelay := None |}.

Definition allowlistNoRooms : ResolvedXmppAccount := agentAccount emptyAccountConfig.

Definition emptyRoomConfig : XmppRoomConfig :=
  {| roomRequireMention := None; roomEnabled := None; roomAllowFrom := None;
     roomSkills := None; roomSystemPrompt := None |}.

(** An account under groupPolicy=allowlist with one room that is configured,
    one that is switched off, and every sender allowed. *)
Definition allowlistedRoomAccount : ResolvedXmppAccount :=
  agentAccount
    {| dmPolicy := None; allowFrom := None; groupPolicy := Some GroupAllowlist;
       groupAllowFrom := Some ["*"];
       rooms := Some [("room@conference.localhost", emptyRoomConfig);
                      ("closed@conference.localhost",
                       {| roomRequireMention := None; roomEnabled := Some false;
                          roomAllowFrom := None; roomSkills := None;
                          roomSystemPrompt := None |})];
       autoJoinRooms := None;
       blockStreaming := None |}.

Definition mentionRoomAccount : ResolvedXmppAccount :=
  agentAccount
    {| dmPolicy := None; allowFrom := None; groupPolicy := Some GroupOpen;
       groupAllowFrom := None;
       rooms := Some [("room@conference.localhost",
                       {| roomRequireMention := Some true; roomEnabled := None;
                          roomAllowFrom := None; roomSkills := None;
                          roomSystemPrompt := None |})];
       autoJoinRooms := None;
       blockStreaming := None |}.

(** A room that requires a mention, in an account whose group allowlist
    names one sender. *)
Definition commandRoomAccount : ResolvedXmppAccount :=
  agentAccount
    {| dmPolicy := None; allowFrom := None; groupPolicy := Some GroupAllowlist;
       groupAllowFrom := Some ["alice"];
       rooms := Some [("room@conference.localhost",
                       {| roomRequireMention := Some true; roomEnabled := None;
                          roomAllowFrom := None; roomSkills := None;
                          roomSystemPrompt := None |})];
       autoJoinRooms := None;
       blockStreaming := None |}.

Definition pairingAccount : ResolvedXmppAccount := agentAccount emptyAccountConfig.

Definition dmAccount (policy : DmPolicy) (allowed : list string) : ResolvedXmppAccount :=
  agentAccount
    {| dmPolicy := Some policy; allowFrom := Some allowed; groupPolicy := None;
       groupAllowFrom := None; rooms := None; autoJoinRooms := None;
       blockStreaming := None |}.

(* ------------------------------------------------------------------ *)
(** ** muc.ts *)

Record MucStanzaInfo := {
  isGroupChat : bool;
  roomJid : option string;
  mucSenderNickname : option string;
  senderFullJid : option string
}.

(** [from] and [type] are [stanza.attrs.from] and [stanza.attrs.type]. *)
Definition parseMucStanza (from type : option string) : MucStanzaInfo :=
  let notGroup := {| isGroupChat := false; roomJid := None;
                     mucSenderNickname := None; senderFullJid := None |} in
  match type, truthyOpt from with
  | Some t, Some f =>
      if String.eqb t "groupchat" then
        let parts := JS.split "/" f in
        {| isGroupChat := true; roomJid := Some (nth 0 parts "");
           mucSenderNickname := nth_error parts 1; senderFullJid := Some f |}
      else notGroup
  | _, _ => notGroup
  end.

Definition isOccupantJid (jid : string) : bool := JS.includes "/" jid.

Definition getRoomJidFromOccupant (occupantJid : string) : string :=
  nth 0 (JS.split "/" occupantJid) "".

Definition getNicknameFromOccupant (occupantJid : string) : option string :=
  nth_error (JS.split "/" occupantJid) 1.

(** client.ts, joinMucRoom and leaveRoom: `${roomJid}/${nickname}` *)
Definition occupantJidOf (room nickname : string) : string :=
  room ++ "/" ++ nickname.

(* ------------------------------------------------------------------ *)
(** ** client.ts and presence.ts: presence tracking *)

Record XmppPresenceEvent := {
  prFrom : string;
  prType : option string;
  prStatus : option string;
  prShow : option string;
  prPriority : option Z
}.

Record PresenceState := {
  psJid : string;
  psAvailable : bool;
  psStatus : option string;
  psShow : option string;
  psPriority : option Z;
  psLastSeen : option Z
}.

(** [Map<string, PresenceState>]: the entries in insertion order; [set] on a
    key that is present replaces the value in place. *)
Definition Presences := list (string * PresenceState).

Fixpoint mapGet (m : Presences) (key : string) : option PresenceState :=
  match m with
  | [] => None
  | (k, v) :: rest => if String.eqb k key then Some v else mapGet rest key
  end.

Fixpoint mapSet (key : string) (v : PresenceState) (m : Presences) : Presences :=
  match m with
  | [] => [(key, v)]
  | (k, x) :: rest =>
      if String.eqb k key then (k, v) :: rest else (k, x) :: mapSet key v rest
  end.

(** The class [PresenceTracker]; its field [presences] is passed in and
    returned.  [now] is the value of [Date.now()]. *)
Module PresenceTracker.

Definition handlePresence (now : Z) (event : XmppPresenceEvent) (presences : Presences)
    : Presences :=
  let bareJid := normalizeXmppBareJid (prFrom event) in
  let unavailable :=
    mapSet bareJid {| psJid := bareJid; psAvailable := false; psStatus := None;
                      psShow := None; psPriority := None; psLastSeen := Some now |}
           presences in
  let available :=
    mapSet bareJid {| psJid := bareJid; psAvailable := true; psStatus := prStatus event;
                      psShow := prShow event; psPriority := prPriority event;
                      psLastSeen := None |}
           presences in
  match prType event with
  | None => available
  | Some t =>
      if String.eqb t "unavailable" then unavailable
      else if negb (JS.truthy t) || String.eqb t "probe" then available
      else presences
  end.

Definition isAvailable (jid : string) (presences : Presences) : bool :=
  match mapGet presences (normalizeXmppBareJid jid) with
  | Some state => psAvailable state
  | None => false
  end.

Definition getPresence (jid : string) (presences : Presences) : option PresenceState :=
  mapGet presences (normalizeXmppBareJid jid).

Definition getAllPresences (presences : Presences) : list PresenceState :=
  map snd presences.

Definition clear (presences : Presences) : Presences := [].

(** A tracker that has handled the events of the list, each with the time
    at which it was handled, in order. *)
Fixpoint handleAllPresences (events : list (Z * XmppPresenceEvent)) (presences : Presences)
    : Presences :=
  match events with
  | [] => presences
  | (now, event) :: rest => handleAllPresences rest (handlePresence now event presences)
  end.

(** The event is an available presence: no type, or the type "probe". *)
Definition announcesAvailable (event : XmppPresenceEvent) : bool :=
  match prType event with
  | None => true
  | Some t => negb (JS.truthy t) || String.eqb t "probe"
  end.

Definition announcesUnavailable (event : XmppPresenceEvent) : bool :=
  match prType event with
  | Some t => String.eqb t "unavailable"
  | None => false
  end.

End PresenceTracker.

(* ------------------------------------------------------------------ *)
(** ** Further shapes used in the statements *)

(** A unit that may occur in a bare JID in string form: neither "/" nor
    whitespace. *)
Definition bareUnit (c : ascii) : bool :=
  negb (Ascii.eqb c "/") && negb (JS.isWhitespace c).

(** The protocol prefixes that the normalizers strip, and the empty one. *)
Definition protocolPrefixes : list string := [""; "xmpp:"; "user:"; "room:"].

(** An open-policy account whose room has its own allowlist. *)
Definition lockedRoomAccount : ResolvedXmppAccount :=
  agentAccount
    {| dmPolicy := None; allowFrom := None; groupPolicy := Some GroupOpen;
       groupAllowFrom := Some ["alice"];
       rooms := Some [("room@conference.localhost",
                       {| roomRequireMention := Some false; roomEnabled := None;
                          roomAllowFrom := Some ["carol@example.org"]; roomSkills := None;
                          roomSystemPrompt := None |})];
       autoJoinRooms := None;
       blockStreaming := None |}.


(** The state [s], stored under the key [k], is what one of the events left
    behind. *)
Definition stateFromEvent (events : list (Z * XmppPresenceEvent)) (k : string)
    (s : PresenceState) : Prop :=
  psJid s = k /\
  exists now ev,
    In (now, ev) events /\ k = normalizeXmppBareJid (prFrom ev) /\
    if psAvailable s
    then PresenceTracker.announcesAvailable ev = true /\
         psStatus s = prStatus ev /\ psShow s = prShow ev /\ psPriority s = prPriority ev
    else PresenceTracker.announcesUnavailable ev = true /\ psLastSeen s = Some now.

Definition trackerInvariant (events : list (Z * XmppPresenceEvent)) (ps : Presences) : Prop :=
  NoDup (map fst ps) /\
  List.length ps <= List.length events /\
  forall k s, In (k, s) ps -> stateFromEvent events k s.

(* ------------------------------------------------------------------ *)
(** ** client.ts: inbound message stanzas *)

(** A message stanza as [handleMessageStanza] reads it: the attributes, the
    text of the body child ([None] without one) and the delayed-delivery time
    in ms that [parseDelayedDelivery] finds.  The correction and reply
    references are copied into the event and read by nobody; they are left
    out. *)
Record MessageStanza := {
  stType : option string;
  stFrom : option string;
  stTo : option string;
  stId : option string;
  stBody : option string;
  stDelay : option Z
}.

(** [Some event] when [onMessage] is called with [event].  An absent [to] is
    shown as the empty string. *)
Definition handleMessageStanza (stanza : MessageStanza) (hasOnMessage : bool)
    : option XmppMessageEvent :=
  let type := match truthyOpt (stType stanza) with Some t => t | None => "normal" end in
  match truthyOpt (stBody stanza), truthyOpt (stFrom stanza) with
  | Some body, Some from =>
      if hasOnMessage
      then Some {| evFrom := from;
                   evTo := match stTo stanza with Some t => t | None => "" end;
                   evBody := body; evType := type; evId := stId stanza;
                   evDelay := stDelay stanza |}
      else None
  | _, _ => None
  end.

(** monitor.ts, lines 104-153: the monitor connects with its [onMessage]
    callback, so a stanza goes through [handleMessageStanza] and then through
    the callback. *)
Definition monitorOnStanza (account : ResolvedXmppAccount) (hasClient customOnMessage : bool)
    (now : Z) (freshId : string) (stanza : MessageStanza) : list MonitorAction :=
  match handleMessageStanza stanza true with
  | Some event => monitorOnMessage account hasClient customOnMessage now freshId event
  | None => []
  end.

(* ------------------------------------------------------------------ *)
(** ** accounts.ts *)

(** [Number.parseInt(s, 10)]: leading whitespace is skipped, then an
    optional sign and the longest run of decimal digits are read; [None] is
    NaN.  The value is the exact integer; the callers only compare it with
    bounds that every double at or above 2^53 (and Infinity) exceeds. *)
Definition isDigit (c : ascii) : bool :=
  let n := nat_of_ascii c in (48 <=? n) && (n <=? 57).

Fixpoint digitsValue (acc : Z) (seen : bool) (s : string) : option Z :=
  match s with
  | String c r =>
      if isDigit c
      then digitsValue (10 * acc + Z.of_nat (nat_of_ascii c - 48))%Z true r
      else if seen then Some acc else None
  | EmptyString => if seen then Some acc else None
  end.

Definition parseInt10 (s : string) : option Z :=
  match JS.trimStart s with
  | String c r =>
      if Ascii.eqb c "-" then option_map Z.opp (digitsValue 0 false r)
      else if Ascii.eqb c "+" then digitsValue 0 false r
      else digitsValue 0 false (String c r)
  | EmptyString => None
  end.

(** [s.split(/[\n,;]+/g)]: the pieces between maximal runs of separators;
    [inRun] tells that the unit before was a separator. *)
Definition isListSeparator (c : ascii) : bool :=
  let n := nat_of_ascii c in (n =? 10) || (n =? 44) || (n =? 59).

Fixpoint splitRuns (inRun : bool) (s : string) : list string :=
  match s with
  | EmptyString => [EmptyString]
  | String c r =>
      if isListSeparator c
      then if inRun then splitRuns true r else EmptyString :: splitRuns true r
      else match splitRuns false r with
           | [] => [String c EmptyString]
           | h :: t => String c h :: t
           end
  end.

(** Modelled from the spec: DEFAULT_ACCOUNT_ID is imported from the plugin
    SDK; the specification names the account whose id it is "default"
    ("for accountId = default check XMPP_PASSWORD env"). *)
Definition DEFAULT_ACCOUNT_ID : string := "default".

Definition TRUTHY_ENV : list string := ["true"; "1"; "yes"; "on"].

Definition parseTruthy (value : option string) : bool :=
  match truthyOpt value with
  | None => false
  | Some v => JS.setHas (JS.toLowerCase (JS.trim v)) TRUTHY_ENV
  end.

Definition parseIntEnv (value : option string) : option Z :=
  match value with
  | None => None
  | Some v =>
      if negb (JS.truthy (JS.trim v)) then None
      else match parseInt10 (JS.trim v) with
           | None => None
           | Some parsed =>
               if (parsed <=? 0)%Z || (65535 <? parsed)%Z then None else Some parsed
           end
  end.

Definition parseListEnv (value : option string) : option (list string) :=
  match value with
  | None => None
  | Some v =>
      if negb (JS.truthy (JS.trim v)) then None
      else
        let parsed := filter JS.truthy (map JS.trim (splitRuns false v)) in
        if 0 <? List.length parsed then Some parsed else None
  end.

(** The variables of [process.env] that the resolver reads. *)
Record XmppEnv := {
  XMPP_JID : option string;
  XMPP_PASSWORD : option string;
  XMPP_HOST : option string;
  XMPP_PORT : option string;
  XMPP_TLS : option string;
  XMPP_ROOMS : option string
}.

(** types.ts, [XmppAccountConfig]: the connection fields; the policy fields
    are the record [XmppAccountConfig] above. *)
Record XmppConnectionConfig := {
  cfgName : option string;
  cfgEnabled : option bool;
  cfgJid : option string;
  cfgPassword : option string;
  cfgPasswordFile : option string;
  cfgResource : option string;
  cfgHost : option string;
  cfgPort : option Z;
  cfgTls : option bool
}.

Record XmppAccountSettings := {
  connection : XmppConnectionConfig;
  policy : XmppAccountConfig
}.

(** [channels.xmpp]: the base fields and the [accounts] dictionary, by own
    keys in insertion order. *)
Record XmppConfig := {
  baseSettings : XmppAccountSettings;
  accounts : option (list (string * XmppAccountSettings))
}.

Inductive PasswordSource := PwEnv | PwPasswordFile | PwConfig | PwNone.

(** The fields of accounts.ts' [ResolvedXmppAccount] that the record
    [ResolvedXmppAccount] above does not carry. *)
Record ResolvedConnection := {
  rcEnabled : bool;
  rcName : option string;
  rcResource : string;
  rcHost : string;
  rcPort : Z;
  rcTls : bool;
  rcPassword : string;
  rcPasswordSource : PasswordSource;
  rcConfig : XmppConnectionConfig
}.

(** [a || b] for an optional string [a]. *)
Definition jsOr (a : option string) (b : string) : string :=
  match truthyOpt a with Some x => x | None => b end.

(** [a ?? b] *)
Definition nullish {A} (a b : option A) : option A :=
  match a with Some _ => a | None => b end.

(** [{ ...base, ...account }] on the two groups of fields. *)
Definition overlaySettings (base account : XmppAccountSettings) : XmppAccountSettings :=
  let bc := connection base in
  let ac := connection account in
  let bp := policy base in
  let ap := policy account in
  {| connection :=
       {| cfgName := nullish (cfgName ac) (cfgName bc);
          cfgEnabled := nullish (cfgEnabled ac) (cfgEnabled bc);
          cfgJid := nullish (cfgJid ac) (cfgJid bc);
          cfgPassword := nullish (cfgPassword ac) (cfgPassword bc);
          cfgPasswordFile := nullish (cfgPasswordFile ac) (cfgPasswordFile bc);
          cfgResource := nullish (cfgResource ac) (cfgResource bc);
          cfgHost := nullish (cfgHost ac) (cfgHost bc);
          cfgPort := nullish (cfgPort ac) (cfgPort bc);
          cfgTls := nullish (cfgTls ac) (cfgTls bc) |};
     policy :=
       {| dmPolicy := nullish (dmPolicy ap) (dmPolicy bp);
          allowFrom := nullish (allowFrom ap) (allowFrom bp);
          groupPolicy := nullish (groupPolicy ap) (groupPolicy bp);
          groupAllowFrom := nullish (groupAllowFrom ap) (groupAllowFrom bp);
          rooms := nullish (rooms ap) (rooms bp);
          autoJoinRooms := nullish (autoJoinRooms ap) (autoJoinRooms bp);
          blockStreaming := nullish (blockStreaming ap) (blockStreaming bp) |} |}.

Definition emptySettings : XmppAccountSettings :=
  {| connection := {| cfgName := None; cfgEnabled := None; cfgJid := None;
                      cfgPassword := None; cfgPasswordFile := None; cfgResource := None;
                      cfgHost := None; cfgPort := None; cfgTls := None |};
     policy := emptyAccountConfig |}.

(** The own property of [accounts] stored under [key]. *)
Fixpoint accountsGet (l : list (string * XmppAccountSettings)) (key : string)
    : option XmppAccountSettings :=
  match l with
  | [] => None
  | (k, v) :: rest => if String.eqb k key then Some v else accountsGet rest key
  end.

(** [accounts[key]] on a plain object: the own property, else the property
    inherited from [Object.prototype], a function, which [{ ...base,
    ...account }] spreads as no field at all. *)
Definition accountsRead (l : list (string * XmppAccountSettings)) (key : string)
    : option XmppAccountSettings :=
  match accountsGet l key with
  | Some v => Some v
  | None => if JS.isInherited key then Some emptySettings else None
  end.

(** [password] and [source] of [resolvePassword]; [readFile] is
    [readFileSync(path, "utf-8")], [None] when it throws. *)
Definition resolvePassword (env : XmppEnv) (readFile : string -> option string)
    (accountId : string) (merged : XmppAccountSettings) : string * PasswordSource :=
  let fromConfig :=
    match truthyOpt (option_map JS.trim (cfgPassword (connection merged))) with
    | Some configPassword => (configPassword, PwConfig)
    | None => ("", PwNone)
    end in
  let fromFile :=
    match truthyOpt (option_map JS.trim (cfgPasswordFile (connection merged))) with
    | Some path =>
        match readFile path with
        | Some content =>
            if JS.truthy (JS.trim content) then (JS.trim content, PwPasswordFile)
            else fromConfig
        | None => fromConfig
        end
    | None => fromConfig
    end in
  if String.eqb accountId DEFAULT_ACCOUNT_ID
  then match truthyOpt (option_map JS.trim (XMPP_PASSWORD env)) with
       | Some envPassword => (envPassword, PwEnv)
       | None => fromFile
       end
  else fromFile.

Section Accounts.

(** [normalizeAccountId] of the plugin SDK and the order of
    [toSorted((a, b) => a.localeCompare(b))]. *)
Variable normalizeAccountId : option string -> string.
Variable localeSort : list string -> list string.

Variable env : XmppEnv.
Variable readFile : string -> option string.

Definition listConfiguredAccountIds (cfg : option XmppConfig) : list string :=
  match cfg with
  | Some x =>
      match accounts x with
      | Some l =>
          fold_left (fun ids key =>
                       if JS.truthy (JS.trim key)
                       then JS.setAdd (normalizeAccountId (Some key)) ids else ids)
                    (map fst l) []
      | None => []
      end
  | None => []
  end.

Definition resolveAccountConfig (cfg : option XmppConfig) (accountId : string)
    : option XmppAccountSettings :=
  match cfg with
  | Some x =>
      match accounts x with
      | Some l =>
          match accountsRead l accountId with
          | Some direct => Some direct
          | None =>
              let normalized := normalizeAccountId (Some accountId) in
              match find (fun key => String.eqb (normalizeAccountId (Some key)) normalized)
                         (map fst l) with
              | Some matchKey => if JS.truthy matchKey then accountsRead l matchKey else None
              | None => None
              end
          end
      | None => None
      end
  | None => None
  end.

Definition mergeXmppAccountConfig (cfg : option XmppConfig) (accountId : string)
    : XmppAccountSettings :=
  let base := match cfg with Some x => baseSettings x | None => emptySettings end in
  let account := match resolveAccountConfig cfg accountId with
                 | Some a => a
                 | None => emptySettings
                 end in
  overlaySettings base account.

Definition listXmppAccountIds (cfg : option XmppConfig) : list string :=
  let ids := listConfiguredAccountIds cfg in
  if List.length ids =? 0 then [DEFAULT_ACCOUNT_ID] else localeSort ids.

Definition resolveDefaultXmppAccountId (cfg : option XmppConfig) : string :=
  let ids := listXmppAccountIds cfg in
  if JS.setHas DEFAULT_ACCOUNT_ID ids then DEFAULT_ACCOUNT_ID
  else match ids with
       | first :: _ => first
       | [] => DEFAULT_ACCOUNT_ID
       end.

(** The closure [resolve] of [resolveXmppAccount]. *)
Definition resolveAccount (cfg : option XmppConfig) (accountId : string)
    : ResolvedXmppAccount * ResolvedConnection :=
  let baseEnabled :=
    match cfg with
    | Some x => match cfgEnabled (connection (baseSettings x)) with
                | Some false => false
                | _ => true
                end
    | None => true
    end in
  let merged := mergeXmppAccountConfig cfg accountId in
  let c := connection merged in
  let isDefault := String.eqb accountId DEFAULT_ACCOUNT_ID in
  let accountEnabled := match cfgEnabled c with Some false => false | _ => true end in
  let enabled := baseEnabled && accountEnabled in
  let tls :=
    match cfgTls c with
    | Some b => b
    | None =>
        match (if isDefault then truthyOpt (XMPP_TLS env) else None) with
        | Some v => parseTruthy (Some v)
        | None => true
        end
    end in
  let envPort := if isDefault then parseIntEnv (XMPP_PORT env) else None in
  let port :=
    match nullish (cfgPort c) envPort with
    | Some p => p
    | None => if tls then 5222%Z else 5222%Z
    end in
  let envRooms := if isDefault then parseListEnv (XMPP_ROOMS env) else None in
  let jidValue :=
    JS.trim (jsOr (option_map JS.trim (cfgJid c))
                  (jsOr (if isDefault then option_map JS.trim (XMPP_JID env) else Some "")
                        "")) in
  let bare := if JS.truthy jidValue then normalizeXmppBareJid jidValue else "" in
  let resourceValue := JS.trim (jsOr (option_map JS.trim (cfgResource c)) "openclaw") in
  let hostValue :=
    JS.trim (jsOr (option_map JS.trim (cfgHost c))
                  (jsOr (if isDefault then option_map JS.trim (XMPP_HOST env) else Some "")
                        "")) in
  let passwordResolution := resolvePassword env readFile accountId merged in
  ({| accountId := accountId;
      configured := JS.truthy jidValue && JS.truthy (fst passwordResolution);
      jid := bare;
      bareJid := bare;
      config :=
        {| dmPolicy := dmPolicy (policy merged);
           allowFrom := allowFrom (policy merged);
           groupPolicy := groupPolicy (policy merged);
           groupAllowFrom := groupAllowFrom (policy merged);
           rooms := rooms (policy merged);
           autoJoinRooms := nullish (autoJoinRooms (policy merged)) envRooms;
           blockStreaming := blockStreaming (policy merged) |} |},
   {| rcEnabled := enabled;
      rcName := truthyOpt (option_map JS.trim (cfgName c));
      rcResource := resourceValue;
      rcHost := jsOr (Some hostValue) (jsOr (nth_error (JS.split "@" bare) 1) "");
      rcPort := port;
      rcTls := tls;
      rcPassword := fst passwordResolution;
      rcPasswordSource := snd passwordResolution;
      rcConfig :=
        {| cfgName := cfgName c; cfgEnabled := cfgEnabled c; cfgJid := Some jidValue;
           cfgPassword := cfgPassword c; cfgPasswordFile := cfgPasswordFile c;
           cfgResource := Some resourceValue; cfgHost := Some hostValue;
           cfgPort := Some port; cfgTls := Some tls |} |}).

Definition resolveXmppAccount (cfg : option XmppConfig) (accountIdParam : option string)
    : ResolvedXmppAccount * ResolvedConnection :=
  let hasExplicitAccountId :=
    match accountIdParam with Some a => JS.truthy (JS.trim a) | None => false end in
  let normalized := normalizeAccountId accountIdParam in
  let primary := resolveAccount cfg normalized in
  if hasExplicitAccountId then primary
  else if configured (fst primary) then primary
  else
    let fallbackId := resolveDefaultXmppAccountId cfg in
    if String.eqb fallbackId (accountId (fst primary)) then primary
    else
      let fallback := resolveAccount cfg fallbackId in
      if negb (configured (fst fallback)) then primary else fallback.

Definition listEnabledXmppAccounts (cfg : option XmppConfig)
    : list (ResolvedXmppAccount * ResolvedConnection) :=
  filter (fun account => rcEnabled (snd account))
         (map (fun accountId => resolveXmppAccount cfg (Some accountId))
              (listXmppAccountIds cfg)).

End Accounts.

(** [l.join(sep)] for a one-unit separator. *)
Fixpoint joinWith (sep : ascii) (l : list string) : string :=
  match l with
  | [] => ""
  | [x] => x
  | x :: rest => x ++ String sep (joinWith sep rest)
  end.

(** An entry as [parseListEnv] returns it: not empty, without surrounding
    whitespace and without a separator. *)
Definition cleanListEntry (e : string) : Prop :=
  e <> "" /\ JS.trim e = e /\ JS.allChars (fun c => negb (isListSeparator c)) e = true.

(** Inputs used to instantiate the statements on account resolution. *)

Definition sampleEnv : XmppEnv :=
  {| XMPP_JID := Some "Agent@Example.org/env"; XMPP_PASSWORD := Some " secret ";
     XMPP_HOST := None; XMPP_PORT := Some "5223"; XMPP_TLS := Some "off";
     XMPP_ROOMS := Some "test@conference.example.org" |}.

Definition sampleReadFile (path : string) : option string :=
  if String.eqb path "/run/xmpp-password" then Some ("filepw" ++ JS.LF) else None.

Definition sampleSettings : XmppAccountSettings :=
  {| connection := {| cfgName := None; cfgEnabled := None;
                      cfgJid := Some "Bot@Example.org/home";
                      cfgPassword := Some "inline";
                      cfgPasswordFile := Some " /run/xmpp-password ";
                      cfgResource := None; cfgHost := None; cfgPort := None;
                      cfgTls := None |};
     policy := emptyAccountConfig |}.

(** A configuration with one named account and nothing at the top level. *)
Definition sampleConfig : option XmppConfig :=
  Some {| baseSettings := emptySettings; accounts := Some [("Work", sampleSettings)] |}.

(** Stand-ins for the SDK's [normalizeAccountId] and for the locale order,
    used at concrete inputs only. *)
Definition sampleNormalizeAccountId (o : option string) : string :=
  match o with
  | Some s => if JS.truthy (JS.trim s) then JS.toLowerCase (JS.trim s) else DEFAULT_ACCOUNT_ID
  | None => DEFAULT_ACCOUNT_ID
  end.

Definition sampleSort (l : list string) : list string := l.

(* ------------------------------------------------------------------ *)
(** ** channel.ts *)

Definition normalizePairingTarget (raw : string) : string :=
  let normalized := normalizeXmppAllowEntry raw in
  if negb (JS.truthy normalized) then ""
  else JS.trim (nth 0 (JS.split "/" normalized) "").

(** [pairing.notifyApproval]: [Some] of the message of the error it throws.
    [approvedMessage] is the SDK's PAIRING_APPROVED_MESSAGE. *)
Definition notifyApproval {Store} (h : Host Store) (account : ResolvedXmppAccount)
    (freshId approvedMessage id : string) : option string * list Effect :=
  let target := normalizePairingTarget id in
  if negb (JS.truthy target) then (Some ("invalid XMPP pairing id: " ++ id), [])
  else match sendMessageXmpp h account freshId target approvedMessage noSendOptions with
       | (inl e, effs) => (Some (sendErrorMessage e), effs)
       | (inr _, effs) => (None, effs)
       end.

Record ResolvedTarget := {
  rtInput : string;
  rtResolved : bool;
  rtId : option string;
  rtName : option string;
  rtNote : option string
}.

(** [resolver.resolveTargets]; [kind] is the string the host passes. *)
Definition resolveTargets (inputs : list string) (kind : string) : list ResolvedTarget :=
  map (fun input =>
         match truthyOpt (normalizeXmppMessagingTarget input) with
         | None =>
             {| rtInput := input; rtResolved := false; rtId := None; rtName := None;
                rtNote := Some "invalid XMPP JID" |}
         | Some normalized =>
             if String.eqb kind "group"
             then {| rtInput := input; rtResolved := isRoomJid normalized;
                     rtId := Some normalized; rtName := Some normalized;
                     rtNote := if isRoomJid normalized then None
                               else Some "not a room JID" |}
             else {| rtInput := input; rtResolved := negb (isRoomJid normalized);
                     rtId := Some normalized; rtName := Some normalized;
                     rtNote := if isRoomJid normalized then Some "expected user JID"
                               else None |}
         end)
      inputs.

(** [ids.slice(0, limit || undefined)] for an integer [limit]. *)
Definition sliceLimit (limit : option Z) (l : list string) : list string :=
  match limit with
  | None => l
  | Some z =>
      if (z =? 0)%Z then l
      else if (0 <? z)%Z then firstn (Z.to_nat z) l
      else firstn (List.length l - Z.to_nat (- z)) l
  end.

(** [.filter((id) => (query ? id.includes(query) : true))] *)
Definition matchesQuery (query : option string) (id : string) : bool :=
  match truthyOpt query with
  | Some q => JS.includes q id
  | None => true
  end.

Record DirectoryEntry := {
  deKind : string;
  deId : string;
  deName : option string
}.

Definition listPeers (account : ResolvedXmppAccount) (query : option string)
    (limit : option Z) : list DirectoryEntry :=
  let ids :=
    fold_left (fun ids entry =>
                 let normalized := normalizeXmppAllowEntry entry in
                 if JS.truthy normalized && negb (String.eqb normalized "*")
                 then JS.setAdd normalized ids else ids)
              (match allowFrom (config account) with Some l => l | None => [] end) [] in
  map (fun id => {| deKind := "user"; deId := id; deName := None |})
      (sliceLimit limit (filter (matchesQuery query) ids)).

Definition listGroups (account : ResolvedXmppAccount) (query : option string)
    (limit : option Z) : list DirectoryEntry :=
  let roomIds :=
    fold_left (fun ids room => JS.setAdd room ids)
              (match autoJoinRooms (config account) with Some l => l | None => [] end) [] in
  let roomIds :=
    fold_left (fun ids room => if negb (String.eqb room "*") then JS.setAdd room ids else ids)
              (roomsKeys (match rooms (config account) with Some r => r | None => [] end))
              roomIds in
  map (fun id => {| deKind := "group"; deId := id; deName := Some id |})
      (sliceLimit limit (filter (matchesQuery query) roomIds)).

(** An account whose allowlist and rooms exercise the directory. *)
Definition directoryAccount : ResolvedXmppAccount :=
  agentAccount
    {| dmPolicy := None;
       allowFrom := Some ["*"; "Alice@Example.org/phone"; "alice@example.org"; " ";
                          "xmpp:Bob@Example.org"];
       groupPolicy := None; groupAllowFrom := None;
       rooms := Some [("*", {| roomRequireMention := None; roomEnabled := None;
                               roomAllowFrom := None; roomSkills := None;
                               roomSystemPrompt := None |});
                      ("team@conference.example.org",
                       {| roomRequireMention := None; roomEnabled := None;
                          roomAllowFrom := None; roomSkills := None;
                          roomSystemPrompt := None |})];
       autoJoinRooms := Some ["team@conference.example.org"; "ops@conference.example.org"];
       blockStreaming := None |}.

(* ================================================================== *)
(** * Properties *)

(* ------------------------------------------------------------------ *)
(** ** Strings *)

Lemma lowerUnit_idem (c : ascii) : JS.lowerUnit (JS.lowerUnit c) = JS.lowerUnit c.
Proof. destruct c as [[] [] [] [] [] [] [] []]; reflexivity. Qed.

Lemma toLowerCase_idem (s : string) : JS.toLowerCase (JS.toLowerCase s) = JS.toLowerCase s.
Proof. induction s as [|c r IH]; simpl; [reflexivity|]. now rewrite lowerUnit_idem, IH. Qed.

Lemma toLowerCase_app (a b : string) :
  JS.toLowerCase (a ++ b) = JS.toLowerCase a ++ JS.toLowerCase b.
Proof. induction a as [|c r IH]; simpl; [reflexivity|]. now rewrite IH. Qed.

Lemma truthy_toLowerCase (s : string) : JS.truthy (JS.toLowerCase s) = JS.truthy s.
Proof. destruct s; reflexivity. Qed.

Lemma truthy_false (s : string) : JS.truthy s = false -> s = "".
Proof. destruct s; [reflexivity | discriminate]. Qed.

Lemma allChars_app (p : ascii -> bool) (a b : string) :
  JS.allChars p (a ++ b) = JS.allChars p a && JS.allChars p b.
Proof. induction a as [|c r IH]; simpl; [reflexivity|]. now rewrite IH, andb_assoc. Qed.

Lemma allChars_cons (p : ascii -> bool) (c : ascii) (r : string) :
  JS.allChars p (String c r) = p c && JS.allChars p r.
Proof. reflexivity. Qed.

Lemma allChars_impl (p q : ascii -> bool) (s : string) :
  (forall c, p c = true -> q c = true) ->
  JS.allChars p s = true -> JS.allChars q s = true.
Proof.
  intros Hpq. induction s as [|c r IH]; simpl; [reflexivity|].
  intros H. apply andb_true_iff in H as [Hc Hr].
  now rewrite (Hpq _ Hc), IH.
Qed.

Lemma prefix_allChars (p : ascii -> bool) (pre s : string) :
  String.prefix pre s = true -> JS.allChars p s = true -> JS.allChars p pre = true.
Proof.
  revert s. induction pre as [|c r IH]; intros s; simpl; [reflexivity|].
  destruct s as [|d t]; simpl; [discriminate|].
  destruct (ascii_dec c d) as [->|Hne]; [|discriminate].
  intros Hpre H. apply andb_true_iff in H as [Hd Ht].
  now rewrite Hd, (IH t).
Qed.

Lemma trimStart_plain (s : string) :
  JS.allChars (fun c => negb (JS.isWhitespace c)) s = true -> JS.trimStart s = s.
Proof.
  destruct s as [|c r]; simpl; [reflexivity|].
  intros H. apply andb_true_iff in H as [Hc _].
  apply negb_true_iff in Hc. now rewrite Hc.
Qed.

Lemma trimEnd_plain (s : string) :
  JS.allChars (fun c => negb (JS.isWhitespace c)) s = true -> JS.trimEnd s = s.
Proof.
  induction s as [|c r IH]; simpl; [reflexivity|].
  intros H. apply andb_true_iff in H as [Hc Hr].
  apply negb_true_iff in Hc. now rewrite Hc, (IH Hr).
Qed.

Lemma trim_plain (s : string) :
  JS.allChars (fun c => negb (JS.isWhitespace c)) s = true -> JS.trim s = s.
Proof. intros H. unfold JS.trim. now rewrite (trimStart_plain _ H), trimEnd_plain. Qed.

Lemma splitFirst_some (sep : ascii) (s a b : string) :
  JS.splitFirst sep s = Some (a, b) ->
  s = a ++ String sep b /\ JS.allChars (fun c => negb (Ascii.eqb c sep)) a = true.
Proof.
  revert a b. induction s as [|c r IH]; intros a b; simpl; [discriminate|].
  destruct (Ascii.eqb c sep) eqn:E.
  - intros [= <- <-]. apply Ascii.eqb_eq in E. subst. now split.
  - destruct (JS.splitFirst sep r) as [[a' b']|] eqn:Hr; [|discriminate].
    intros [= <- <-]. destruct (IH _ _ eq_refl) as [-> Ha].
    simpl. now rewrite E, Ha.
Qed.

Lemma splitFirst_app (sep : ascii) (a b : string) :
  JS.allChars (fun c => negb (Ascii.eqb c sep)) a = true ->
  JS.splitFirst sep (a ++ String sep b) = Some (a, b).
Proof.
  induction a as [|c r IH]; simpl.
  - now rewrite Ascii.eqb_refl.
  - intros H. apply andb_true_iff in H as [Hc Hr].
    apply negb_true_iff in Hc. now rewrite Hc, (IH Hr).
Qed.

Lemma splitFirst_none (sep : ascii) (s : string) :
  JS.allChars (fun c => negb (Ascii.eqb c sep)) s = true ->
  JS.splitFirst sep s = None.
Proof.
  induction s as [|c r IH]; simpl; [reflexivity|].
  intros H. apply andb_true_iff in H as [Hc Hr].
  apply negb_true_iff in Hc. now rewrite Hc, (IH Hr).
Qed.

Lemma replaceAll_absent (pat rep s : string) (c : ascii) (pat' : string) :
  pat = String c pat' ->
  JS.allChars (fun x => negb (Ascii.eqb x c)) s = true ->
  JS.replaceAll pat rep s = s.
Proof.
  intros -> . unfold JS.replaceAll.
  induction s as [|d r IH]; simpl; [reflexivity|].
  intros H. apply andb_true_iff in H as [Hd Hr].
  apply negb_true_iff in Hd.
  destruct (ascii_dec c d) as [->|Hne].
  - now rewrite Ascii.eqb_refl in Hd.
  - now rewrite (IH Hr).
Qed.

(* ------------------------------------------------------------------ *)
(** ** The JID package: canonical form *)

Lemma plainUnit_not_reserved (c : ascii) :
  plainUnit c = true -> negb (XmppJid.isReserved c) = true.
Proof. unfold plainUnit. intros H. now apply andb_true_iff in H. Qed.

Lemma plainUnit_not_ws (c : ascii) :
  plainUnit c = true -> negb (JS.isWhitespace c) = true.
Proof. unfold plainUnit. intros H. now apply andb_true_iff in H. Qed.

Lemma reserved_cases (c : ascii) (x : ascii) :
  XmppJid.isReserved x = true ->
  negb (XmppJid.isReserved c) = true -> negb (Ascii.eqb c x) = true.
Proof.
  intros Hx Hc. destruct (Ascii.eqb c x) eqn:E; [|reflexivity].
  apply Ascii.eqb_eq in E. subst. now rewrite Hx in Hc.
Qed.

Lemma detect_plain (l : string) :
  JS.allChars (fun c => negb (XmppJid.isReserved c)) l = true ->
  XmppJid.detect l = false.
Proof.
  intros H. unfold XmppJid.detect.
  destruct (JS.truthy l); [|reflexivity]. simpl.
  assert (Hb : JS.allChars (fun x => negb (Ascii.eqb x (ascii_of_nat 92))) l = true).
  { eapply allChars_impl; [|exact H]. intros c. now apply reserved_cases. }
  unfold XmppJid.bslash. simpl.
  rewrite !(replaceAll_absent _ _ l _ _ eq_refl Hb).
  now rewrite H.
Qed.

Lemma setLocal_plain (l : string) :
  JS.allChars (fun c => negb (XmppJid.isReserved c)) l = true ->
  XmppJid.setLocal l = JS.toLowerCase l.
Proof. intros H. unfold XmppJid.setLocal. now rewrite detect_plain. Qed.

Lemma setLocal_lower (l : string) :
  JS.toLowerCase (XmppJid.setLocal l) = XmppJid.setLocal l.
Proof. unfold XmppJid.setLocal. apply toLowerCase_idem. Qed.

Lemma newJID_canonical l d r j : XmppJid.newJID l d r = Some j -> canonical j.
Proof.
  unfold XmppJid.newJID. destruct (JS.truthy d) eqn:Hd; simpl; [|discriminate].
  intros [= <-]. repeat split; simpl;
    [apply setLocal_lower | apply toLowerCase_idem | now rewrite truthy_toLowerCase].
Qed.

Lemma parseJid_canonical s j : XmppJid.parseJid s = Some j -> canonical j.
Proof.
  unfold XmppJid.parseJid.
  destruct (JS.splitFirst "/" s) as [[a b]|];
    [destruct (JS.splitFirst "@" a) as [[? ?]|] | destruct (JS.splitFirst "@" s) as [[? ?]|]];
    apply newJID_canonical.
Qed.

Lemma bare_canonical j : canonical j -> canonical (XmppJid.bare j).
Proof.
  intros Hj. unfold XmppJid.bare.
  destruct (JS.truthy (XmppJid.resource j)); [|exact Hj].
  destruct (XmppJid.newJID _ _ _) eqn:E; [|exact Hj].
  eapply newJID_canonical; eauto.
Qed.

Lemma bare_resource j :
  canonical j -> JS.truthy (XmppJid.resource (XmppJid.bare j)) = false.
Proof.
  intros (_ & _ & Hd). unfold XmppJid.bare.
  destruct (JS.truthy (XmppJid.resource j)) eqn:E; [|exact E].
  unfold XmppJid.newJID. now rewrite Hd.
Qed.

Lemma toString_bare_lower j :
  canonical j ->
  JS.toLowerCase (XmppJid.toString (XmppJid.bare j)) = XmppJid.toString (XmppJid.bare j).
Proof.
  intros Hj. pose proof (bare_canonical _ Hj) as (Hl & Hd & _).
  unfold XmppJid.toString. rewrite (bare_resource _ Hj).
  destruct (JS.truthy (XmppJid.local (XmppJid.bare j))); [|exact Hd].
  rewrite !toLowerCase_app, Hl, Hd. reflexivity.
Qed.

Lemma normalizeXmppJid_some x v :
  normalizeXmppJid x = Some v ->
  exists t j, XmppJid.parseJid t = Some j /\ v = XmppJid.toString (XmppJid.bare j).
Proof.
  unfold normalizeXmppJid.
  destruct (negb (JS.truthy (JS.trim x))); [discriminate|].
  match goal with |- context [negb (JS.truthy ?t) || _] => set (tgt := t) end.
  destruct (negb (JS.truthy tgt) || negb (looksLikeXmppJid tgt)); [discriminate|].
  destruct (XmppJid.parseJid tgt) as [j|] eqn:E; [|discriminate].
  intros [= <-]. now exists tgt, j.
Qed.

Lemma normalizeXmppJid_lower x v :
  normalizeXmppJid x = Some v -> JS.toLowerCase v = v.
Proof.
  intros H. destruct (normalizeXmppJid_some _ _ H) as (t & j & Hp & ->).
  apply toString_bare_lower. eapply parseJid_canonical; eauto.
Qed.

Lemma hasInnerAt_cons (c : ascii) (s : string) :
  JS.truthy s = true -> hasInnerAt (String c s) = Ascii.eqb c "@" || hasInnerAt s.
Proof. destruct s; [discriminate | reflexivity]. Qed.

Lemma hasInnerAt_app (a d : string) :
  JS.truthy d = true -> hasInnerAt (a ++ String "@" d) = true.
Proof.
  intros Hd. induction a as [|c r IH].
  - simpl. destruct d; [discriminate | reflexivity].
  - change (String c r ++ String "@" d) with (String c (r ++ String "@" d)).
    rewrite hasInnerAt_cons, IH; [apply orb_true_r | now destruct r].
Qed.

(* ------------------------------------------------------------------ *)
(** ** normalize.ts on plain JIDs *)

Lemma append_empty_r (s : string) : s ++ "" = s.
Proof. induction s as [|c r IH]; simpl; [reflexivity | now rewrite IH]. Qed.

Lemma append_assoc (a b c : string) : (a ++ b) ++ c = a ++ b ++ c.
Proof. induction a as [|x r IH]; simpl; [reflexivity | now rewrite IH]. Qed.

Lemma prefix_empty (s : string) : String.prefix "" s = true.
Proof. destruct s; reflexivity. Qed.

Lemma plainUnit_lower (c : ascii) : plainUnit (JS.lowerUnit c) = plainUnit c.
Proof. destruct c as [[] [] [] [] [] [] [] []]; reflexivity. Qed.

Lemma isWhitespace_lower (c : ascii) :
  JS.isWhitespace (JS.lowerUnit c) = JS.isWhitespace c.
Proof. destruct c as [[] [] [] [] [] [] [] []]; reflexivity. Qed.

Lemma allChars_plain_lower (s : string) :
  JS.allChars plainUnit (JS.toLowerCase s) = JS.allChars plainUnit s.
Proof. induction s as [|c r IH]; simpl; [reflexivity|]. now rewrite plainUnit_lower, IH. Qed.

Lemma plain_no_unit (x : ascii) (s : string) :
  XmppJid.isReserved x = true ->
  JS.allChars plainUnit s = true ->
  JS.allChars (fun c => negb (Ascii.eqb c x)) s = true.
Proof.
  intros Hx. apply allChars_impl. intros c Hc.
  apply (reserved_cases c x Hx), plainUnit_not_reserved, Hc.
Qed.

Lemma prefix_before_sep (q l rest : string) (c : ascii) :
  String.prefix q (l ++ String c rest) = true ->
  JS.allChars (fun x => negb (Ascii.eqb x c)) q = true ->
  String.prefix q l = true.
Proof.
  revert q. induction l as [|y l IH]; intros q; simpl.
  - destruct q as [|x q]; simpl; [reflexivity|].
    destruct (ascii_dec x c) as [->|Hne]; [|discriminate].
    rewrite Ascii.eqb_refl. discriminate.
  - destruct q as [|x q]; simpl; [reflexivity|].
    destruct (ascii_dec x y) as [->|Hne]; [|discriminate].
    intros Hp Hq. apply andb_true_iff in Hq as [_ Hq]. now apply IH.
Qed.

(** No protocol prefix can start a string whose part before the first "@" is
    plain. *)
Lemma no_protocol_prefix (q l rest : string) :
  JS.allChars plainUnit l = true ->
  JS.allChars (fun x => negb (Ascii.eqb x "@")) q = true ->
  JS.allChars (fun x => negb (Ascii.eqb x ":")) q = false ->
  JS.startsWith q (l ++ String "@" rest) = false.
Proof.
  intros Hl Hq Hcolon. unfold JS.startsWith.
  destruct (String.prefix q (l ++ String "@" rest)) eqn:E; [|reflexivity].
  apply prefix_before_sep in E; [|exact Hq].
  rewrite (prefix_allChars _ _ _ E (plain_no_unit ":" l eq_refl Hl)) in Hcolon.
  discriminate.
Qed.

Section PlainTarget.

Variables l d : string.
Variable r : option string.
Hypothesis Hl : JS.allChars plainUnit l = true.
Hypothesis Hd : JS.allChars plainUnit d = true.
Hypothesis Hl1 : JS.truthy l = true.
Hypothesis Hd1 : JS.truthy d = true.

Lemma fullJid_truthy : JS.truthy (fullJid l d r) = true.
Proof. unfold fullJid. destruct l; [discriminate | reflexivity]. Qed.

Lemma fullJid_parse :
  XmppJid.parseJid (fullJid l d r) =
  Some {| XmppJid.local := JS.toLowerCase l;
          XmppJid.domain := JS.toLowerCase d;
          XmppJid.resource := match r with Some x => x | None => "" end |}.
Proof.
  assert (Hbare : JS.splitFirst "@" (l ++ String "@" d) = Some (l, d))
    by (apply splitFirst_app, (plain_no_unit "@" l eq_refl Hl)).
  assert (Hns : JS.allChars (fun c => negb (Ascii.eqb c "/")) (l ++ String "@" d) = true).
  { rewrite allChars_app, allChars_cons.
    rewrite (plain_no_unit "/" l eq_refl Hl), (plain_no_unit "/" d eq_refl Hd).
    reflexivity. }
  assert (Hlocal : XmppJid.setLocal l = JS.toLowerCase l)
    by (apply setLocal_plain; eapply allChars_impl; [apply plainUnit_not_reserved | exact Hl]).
  unfold XmppJid.parseJid, fullJid. destruct r as [x|].
  - replace (l ++ String "@" (d ++ String "/" x))
      with ((l ++ String "@" d) ++ String "/" x)
      by (now rewrite append_assoc).
    rewrite (splitFirst_app "/" _ x Hns), Hbare.
    unfold XmppJid.newJID. now rewrite Hd1, Hlocal.
  - rewrite append_empty_r, (splitFirst_none "/" _ Hns), Hbare.
    unfold XmppJid.newJID. now rewrite Hd1, Hlocal.
Qed.

Lemma fullJid_bare j :
  XmppJid.parseJid (fullJid l d r) = Some j ->
  XmppJid.toString (XmppJid.bare j) = JS.toLowerCase l ++ String "@" (JS.toLowerCase d).
Proof.
  rewrite fullJid_parse. intros [= <-].
  assert (Hlocal : XmppJid.setLocal (JS.toLowerCase l) = JS.toLowerCase l).
  { rewrite setLocal_plain, toLowerCase_idem; [reflexivity|].
    eapply allChars_impl; [apply plainUnit_not_reserved|].
    now rewrite allChars_plain_lower. }
  set (res := match r with Some x => x | None => "" end).
  unfold XmppJid.bare.
  cbn [XmppJid.resource XmppJid.local XmppJid.domain].
  destruct (JS.truthy res) eqn:Hres.
  - unfold XmppJid.newJID. rewrite truthy_toLowerCase, Hd1.
    cbn [negb]. unfold XmppJid.toString.
    cbn [XmppJid.resource XmppJid.local XmppJid.domain JS.truthy].
    now rewrite Hlocal, truthy_toLowerCase, Hl1, toLowerCase_idem.
  - unfold XmppJid.toString.
    cbn [XmppJid.resource XmppJid.local XmppJid.domain].
    now rewrite Hres, truthy_toLowerCase, Hl1.
Qed.

(** From here on the resource, if any, has no whitespace. *)
Hypothesis Hr : forall x, r = Some x ->
  JS.allChars (fun c => negb (JS.isWhitespace c)) x = true.

Lemma fullJid_no_ws : JS.allChars (fun c => negb (JS.isWhitespace c)) (fullJid l d r) = true.
Proof.
  unfold fullJid. rewrite allChars_app, allChars_cons, allChars_app.
  rewrite (allChars_impl _ _ _ plainUnit_not_ws Hl),
          (allChars_impl _ _ _ plainUnit_not_ws Hd).
  destruct r as [x|]; [|reflexivity].
  rewrite allChars_cons, (Hr x eq_refl). reflexivity.
Qed.

Lemma fullJid_looksLike : looksLikeXmppJid (fullJid l d r) = true.
Proof.
  unfold looksLikeXmppJid.
  rewrite (trim_plain _ fullJid_no_ws), fullJid_truthy, fullJid_parse. simpl.
  unfold XMPP_TARGET_PATTERN_test. rewrite fullJid_no_ws. simpl.
  unfold fullJid. destruct l as [|c l']; [discriminate|]. simpl.
  rewrite hasInnerAt_app; [reflexivity|]. now destruct d.
Qed.

Lemma fullJid_lower_no_prefix (q : string) :
  JS.allChars (fun x => negb (Ascii.eqb x "@")) q = true ->
  JS.allChars (fun x => negb (Ascii.eqb x ":")) q = false ->
  JS.startsWith q (JS.toLowerCase (fullJid l d r)) = false.
Proof.
  intros Hq Hc. unfold fullJid. rewrite toLowerCase_app. simpl JS.toLowerCase.
  apply no_protocol_prefix; [now rewrite allChars_plain_lower | exact Hq | exact Hc].
Qed.

(** The work [normalizeXmppJid] does once the prefix is gone. *)
Lemma normalizeXmppJid_bare_target :
  normalizeXmppJid (fullJid l d r) = Some (JS.toLowerCase l ++ String "@" (JS.toLowerCase d)).
Proof.
  unfold normalizeXmppJid.
  rewrite (trim_plain _ fullJid_no_ws), fullJid_truthy. simpl.
  rewrite !fullJid_lower_no_prefix by reflexivity.
  rewrite fullJid_truthy, fullJid_looksLike. simpl.
  destruct (XmppJid.parseJid (fullJid l d r)) as [j|] eqn:E.
  - now rewrite (fullJid_bare j E).
  - rewrite fullJid_parse in E. discriminate.
Qed.

(** A protocol prefix in front of the JID is removed. *)
Lemma normalizeXmppJid_prefixed (p : string) :
  In p ["xmpp:"; "room:"; "user:"] ->
  normalizeXmppJid (p ++ (fullJid l d r)) =
  Some (JS.toLowerCase l ++ String "@" (JS.toLowerCase d)).
Proof.
  intros Hp.
  assert (Hws : JS.allChars (fun c => negb (JS.isWhitespace c)) (p ++ (fullJid l d r)) = true).
  { rewrite allChars_app, fullJid_no_ws.
    destruct Hp as [<-|[<-|[<-|[]]]]; reflexivity. }
  assert (Htail :
    (if negb (JS.truthy (fullJid l d r)) || negb (looksLikeXmppJid (fullJid l d r)) then None
     else match XmppJid.parseJid (fullJid l d r) with
          | Some parsed => Some (XmppJid.toString (XmppJid.bare parsed))
          | None => None
          end) = Some (JS.toLowerCase l ++ String "@" (JS.toLowerCase d))).
  { rewrite fullJid_truthy, fullJid_looksLike. simpl.
    destruct (XmppJid.parseJid (fullJid l d r)) as [j|] eqn:E.
    - now rewrite (fullJid_bare j E).
    - rewrite fullJid_parse in E. discriminate. }
  unfold normalizeXmppJid. rewrite (trim_plain _ Hws).
  destruct Hp as [<-|[<-|[<-|[]]]];
    cbn [append JS.truthy negb JS.toLowerCase JS.startsWith String.prefix JS.slice];
    cbv [JS.lowerUnit]; simpl;
    rewrite prefix_empty, (trim_plain _ fullJid_no_ws); exact Htail.
Qed.

End PlainTarget.

(** A lower-case plain bare JID is a fixed point of [normalizeXmppJid]. *)
Lemma normalizeXmppJid_fixed (v : string) :
  plainBareJid v = true -> JS.toLowerCase v = v -> normalizeXmppJid v = Some v.
Proof.
  unfold plainBareJid. intros Hp Hlow.
  destruct (JS.splitFirst "@" v) as [[l d]|] eqn:Hs; [|discriminate].
  apply andb_true_iff in Hp as [Hp Hd]. apply andb_true_iff in Hp as [Hp Hl].
  apply andb_true_iff in Hp as [Htl Htd].
  destruct (splitFirst_some _ _ _ _ Hs) as [Hv _].
  assert (Hfull : fullJid l d None = v)
    by (unfold fullJid; now rewrite append_empty_r).
  rewrite <- Hfull at 1.
  rewrite (normalizeXmppJid_bare_target l d None Hl Hd Htl Htd) by discriminate.
  f_equal. transitivity (JS.toLowerCase v); [|exact Hlow].
  rewrite Hv, toLowerCase_app. reflexivity.
Qed.

Lemma allChars_trimStart (p : ascii -> bool) (s : string) :
  JS.allChars p s = true -> JS.allChars p (JS.trimStart s) = true.
Proof.
  induction s as [|c r IH]; simpl; [reflexivity|].
  intros H. destruct (JS.isWhitespace c); [|exact H].
  apply andb_true_iff in H as [_ Hr]. now apply IH.
Qed.

Lemma allChars_trimEnd (p : ascii -> bool) (s : string) :
  JS.allChars p s = true -> JS.allChars p (JS.trimEnd s) = true.
Proof.
  induction s as [|c r IH]; simpl; [reflexivity|].
  intros H. apply andb_true_iff in H as [Hc Hr].
  destruct (JS.isWhitespace c && negb (JS.truthy (JS.trimEnd r))); [reflexivity|].
  simpl. now rewrite Hc, IH.
Qed.

Lemma allChars_trim (p : ascii -> bool) (s : string) :
  JS.allChars p s = true -> JS.allChars p (JS.trim s) = true.
Proof. intros H. now apply allChars_trimEnd, allChars_trimStart. Qed.

Lemma allChars_slice (p : ascii -> bool) (n : nat) (s : string) :
  JS.allChars p s = true -> JS.allChars p (JS.slice n s) = true.
Proof.
  revert s. induction n as [|n IH]; intros s; [now destruct s|].
  destruct s as [|c r]; simpl; [reflexivity|].
  intros H. apply andb_true_iff in H as [_ Hr]. now apply IH.
Qed.

Lemma hasInnerAt_absent (s : string) :
  JS.allChars (fun c => negb (Ascii.eqb c "@")) s = true -> hasInnerAt s = false.
Proof.
  induction s as [|c r IH]; [reflexivity|].
  intros H. rewrite allChars_cons in H. apply andb_true_iff in H as [Hc Hr].
  destruct r as [|d r']; [reflexivity|].
  rewrite hasInnerAt_cons by reflexivity.
  apply negb_true_iff in Hc. now rewrite Hc, (IH Hr).
Qed.

Lemma looksLikeXmppJid_needs_at (t : string) :
  JS.allChars (fun c => negb (Ascii.eqb c "@")) t = true -> looksLikeXmppJid t = false.
Proof.
  intros H. apply allChars_trim in H. unfold looksLikeXmppJid.
  destruct (JS.truthy (JS.trim t)); [|reflexivity]. cbn [negb].
  unfold XMPP_TARGET_PATTERN_test.
  destruct (JS.trim t) as [|c r]; [now rewrite andb_false_r|].
  rewrite allChars_cons in H. apply andb_true_iff in H as [_ Hr].
  now rewrite (hasInnerAt_absent r Hr), andb_false_r.
Qed.

(** C8. [normalizeXmppJid] is total: it is a function into [option string],
    so it returns none instead of throwing; it returns none on blank input
    and on input without an "@".  It is not idempotent.  A result without
    an "@" is rejected when it is normalized again: the check for the
    user@domain form is applied to the input, before the resource is
    stripped, so "a/b@c" (domain "a", resource "b@c") is accepted and its
    result "a" is not.  A result that starts with a protocol prefix is
    stripped again: "@xmpp:a@b" gives "xmpp:a@b", which gives "a@b".  On a
    result that is a plain bare JID (local@domain with non-empty parts free
    of whitespace and of the characters XEP-0106 reserves) the function is
    idempotent. *)
Theorem normalizeXmppJid_total_not_idempotent :
  (forall x : string, JS.trim x = "" -> normalizeXmppJid x = None) /\
  (forall x : string,
      JS.allChars (fun c => negb (Ascii.eqb c "@")) x = true ->
      normalizeXmppJid x = None) /\
  (forall x v : string,
      normalizeXmppJid x = Some v ->
      JS.allChars (fun c => negb (Ascii.eqb c "@")) v = true ->
      looksLikeXmppJid v = false /\ normalizeXmppJid v = None) /\
  (normalizeXmppJid "a/b@c" = Some "a" /\ normalizeXmppJid "a" = None) /\
  (normalizeXmppJid "@xmpp:a@b" = Some "xmpp:a@b" /\
   normalizeXmppJid "xmpp:a@b" = Some "a@b") /\
  (forall x v : string,
      normalizeXmppJid x = Some v ->
      plainBareJid v = true ->
      normalizeXmppJid v = Some v).
Proof.
  assert (Hnone : forall x : string,
             JS.allChars (fun c => negb (Ascii.eqb c "@")) x = true ->
             normalizeXmppJid x = None).
  { intros x Hx. unfold normalizeXmppJid.
    destruct (negb (JS.truthy (JS.trim x))); [reflexivity|].
    pose proof (allChars_trim _ _ Hx) as Ht.
    pose proof (allChars_trim _ _ (allChars_slice _ 5 _ Ht)) as Hs.
    destruct (JS.startsWith "xmpp:" _), (JS.startsWith "room:" _),
             (JS.startsWith "user:" _);
      repeat match goal with
        | |- context [JS.trim (JS.slice 5 ?t)] =>
            let H := fresh in
            assert (H : JS.allChars (fun c => negb (Ascii.eqb c "@"))
                          (JS.trim (JS.slice 5 t)) = true)
              by (apply allChars_trim, allChars_slice; assumption);
            generalize dependent (JS.trim (JS.slice 5 t)); intros
        end;
      match goal with
      | |- context [looksLikeXmppJid ?t] =>
          rewrite (looksLikeXmppJid_needs_at t) by assumption
      end; now rewrite orb_true_r. }
  repeat apply conj.
  - intros x Hx. unfold normalizeXmppJid. now rewrite Hx.
  - exact Hnone.
  - intros x v _ Hv. split; [now apply looksLikeXmppJid_needs_at | now apply Hnone].
  - reflexivity.
  - reflexivity.
  - reflexivity.
  - reflexivity.
  - intros x v Hx Hp. apply normalizeXmppJid_fixed; [exact Hp|].
    eapply normalizeXmppJid_lower; eauto.
Qed.

Lemma normalizeXmppJid_total_not_idempotent_witness :
  normalizeXmppJid "a/b@c" = Some "a" /\
  looksLikeXmppJid "a" = false /\
  normalizeXmppJid "a" = None /\
  normalizeXmppJid "  xmpp:Alice@Example.COM/phone " = Some "alice@example.com" /\
  normalizeXmppJid "alice@example.com" = Some "alice@example.com".
Proof.
  destruct normalizeXmppJid_total_not_idempotent as (_ & _ & Hreject & _ & _ & Hplain).
  destruct (Hreject "a/b@c" "a" eq_refl eq_refl) as [Hlooks Hagain].
  split; [reflexivity|]. split; [exact Hlooks|]. split; [exact Hagain|].
  split; [reflexivity|].
  apply (Hplain "  xmpp:Alice@Example.COM/phone "); reflexivity.
Defined.

(* ------------------------------------------------------------------ *)
(** ** monitor.ts: the message built from a stanza *)

Lemma split_splitFirst_some (sep : ascii) (s a b : string) :
  JS.splitFirst sep s = Some (a, b) -> JS.split sep s = a :: JS.split sep b.
Proof.
  revert a b. induction s as [|c r IH]; intros a b; simpl; [discriminate|].
  destruct (Ascii.eqb c sep).
  - now intros [= <- <-].
  - destruct (JS.splitFirst sep r) as [[a' b']|]; [|discriminate].
    intros [= <- <-]. now rewrite (IH _ _ eq_refl).
Qed.

Lemma split_splitFirst_none (sep : ascii) (s : string) :
  JS.splitFirst sep s = None -> JS.split sep s = [s].
Proof.
  induction s as [|c r IH]; simpl; [reflexivity|].
  destruct (Ascii.eqb c sep); [discriminate|].
  destruct (JS.splitFirst sep r) as [[a' b']|]; [discriminate|].
  intros _. now rewrite (IH eq_refl).
Qed.

Lemma split_head (from : string) :
  nth 0 (JS.split "/" from) "" = beforeFirstSlash from.
Proof.
  unfold beforeFirstSlash. destruct (JS.splitFirst "/" from) as [[a b]|] eqn:E.
  - now rewrite (split_splitFirst_some _ _ _ _ E).
  - now rewrite (split_splitFirst_none _ _ E).
Qed.

Lemma setAdd_keeps (x y : string) (l : list string) : In x l -> In x (JS.setAdd y l).
Proof.
  unfold JS.setAdd. destruct (JS.setHas y l); [auto|].
  intros H. apply in_or_app. now left.
Qed.

Lemma setAdd_adds (x : string) (l : list string) : In x (JS.setAdd x l).
Proof.
  unfold JS.setAdd, JS.setHas. destruct (existsb (String.eqb x) l) eqn:E.
  - apply existsb_exists in E as (y & Hy & Heq). apply String.eqb_eq in Heq. now subst.
  - apply in_or_app. right. now left.
Qed.

Lemma candidates_bare (m : XmppInboundMessage) :
  JS.truthy (senderBareJid m) = true ->
  In (JS.toLowerCase (senderBareJid m)) (buildXmppAllowlistCandidates m).
Proof.
  intros H. unfold buildXmppAllowlistCandidates. rewrite H.
  assert (H1 : In (JS.toLowerCase (senderBareJid m))
                  (JS.setAdd (JS.toLowerCase (senderBareJid m)) [])) by apply setAdd_adds.
  destruct (JS.truthy (senderJid m));
    [apply (setAdd_keeps _ (JS.toLowerCase (senderJid m))) in H1|];
    destruct (senderNickname m) as [n|]; try exact H1;
    destruct (isGroup m && JS.truthy n); try exact H1;
    now apply setAdd_keeps.
Qed.

Lemma monitor_delivers account hasClient custom now fid ev m :
  deliveredMessage (monitorOnMessage account hasClient custom now fid ev) = Some m ->
  let it := resolveXmppInboundTarget (evFrom ev) (evType ev) in
  isGroup m = itIsGroup it /\ target m = itTarget it /\
  senderJid m = itSenderJid it /\ senderBareJid m = itSenderBareJid it /\
  senderNickname m = itSenderNickname it /\ senderResource m = itSenderResource it /\
  text m = evBody ev.
Proof.
  unfold monitorOnMessage.
  destruct (negb hasClient); [discriminate|].
  destruct (String.eqb _ (bareJid account)); [discriminate|].
  destruct custom; simpl; intros [= <-]; simpl; repeat split.
Qed.

(** C9. For a groupchat stanza the message's senderBareJid is the part of
    [from] before the first "/" (the room's bare JID; it is a function of
    [from] alone, the occupant's real JID is not consulted) and also the
    target, senderResource is unset, and the allowlist candidates built for
    the message contain that room JID (in lower case, like every candidate)
    whenever it is not the empty string. *)
Theorem groupchat_sender_is_room :
  forall account hasClient custom now fid ev m,
    evType ev = "groupchat" ->
    deliveredMessage (monitorOnMessage account hasClient custom now fid ev) = Some m ->
    isGroup m = true /\
    senderBareJid m = beforeFirstSlash (evFrom ev) /\
    target m = beforeFirstSlash (evFrom ev) /\
    senderResource m = None /\
    (beforeFirstSlash (evFrom ev) <> "" ->
     In (JS.toLowerCase (beforeFirstSlash (evFrom ev)))
        (buildXmppAllowlistCandidates m)).
Proof.
  intros account hasClient custom now fid ev m Hty Hm.
  apply monitor_delivers in Hm. cbv zeta in Hm.
  unfold resolveXmppInboundTarget in Hm. rewrite Hty in Hm. simpl in Hm.
  destruct Hm as (Hg & Ht & _ & Hb & _ & Hr & _).
  rewrite split_head in Ht, Hb.
  repeat split; auto.
  intros Hne. rewrite <- Hb. apply candidates_bare.
  rewrite Hb. destruct (beforeFirstSlash (evFrom ev)); [contradiction | reflexivity].
Qed.

Lemma groupchat_sender_is_room_witness :
  exists m,
    deliveredMessage (monitorOnMessage (agentAccount emptyAccountConfig) true false
                                       0%Z "fresh" roomEvent) = Some m /\
    senderBareJid m = "Room@conference.localhost" /\
    senderResource m = None /\
    In "room@conference.localhost" (buildXmppAllowlistCandidates m).
Proof.
  eexists. split; [reflexivity|].
  destruct (groupchat_sender_is_room (agentAccount emptyAccountConfig) true false
              0%Z "fresh" roomEvent _ eq_refl eq_refl) as (_ & Hb & _ & Hr & Hc).
  split; [exact Hb|]. split; [exact Hr|].
  apply Hc. discriminate.
Defined.

(** C4 (as stated) fails: a groupchat stanza sent by the room itself carries
    no nickname. *)
Lemma groupchat_without_nickname :
  ~ (forall from type : string,
       let it := resolveXmppInboundTarget from type in
       (itIsGroup it = true ->
          isRoomJid (itTarget it) = true /\
          exists nick, itSenderNickname it = Some nick /\
                       itSenderJid it = itTarget it ++ "/" ++ nick) /\
       (itIsGroup it = false -> itTarget it = itSenderBareJid it)).
Proof.
  intros H.
  destruct (H "room@conference.localhost" "groupchat") as [Hg _].
  destruct (Hg eq_refl) as (_ & nick & Hn & _). discriminate Hn.
Qed.

Lemma isRoomJid_before_slash (from : string) :
  isRoomJid (beforeFirstSlash from) = isRoomJid from.
Proof.
  unfold beforeFirstSlash.
  destruct (JS.splitFirst "/" from) as [[a b]|] eqn:E; [|reflexivity].
  unfold isRoomJid, XmppJid.parseJid. rewrite E.
  destruct (splitFirst_some _ _ _ _ E) as [_ Ha].
  rewrite (splitFirst_none "/" a Ha).
  destruct (JS.splitFirst "@" a) as [[l d]|]; unfold XmppJid.newJID;
    destruct (JS.truthy _); reflexivity.
Qed.

(** C4 (amended). For a groupchat stanza the target is the part of [from]
    before its first "/", senderJid is [from], and the target is a room JID
    exactly when [from] is one; when [from] reads room/nick with a single "/"
    the nickname is [nick] and senderJid = target + "/" + nick.  For any other
    stanza type target = senderBareJid. *)
Theorem inbound_target_shape :
  forall from type : string,
    let it := resolveXmppInboundTarget from type in
    (type = "groupchat" ->
       itIsGroup it = true /\
       itTarget it = beforeFirstSlash from /\
       itSenderJid it = from /\
       isRoomJid (itTarget it) = isRoomJid from /\
       (forall room nick,
          JS.splitFirst "/" from = Some (room, nick) ->
          JS.splitFirst "/" nick = None ->
          itSenderNickname it = Some nick /\
          itSenderJid it = itTarget it ++ "/" ++ nick)) /\
    (type <> "groupchat" ->
       itIsGroup it = false /\ itTarget it = itSenderBareJid it).
Proof.
  intros from type it. subst it. unfold resolveXmppInboundTarget. split.
  - intros ->. simpl. rewrite split_head.
    repeat split; [apply isRoomJid_before_slash | |].
    + rewrite (split_splitFirst_some _ _ _ _ H), (split_splitFirst_none _ _ H0).
      reflexivity.
    + unfold beforeFirstSlash. rewrite H.
      now destruct (splitFirst_some _ _ _ _ H) as [-> _].
  - intros Hne. apply String.eqb_neq in Hne. rewrite Hne. now split.
Qed.

Lemma inbound_target_shape_witness :
  let it := resolveXmppInboundTarget "room@conference.localhost/alice" "groupchat" in
  itTarget it = "room@conference.localhost" /\
  itSenderNickname it = Some "alice" /\
  itSenderJid it = itTarget it ++ "/" ++ "alice" /\
  isRoomJid (itTarget it) = true.
Proof.
  destruct (inbound_target_shape "room@conference.localhost/alice" "groupchat")
    as [Hg _].
  destruct (Hg eq_refl) as (_ & Ht & _ & Hr & Hn).
  destruct (Hn "room@conference.localhost" "alice" eq_refl eq_refl) as [Hnick Hj].
  cbv zeta. split; [exact Ht|]. split; [exact Hnick|]. split; [exact Hj|].
  rewrite Hr. reflexivity.
Defined.

(** A stanza from an occupant or resource of a plain lower-case bare JID
    normalizes to that bare JID. *)
Lemma normalizeXmppBareJid_of_plain (from b : string) :
  plainBareJid b = true -> JS.toLowerCase b = b ->
  beforeFirstSlash from = b ->
  normalizeXmppBareJid from = b.
Proof.
  unfold plainBareJid. intros Hp Hlow Hb.
  destruct (JS.splitFirst "@" b) as [[l d]|] eqn:Hs; [|discriminate].
  apply andb_true_iff in Hp as [Hp Hd]. apply andb_true_iff in Hp as [Hp Hl].
  apply andb_true_iff in Hp as [Htl Htd].
  destruct (splitFirst_some _ _ _ _ Hs) as [Hv _].
  assert (Hfrom : exists r, from = fullJid l d r).
  { unfold beforeFirstSlash in Hb.
    destruct (JS.splitFirst "/" from) as [[a x]|] eqn:E.
    - exists (Some x). destruct (splitFirst_some _ _ _ _ E) as [-> _].
      unfold fullJid. rewrite Hb, Hv. now rewrite append_assoc.
    - exists None. unfold fullJid. now rewrite append_empty_r, Hb. }
  destruct Hfrom as [r ->]. unfold normalizeXmppBareJid.
  rewrite (fullJid_parse l d r Hl Hd Htd).
  rewrite (fullJid_bare l d r Hl Hd Htl Htd _ (fullJid_parse l d r Hl Hd Htd)).
  transitivity (JS.toLowerCase b); [|exact Hlow].
  rewrite Hv, toLowerCase_app. reflexivity.
Qed.

(** C5. An event whose bare sender JID, as the callback computes it
    ([normalizeXmppBareJid(event.from)]), equals the account's bare JID
    triggers nothing: no inbound activity is recorded and neither
    [handleXmppInbound] nor a custom [onMessage] is called.  This bare JID is
    the senderBareJid of the message that would have been built when the
    stanza is not a groupchat; for a groupchat stanza the same holds of the
    senderBareJid (the room part of [from]) when the account's bare JID is a
    plain lower-case bare JID. *)
Theorem self_messages_dropped :
  forall account hasClient custom now fid ev,
    (normalizeXmppBareJid (evFrom ev) = bareJid account ->
     monitorOnMessage account hasClient custom now fid ev = []) /\
    (evType ev <> "groupchat" ->
     itSenderBareJid (resolveXmppInboundTarget (evFrom ev) (evType ev))
       = bareJid account ->
     monitorOnMessage account hasClient custom now fid ev = []) /\
    (evType ev = "groupchat" ->
     plainBareJid (bareJid account) = true ->
     JS.toLowerCase (bareJid account) = bareJid account ->
     itSenderBareJid (resolveXmppInboundTarget (evFrom ev) (evType ev))
       = bareJid account ->
     monitorOnMessage account hasClient custom now fid ev = []).
Proof.
  intros account hasClient custom now fid ev.
  assert (Hself : normalizeXmppBareJid (evFrom ev) = bareJid account ->
                  monitorOnMessage account hasClient custom now fid ev = []).
  { intros H. unfold monitorOnMessage. rewrite H, String.eqb_refl.
    now destruct (negb hasClient). }
  split; [exact Hself|]. split.
  - intros Hne Hb. apply Hself. unfold resolveXmppInboundTarget in Hb.
    apply String.eqb_neq in Hne. now rewrite Hne in Hb.
  - intros Hty Hp Hlow Hb. apply Hself.
    unfold resolveXmppInboundTarget in Hb. rewrite Hty in Hb. simpl in Hb.
    rewrite split_head in Hb. now apply normalizeXmppBareJid_of_plain.
Qed.

Lemma self_messages_dropped_witness :
  normalizeXmppBareJid (evFrom selfEvent) = "agent@localhost" /\
  monitorOnMessage (agentAccount emptyAccountConfig) true false 0%Z "fresh" selfEvent = [].
Proof.
  split; [reflexivity|].
  destruct (self_messages_dropped (agentAccount emptyAccountConfig) true false
              0%Z "fresh" selfEvent) as [Hself _].
  apply Hself. reflexivity.
Defined.

(* ------------------------------------------------------------------ *)
(** ** policy.ts: room match and group access gate *)

Lemma setHas_In (x : string) (l : list string) : JS.setHas x l = true <-> In x l.
Proof.
  unfold JS.setHas. rewrite existsb_exists. split.
  - intros (y & Hy & E). apply String.eqb_eq in E. now subst.
  - intros H. exists x. split; [exact H | apply String.eqb_refl].
Qed.

Lemma isInherited_In (k : string) :
  JS.isInherited k = true <-> In k JS.OBJECT_PROTOTYPE_KEYS.
Proof. apply setHas_In. Qed.

Lemma isInherited_not_In (k : string) :
  JS.isInherited k = false <-> ~ In k JS.OBJECT_PROTOTYPE_KEYS.
Proof.
  rewrite <- isInherited_In. destruct (JS.isInherited k); split; congruence.
Qed.

Lemma roomsGet_in_keys (rs : Rooms) (k : string) :
  In k (roomsKeys rs) -> exists c, roomsGet rs k = Some c.
Proof.
  induction rs as [|[k' v] rest IH]; simpl; [contradiction|].
  destruct (String.eqb k' k) eqn:E; [eauto|].
  intros [->|H]; [now rewrite String.eqb_refl in E | auto].
Qed.

Lemma roomsGet_some_key (rs : Rooms) (k : string) (c : XmppRoomConfig) :
  roomsGet rs k = Some c -> In k (roomsKeys rs).
Proof.
  induction rs as [|[k' v] rest IH]; simpl; [discriminate|].
  destruct (String.eqb k' k) eqn:E.
  - apply String.eqb_eq in E. now left.
  - intros H. right. now apply IH.
Qed.

Lemma roomsGet_absent (rs : Rooms) (k : string) :
  ~ In k (roomsKeys rs) -> roomsGet rs k = None.
Proof.
  intros H. destruct (roomsGet rs k) as [c|] eqn:E; [|reflexivity].
  elim H. eapply roomsGet_some_key; eauto.
Qed.

(** With pairwise distinct keys, the own property under a key is the one
    and only entry with that key. *)
Lemma roomsGet_entry (rs : Rooms) (k : string) (c : XmppRoomConfig) :
  NoDup (roomsKeys rs) -> In (k, c) rs -> roomsGet rs k = Some c.
Proof.
  induction rs as [|[k' v] rest IH]; simpl; [contradiction|].
  intros Hnd [H|H].
  - injection H as -> ->. now rewrite String.eqb_refl.
  - inversion Hnd as [|? ? Hnotin Hrest]; subst.
    destruct (String.eqb k' k) eqn:E; [|now apply IH].
    apply String.eqb_eq in E. subst k'. elim Hnotin.
    apply in_map_iff. now exists (k, c).
Qed.

Lemma roomsRead_own (rs : Rooms) (k : string) (c : XmppRoomConfig) :
  roomsGet rs k = Some c -> roomsRead rs k = Some c.
Proof. unfold roomsRead. now intros ->. Qed.

Lemma roomsRead_plain (rs : Rooms) (k : string) :
  JS.isInherited k = false -> roomsRead rs k = roomsGet rs k.
Proof. unfold roomsRead. intros ->. now destruct (roomsGet rs k). Qed.

Lemma roomsRead_wildcard (rs : Rooms) : roomsRead rs "*" = roomsGet rs "*".
Proof. now apply roomsRead_plain. Qed.

Lemma roomsRead_inherited (rs : Rooms) (k : string) :
  JS.isInherited k = true -> roomsGet rs k = None ->
  roomsRead rs k = Some inheritedProperty.
Proof. unfold roomsRead. now intros -> ->. Qed.

Lemma roomsRead_none (rs : Rooms) (k : string) :
  roomsRead rs k = None -> roomsGet rs k = None /\ JS.isInherited k = false.
Proof.
  unfold roomsRead. destruct (roomsGet rs k); [discriminate|].
  destruct (JS.isInherited k); [discriminate | now split].
Qed.

Lemma toLowerCase_empty (s : string) : JS.toLowerCase s = "" -> s = "".
Proof. destruct s; [reflexivity | discriminate]. Qed.

Lemma hasConfiguredRooms_spec (ro : option Rooms) (tgt : string) :
  hasConfiguredRooms (resolveXmppRoomMatch ro tgt)
  = match roomsOf ro with [] => false | _ => true end.
Proof.
  unfold resolveXmppRoomMatch. fold (roomsOf ro).
  assert (E : (0 <? List.length (roomsKeys (roomsOf ro)))
              = match roomsOf ro with [] => false | _ => true end)
    by (destruct (roomsOf ro); reflexivity).
  destruct (roomsRead (roomsOf ro) tgt); [exact E|].
  destruct (find _ _) as [k|]; [destruct (JS.truthy k);
    [destruct (roomsRead (roomsOf ro) k); [exact E|]|]|];
    destruct (roomsRead (roomsOf ro) "*"); exact E.
Qed.

Lemma roomMatch_wildcard (ro : option Rooms) (tgt : string) :
  wildcardConfig (resolveXmppRoomMatch ro tgt) = roomsGet (roomsOf ro) "*".
Proof.
  unfold resolveXmppRoomMatch. fold (roomsOf ro). rewrite roomsRead_wildcard.
  destruct (roomsRead (roomsOf ro) tgt); [reflexivity|].
  destruct (find _ _) as [k|]; [destruct (JS.truthy k); [destruct (roomsRead (roomsOf ro) k)|]|];
    try reflexivity; now destruct (roomsGet (roomsOf ro) "*").
Qed.

(** The direct read: whatever [rooms[target]] finds is the room config. *)
Lemma roomMatch_direct (ro : option Rooms) (tgt : string) (c : XmppRoomConfig) :
  roomsRead (roomsOf ro) tgt = Some c ->
  roomAllowed (resolveXmppRoomMatch ro tgt) = true /\
  roomConfig (resolveXmppRoomMatch ro tgt) = Some c.
Proof.
  intros H. unfold resolveXmppRoomMatch. fold (roomsOf ro). rewrite H. now split.
Qed.

(** The key the case-insensitive search finds. *)
Lemma roomMatch_found (ro : option Rooms) (tgt key : string) :
  roomsRead (roomsOf ro) tgt = None ->
  find (fun k => String.eqb (JS.toLowerCase k) (JS.toLowerCase tgt))
       (roomsKeys (roomsOf ro)) = Some key ->
  roomAllowed (resolveXmppRoomMatch ro tgt) = true /\
  roomConfig (resolveXmppRoomMatch ro tgt) = roomsGet (roomsOf ro) key /\
  roomsGet (roomsOf ro) key <> None.
Proof.
  intros Hd Hf. pose proof Hf as Hf'.
  apply find_some in Hf' as [Hin Heq]. apply String.eqb_eq in Heq.
  destruct (roomsGet_in_keys _ _ Hin) as [c Hc].
  assert (Hk : JS.truthy key = true).
  { destruct (JS.truthy key) eqn:Hk; [reflexivity|].
    apply truthy_false in Hk. subst key. simpl in Heq.
    symmetry in Heq. apply toLowerCase_empty in Heq. subst tgt.
    apply roomsRead_none in Hd as [Hd _]. congruence. }
  unfold resolveXmppRoomMatch. fold (roomsOf ro).
  rewrite Hd, Hf, Hk, (roomsRead_own _ _ _ Hc), Hc. repeat split. discriminate.
Qed.

Lemma roomMatch_not_found (ro : option Rooms) (tgt : string) :
  roomsRead (roomsOf ro) tgt = None ->
  find (fun k => String.eqb (JS.toLowerCase k) (JS.toLowerCase tgt))
       (roomsKeys (roomsOf ro)) = None ->
  roomConfig (resolveXmppRoomMatch ro tgt) = None /\
  roomAllowed (resolveXmppRoomMatch ro tgt)
  = match roomsGet (roomsOf ro) "*" with Some _ => true | None => false end.
Proof.
  intros Hd Hf. unfold resolveXmppRoomMatch. fold (roomsOf ro).
  rewrite Hd, Hf, roomsRead_wildcard. now destruct (roomsGet (roomsOf ro) "*").
Qed.

(** No key matches, exactly or up to case, and the target is not the name of
    an inherited property: only the wildcard is left. *)
Lemma roomMatch_unmatched (ro : option Rooms) (tgt : string) :
  (forall key, In key (roomsKeys (roomsOf ro)) ->
               JS.toLowerCase key <> JS.toLowerCase tgt) ->
  ~ In tgt JS.OBJECT_PROTOTYPE_KEYS ->
  roomAllowed (resolveXmppRoomMatch ro tgt)
  = match roomsGet (roomsOf ro) "*" with Some _ => true | None => false end /\
  roomConfig (resolveXmppRoomMatch ro tgt) = None.
Proof.
  intros Hci Hproto.
  assert (Hd : roomsRead (roomsOf ro) tgt = None).
  { rewrite roomsRead_plain by now apply isInherited_not_In.
    apply roomsGet_absent. intros Hin. now apply (Hci tgt Hin). }
  assert (Hf : find (fun k => String.eqb (JS.toLowerCase k) (JS.toLowerCase tgt))
                    (roomsKeys (roomsOf ro)) = None).
  { destruct (find _ _) as [k|] eqn:F; [|reflexivity].
    apply find_some in F as [Hin Heq]. apply String.eqb_eq in Heq.
    now apply Hci in Hin. }
  destruct (roomMatch_not_found ro tgt Hd Hf) as [Hc Ha]. now split.
Qed.

Lemma roomMatch_matched (ro : option Rooms) (tgt : string) :
  (exists key, In key (roomsKeys (roomsOf ro)) /\
               JS.toLowerCase key = JS.toLowerCase tgt) \/
  In tgt JS.OBJECT_PROTOTYPE_KEYS \/
  roomsGet (roomsOf ro) "*" <> None ->
  roomAllowed (resolveXmppRoomMatch ro tgt) = true.
Proof.
  intros H.
  destruct (roomsRead (roomsOf ro) tgt) as [c|] eqn:Hd;
    [now apply (roomMatch_direct ro tgt c)|].
  destruct (find (fun k => String.eqb (JS.toLowerCase k) (JS.toLowerCase tgt))
                 (roomsKeys (roomsOf ro))) as [k|] eqn:F;
    [now apply (roomMatch_found ro tgt k)|].
  destruct (roomMatch_not_found ro tgt Hd F) as [_ ->].
  destruct H as [(key & Hin & Heq)|[H|H]].
  - eapply find_none in F; [|exact Hin]. simpl in F.
    rewrite Heq, String.eqb_refl in F. discriminate.
  - apply roomsRead_none in Hd as [_ Hd]. apply isInherited_In in H. congruence.
  - destruct (roomsGet (roomsOf ro) "*"); [reflexivity | now elim H].
Qed.

(** The name of an inherited property that the map does not own is always
    matched: the room config is the inherited value. *)
Lemma roomMatch_inherited (ro : option Rooms) (tgt : string) :
  In tgt JS.OBJECT_PROTOTYPE_KEYS -> ~ In tgt (roomsKeys (roomsOf ro)) ->
  roomAllowed (resolveXmppRoomMatch ro tgt) = true /\
  roomConfig (resolveXmppRoomMatch ro tgt) = Some inheritedProperty.
Proof.
  intros Hp Hk. apply roomMatch_direct, roomsRead_inherited.
  - now apply isInherited_In.
  - now apply roomsGet_absent.
Qed.

(** The entry stored under the target itself is the room config. *)
Lemma roomMatch_exact (ro : option Rooms) (tgt : string) (c : XmppRoomConfig) :
  roomsGet (roomsOf ro) tgt = Some c ->
  roomConfig (resolveXmppRoomMatch ro tgt) = Some c /\
  wildcardConfig (resolveXmppRoomMatch ro tgt) = roomsGet (roomsOf ro) "*".
Proof.
  intros H. split; [|apply roomMatch_wildcard].
  now apply roomMatch_direct, roomsRead_own.
Qed.

Section GateDecisions.

Variable gp : option GroupPolicy.
Variable rm : XmppRoomMatch.

Lemma gate_disabled :
  gp = Some GroupDisabled ->
  resolveXmppGroupAccessGate gp rm
  = {| gateAllowed := false; gateReason := "groupPolicy=disabled" |}.
Proof. now intros ->. Qed.

Lemma gate_no_rooms :
  gp = None \/ gp = Some GroupAllowlist -> hasConfiguredRooms rm = false ->
  resolveXmppGroupAccessGate gp rm
  = {| gateAllowed := false;
       gateReason := "groupPolicy=allowlist and no rooms configured" |}.
Proof.
  unfold resolveXmppGroupAccessGate. now intros [-> | ->] ->.
Qed.

Lemma gate_not_allowlisted :
  gp = None \/ gp = Some GroupAllowlist -> hasConfiguredRooms rm = true ->
  roomAllowed rm = false ->
  resolveXmppGroupAccessGate gp rm
  = {| gateAllowed := false; gateReason := "not allowlisted" |}.
Proof.
  unfold resolveXmppGroupAccessGate. now intros [-> | ->] -> ->.
Qed.

(** [c?.enabled === false] *)
Lemma enabledIsFalse_iff (o : option XmppRoomConfig) :
  enabledIsFalse o = true <-> exists c, o = Some c /\ roomEnabled c = Some false.
Proof.
  unfold enabledIsFalse. split.
  - destruct o as [c|]; [|discriminate].
    destruct (roomEnabled c) as [[]|] eqn:E; try discriminate. intros _. now exists c.
  - intros (c & -> & ->). reflexivity.
Qed.

Lemma gate_config_disabled (c : XmppRoomConfig) :
  roomConfig rm = Some c \/ wildcardConfig rm = Some c ->
  roomEnabled c = Some false ->
  gateAllowed (resolveXmppGroupAccessGate gp rm) = false.
Proof.
  intros Hc He.
  assert (Hd : enabledIsFalse (roomConfig rm) || enabledIsFalse (wildcardConfig rm) = true).
  { apply orb_true_iff. destruct Hc as [Hc|Hc]; [left|right];
      apply enabledIsFalse_iff; now exists c. }
  unfold resolveXmppGroupAccessGate. rewrite Hd.
  destruct gp as [[]|]; cbn; try reflexivity;
    destruct (hasConfiguredRooms rm), (roomAllowed rm); reflexivity.
Qed.

Lemma gate_enabled :
  (forall c, roomConfig rm = Some c -> roomEnabled c <> Some false) ->
  (forall c, wildcardConfig rm = Some c -> roomEnabled c <> Some false) ->
  enabledIsFalse (roomConfig rm) || enabledIsFalse (wildcardConfig rm) = false.
Proof.
  intros Hr Hw. apply orb_false_iff. split.
  - destruct (enabledIsFalse (roomConfig rm)) eqn:E; [|reflexivity].
    apply enabledIsFalse_iff in E as (c & Hc & He). now elim (Hr c Hc).
  - destruct (enabledIsFalse (wildcardConfig rm)) eqn:E; [|reflexivity].
    apply enabledIsFalse_iff in E as (c & Hc & He). now elim (Hw c Hc).
Qed.

Lemma gate_open :
  gp = Some GroupOpen ->
  (forall c, roomConfig rm = Some c -> roomEnabled c <> Some false) ->
  (forall c, wildcardConfig rm = Some c -> roomEnabled c <> Some false) ->
  resolveXmppGroupAccessGate gp rm = {| gateAllowed := true; gateReason := "open" |}.
Proof.
  intros -> Hr Hw. unfold resolveXmppGroupAccessGate. now rewrite (gate_enabled Hr Hw).
Qed.

Lemma gate_allowlisted :
  gp = None \/ gp = Some GroupAllowlist -> hasConfiguredRooms rm = true ->
  roomAllowed rm = true ->
  (forall c, roomConfig rm = Some c -> roomEnabled c <> Some false) ->
  (forall c, wildcardConfig rm = Some c -> roomEnabled c <> Some false) ->
  resolveXmppGroupAccessGate gp rm
  = {| gateAllowed := true; gateReason := "allowlisted" |}.
Proof.
  intros Hp Hh Ha Hr Hw. unfold resolveXmppGroupAccessGate.
  rewrite (gate_enabled Hr Hw), Hh, Ha. now destruct Hp as [-> | ->].
Qed.

End GateDecisions.

(* ------------------------------------------------------------------ *)
(** ** inbound.ts: what a run can contain *)

Lemma existsb_filter_nil {A} (p : A -> bool) (l : list A) :
  existsb p l = false -> filter p l = [].
Proof.
  induction l as [|x l IH]; [reflexivity|]. cbn.
  destruct (p x); [discriminate|]. exact IH.
Qed.

Section Runs.

Context {Store : Type}.
Variable h : Host Store.
Variable cfg : PipelineConfig.
Variable account : ResolvedXmppAccount.
Variable client : option bool.
Variable freshId : string.

(** Sending, delivering and the dispatcher's callbacks produce stanzas,
    activity records, status updates and error lines and nothing else. *)
Section Silent.

Variable p : Effect -> bool.
Hypothesis p_send : forall live to body ty, p (SendStanza live to body ty) = false.
Hypothesis p_activity : forall a, p (ActivityOutbound a) = false.
Hypothesis p_status : p StatusOutbound = false.
Hypothesis p_error : forall line, p (LogError line) = false.

Lemma send_silent to body opts :
  existsb p (snd (sendMessageXmpp h account freshId to body opts)) = false.
Proof.
  unfold sendMessageXmpp.
  destruct (negb (configured account)); [reflexivity|].
  destruct (prepareSend h to body opts) as [e|[[tgt payload] ty]]; [reflexivity|].
  match goal with |- context [match ?c with SendFailed _ => _ | SendOk _ => _ end] =>
    destruct c end; [reflexivity|].
  cbn. now rewrite p_send, p_activity.
Qed.

Lemma deliver_silent payload tgt :
  existsb p (snd (deliverXmppReply h account freshId payload tgt client)) = false.
Proof.
  unfold deliverXmppReply.
  match goal with |- context [if ?c then (None, []) else _] => destruct c end;
    [reflexivity|].
  destruct client.
  - destruct (liveSend _ _ _ _); [reflexivity|]. cbn. now rewrite p_send, p_status.
  - match goal with |- context [sendMessageXmpp h account freshId ?a ?b ?c] =>
      pose proof (send_silent a b c) as Hs;
      destruct (sendMessageXmpp h account freshId a b c) as [[e|res] effs]
    end; simpl in *; [exact Hs|].
    rewrite existsb_app, Hs. cbn. now rewrite p_status.
Qed.

Lemma dispatcher_silent peer d :
  existsb p (fst (runDispatcher h account client freshId peer d)) = false.
Proof.
  induction d as [ok|payload next IH|err kind next IH]; cbn [runDispatcher].
  - reflexivity.
  - pose proof (deliver_silent payload peer) as Hd.
    destruct (deliverXmppReply h account freshId payload peer client) as [err effs].
    specialize (IH err).
    destruct (runDispatcher h account client freshId peer (next err)) as [rest ok].
    cbn in *. now rewrite existsb_app, Hd, IH.
  - destruct (runDispatcher h account client freshId peer next) as [rest ok].
    cbn in *. now rewrite p_error, IH.
Qed.

Lemma record_errors_silent (errs : list string) :
  existsb p (map (fun err => LogError ("xmpp: failed updating session meta: " ++ err))
                 errs) = false.
Proof.
  induction errs as [|e l IH]; [reflexivity|]. cbn [map existsb].
  now rewrite p_error, IH.
Qed.

Lemma pairing_silent m st :
  (forall channel id name, p (PairingUpsert channel id name) = false) ->
  existsb p (effects (pairingChallenge h account client freshId m st)) = false.
Proof.
  intros p_upsert. unfold pairingChallenge.
  destruct (upsertPairingRequest _ _ _ _ _) as [[[code created] st']|];
    [|cbn; now rewrite p_upsert].
  cbn [effects existsb]. rewrite p_upsert. cbn [orb].
  destruct created; [|reflexivity].
  destruct (buildPairingReply _ _ _); [cbn; now rewrite p_error|].
  pose proof (deliver_silent
    {| payloadText := Some s; payloadMediaUrls := None;
       payloadMediaUrl := None; payloadReplyToId := None |} (senderBareJid m)) as Hd.
  destruct (deliverXmppReply _ _ _ _ _ _) as [[err|] effs]; simpl in Hd; [|exact Hd].
  rewrite existsb_app, Hd. cbn. now rewrite p_error.
Qed.

End Silent.

Lemma pairing_no_dispatch m st :
  existsb isDispatch (effects (pairingChallenge h account client freshId m st)) = false.
Proof. now apply pairing_silent. Qed.

Lemma pairing_no_session m st :
  existsb isSessionRecord (effects (pairingChallenge h account client freshId m st)) = false.
Proof. now apply pairing_silent. Qed.

Lemma pairing_upserts m st :
  In (PairingUpsert CHANNEL_ID (JS.toLowerCase (senderBareJid m)) (senderBareJid m))
     (effects (pairingChallenge h account client freshId m st)).
Proof.
  unfold pairingChallenge.
  destruct (upsertPairingRequest _ _ _ _ _) as [[[code created] st']|]; now left.
Qed.

Lemma pairing_outcome m st :
  let r := pairingChallenge h account client freshId m st in
  match upsertPairingRequest h CHANNEL_ID (JS.toLowerCase (senderBareJid m)) (senderBareJid m) st with
  | None => fulfilled r = false /\ finalStore r = st /\ existsb isSend (effects r) = false
  | Some (code, created, st') =>
      fulfilled r = true /\ finalStore r = st' /\
      (created = false ->
       effects r = [PairingUpsert CHANNEL_ID (JS.toLowerCase (senderBareJid m)) (senderBareJid m)])
  end.
Proof.
  unfold pairingChallenge.
  destruct (upsertPairingRequest _ _ _ _ _) as [[[code created] st']|]; simpl.
  - repeat split. now intros ->.
  - repeat split.
Qed.

Lemma pairing_send_created m st :
  existsb isSend (effects (pairingChallenge h account client freshId m st)) = true ->
  exists code st',
    upsertPairingRequest h CHANNEL_ID (JS.toLowerCase (senderBareJid m)) (senderBareJid m) st
    = Some (code, true, st').
Proof.
  pose proof (pairing_outcome m st) as H. cbv zeta in H.
  destruct (upsertPairingRequest _ _ _ _ _) as [[[code created] st']|].
  - destruct created; [eauto|]. destruct H as (_ & _ & H).
    rewrite (H eq_refl). discriminate.
  - destruct H as (_ & _ & H). rewrite H. discriminate.
Qed.

(** *** The agent stage *)

(** The stage starts by recording the session and reports every error of
    the recording; when the recording is rejected it ends there, rejected;
    otherwise it dispatches once, and what follows is what the dispatcher
    has delivered or reported. *)
Lemma route_shape m body wasMentioned commandAuthorized rm :
  let routed := routeToAgent h account client freshId m body wasMentioned
                             commandAuthorized rm in
  exists storePath sessionKey ctx errs recorded,
    recordInboundSession h storePath sessionKey ctx = (errs, recorded) /\
    let recording :=
      SessionRecord storePath sessionKey ctx
      :: map (fun err => LogError ("xmpp: failed updating session meta: " ++ err)) errs in
    (recorded = false -> routed = (recording, false)) /\
    (recorded = true ->
     exists skillFilter disableBlockStreaming,
       let run := runDispatcher h account client freshId (target m)
                    (dispatchReplyWithBufferedBlockDispatcher h ctx skillFilter
                                                              disableBlockStreaming) in
       routed = ((recording ++ AgentDispatch ctx skillFilter disableBlockStreaming
                            :: fst run)%list, snd run)).
Proof.
  cbv zeta. unfold routeToAgent.
  match goal with |- context [recordInboundSession h ?a ?b ?c] =>
    exists a, b, c; destruct (recordInboundSession h a b c) as [errs recorded] eqn:E
  end.
  exists errs, recorded. split; [reflexivity|]. split; intros ->; cbn [negb].
  - reflexivity.
  - match goal with |- context [runDispatcher h account client freshId _ ?d] =>
      destruct (runDispatcher h account client freshId (target m) d) as [delivered ok] eqn:R
    end.
    eexists _, _. rewrite R. reflexivity.
Qed.

Lemma route_head m body wasMentioned commandAuthorized rm :
  exists storePath sessionKey ctx rest,
    fst (routeToAgent h account client freshId m body wasMentioned commandAuthorized rm)
    = SessionRecord storePath sessionKey ctx :: rest.
Proof.
  destruct (route_shape m body wasMentioned commandAuthorized rm)
    as (sp & sk & ctx & errs & recorded & _ & Hno & Hyes).
  exists sp, sk, ctx. destruct recorded.
  - destruct (Hyes eq_refl) as (sf & dbs & ->). cbn. eauto.
  - rewrite (Hno eq_refl). cbn. eauto.
Qed.

Lemma route_records m body wasMentioned commandAuthorized rm :
  existsb isSessionRecord
    (fst (routeToAgent h account client freshId m body wasMentioned commandAuthorized rm))
  = true.
Proof.
  destruct (route_head m body wasMentioned commandAuthorized rm)
    as (sp & sk & ctx & rest & ->). reflexivity.
Qed.

Lemma route_no_upsert m body wasMentioned commandAuthorized rm :
  existsb isUpsert
    (fst (routeToAgent h account client freshId m body wasMentioned commandAuthorized rm))
  = false.
Proof.
  destruct (route_shape m body wasMentioned commandAuthorized rm)
    as (sp & sk & ctx & errs & recorded & _ & Hno & Hyes).
  destruct recorded.
  - destruct (Hyes eq_refl) as (sf & dbs & ->). cbn [fst app existsb isUpsert orb].
    rewrite existsb_app, (record_errors_silent isUpsert) by reflexivity.
    cbn [existsb isUpsert orb]. now apply dispatcher_silent.
  - rewrite (Hno eq_refl). cbn [fst existsb isUpsert orb].
    now apply record_errors_silent.
Qed.

Lemma route_dispatch_once m body wasMentioned commandAuthorized rm :
  List.length (filter isDispatch
    (fst (routeToAgent h account client freshId m body wasMentioned commandAuthorized rm)))
  <= 1.
Proof.
  destruct (route_shape m body wasMentioned commandAuthorized rm)
    as (sp & sk & ctx & errs & recorded & _ & Hno & Hyes).
  destruct recorded.
  - destruct (Hyes eq_refl) as (sf & dbs & ->). cbn [fst app filter isDispatch].
    rewrite filter_app.
    rewrite (existsb_filter_nil isDispatch (map _ errs))
      by now apply record_errors_silent.
    cbn [app filter isDispatch].
    rewrite (existsb_filter_nil isDispatch (fst (runDispatcher _ _ _ _ _ _)))
      by now apply dispatcher_silent.
    cbn. lia.
  - rewrite (Hno eq_refl). cbn [fst filter isDispatch].
    rewrite (existsb_filter_nil isDispatch (map _ errs))
      by now apply record_errors_silent.
    cbn. lia.
Qed.

End Runs.

Section Pipeline.

Context {Store : Type}.
Variable h : Host Store.
Variable cfg : PipelineConfig.
Variable account : ResolvedXmppAccount.
Variable client : option bool.
Variable freshId : string.

Let handle := handleXmppInbound h cfg account client freshId.
Let challenge := pairingChallenge h account client freshId.
Let enforce := enforceDmPolicy h account client freshId.

(** The agent stage of the run of [m]. *)
Let routed m st :=
  routeToAgent h account client freshId m (JS.trim (text m))
    (wasMentionedIn h account (JS.trim (text m)))
    (fst (commandGateOf h cfg account m st)) (roomMatchOf account m).

Lemma handle_blank m st :
  JS.truthy (JS.trim (text m)) = false ->
  handle m st = {| effects := []; finalStore := st; fulfilled := true |}.
Proof. intros H. unfold handle, handleXmppInbound. now rewrite H. Qed.

Lemma mentionGate_direct m st :
  isGroup m = false -> shouldSkip (mentionGateOf h cfg account m st) = false.
Proof.
  intros H. unfold mentionGateOf, mentionStage, resolveXmppMentionGate.
  now rewrite H.
Qed.

Lemma handle_direct m st :
  isGroup m = false -> JS.truthy (JS.trim (text m)) = true ->
  handle m st =
  match enforce m st with
  | inr r => {| effects := StatusInbound (timestamp m) :: effects r;
                finalStore := finalStore r; fulfilled := fulfilled r |}
  | inl _ =>
      {| effects := StatusInbound (timestamp m) :: fst (routed m st);
         finalStore := st; fulfilled := snd (routed m st) |}
  end.
Proof.
  intros Hg Hb. unfold handle, handleXmppInbound.
  rewrite Hb, Hg. cbn [negb andb]. fold (enforce m st).
  destruct (enforce m st); [|reflexivity].
  now rewrite (mentionGate_direct m st Hg).
Qed.

Lemma handle_group m st :
  isGroup m = true -> JS.truthy (JS.trim (text m)) = true ->
  handle m st =
  let seen := StatusInbound (timestamp m) in
  let done effs := {| effects := seen :: effs; finalStore := st; fulfilled := true |} in
  if negb (gateAllowed (groupAccessOf cfg account m))
  then done [Log ("xmpp: drop room " ++ target m ++ " ("
                  ++ gateReason (groupAccessOf cfg account m) ++ ")")]
  else if negb (groupSenderAllowedOf h cfg account m st)
  then done [Log ("xmpp: drop group sender " ++ senderDisplayOf m ++ " (policy="
                  ++ groupPolicyName (effectiveGroupPolicy cfg account) ++ ")")]
  else if snd (commandGateOf h cfg account m st)
  then done [LogInboundDrop "control command (unauthorized)" (senderDisplayOf m)]
  else if shouldSkip (mentionGateOf h cfg account m st)
  then done [Log ("xmpp: drop room " ++ target m ++ " ("
                  ++ mentionReason (mentionGateOf h cfg account m st) ++ ")")]
  else {| effects := seen :: fst (routed m st);
          finalStore := st; fulfilled := snd (routed m st) |}.
Proof.
  intros Hg Hb. unfold handle, handleXmppInbound.
  rewrite Hb, Hg. cbn [negb andb].
  destruct (gateAllowed (groupAccessOf cfg account m)); cbn [negb]; [|reflexivity].
  destruct (groupSenderAllowedOf h cfg account m st); cbn [negb]; [|reflexivity].
  destruct (snd (commandGateOf h cfg account m st)); [reflexivity|].
  destruct (shouldSkip (mentionGateOf h cfg account m st)); reflexivity.
Qed.

(** A run either leaves the store alone and sends no pairing reply, or it is
    the run of a pairing challenge. *)
Lemma handle_shape m st :
  (sentPairingReply (effects (handle m st)) = false /\ finalStore (handle m st) = st) \/
  (isGroup m = false /\ effectiveDmPolicy account = DmPairing /\
   finalStore (handle m st) = finalStore (challenge m st) /\
   sentPairingReply (effects (handle m st)) = existsb isSend (effects (challenge m st))).
Proof.
  assert (Hrouted : sentPairingReply (StatusInbound (timestamp m) :: fst (routed m st))
                    = false).
  { unfold sentPairingReply. cbn [existsb isSend isSessionRecord orb].
    unfold routed. rewrite route_records. apply andb_false_r. }
  destruct (JS.truthy (JS.trim (text m))) eqn:Hb;
    [|rewrite (handle_blank m st Hb); now left].
  destruct (isGroup m) eqn:Hg.
  - left. rewrite (handle_group m st Hg Hb). cbv zeta.
    repeat match goal with |- context [if ?c then _ else _] => destruct c end;
      cbn [effects finalStore]; (split; [first [reflexivity | exact Hrouted] | reflexivity]).
  - rewrite (handle_direct m st Hg Hb). unfold enforce, enforceDmPolicy.
    destruct (effectiveDmPolicy account) eqn:Hp.
    + destruct (matchAllowed _); [left; now split|].
      right. fold (challenge m st).
      pose proof (pairing_no_session h account client freshId m st) as Hns.
      fold (challenge m st) in Hns.
      destruct (fulfilled (challenge m st)); cbn [effects finalStore];
        repeat split; unfold sentPairingReply; cbn [existsb isSend isSessionRecord orb].
      * rewrite !existsb_app, Hns. cbn. now rewrite !orb_false_r, andb_true_r.
      * rewrite Hns. now rewrite andb_true_r.
    + destruct (matchAllowed _); left; now split.
    + left; now split.
    + left; now split.
Qed.

Section Contract.

Variable pending : Store -> string -> bool.
Hypothesis contract : PairingStoreContract h pending.

Lemma challenge_mono m st x :
  pending st x = true -> pending (finalStore (challenge m st)) x = true.
Proof.
  intros Hx. pose proof (pairing_outcome h account client freshId m st) as H.
  cbv zeta in H. fold (challenge m st) in H.
  destruct (upsertPairingRequest _ _ _ _ _) as [[[code created] st']|] eqn:E.
  - destruct H as (_ & -> & _). now apply (contract _ _ _ _ _ _ E).
  - destruct H as (_ & -> & _). exact Hx.
Qed.

Lemma handle_mono m st x :
  pending st x = true -> pending (finalStore (handle m st)) x = true.
Proof.
  intros Hx. destruct (handle_shape m st) as [[_ ->]|(_ & _ & -> & _)];
    [exact Hx | now apply challenge_mono].
Qed.

Lemma handle_reply m st :
  sentPairingReply (effects (handle m st)) = true ->
  pending st (JS.toLowerCase (senderBareJid m)) = false /\
  pending (finalStore (handle m st)) (JS.toLowerCase (senderBareJid m)) = true.
Proof.
  intros Hs. destruct (handle_shape m st) as [[Hn _]|(_ & _ & Hst & Heq)];
    [rewrite Hn in Hs; discriminate|].
  rewrite Heq in Hs. rewrite Hst.
  destruct (pairing_send_created h account client freshId m st Hs) as (code & st' & E).
  pose proof (pairing_outcome h account client freshId m st) as H.
  cbv zeta in H. rewrite E in H. destruct H as (_ & H & _).
  fold (challenge m st) in H. rewrite H.
  destruct (contract _ _ _ _ _ _ E) as (Hc & Hp & _). auto.
Qed.

Lemma no_reply_once_pending id msgs st :
  pending st id = true ->
  pairingRepliesTo h cfg account client freshId id msgs st = 0.
Proof.
  revert st. induction msgs as [|m rest IH]; intros st Hp; simpl; [reflexivity|].
  fold (handle m st). rewrite (IH _ (handle_mono m st id Hp)).
  destruct (String.eqb (JS.toLowerCase (senderBareJid m)) id) eqn:E; [|reflexivity].
  apply String.eqb_eq in E. subst id.
  destruct (sentPairingReply (effects (handle m st))) eqn:Hs; [|reflexivity].
  destruct (handle_reply m st Hs) as [Hf _]. rewrite Hf in Hp. discriminate.
Qed.

Lemma at_most_one_reply id msgs st :
  pairingRepliesTo h cfg account client freshId id msgs st <= 1.
Proof.
  revert st. induction msgs as [|m rest IH]; intros st; simpl; [lia|].
  fold (handle m st).
  destruct (String.eqb (JS.toLowerCase (senderBareJid m)) id) eqn:E; simpl; [|apply IH].
  destruct (sentPairingReply (effects (handle m st))) eqn:Hs; [|apply IH].
  apply String.eqb_eq in E. subst id.
  destruct (handle_reply m st Hs) as [_ Hp].
  rewrite (no_reply_once_pending _ rest _ Hp). lia.
Qed.

End Contract.

End Pipeline.

(* ------------------------------------------------------------------ *)
(** ** Allowlist matching *)

Lemma allowlist_match_iff (allowFromList : list string) (m : XmppInboundMessage) :
  matchAllowed (resolveXmppAllowlistMatch allowFromList m) = true <->
  In "*" (allowEntries allowFromList) \/
  exists c, In c (buildXmppAllowlistCandidates m) /\ In c (allowEntries allowFromList).
Proof.
  unfold resolveXmppAllowlistMatch. fold (allowEntries allowFromList).
  destruct (JS.setHas "*" (allowEntries allowFromList)) eqn:W.
  - split; [|reflexivity]. intros _. left. now apply setHas_In.
  - destruct (find _ _) as [c|] eqn:F; simpl.
    + split; [|reflexivity]. intros _. right.
      apply find_some in F as [Hin Hc]. exists c. split; [exact Hin|].
      now apply setHas_In.
    + split; [discriminate|]. intros [H|(c & Hin & Hc)].
      * apply setHas_In in H. rewrite H in W. discriminate.
      * eapply find_none in F; [|exact Hin]. simpl in F.
        apply setHas_In in Hc. rewrite Hc in F. discriminate.
Qed.

Lemma normalizeXmppAllowlist_truthy (o : option (list string)) (x : string) :
  In x (normalizeXmppAllowlist o) -> JS.truthy x = true.
Proof. unfold normalizeXmppAllowlist. intros H. now apply filter_In in H. Qed.

(** The effective DM allowlist is the account's [allowFrom] together with
    the pairing store. *)
Lemma effectiveAllowFrom_spec {Store} (h : Host Store) account st x :
  In x (effectiveAllowFrom h account st) <->
  In x (normalizeXmppAllowlist (allowFrom (config account))) \/
  In x (storeAllowList h st).
Proof.
  unfold effectiveAllowFrom. rewrite filter_In, in_app_iff. split; [tauto|].
  intros H. split; [exact H|].
  destruct H as [H|H]; eapply normalizeXmppAllowlist_truthy; exact H.
Qed.


(** The set the matcher builds from a configured list and the approved
    senders of the store holds the non-empty normal forms of their raw
    entries. *)
Lemma allowEntries_sources (configured stored : option (list string)) (x : string) :
  In x (allowEntries (filter JS.truthy
          (normalizeXmppAllowlist configured ++ normalizeXmppAllowlist stored)%list)) <->
  x <> "" /\
  exists raw,
    (In raw (match configured with Some l => l | None => [] end) \/
     In raw (match stored with Some l => l | None => [] end)) /\
    x = JS.toLowerCase (JS.trim (normalizeXmppAllowEntry raw)).
Proof.
  unfold allowEntries, normalizeXmppAllowlist.
  rewrite filter_In, in_map_iff. split.
  - intros [(y & <- & Hy) Hx]. split; [now destruct (JS.toLowerCase (JS.trim y))|].
    apply filter_In in Hy as [Hy _]. apply in_app_or in Hy.
    destruct Hy as [Hy|Hy]; apply filter_In in Hy as [Hy _];
      apply in_map_iff in Hy as (raw & <- & Hraw); exists raw; auto.
  - intros (Hx & raw & Hraw & ->).
    assert (Hy : JS.truthy (normalizeXmppAllowEntry raw) = true).
    { destruct (normalizeXmppAllowEntry raw); [now elim Hx | reflexivity]. }
    split; [|now destruct (JS.toLowerCase (JS.trim (normalizeXmppAllowEntry raw)))].
    exists (normalizeXmppAllowEntry raw). split; [reflexivity|].
    apply filter_In. split; [|exact Hy]. apply in_or_app.
    destruct Hraw as [Hraw|Hraw]; [left|right]; apply filter_In; (split; [|exact Hy]);
      apply in_map_iff; now exists raw.
Qed.

(** A sender is matched exactly when "*" or one of the sender's candidates
    is the normal form of a raw entry of the configured list or of the
    store. *)
Lemma allowlist_hit_iff (configured stored : option (list string))
    (m : XmppInboundMessage) :
  let listed x :=
    x <> "" /\
    exists raw,
      (In raw (match configured with Some l => l | None => [] end) \/
       In raw (match stored with Some l => l | None => [] end)) /\
      x = JS.toLowerCase (JS.trim (normalizeXmppAllowEntry raw)) in
  matchAllowed (resolveXmppAllowlistMatch
                  (filter JS.truthy (normalizeXmppAllowlist configured
                                     ++ normalizeXmppAllowlist stored)%list) m) = true <->
  listed "*" \/ exists c, In c (buildXmppAllowlistCandidates m) /\ listed c.
Proof.
  cbv zeta. rewrite allowlist_match_iff, allowEntries_sources. split.
  - intros [H|(c & Hc & H)]; [now left|]. right. exists c. split; [exact Hc|].
    now apply allowEntries_sources.
  - intros [H|(c & Hc & H)]; [now left|]. right. exists c. split; [exact Hc|].
    now apply allowEntries_sources.
Qed.

Lemma allowlist_hit_nonempty (l : list string) (m : XmppInboundMessage) :
  matchAllowed (resolveXmppAllowlistMatch l m) = true -> (0 <? List.length l) = true.
Proof.
  intros H. apply allowlist_match_iff in H.
  assert (Hx : exists x, In x (allowEntries l)).
  { destruct H as [H|(c & _ & H)]; eauto. }
  destruct Hx as [x Hx]. unfold allowEntries in Hx.
  apply filter_In in Hx as [Hx _]. apply in_map_iff in Hx as (y & _ & Hy).
  now destruct l.
Qed.
(* ------------------------------------------------------------------ *)
(** ** inbound.ts: the values the pipeline computes, from the configuration *)

(** The policy the pipeline hands to the gate is
    [account.config.groupPolicy ?? defaultGroupPolicy ?? "allowlist"]. *)
Lemma groupAccessOf_spec cfg account m :
  groupAccessOf cfg account m
  = resolveXmppGroupAccessGate
      (match groupPolicy (config account) with
       | Some p => Some p
       | None => defaultGroupPolicy cfg
       end)
      (resolveXmppRoomMatch (rooms (config account)) (target m)).
Proof.
  unfold groupAccessOf, effectiveGroupPolicy, roomMatchOf.
  destruct (groupPolicy (config account)); [reflexivity|].
  now destruct (defaultGroupPolicy cfg).
Qed.

(** The group allowlist handed to the sender gate and to the command gate
    is the account's [groupAllowFrom] together with the approved senders of
    the store; the room allowlist is that of the matched room, else that of
    the wildcard. *)
Lemma groupSenderAllowedOf_spec {Store} (h : Host Store) cfg account m (st : Store) :
  groupSenderAllowedOf h cfg account m st
  = let rm := resolveXmppRoomMatch (rooms (config account)) (target m) in
    let direct :=
      normalizeXmppAllowlist
        (match roomConfig rm with Some rc => roomAllowFrom rc | None => None end) in
    let wildcard :=
      normalizeXmppAllowlist
        (match wildcardConfig rm with Some rc => roomAllowFrom rc | None => None end) in
    resolveXmppGroupSenderAllowed
      (match groupPolicy (config account) with
       | Some p => Some p
       | None => defaultGroupPolicy cfg
       end)
      m
      (filter JS.truthy
         (normalizeXmppAllowlist (groupAllowFrom (config account))
          ++ normalizeXmppAllowlist
               (Some (match readAllowFromStore h CHANNEL_ID st with
                      | Some l => l
                      | None => []
                      end)))%list)
      (if 0 <? List.length direct then direct else wildcard).
Proof.
  cbv zeta.
  unfold groupSenderAllowedOf, effectiveGroupPolicy, effectiveGroupAllowFrom,
    storeAllowList, roomAllowFromOf, roomMatchOf, resolveXmppGroupSenderAllowed.
  destruct (groupPolicy (config account)); [reflexivity|].
  now destruct (defaultGroupPolicy cfg).
Qed.

Lemma commandGateOf_group {Store} (h : Host Store) cfg account m (st : Store) :
  isGroup m = true ->
  commandGateOf h cfg account m st
  = let allow :=
      filter JS.truthy
        (normalizeXmppAllowlist (groupAllowFrom (config account))
         ++ normalizeXmppAllowlist
              (Some (match readAllowFromStore h CHANNEL_ID st with
                     | Some l => l
                     | None => []
                     end)))%list in
    resolveControlCommandGate h
      (match useAccessGroupsSetting cfg with Some false => false | _ => true end)
      (0 <? List.length allow)
      (matchAllowed (resolveXmppAllowlistMatch allow m))
      (shouldHandleTextCommands h) (hasControlCommand h (JS.trim (text m))).
Proof.
  intros Hg. unfold commandGateOf, commandAllowFromOf. now rewrite Hg.
Qed.

Lemma commandGateOf_direct {Store} (h : Host Store) cfg account m (st : Store) :
  isGroup m = false ->
  commandGateOf h cfg account m st
  = let allow :=
      filter JS.truthy
        (normalizeXmppAllowlist (allowFrom (config account))
         ++ normalizeXmppAllowlist
              (Some (match readAllowFromStore h CHANNEL_ID st with
                     | Some l => l
                     | None => []
                     end)))%list in
    resolveControlCommandGate h
      (match useAccessGroupsSetting cfg with Some false => false | _ => true end)
      (0 <? List.length allow)
      (matchAllowed (resolveXmppAllowlistMatch allow m))
      (shouldHandleTextCommands h) (hasControlCommand h (JS.trim (text m))).
Proof.
  intros Hg. unfold commandGateOf, commandAllowFromOf. now rewrite Hg.
Qed.

(** The mention gate of a group message. *)
Lemma mentionGateOf_group {Store} (h : Host Store) cfg account m (st : Store) :
  isGroup m = true ->
  mentionGateOf h cfg account m st
  = let rm := resolveXmppRoomMatch (rooms (config account)) (target m) in
    resolveXmppMentionGate true
      (resolveXmppRequireMention (roomConfig rm) (wildcardConfig rm))
      (matchesMentionPatterns h (JS.trim (text m))
       || explicitMentionTest (jid account) (JS.trim (text m)))
      (hasControlCommand h (JS.trim (text m))) (shouldHandleTextCommands h)
      (fst (commandGateOf h cfg account m st)).
Proof.
  intros Hg. unfold mentionGateOf, mentionStage, wasMentionedIn, roomMatchOf.
  now rewrite Hg.
Qed.

(** What the mention gate decides for a group message. *)
Lemma mentionGate_decides (requireMention wasMentioned hasCommand allowText authorized : bool) :
  let gate := resolveXmppMentionGate true requireMention wasMentioned hasCommand
                                     allowText authorized in
  shouldSkip gate
  = negb (negb requireMention || wasMentioned || (hasCommand && allowText && authorized)) /\
  (shouldSkip gate = true -> mentionReason gate = "missing-mention").
Proof.
  cbv zeta. unfold resolveXmppMentionGate. cbn [negb].
  destruct requireMention, wasMentioned; cbn; try (split; [reflexivity|discriminate]).
  destruct (hasCommand && allowText && authorized); cbn; split;
    reflexivity || discriminate || auto.
Qed.
(* ------------------------------------------------------------------ *)
(** ** The group access gate *)

Lemma find_at {A} (p : A -> bool) (pre post : list A) (x : A) :
  (forall y, In y pre -> p y = false) -> p x = true ->
  find p (pre ++ x :: post) = Some x.
Proof.
  intros Hpre Hx. induction pre as [|y pre IH]; simpl.
  - now rewrite Hx.
  - rewrite (Hpre y (or_introl eq_refl)). apply IH.
    intros z Hz. apply Hpre. now right.
Qed.

Lemma wildcard_key_iff (rs : Rooms) :
  In "*" (roomsKeys rs) <-> roomsGet rs "*" <> None.
Proof.
  split.
  - intros H. destruct (roomsGet_in_keys _ _ H) as [c ->]. discriminate.
  - destruct (roomsGet rs "*") as [c|] eqn:E; [|now intros H].
    intros _. eapply roomsGet_some_key; eauto.
Qed.

(** The first key, in key order, that equals the target up to case is the
    one whose entry becomes the room config when the target itself is no
    key. *)
Lemma roomMatch_first_caseless (ro : option Rooms) (tgt key : string)
    (c : XmppRoomConfig) (pre post : list string) :
  NoDup (roomsKeys (roomsOf ro)) ->
  In (key, c) (roomsOf ro) ->
  ~ In tgt (roomsKeys (roomsOf ro)) ->
  ~ In tgt JS.OBJECT_PROTOTYPE_KEYS ->
  JS.toLowerCase key = JS.toLowerCase tgt ->
  roomsKeys (roomsOf ro) = (pre ++ key :: post)%list ->
  (forall k, In k pre -> JS.toLowerCase k <> JS.toLowerCase tgt) ->
  roomConfig (resolveXmppRoomMatch ro tgt) = Some c.
Proof.
  intros Hnd Hin Hnk Hproto Heq Hkeys Hpre.
  assert (Hd : roomsRead (roomsOf ro) tgt = None).
  { rewrite roomsRead_plain by now apply isInherited_not_In.
    now apply roomsGet_absent. }
  assert (Hf : find (fun k => String.eqb (JS.toLowerCase k) (JS.toLowerCase tgt))
                    (roomsKeys (roomsOf ro)) = Some key).
  { rewrite Hkeys. apply find_at.
    - intros k Hk. apply String.eqb_neq. now apply Hpre.
    - now apply String.eqb_eq. }
  destruct (roomMatch_found ro tgt key Hd Hf) as (_ & -> & _).
  now apply roomsGet_entry.
Qed.

(** C1. The group access gate, on the room match of the target.  It drops
    under groupPolicy=disabled.  Under the allowlist policy (the default) it
    drops with a reason containing "no rooms configured" when the rooms map
    has no key, and with reason "not allowlisted" when no key equals the
    target exactly or up to case, there is no "*" key, and the target is
    not the name of a property that a plain object inherits.  The room config
    is the entry stored under the target, else the entry under the first
    key equal to it up to case; the wildcard config is the entry under "*".
    The gate drops whenever one of the two has enabled=false; otherwise it
    allows, with reason "open" or "allowlisted".  Where the code departs from
    the claim: a target that is the name of an inherited property
    ("constructor", "toString", ...) is found by the direct read of the rooms
    object, so under the allowlist policy with some room configured it is
    allowed, with reason "allowlisted", although no key and no wildcard
    matches it.  In the pipeline a group message the gate does not allow is
    logged and dropped: no session is recorded, nothing is dispatched or
    sent, and the store is untouched; in particular every group message is
    dropped when the policy is allowlist and the rooms map is empty.  A group
    message with a non-blank body that the gate allows and that passes the
    sender, command and mention gates reaches the agent stage. *)
Theorem group_access_gate_decisions :
  (forall (gp : option GroupPolicy) (ro : option Rooms) (tgt : string),
      let rs := match ro with Some l => l | None => [] end in
      let rm := resolveXmppRoomMatch ro tgt in
      let gate := resolveXmppGroupAccessGate gp rm in
      let allowlist := gp = None \/ gp = Some GroupAllowlist in
      let noKeyMatches :=
        forall key, In key (roomsKeys rs) ->
                    JS.toLowerCase key <> JS.toLowerCase tgt in
      let enabledOk :=
        (forall c, roomConfig rm = Some c -> roomEnabled c <> Some false) /\
        (forall c, wildcardConfig rm = Some c -> roomEnabled c <> Some false) in
      (gp = Some GroupDisabled -> gateAllowed gate = false) /\
      (allowlist -> rs = [] ->
         gateAllowed gate = false /\
         gateReason gate = "groupPolicy=allowlist and no rooms configured" /\
         JS.includes "no rooms configured" (gateReason gate) = true) /\
      (allowlist -> rs <> [] -> noKeyMatches -> ~ In "*" (roomsKeys rs) ->
       ~ In tgt JS.OBJECT_PROTOTYPE_KEYS ->
         gateAllowed gate = false /\ gateReason gate = "not allowlisted") /\
      (NoDup (roomsKeys rs) ->
         (forall c, In (tgt, c) rs -> roomConfig rm = Some c) /\
         (forall key c pre post,
             In (key, c) rs ->
             ~ In tgt (roomsKeys rs) -> ~ In tgt JS.OBJECT_PROTOTYPE_KEYS ->
             JS.toLowerCase key = JS.toLowerCase tgt ->
             roomsKeys rs = (pre ++ key :: post)%list ->
             (forall k, In k pre -> JS.toLowerCase k <> JS.toLowerCase tgt) ->
             roomConfig rm = Some c) /\
         (forall c, In ("*", c) rs -> wildcardConfig rm = Some c)) /\
      (noKeyMatches -> ~ In tgt JS.OBJECT_PROTOTYPE_KEYS -> roomConfig rm = None) /\
      (~ In "*" (roomsKeys rs) -> wildcardConfig rm = None) /\
      (forall c, roomConfig rm = Some c \/ wildcardConfig rm = Some c ->
                 roomEnabled c = Some false -> gateAllowed gate = false) /\
      (NoDup (roomsKeys rs) ->
       forall c, In (tgt, c) rs \/ In ("*", c) rs ->
                 roomEnabled c = Some false -> gateAllowed gate = false) /\
      (gp = Some GroupOpen -> enabledOk ->
         gateAllowed gate = true /\ gateReason gate = "open") /\
      (allowlist -> rs <> [] ->
       (exists key, In key (roomsKeys rs) /\
                    JS.toLowerCase key = JS.toLowerCase tgt) \/
       In "*" (roomsKeys rs) ->
       enabledOk ->
         gateAllowed gate = true /\ gateReason gate = "allowlisted") /\
      (In tgt JS.OBJECT_PROTOTYPE_KEYS -> ~ In tgt (roomsKeys rs) ->
         roomAllowed rm = true /\ roomConfig rm = Some inheritedProperty) /\
      (allowlist -> rs <> [] -> In tgt JS.OBJECT_PROTOTYPE_KEYS ->
       noKeyMatches -> ~ In "*" (roomsKeys rs) ->
         gateAllowed gate = true /\ gateReason gate = "allowlisted")) /\
  (forall (Store : Type) (h : Host Store) cfg account client fid m (st : Store),
      let r := handleXmppInbound h cfg account client fid m st in
      let gp := match groupPolicy (config account) with
                | Some p => Some p
                | None => defaultGroupPolicy cfg
                end in
      let gate := resolveXmppGroupAccessGate gp
                    (resolveXmppRoomMatch (rooms (config account)) (target m)) in
      isGroup m = true ->
      (gateAllowed gate = false ->
         existsb isSessionRecord (effects r) = false /\
         existsb isDispatch (effects r) = false /\
         existsb isSend (effects r) = false /\
         finalStore r = st /\ fulfilled r = true /\
         (JS.truthy (JS.trim (text m)) = true ->
          effects r = [StatusInbound (timestamp m);
                       Log ("xmpp: drop room " ++ target m ++ " ("
                            ++ gateReason gate ++ ")")])) /\
      (gp = None \/ gp = Some GroupAllowlist ->
       rooms (config account) = None \/ rooms (config account) = Some [] ->
         existsb isSessionRecord (effects r) = false /\
         existsb isDispatch (effects r) = false /\
         existsb isSend (effects r) = false /\
         finalStore r = st /\ fulfilled r = true /\
         (JS.truthy (JS.trim (text m)) = true ->
          effects r = [StatusInbound (timestamp m);
                       Log ("xmpp: drop room " ++ target m
                            ++ " (groupPolicy=allowlist and no rooms configured)")])) /\
      (gateAllowed gate = true ->
       JS.truthy (JS.trim (text m)) = true ->
       groupSenderAllowedOf h cfg account m st = true ->
       snd (commandGateOf h cfg account m st) = false ->
       shouldSkip (mentionGateOf h cfg account m st) = false ->
         existsb isSessionRecord (effects r) = true /\ finalStore r = st)).
Proof.
  split.
  - intros gp ro tgt rs rm gate allowlist noKeyMatches enabledOk.
    change rs with (roomsOf ro) in *.
    assert (Hhas : hasConfiguredRooms rm
                   = match roomsOf ro with [] => false | _ => true end)
      by apply hasConfiguredRooms_spec.
    assert (Hnonempty : roomsOf ro <> [] -> hasConfiguredRooms rm = true).
    { intros Hrs. rewrite Hhas. destruct (roomsOf ro); [now elim Hrs | reflexivity]. }
    assert (Hwild : wildcardConfig rm = roomsGet (roomsOf ro) "*")
      by apply roomMatch_wildcard.
    assert (Hnowild : ~ In "*" (roomsKeys (roomsOf ro)) ->
                      roomsGet (roomsOf ro) "*" = None)
      by apply roomsGet_absent.
    assert (Hdis : forall c, roomConfig rm = Some c \/ wildcardConfig rm = Some c ->
                             roomEnabled c = Some false -> gateAllowed gate = false)
      by apply gate_config_disabled.
    repeat apply conj.
    + intros Hp. unfold gate. now rewrite (gate_disabled gp rm Hp).
    + intros Hp Hrs. rewrite Hrs in Hhas. unfold gate.
      rewrite (gate_no_rooms gp rm Hp Hhas). now repeat split.
    + intros Hp Hrs Hci Hw Hproto. unfold gate.
      rewrite (gate_not_allowlisted gp rm Hp (Hnonempty Hrs)); [now split|].
      destruct (roomMatch_unmatched ro tgt Hci Hproto) as [Ha _]. unfold rm.
      now rewrite Ha, (Hnowild Hw).
    + intros Hnd. repeat apply conj.
      * intros c Hin. apply roomMatch_exact. now apply roomsGet_entry.
      * intros key c pre post. now apply roomMatch_first_caseless.
      * intros c Hin. rewrite Hwild. now apply roomsGet_entry.
    + intros Hci Hproto. now apply roomMatch_unmatched.
    + intros Hw. rewrite Hwild. now apply Hnowild.
    + exact Hdis.
    + intros Hnd c [Hin|Hin]; apply Hdis.
      * left. apply roomMatch_exact. now apply roomsGet_entry.
      * right. rewrite Hwild. now apply roomsGet_entry.
    + intros Hp [Hr Hw]. unfold gate. now rewrite (gate_open gp rm Hp Hr Hw).
    + intros Hp Hrs Hm [Hr Hw]. unfold gate.
      rewrite (gate_allowlisted gp rm Hp (Hnonempty Hrs)); [now split | | exact Hr | exact Hw].
      apply roomMatch_matched. destruct Hm as [Hm|Hm]; [now left|].
      right. right. now apply wildcard_key_iff.
    + intros Hproto Hnk. now apply roomMatch_inherited.
    + intros Hp Hrs Hproto Hci Hw. unfold gate.
      assert (Hnk : ~ In tgt (roomsKeys (roomsOf ro))).
      { intros Hin. now apply (Hci tgt Hin). }
      destruct (roomMatch_inherited ro tgt Hproto Hnk) as [Ha Hc].
      rewrite (gate_allowlisted gp rm Hp (Hnonempty Hrs) Ha); [now split | |].
      * intros c Hc'. fold rm in Hc. rewrite Hc in Hc'. injection Hc' as <-. discriminate.
      * intros c Hc'. rewrite Hwild, (Hnowild Hw) in Hc'. discriminate.
  - intros Store h cfg account client fid m st r gp gate Hg.
    assert (Egate : groupAccessOf cfg account m = gate) by apply groupAccessOf_spec.
    assert (Hdrop : gateAllowed gate = false ->
              existsb isSessionRecord (effects r) = false /\
              existsb isDispatch (effects r) = false /\
              existsb isSend (effects r) = false /\
              finalStore r = st /\ fulfilled r = true /\
              (JS.truthy (JS.trim (text m)) = true ->
               effects r = [StatusInbound (timestamp m);
                            Log ("xmpp: drop room " ++ target m ++ " ("
                                 ++ gateReason gate ++ ")")])).
    { intros Hgate. unfold r.
      destruct (JS.truthy (JS.trim (text m))) eqn:Hb.
      - rewrite (handle_group h cfg account client fid m st Hg Hb). cbv zeta.
        rewrite Egate, Hgate. now repeat split.
      - rewrite (handle_blank h cfg account client fid m st Hb).
        repeat split. discriminate. }
    split; [exact Hdrop|]. split.
    + intros Hp Hrs.
      assert (Hgate : gate
                      = {| gateAllowed := false;
                           gateReason := "groupPolicy=allowlist and no rooms configured" |}).
      { unfold gate. apply gate_no_rooms; [exact Hp|].
        rewrite hasConfiguredRooms_spec. now destruct Hrs as [-> | ->]. }
      rewrite Hgate in Hdrop. exact (Hdrop eq_refl).
    + intros Hgate Hb Hs Hc Hm. unfold r.
      rewrite (handle_group h cfg account client fid m st Hg Hb). cbv zeta.
      rewrite Egate, Hgate, Hs, Hc, Hm. cbn [negb effects finalStore existsb isSessionRecord orb].
      split; [apply route_records | reflexivity].
Qed.

Lemma group_access_gate_decisions_witness :
  let rs := [("room@conference.localhost", emptyRoomConfig);
             ("closed@conference.localhost",
              {| roomRequireMention := None; roomEnabled := Some false;
                 roomAllowFrom := None; roomSkills := None;
                 roomSystemPrompt := None |})] in
  let gateOf tgt :=
    resolveXmppGroupAccessGate (Some GroupAllowlist)
                               (resolveXmppRoomMatch (Some rs) tgt) in
  let run room body account :=
    handleXmppInbound specHost plainConfig account (Some true) "fresh"
                      (groupMessage room "mallory" body) [] in
  (gateOf "other@conference.localhost"
   = {| gateAllowed := false; gateReason := "not allowlisted" |}) /\
  gateAllowed (gateOf "closed@conference.localhost") = false /\
  (gateOf "Room@Conference.Localhost"
   = {| gateAllowed := true; gateReason := "allowlisted" |}) /\
  (gateOf "constructor"
   = {| gateAllowed := true; gateReason := "allowlisted" |}) /\
  effects (run "room@conference.localhost" "hello" allowlistNoRooms)
  = [StatusInbound 0%Z;
     Log "xmpp: drop room room@conference.localhost (groupPolicy=allowlist and no rooms configured)"] /\
  effects (run "closed@conference.localhost" "agent: hi" allowlistedRoomAccount)
  = [StatusInbound 0%Z; Log "xmpp: drop room closed@conference.localhost (disabled)"] /\
  existsb isSessionRecord
    (effects (run "room@conference.localhost" "agent: hi" allowlistedRoomAccount)) = true /\
  existsb isSessionRecord
    (effects (run "constructor" "agent: hi" allowlistedRoomAccount)) = true.
Proof.
  cbv zeta.
  destruct group_access_gate_decisions as [Hgate Hpipe].
  pose (rs := [("room@conference.localhost", emptyRoomConfig);
               ("closed@conference.localhost",
                {| roomRequireMention := None; roomEnabled := Some false;
                   roomAllowFrom := None; roomSkills := None;
                   roomSystemPrompt := None |})]).
  assert (Hnd : NoDup (roomsKeys rs)).
  { repeat constructor; simpl; intuition discriminate. }
  assert (Hproto : forall k, In k (roomsKeys rs) -> In k JS.OBJECT_PROTOTYPE_KEYS -> False).
  { simpl. intros k [<-|[<-|[]]]; intuition discriminate. }
  repeat apply conj.
  - destruct (Hgate (Some GroupAllowlist) (Some rs) "other@conference.localhost")
      as (_ & _ & H & _).
    destruct H as [Ha Hr].
    + now right.
    + discriminate.
    + simpl. intros key [<-|[<-|[]]]; discriminate.
    + simpl. intuition discriminate.
    + simpl. intuition discriminate.
    + fold rs. destruct (resolveXmppGroupAccessGate _ _). simpl in *. now subst.
  - destruct (Hgate (Some GroupAllowlist) (Some rs) "closed@conference.localhost")
      as (_ & _ & _ & _ & _ & _ & _ & H & _).
    eapply (H Hnd); [left; right; left; reflexivity | reflexivity].
  - destruct (Hgate (Some GroupAllowlist) (Some rs) "Room@Conference.Localhost")
      as (_ & _ & _ & Hcfg & _ & Hw & _ & _ & _ & H & _).
    destruct (Hcfg Hnd) as (_ & Hci & _).
    assert (Hrc : roomConfig (resolveXmppRoomMatch (Some rs) "Room@Conference.Localhost")
                  = Some emptyRoomConfig).
    { apply (Hci "room@conference.localhost" emptyRoomConfig [] ["closed@conference.localhost"]).
      - now left.
      - simpl. intuition discriminate.
      - simpl. intuition discriminate.
      - reflexivity.
      - reflexivity.
      - intros k []. }
    destruct H as [Ha Hr].
    + now right.
    + discriminate.
    + left. exists "room@conference.localhost". split; [now left | reflexivity].
    + split.
      * intros c Hc. rewrite Hrc in Hc. injection Hc as <-. discriminate.
      * intros c Hc. rewrite Hw in Hc; [discriminate|]. simpl. intuition discriminate.
    + fold rs. destruct (resolveXmppGroupAccessGate _ _). simpl in *. now subst.
  - destruct (Hgate (Some GroupAllowlist) (Some rs) "constructor")
      as (_ & _ & _ & _ & _ & _ & _ & _ & _ & _ & _ & H).
    destruct H as [Ha Hr].
    + now right.
    + discriminate.
    + now left.
    + simpl. intros key [<-|[<-|[]]]; discriminate.
    + simpl. intuition discriminate.
    + fold rs. destruct (resolveXmppGroupAccessGate _ _). simpl in *. now subst.
  - destruct (Hpipe _ specHost plainConfig allowlistNoRooms (Some true) "fresh"
                (groupMessage "room@conference.localhost" "mallory" "hello") []
                eq_refl) as (_ & Hempty & _).
    destruct (Hempty (or_introl eq_refl) (or_introl eq_refl)) as (_ & _ & _ & _ & _ & He).
    exact (He eq_refl).
  - destruct (Hpipe _ specHost plainConfig allowlistedRoomAccount (Some true) "fresh"
                (groupMessage "closed@conference.localhost" "mallory" "agent: hi") []
                eq_refl) as (Hdrop & _).
    destruct (Hdrop eq_refl) as (_ & _ & _ & _ & _ & He).
    exact (He eq_refl).
  - destruct (Hpipe _ specHost plainConfig allowlistedRoomAccount (Some true) "fresh"
                (groupMessage "room@conference.localhost" "mallory" "agent: hi") []
                eq_refl) as (_ & _ & Hpass).
    now destruct (Hpass eq_refl eq_refl eq_refl eq_refl eq_refl).
  - destruct (Hpipe _ specHost plainConfig allowlistedRoomAccount (Some true) "fresh"
                (groupMessage "constructor" "mallory" "agent: hi") []
                eq_refl) as (_ & _ & Hpass).
    now destruct (Hpass eq_refl eq_refl eq_refl eq_refl eq_refl).
Defined.
(* ------------------------------------------------------------------ *)
(** ** Mention detection *)

Lemma isWordChar_lower (c : ascii) : isWordChar (JS.lowerUnit c) = isWordChar c.
Proof. destruct c as [[] [] [] [] [] [] [] []]; reflexivity. Qed.

Lemma lastUnit_word (prev : option ascii) (w : string) :
  JS.allChars isWordChar w = true -> JS.truthy w = true ->
  isWordOpt (lastUnit prev w) = true.
Proof.
  revert prev. induction w as [|c r IH]; intros prev; simpl; [discriminate|].
  intros H _. apply andb_true_iff in H as [Hc Hr].
  destruct r as [|d r']; [exact Hc|]. now apply IH.
Qed.

Lemma matchLiteralCI_same (lp w post : string) (prev : option ascii) :
  JS.toLowerCase w = JS.toLowerCase lp ->
  matchLiteralCI lp (w ++ post) prev = Some (lastUnit prev w, post).
Proof.
  revert w prev. induction lp as [|p lp IH]; intros w prev; destruct w as [|c w]; simpl;
    try discriminate; [reflexivity|].
  intros [= Hc Hw]. rewrite Hc, Ascii.eqb_refl. now apply IH.
Qed.

Lemma word_of_lower (lp w : string) :
  JS.toLowerCase w = JS.toLowerCase lp ->
  JS.allChars isWordChar lp = true ->
  JS.allChars isWordChar w = true /\ JS.truthy w = JS.truthy lp.
Proof.
  revert w. induction lp as [|p lp IH]; intros w; destruct w as [|c w]; simpl;
    try discriminate; [now split|].
  intros [= Hc Hw] H. apply andb_true_iff in H as [Hp Hl].
  destruct (IH _ Hw Hl) as [Hw' _]. split; [|reflexivity].
  now rewrite <- isWordChar_lower, Hc, isWordChar_lower, Hp, Hw'.
Qed.

Lemma lastUnit_app (prev : option ascii) (a b : string) :
  lastUnit prev (a ++ b) = lastUnit (lastUnit prev a) b.
Proof. revert prev. induction a as [|c a IH]; intros prev; simpl; [reflexivity | apply IH]. Qed.

Lemma wordBoundary_iff (before after : option ascii) :
  wordBoundary before after = true <-> atWordBoundary before after.
Proof.
  unfold wordBoundary, atWordBoundary.
  destruct (isWordOpt before), (isWordOpt after); simpl; split; congruence.
Qed.

Lemma matchLiteralCI_inv (lp s : string) (prev last : option ascii) (rest : string) :
  matchLiteralCI lp s prev = Some (last, rest) ->
  exists mid, s = mid ++ rest /\ JS.toLowerCase mid = JS.toLowerCase lp /\
              last = lastUnit prev mid.
Proof.
  revert s prev. induction lp as [|p lp IH]; intros s prev; simpl.
  - intros [= <- <-]. now exists "".
  - destruct s as [|c s]; [discriminate|].
    destruct (Ascii.eqb (JS.lowerUnit p) (JS.lowerUnit c)) eqn:E; [|discriminate].
    apply Ascii.eqb_eq in E. intros H.
    destruct (IH _ _ H) as (mid & -> & Hl & ->).
    exists (String c mid). simpl. now rewrite Hl, E.
Qed.

Lemma mentionMatchesAt_iff (lp s : string) (prev : option ascii) :
  mentionMatchesAt lp prev s = true <->
  exists mid post,
    s = mid ++ post /\ JS.toLowerCase mid = JS.toLowerCase lp /\
    atWordBoundary prev (headChar s) /\
    atWordBoundary (lastUnit prev mid) (headChar post).
Proof.
  unfold mentionMatchesAt. rewrite andb_true_iff, wordBoundary_iff. split.
  - intros [Hb Hm].
    destruct (matchLiteralCI lp s prev) as [[last rest]|] eqn:E; [|discriminate].
    destruct (matchLiteralCI_inv _ _ _ _ _ E) as (mid & -> & Hl & ->).
    exists mid, rest. repeat split; [exact Hl | exact Hb | now apply wordBoundary_iff].
  - intros (mid & post & -> & Hl & Hb & Ha). split; [exact Hb|].
    rewrite (matchLiteralCI_same _ _ _ _ Hl). now apply wordBoundary_iff.
Qed.

Lemma mentionSearch_unfold (lp s : string) (prev : option ascii) :
  mentionSearch lp prev s
  = mentionMatchesAt lp prev s
    || match s with
       | EmptyString => false
       | String c r => mentionSearch lp (Some c) r
       end.
Proof. now destruct s. Qed.

(** The search finds exactly the occurrences of the local part that have a
    word boundary on either side. *)
Lemma mentionSearch_iff (lp s : string) (prev : option ascii) :
  mentionSearch lp prev s = true <->
  exists pre mid post,
    s = pre ++ mid ++ post /\ JS.toLowerCase mid = JS.toLowerCase lp /\
    atWordBoundary (lastUnit prev pre) (headChar (mid ++ post)) /\
    atWordBoundary (lastUnit prev (pre ++ mid)) (headChar post).
Proof.
  split.
  - revert prev. induction s as [|c r IH]; intros prev; rewrite mentionSearch_unfold;
      intros H; apply orb_true_iff in H as [H|H].
    + apply mentionMatchesAt_iff in H as (mid & post & E & Hl & Hb & Ha).
      exists "", mid, post. simpl. rewrite <- E. now repeat split.
    + discriminate.
    + apply mentionMatchesAt_iff in H as (mid & post & E & Hl & Hb & Ha).
      exists "", mid, post. simpl. rewrite <- E. now repeat split.
    + destruct (IH _ H) as (pre & mid & post & -> & Hl & Hb & Ha).
      exists (String c pre), mid, post. now repeat split.
  - intros (pre & mid & post & -> & Hl & Hb & Ha).
    revert prev Hb Ha. induction pre as [|c pre IH]; intros prev Hb Ha;
      rewrite mentionSearch_unfold; apply orb_true_iff.
    + left. apply mentionMatchesAt_iff. exists mid, post. now repeat split.
    + right. simpl. now apply IH.
Qed.

(** Around a stretch made of word units, a word boundary on either side
    means that no word unit is next to the stretch. *)
Lemma word_boundaries_of_word (pre mid post : string) :
  JS.allChars isWordChar mid = true -> JS.truthy mid = true ->
  (atWordBoundary (lastUnit None pre) (headChar (mid ++ post)) /\
   atWordBoundary (lastUnit None (pre ++ mid)) (headChar post)) <->
  (isWordOpt (lastUnit None pre) = false /\ isWordOpt (headChar post) = false).
Proof.
  intros Hw Ht. rewrite lastUnit_app.
  rewrite <- !wordBoundary_iff. unfold wordBoundary.
  rewrite (lastUnit_word (lastUnit None pre) mid Hw Ht).
  destruct mid as [|c mid]; [discriminate|].
  simpl in Hw. apply andb_true_iff in Hw as [Hc _]. simpl. rewrite Hc.
  destruct (isWordOpt (lastUnit None pre)), (isWordOpt (headChar post)); simpl;
    split; intros [? ?]; split; congruence.
Qed.

Lemma truthy_iff (s : string) : JS.truthy s = true <-> s <> "".
Proof. destruct s; simpl; split; congruence. Qed.

(** [explicitMentionRegex.test(rawBody)] holds exactly when the local part
    of the account's JID is not empty and occurs in the body as a word. *)
Lemma explicitMentionTest_iff (botJid body : string) :
  explicitMentionTest botJid body = true <->
  nth 0 (JS.split "@" botJid) "" <> "" /\
  occursAsWord (nth 0 (JS.split "@" botJid) "") body.
Proof.
  unfold explicitMentionTest, occursAsWord. cbv zeta.
  destruct (JS.truthy (nth 0 (JS.split "@" botJid) "")) eqn:T.
  - rewrite mentionSearch_iff. apply truthy_iff in T. tauto.
  - split; [discriminate|]. intros [H _].
    apply truthy_iff in H. congruence.
Qed.
(* ------------------------------------------------------------------ *)
(** ** The mention gate *)

Lemma specHost_commandGate (approved : list string) :
  CommandGateContract (hostWithApproved approved).
Proof.
  intros u c a t k. cbn. unfold specControlCommandGate. cbn.
  destruct c, a, t, k; cbn; repeat split; try discriminate; try reflexivity;
    intros (? & ? & ?); discriminate.
Qed.

(** C3 (as stated) fails: in a room that does not require a mention, a
    control command from a sender who is not authorized for commands passes
    the access gate and the sender gate and is then dropped by the
    unauthorized-command block, with reason "control command (unauthorized)".
    The host is the reference host, whose command gate follows the
    specification. *)
Lemma unauthorized_command_dropped_without_mention_requirement :
  isGroup statusCommand = true /\
  gateAllowed (groupAccessOf plainConfig openRoomAccount statusCommand) = true /\
  groupSenderAllowedOf specHost plainConfig openRoomAccount statusCommand [] = true /\
  resolveXmppRequireMention
    (roomConfig (roomMatchOf openRoomAccount statusCommand))
    (wildcardConfig (roomMatchOf openRoomAccount statusCommand)) = false /\
  effects (handleXmppInbound specHost plainConfig openRoomAccount (Some true) "fresh"
                             statusCommand [])
  = [StatusInbound 0%Z;
     LogInboundDrop "control command (unauthorized)" "alice@room@conference.localhost"].
Proof. repeat split. Qed.

(** C3 (amended). requireMention is taken from the matched room config, else
    from the wildcard config, else it is true.  The explicit mention test
    holds exactly when the local part of the account's JID is not empty and
    occurs in the body as a word, up to case; when the local part is made of
    letters, digits and underscores this means an occurrence with no such
    unit right before or right after it, so a ":" or "," may follow.  A
    group message with a non-blank body that passed the access gate and the
    sender gate and is not blocked as an unauthorized control command goes on
    to the agent stage iff requireMention is false, or the body matches a
    mention pattern or the local part as a word, or the body holds a control
    command, text commands are allowed and the sender is authorized for
    commands; otherwise it is dropped with reason "missing-mention".  In
    particular, with requireMention = true and a command gate of the host
    that follows the specification, such a command message goes on without
    a mention, and so does a command message, past the sender gate, of any
    sender matched by the account's group allowlist (groupAllowFrom together
    with the store). *)
Theorem mention_gate_decisions :
  (forall roomCfg wildcardCfg : option XmppRoomConfig,
      let ofRoom := match roomCfg with Some c => roomRequireMention c | None => None end in
      let ofWildcard :=
        match wildcardCfg with Some c => roomRequireMention c | None => None end in
      (forall b, ofRoom = Some b -> resolveXmppRequireMention roomCfg wildcardCfg = b) /\
      (forall b, ofRoom = None -> ofWildcard = Some b ->
                 resolveXmppRequireMention roomCfg wildcardCfg = b) /\
      (ofRoom = None -> ofWildcard = None ->
       resolveXmppRequireMention roomCfg wildcardCfg = true)) /\
  (forall botJid body : string,
      let localpart := nth 0 (JS.split "@" botJid) "" in
      (explicitMentionTest botJid body = true <->
       localpart <> "" /\ occursAsWord localpart body) /\
      (JS.allChars isWordChar localpart = true ->
       (explicitMentionTest botJid body = true <->
        localpart <> "" /\
        exists pre mid post,
          body = pre ++ mid ++ post /\
          JS.toLowerCase mid = JS.toLowerCase localpart /\
          isWordOpt (lastUnit None pre) = false /\
          isWordOpt (headChar post) = false))) /\
  (forall (Store : Type) (h : Host Store) cfg account client fid m (st : Store),
      let body := JS.trim (text m) in
      let gp := match groupPolicy (config account) with
                | Some p => Some p
                | None => defaultGroupPolicy cfg
                end in
      let rm := resolveXmppRoomMatch (rooms (config account)) (target m) in
      let stored := match readAllowFromStore h CHANNEL_ID st with
                    | Some l => l
                    | None => []
                    end in
      let allow :=
        filter JS.truthy
          (normalizeXmppAllowlist (groupAllowFrom (config account))
           ++ normalizeXmppAllowlist (Some stored))%list in
      let roomAllow :=
        let direct :=
          normalizeXmppAllowlist
            (match roomConfig rm with Some rc => roomAllowFrom rc | None => None end) in
        let wildcard :=
          normalizeXmppAllowlist
            (match wildcardConfig rm with Some rc => roomAllowFrom rc | None => None end) in
        if 0 <? List.length direct then direct else wildcard in
      let listed x :=
        x <> "" /\
        exists raw,
          (In raw (match groupAllowFrom (config account) with Some l => l | None => [] end)
           \/ In raw stored) /\
          x = JS.toLowerCase (JS.trim (normalizeXmppAllowEntry raw)) in
      let senderAllowlisted :=
        listed "*" \/ exists c, In c (buildXmppAllowlistCandidates m) /\ listed c in
      let requireMention :=
        resolveXmppRequireMention (roomConfig rm) (wildcardConfig rm) in
      let wasMentioned :=
        matchesMentionPatterns h body || explicitMentionTest (jid account) body in
      let commandGate :=
        resolveControlCommandGate h
          (match useAccessGroupsSetting cfg with Some false => false | _ => true end)
          (0 <? List.length allow)
          (matchAllowed (resolveXmppAllowlistMatch allow m))
          (shouldHandleTextCommands h) (hasControlCommand h body) in
      let authorizedCommand :=
        hasControlCommand h body && shouldHandleTextCommands h && fst commandGate in
      let r := handleXmppInbound h cfg account client fid m st in
      let routed :=
        routeToAgent h account client fid m body wasMentioned (fst commandGate) rm in
      let proceeds :=
        r = {| effects := StatusInbound (timestamp m) :: fst routed;
               finalStore := st; fulfilled := snd routed |} in
      let dropped :=
        r = {| effects := [StatusInbound (timestamp m);
                           Log ("xmpp: drop room " ++ target m ++ " (missing-mention)")];
               finalStore := st; fulfilled := true |} in
      isGroup m = true ->
      JS.truthy body = true ->
      gateAllowed (resolveXmppGroupAccessGate gp rm) = true ->
      resolveXmppGroupSenderAllowed gp m allow roomAllow = true ->
      (snd commandGate = false ->
         (proceeds <->
          requireMention = false \/ wasMentioned = true \/ authorizedCommand = true) /\
         (dropped <->
          requireMention = true /\ wasMentioned = false /\ authorizedCommand = false) /\
         (proceeds -> existsb isSessionRecord (effects r) = true) /\
         (dropped -> existsb isSessionRecord (effects r) = false)) /\
      (CommandGateContract h ->
       requireMention = true ->
       hasControlCommand h body = true -> shouldHandleTextCommands h = true ->
         (snd commandGate = false -> proceeds) /\
         (senderAllowlisted -> proceeds))).
Proof.
  split; [|split].
  - intros roomCfg wildcardCfg ofRoom ofWildcard. subst ofRoom ofWildcard.
    unfold resolveXmppRequireMention. repeat apply conj.
    + intros b H. now rewrite H.
    + intros b H1 H2. now rewrite H1, H2.
    + intros H1 H2. now rewrite H1, H2.
  - intros botJid body localpart. split; [apply explicitMentionTest_iff|].
    intros Hw. rewrite explicitMentionTest_iff. fold localpart. unfold occursAsWord.
    split; intros (Hne & pre & mid & post & -> & Hl & Hb); (split; [exact Hne|]);
      exists pre, mid, post; (split; [reflexivity|]); (split; [exact Hl|]);
      (destruct (word_of_lower _ _ Hl Hw) as [Hmw Hmt];
       apply truthy_iff in Hne; rewrite Hne in Hmt);
      now apply (word_boundaries_of_word pre mid post Hmw Hmt).
  - intros Store h cfg account client fid m st body gp rm stored allow roomAllow listed
           senderAllowlisted requireMention wasMentioned commandGate authorizedCommand
           r routed proceeds dropped Hg Hb Ha Hs.
    assert (Ea : gateAllowed (groupAccessOf cfg account m) = true)
      by (rewrite groupAccessOf_spec; exact Ha).
    assert (Es : groupSenderAllowedOf h cfg account m st = true)
      by (rewrite groupSenderAllowedOf_spec; exact Hs).
    assert (Ec : commandGateOf h cfg account m st = commandGate)
      by (now apply commandGateOf_group).
    assert (Em : mentionGateOf h cfg account m st
                 = resolveXmppMentionGate true requireMention wasMentioned
                     (hasControlCommand h body) (shouldHandleTextCommands h)
                     (fst commandGate)).
    { rewrite (mentionGateOf_group h cfg account m st Hg). cbv zeta. now rewrite Ec. }
    destruct (mentionGate_decides requireMention wasMentioned (hasControlCommand h body)
                (shouldHandleTextCommands h) (fst commandGate)) as [Hskip Hreason].
    cbv zeta in Hskip, Hreason. rewrite <- Em in Hskip, Hreason.
    fold authorizedCommand in Hskip.
    assert (Hrun : snd commandGate = false ->
              r = if shouldSkip (mentionGateOf h cfg account m st)
                  then {| effects := [StatusInbound (timestamp m);
                                      Log ("xmpp: drop room " ++ target m
                                           ++ " (missing-mention)")];
                          finalStore := st; fulfilled := true |}
                  else {| effects := StatusInbound (timestamp m) :: fst routed;
                          finalStore := st; fulfilled := snd routed |}).
    { intros Hc. unfold r.
      rewrite (handle_group h cfg account client fid m st Hg Hb). cbv zeta.
      rewrite Ea, Es, Ec, Hc. cbn [negb].
      destruct (shouldSkip (mentionGateOf h cfg account m st)) eqn:K.
      - now rewrite (Hreason eq_refl).
      - reflexivity. }
    assert (Hhead : exists sp sk ctx rest, fst routed = SessionRecord sp sk ctx :: rest)
      by apply route_head.
    assert (Hgo : snd commandGate = false ->
                  (proceeds <-> shouldSkip (mentionGateOf h cfg account m st) = false) /\
                  (dropped <-> shouldSkip (mentionGateOf h cfg account m st) = true)).
    { intros Hc. unfold proceeds, dropped. rewrite (Hrun Hc).
      destruct Hhead as (sp & sk & ctx & rest & Eh).
      destruct (shouldSkip (mentionGateOf h cfg account m st)); split; split;
        try reflexivity; try discriminate; intros H; exfalso;
        apply (f_equal effects) in H; cbn [effects] in H; rewrite Eh in H;
        discriminate. }
    split.
    + intros Hc. destruct (Hgo Hc) as [Hp Hd]. repeat apply conj.
      * intros H. apply Hp in H. rewrite Hskip in H.
        apply negb_false_iff in H. rewrite !orb_true_iff, negb_true_iff in H. tauto.
      * intros H. apply Hp. rewrite Hskip. apply negb_false_iff.
        rewrite !orb_true_iff, negb_true_iff. tauto.
      * intros H. apply Hd in H. rewrite Hskip in H.
        apply negb_true_iff in H. rewrite !orb_false_iff, negb_false_iff in H. tauto.
      * intros (H1 & H2 & H3). apply Hd. rewrite Hskip, H1, H2, H3. reflexivity.
      * unfold proceeds. intros ->. cbn [effects existsb isSessionRecord orb].
        apply route_records.
      * unfold dropped. now intros ->.
    + intros Hcontract Hrm Hcmd Htext.
      pose proof (Hcontract
                    (match useAccessGroupsSetting cfg with Some false => false | _ => true end)
                    (0 <? List.length allow)
                    (matchAllowed (resolveXmppAllowlistMatch allow m))
                    (shouldHandleTextCommands h) (hasControlCommand h body)) as Hk.
      cbv zeta in Hk. fold commandGate in Hk. destruct Hk as [Hauth Hblock].
      assert (Hstep : snd commandGate = false -> proceeds).
      { intros Hc. destruct (Hgo Hc) as [Hp _]. apply Hp.
        rewrite Hskip. apply negb_false_iff.
        assert (Hf : fst commandGate = true).
        { destruct (fst commandGate) eqn:F; [reflexivity|].
          assert (Hb' : snd commandGate = true) by (apply Hblock; auto).
          congruence. }
        unfold authorizedCommand. rewrite Hcmd, Htext, Hf. apply orb_true_r. }
      split; [exact Hstep|].
      intros Hlisted. apply Hstep.
      assert (Hhit : matchAllowed (resolveXmppAllowlistMatch allow m) = true).
      { unfold allow. apply allowlist_hit_iff. exact Hlisted. }
      assert (Hf : fst commandGate = true).
      { apply Hauth; [now apply (allowlist_hit_nonempty allow m) | exact Hhit]. }
      destruct (snd commandGate) eqn:F; [|reflexivity].
      destruct Hblock as [Hblock _]. destruct (Hblock eq_refl) as (_ & _ & Hno).
      congruence.
Qed.

Lemma mention_gate_decisions_witness :
  let hello := groupMessage "room@conference.localhost" "alice" "hello" in
  let help := groupMessage "room@conference.localhost" "alice" "Agent: help" in
  let status := groupMessage "room@conference.localhost" "alice" "/status" in
  let run account m :=
    handleXmppInbound specHost plainConfig account (Some true) "fresh" m [] in
  explicitMentionTest "agent@localhost" "Agent: help" = true /\
  (explicitMentionTest "agent@localhost" "agents, help" = true -> False) /\
  effects (run mentionRoomAccount hello)
  = [StatusInbound 0%Z;
     Log "xmpp: drop room room@conference.localhost (missing-mention)"] /\
  existsb isSessionRecord (effects (run mentionRoomAccount help)) = true /\
  existsb isDispatch (effects (run commandRoomAccount status)) = true.
Proof.
  cbv zeta.
  destruct mention_gate_decisions as (_ & Hmention & Hpipe).
  repeat apply conj.
  - destruct (Hmention "agent@localhost" "Agent: help") as [_ Hword].
    apply (Hword eq_refl). split; [discriminate|].
    exists "", "Agent", ": help". now repeat split.
  - intros H. reflexivity || discriminate H.
  - destruct (Hpipe _ specHost plainConfig mentionRoomAccount (Some true) "fresh"
                (groupMessage "room@conference.localhost" "alice" "hello") []
                eq_refl eq_refl eq_refl eq_refl) as [Hgate _].
    destruct (Hgate eq_refl) as (_ & [_ Hdrop] & _).
    rewrite Hdrop; [reflexivity | now repeat split].
  - destruct (Hpipe _ specHost plainConfig mentionRoomAccount (Some true) "fresh"
                (groupMessage "room@conference.localhost" "alice" "Agent: help") []
                eq_refl eq_refl eq_refl eq_refl) as [Hgate _].
    destruct (Hgate eq_refl) as ([_ Hgo] & _ & Hrec & _).
    apply Hrec, Hgo. right. left. reflexivity.
  - destruct (Hpipe _ specHost plainConfig commandRoomAccount (Some true) "fresh"
                (groupMessage "room@conference.localhost" "alice" "/status") []
                eq_refl eq_refl eq_refl eq_refl) as [_ Hcmd].
    destruct (Hcmd (specHost_commandGate []) eq_refl eq_refl eq_refl) as [_ Hlisted].
    rewrite Hlisted; [reflexivity|].
    right. exists "alice". split; [right; right; now left|].
    split; [discriminate|]. exists "alice". split; [left; now left | reflexivity].
Defined.
(* ------------------------------------------------------------------ *)
(** ** The DM gate and the pairing challenge *)

Lemma pairing_miss_run {Store} (h : Host Store) account client fid m (st : Store) :
  isGroup m = false ->
  effectiveDmPolicy account = DmPairing ->
  matchAllowed (resolveXmppAllowlistMatch (effectiveAllowFrom h account st) m) = false ->
  exists run,
    enforceDmPolicy h account client fid m st = inr run /\
    In (PairingUpsert CHANNEL_ID (JS.toLowerCase (senderBareJid m)) (senderBareJid m)) (effects run) /\
    existsb isDispatch (effects run) = false /\
    (existsb isSend (effects run) = true ->
       exists code st',
         upsertPairingRequest h CHANNEL_ID (JS.toLowerCase (senderBareJid m)) (senderBareJid m) st
         = Some (code, true, st')) /\
    (forall code st',
       upsertPairingRequest h CHANNEL_ID (JS.toLowerCase (senderBareJid m)) (senderBareJid m) st
       = Some (code, false, st') ->
       effects run
       = [PairingUpsert CHANNEL_ID (JS.toLowerCase (senderBareJid m)) (senderBareJid m);
          Log ("xmpp: drop DM sender " ++ senderBareJid m ++ " (dmPolicy="
               ++ dmPolicyName (effectiveDmPolicy account) ++ ")")] /\
       finalStore run = st') /\
    (forall code created st',
       upsertPairingRequest h CHANNEL_ID (JS.toLowerCase (senderBareJid m)) (senderBareJid m) st
       = Some (code, created, st') ->
       fulfilled run = true /\ finalStore run = st' /\
       exists effs,
         effects run
         = (PairingUpsert CHANNEL_ID (JS.toLowerCase (senderBareJid m)) (senderBareJid m)
            :: effs
            ++ [Log ("xmpp: drop DM sender " ++ senderBareJid m ++ " (dmPolicy="
                     ++ dmPolicyName (effectiveDmPolicy account) ++ ")")])%list) /\
    (forall code st' reply effs,
       upsertPairingRequest h CHANNEL_ID (JS.toLowerCase (senderBareJid m)) (senderBareJid m) st
       = Some (code, true, st') ->
       buildPairingReply h ("Your XMPP JID: " ++ senderBareJid m) code = inr reply ->
       deliverXmppReply h account fid (pairingReplyPayload reply) (senderBareJid m) client
       = (None, effs) ->
       effects run
       = (PairingUpsert CHANNEL_ID (JS.toLowerCase (senderBareJid m)) (senderBareJid m)
          :: effs
          ++ [Log ("xmpp: drop DM sender " ++ senderBareJid m ++ " (dmPolicy="
                   ++ dmPolicyName (effectiveDmPolicy account) ++ ")")])%list) /\
    (forall code st' reply err effs,
       upsertPairingRequest h CHANNEL_ID (JS.toLowerCase (senderBareJid m)) (senderBareJid m) st
       = Some (code, true, st') ->
       buildPairingReply h ("Your XMPP JID: " ++ senderBareJid m) code = inr reply ->
       deliverXmppReply h account fid (pairingReplyPayload reply) (senderBareJid m) client
       = (Some err, effs) ->
       effects run
       = (PairingUpsert CHANNEL_ID (JS.toLowerCase (senderBareJid m)) (senderBareJid m)
          :: effs
          ++ [LogError ("xmpp: pairing reply failed for " ++ senderBareJid m ++ ": " ++ err);
              Log ("xmpp: drop DM sender " ++ senderBareJid m ++ " (dmPolicy="
                   ++ dmPolicyName (effectiveDmPolicy account) ++ ")")])%list).
Proof.
  intros Hg Hp Hh.
  assert (Hdisp : senderDisplayOf m = senderBareJid m)
    by (unfold senderDisplayOf; now rewrite Hg).
  pose proof (pairing_no_dispatch h account client fid m st) as Hnd.
  pose proof (pairing_upserts h account client fid m st) as Hup.
  pose proof (pairing_send_created h account client fid m st) as Hsc.
  unfold enforceDmPolicy. rewrite Hp. cbn match. rewrite Hh, Hdisp.
  unfold pairingChallenge in *. rewrite Hdisp in *.
  destruct (upsertPairingRequest h _ _ _ st) as [[[code created] st']|] eqn:E.
  - cbn [fulfilled effects finalStore] in *.
    eexists. split; [reflexivity|]. cbn [fulfilled effects finalStore].
    split; [apply in_or_app; now left|].
    split; [rewrite existsb_app, Hnd; reflexivity|].
    split; [intros Hs; apply Hsc; rewrite existsb_app in Hs;
            simpl in Hs; now rewrite orb_false_r in Hs|].
    split; [intros code0 st0 [= ? ? ?]; subst; now split|].
    split; [|split].
    + intros code0 created0 st0 [= ? ? ?]; subst. repeat split. eexists. reflexivity.
    + intros code0 st0 reply effs [= ? ? ?] Hb Hd; subst.
      unfold pairingReplyPayload in Hd. now rewrite Hb, Hd.
    + intros code0 st0 reply err effs [= ? ? ?] Hb Hd; subst.
      unfold pairingReplyPayload in Hd. rewrite Hb, Hd.
      simpl. now rewrite <- app_assoc.
  - eexists. split; [reflexivity|]. cbn [fulfilled effects finalStore].
    split; [now left|]. split; [reflexivity|].
    split; [discriminate|]. repeat split; discriminate.
Qed.

Lemma effectiveDmPolicy_cases account :
  (dmPolicy (config account) = Some DmDisabled -> effectiveDmPolicy account = DmDisabled) /\
  (dmPolicy (config account) = Some DmOpen -> effectiveDmPolicy account = DmOpen) /\
  (dmPolicy (config account) = Some DmAllowlist -> effectiveDmPolicy account = DmAllowlist) /\
  (dmPolicy (config account) = None \/ dmPolicy (config account) = Some DmPairing ->
   effectiveDmPolicy account = DmPairing).
Proof.
  unfold effectiveDmPolicy. repeat split; try (now intros ->). now intros [-> | ->].
Qed.

(** The DM allowlist is the account's [allowFrom] together with the approved
    senders of the store. *)
Lemma dm_hit_iff {Store} (h : Host Store) account m (st : Store) :
  let listed x :=
    x <> "" /\
    exists raw,
      (In raw (match allowFrom (config account) with Some l => l | None => [] end) \/
       In raw (match readAllowFromStore h CHANNEL_ID st with Some l => l | None => [] end)) /\
      x = JS.toLowerCase (JS.trim (normalizeXmppAllowEntry raw)) in
  matchAllowed (resolveXmppAllowlistMatch (effectiveAllowFrom h account st) m) = true <->
  listed "*" \/ exists c, In c (buildXmppAllowlistCandidates m) /\ listed c.
Proof.
  exact (allowlist_hit_iff (allowFrom (config account))
           (Some (match readAllowFromStore h CHANNEL_ID st with
                  | Some l => l
                  | None => []
                  end)) m).
Qed.

(** C2. For a direct message the DM policy block of [handleXmppInbound]
    (the stage) drops under dmPolicy=disabled and lets the message through
    under dmPolicy=open; otherwise (pairing, the default, or allowlist) the
    sender is matched against the account's allowFrom together with the
    approved senders read from the pairing store, "*" matching anyone, and a
    hit lets the message through.  On a miss under dmPolicy=pairing it calls
    upsertPairingRequest for channel "xmpp" with the sender's bare JID in lower
    case; a stanza is sent only if the store reported created=true, a
    duplicate request sends nothing, and the block always ends in a drop,
    also when sending the reply fails.  On a miss under dmPolicy=allowlist it
    drops and does nothing else.  A dropped message never reaches the agent
    stage: no session is recorded and nothing is dispatched; a message that
    is let through and has a non-blank body goes on to the agent stage.  Over
    a sequence of messages handled against an idempotent pairing store, at
    most one pairing reply is sent per distinct sender bare JID. *)
Theorem dm_policy_enforcement :
  forall (Store : Type) (h : Host Store) cfg account client fid,
    (forall m (st : Store),
        let policy := dmPolicy (config account) in
        let bare := senderBareJid m in
        let id := JS.toLowerCase bare in
        let body := JS.trim (text m) in
        let configured := match allowFrom (config account) with Some l => l | None => [] end in
        let stored := match readAllowFromStore h CHANNEL_ID st with
                      | Some l => l
                      | None => []
                      end in
        let listed x :=
          x <> "" /\
          exists raw,
            (In raw configured \/ In raw stored) /\
            x = JS.toLowerCase (JS.trim (normalizeXmppAllowEntry raw)) in
        let hit :=
          listed "*" \/ exists c, In c (buildXmppAllowlistCandidates m) /\ listed c in
        let stage := enforceDmPolicy h account client fid m st in
        let r := handleXmppInbound h cfg account client fid m st in
        let upsert := upsertPairingRequest h CHANNEL_ID id bare st in
        let dropLine name :=
          Log ("xmpp: drop DM sender " ++ bare ++ " (dmPolicy=" ++ name ++ ")") in
        let allow :=
          filter JS.truthy
            (normalizeXmppAllowlist (allowFrom (config account))
             ++ normalizeXmppAllowlist (Some stored))%list in
        let commandGate :=
          resolveControlCommandGate h
            (match useAccessGroupsSetting cfg with Some false => false | _ => true end)
            (0 <? List.length allow)
            (matchAllowed (resolveXmppAllowlistMatch allow m))
            (shouldHandleTextCommands h) (hasControlCommand h body) in
        let routed :=
          routeToAgent h account client fid m body
            (matchesMentionPatterns h body || explicitMentionTest (jid account) body)
            (fst commandGate)
            (resolveXmppRoomMatch (rooms (config account)) (target m)) in
        let passes :=
          stage = inl tt /\
          (JS.truthy body = true ->
           r = {| effects := StatusInbound (timestamp m) :: fst routed;
                  finalStore := st; fulfilled := snd routed |} /\
           existsb isSessionRecord (effects r) = true /\
           sentPairingReply (effects r) = false) in
        isGroup m = false ->
        (policy = Some DmDisabled ->
           stage = inr {| effects := [Log ("xmpp: drop DM sender=" ++ bare
                                           ++ " (dmPolicy=disabled)")];
                          finalStore := st; fulfilled := true |}) /\
        (policy = Some DmOpen -> passes) /\
        (policy <> Some DmDisabled -> hit -> passes) /\
        (policy = None \/ policy = Some DmPairing -> ~ hit ->
           exists run,
             stage = inr run /\
             In (PairingUpsert CHANNEL_ID id bare) (effects run) /\
             existsb isDispatch (effects run) = false /\
             existsb isSessionRecord (effects run) = false /\
             (existsb isSend (effects run) = true ->
                exists code st', upsert = Some (code, true, st')) /\
             (forall code st', upsert = Some (code, false, st') ->
                effects run = [PairingUpsert CHANNEL_ID id bare; dropLine "pairing"] /\
                finalStore run = st') /\
             (forall code created st', upsert = Some (code, created, st') ->
                fulfilled run = true /\ finalStore run = st' /\
                exists effs,
                  effects run
                  = (PairingUpsert CHANNEL_ID id bare :: effs
                     ++ [dropLine "pairing"])%list) /\
             (forall code st' reply effs,
                upsert = Some (code, true, st') ->
                buildPairingReply h ("Your XMPP JID: " ++ bare) code = inr reply ->
                deliverXmppReply h account fid (pairingReplyPayload reply) bare client
                  = (None, effs) ->
                effects run
                = (PairingUpsert CHANNEL_ID id bare :: effs ++ [dropLine "pairing"])%list) /\
             (forall code st' reply err effs,
                upsert = Some (code, true, st') ->
                buildPairingReply h ("Your XMPP JID: " ++ bare) code = inr reply ->
                deliverXmppReply h account fid (pairingReplyPayload reply) bare client
                  = (Some err, effs) ->
                effects run
                = (PairingUpsert CHANNEL_ID id bare :: effs
                   ++ [LogError ("xmpp: pairing reply failed for " ++ bare ++ ": " ++ err);
                       dropLine "pairing"])%list) /\
             (upsert = None ->
                run = {| effects := [PairingUpsert CHANNEL_ID id bare];
                         finalStore := st; fulfilled := false |})) /\
        (policy = Some DmAllowlist -> ~ hit ->
           stage = inr {| effects := [dropLine "allowlist"];
                          finalStore := st; fulfilled := true |}) /\
        (forall run, stage = inr run ->
           existsb isDispatch (effects run) = false ->
           existsb isSessionRecord (effects run) = false ->
           existsb isDispatch (effects r) = false /\
           existsb isSessionRecord (effects r) = false) /\
        (forall run, stage = inr run -> JS.truthy body = true ->
           r = {| effects := StatusInbound (timestamp m) :: effects run;
                  finalStore := finalStore run; fulfilled := fulfilled run |} /\
           (existsb isSessionRecord (effects run) = false ->
            sentPairingReply (effects r) = existsb isSend (effects run)))) /\
    (forall pending : Store -> string -> bool,
        PairingStoreContract h pending ->
        forall id msgs st, pairingRepliesTo h cfg account client fid id msgs st <= 1).
Proof.
  intros Store h cfg account client fid. split;
    [|intros pending Hc id msgs st; now apply (at_most_one_reply h cfg account client fid pending)].
  intros m st policy bare id body configured stored listed hit stage r upsert dropLine
         allow commandGate routed passes Hg.
  assert (Hdisp : senderDisplayOf m = bare) by (unfold senderDisplayOf; now rewrite Hg).
  destruct (effectiveDmPolicy_cases account) as (Pdis & Popen & Pallow & Ppair).
  fold policy in Pdis, Popen, Pallow, Ppair.
  assert (Hhit : matchAllowed (resolveXmppAllowlistMatch (effectiveAllowFrom h account st) m)
                 = true <-> hit) by apply dm_hit_iff.
  assert (Hmiss : ~ hit ->
            matchAllowed (resolveXmppAllowlistMatch (effectiveAllowFrom h account st) m)
            = false).
  { intros Hn. destruct (matchAllowed _) eqn:E; [|reflexivity]. elim Hn. now apply Hhit. }
  assert (Ec : commandGateOf h cfg account m st = commandGate)
    by (now apply commandGateOf_direct).
  assert (Hpass : stage = inl tt -> passes).
  { intros Hs. split; [exact Hs|]. intros Hb.
    assert (Hr : r = {| effects := StatusInbound (timestamp m) :: fst routed;
                        finalStore := st; fulfilled := snd routed |}).
    { unfold r. rewrite (handle_direct h cfg account client fid m st Hg Hb).
      fold stage. rewrite Hs, Ec. reflexivity. }
    assert (Hrec : existsb isSessionRecord (fst routed) = true) by apply route_records.
    rewrite Hr. repeat split.
    - cbn [effects existsb isSessionRecord orb]. exact Hrec.
    - unfold sentPairingReply. cbn [effects existsb isSessionRecord orb].
      rewrite Hrec. apply andb_false_r. }
  repeat apply conj.
  - intros Hp. unfold stage, enforceDmPolicy. now rewrite (Pdis Hp), Hdisp.
  - intros Hp. apply Hpass. unfold stage, enforceDmPolicy. now rewrite (Popen Hp).
  - intros Hp Hh. apply Hpass. apply Hhit in Hh.
    unfold stage, enforceDmPolicy. rewrite Hh.
    destruct (effectiveDmPolicy account) eqn:E; try reflexivity.
    elim Hp. unfold effectiveDmPolicy in E. fold policy in E.
    destruct policy; [now subst | discriminate].
  - intros Hp Hh.
    destruct (pairing_miss_run h account client fid m st Hg (Ppair Hp) (Hmiss Hh))
      as (run & Hs & Hup & Hnd & Hsend & Hdup & Hany & Hok & Hfail).
    rewrite (Ppair Hp) in Hdup, Hany, Hok, Hfail.
    exists run. split; [exact Hs|]. split; [exact Hup|]. split; [exact Hnd|].
    assert (Hrun : run = (if fulfilled (pairingChallenge h account client fid m st)
                          then {| effects := (effects (pairingChallenge h account client fid m st)
                                              ++ [Log ("xmpp: drop DM sender "
                                                       ++ senderDisplayOf m ++ " (dmPolicy="
                                                       ++ dmPolicyName DmPairing ++ ")")])%list;
                                  finalStore := finalStore (pairingChallenge h account client fid m st);
                                  fulfilled := true |}
                          else pairingChallenge h account client fid m st)).
    { unfold stage, enforceDmPolicy in Hs. rewrite (Ppair Hp), (Hmiss Hh) in Hs.
      cbn match in Hs.
      destruct (fulfilled (pairingChallenge h account client fid m st));
        now injection Hs as <-. }
    pose proof (pairing_no_session h account client fid m st) as Hns.
    pose proof (pairing_outcome h account client fid m st) as Hout. cbv zeta in Hout.
    split.
    { rewrite Hrun. destruct (fulfilled (pairingChallenge h account client fid m st));
        cbn [effects]; [|exact Hns]. rewrite existsb_app, Hns. reflexivity. }
    split; [exact Hsend|]. split; [exact Hdup|]. split; [exact Hany|].
    split; [exact Hok|]. split; [exact Hfail|].
    intros Hnone. fold bare id upsert in Hout. rewrite Hnone in Hout.
    destruct Hout as (Hf & _ & _). rewrite Hrun, Hf.
    unfold pairingChallenge. fold bare id upsert. now rewrite Hnone.
  - intros Hp Hh. unfold stage, enforceDmPolicy.
    rewrite (Pallow Hp). cbn match. now rewrite (Hmiss Hh), Hdisp.
  - intros run Hs Hnd Hns. unfold r.
    destruct (JS.truthy (JS.trim (text m))) eqn:Hb.
    + rewrite (handle_direct h cfg account client fid m st Hg Hb).
      fold stage. rewrite Hs. cbn [effects existsb isDispatch isSessionRecord orb].
      now split.
    + rewrite (handle_blank h cfg account client fid m st Hb). now split.
  - intros run Hs Hb. unfold r.
    rewrite (handle_direct h cfg account client fid m st Hg Hb).
    fold stage. rewrite Hs. split; [reflexivity|].
    intros Hns. unfold sentPairingReply.
    cbn [effects existsb isSend isSessionRecord orb]. rewrite Hns. apply andb_true_r.
Qed.

Lemma specStore_contract (approved : list string) :
  PairingStoreContract (hostWithApproved approved) specPending.
Proof.
  intros id name st code created st'. simpl. unfold specUpsert, specPending.
  destruct (JS.setHas id st) eqn:E; intros [= ? ? ?]; subst.
  - split; [discriminate|]. split; auto.
  - split; [auto|]. split.
    + simpl. now rewrite String.eqb_refl.
    + intros x Hx. simpl. rewrite Hx. apply orb_true_r.
Qed.

Lemma dm_policy_enforcement_witness :
  let host := hostWithApproved ["Carol@Ex"] in
  let first := directMessage "bob@ex" "hi" in
  let again := directMessage "bob@ex" "hello?" in
  let run policy m st :=
    handleXmppInbound host plainConfig (dmAccount policy ["alice@ex"]) (Some true)
                      "fresh" m st in
  PairingStoreContract host specPending /\
  effects (run DmDisabled first [])
  = [StatusInbound 0%Z; Log "xmpp: drop DM sender=bob@ex (dmPolicy=disabled)"] /\
  existsb isSessionRecord (effects (run DmOpen first [])) = true /\
  existsb isSessionRecord (effects (run DmAllowlist (directMessage "carol@ex" "hi") []))
  = true /\
  existsb isSessionRecord (effects (run DmPairing (directMessage "Alice@Ex" "hi") []))
  = true /\
  effects (run DmAllowlist first [])
  = [StatusInbound 0%Z; Log "xmpp: drop DM sender bob@ex (dmPolicy=allowlist)"] /\
  effects (run DmPairing first [])
  = [StatusInbound 0%Z; PairingUpsert "xmpp" "bob@ex" "bob@ex";
     SendStanza true "bob@ex" "Your XMPP JID: bob@ex code: CODE-bob@ex" Chat;
     StatusOutbound;
     Log "xmpp: drop DM sender bob@ex (dmPolicy=pairing)"] /\
  effects (run DmPairing again ["bob@ex"])
  = [StatusInbound 0%Z; PairingUpsert "xmpp" "bob@ex" "bob@ex";
     Log "xmpp: drop DM sender bob@ex (dmPolicy=pairing)"] /\
  pairingRepliesTo host plainConfig (dmAccount DmPairing ["alice@ex"]) (Some true) "fresh"
                   "bob@ex" [first; again; first] [] = 1 /\
  pairingRepliesTo host plainConfig (dmAccount DmPairing ["alice@ex"]) (Some true) "fresh"
                   "bob@ex" [first; again; first] [] <= 1.
Proof.
  cbv zeta.
  pose proof (fun policy => dm_policy_enforcement _ (hostWithApproved ["Carol@Ex"])
                              plainConfig (dmAccount policy ["alice@ex"]) (Some true)
                              "fresh") as gate.
  assert (Hmiss : forall body,
            ~ ((("*" : string) <> "" /\
                exists raw,
                  (In raw ["alice@ex"] \/ In raw ["Carol@Ex"]) /\
                  "*" = JS.toLowerCase (JS.trim (normalizeXmppAllowEntry raw))) \/
               exists c, In c (buildXmppAllowlistCandidates (directMessage "bob@ex" body)) /\
                 c <> "" /\
                 exists raw,
                   (In raw ["alice@ex"] \/ In raw ["Carol@Ex"]) /\
                   c = JS.toLowerCase (JS.trim (normalizeXmppAllowEntry raw)))).
  { intros body [(_ & raw & Hin & E) | (c & Hc & _ & raw & Hin & E)].
    - destruct Hin as [[<-|[]]|[<-|[]]]; vm_compute in E; discriminate.
    - cbn in Hc. destruct Hc as [<-|[]].
      destruct Hin as [[<-|[]]|[<-|[]]]; vm_compute in E; discriminate. }
  repeat apply conj.
  - apply specStore_contract.
  - destruct (gate DmDisabled) as [Hgate _].
    destruct (Hgate (directMessage "bob@ex" "hi") [] eq_refl)
      as (Hdis & _ & _ & _ & _ & _ & Hrun).
    destruct (Hrun _ (Hdis eq_refl) eq_refl) as [-> _]. reflexivity.
  - destruct (gate DmOpen) as [Hgate _].
    destruct (Hgate (directMessage "bob@ex" "hi") [] eq_refl)
      as (_ & Hopen & _).
    destruct (Hopen eq_refl) as [_ Hpass].
    now destruct (Hpass eq_refl) as (_ & Hrec & _).
  - destruct (gate DmAllowlist) as [Hgate _].
    destruct (Hgate (directMessage "carol@ex" "hi") [] eq_refl)
      as (_ & _ & Hhit & _).
    destruct Hhit as [_ Hpass].
    + discriminate.
    + right. exists "carol@ex". split; [now left|]. split; [discriminate|].
      exists "Carol@Ex". split; [right; now left | reflexivity].
    + now destruct (Hpass eq_refl) as (_ & Hrec & _).
  - destruct (gate DmPairing) as [Hgate _].
    destruct (Hgate (directMessage "Alice@Ex" "hi") [] eq_refl)
      as (_ & _ & Hhit & _).
    destruct Hhit as [_ Hpass].
    + discriminate.
    + right. exists "alice@ex". split; [now left|]. split; [discriminate|].
      exists "alice@ex". split; [left; now left | reflexivity].
    + now destruct (Hpass eq_refl) as (_ & Hrec & _).
  - destruct (gate DmAllowlist) as [Hgate _].
    destruct (Hgate (directMessage "bob@ex" "hi") [] eq_refl)
      as (_ & _ & _ & _ & Hallow & _ & Hrun).
    destruct (Hrun _ (Hallow eq_refl (Hmiss "hi")) eq_refl) as [-> _]. reflexivity.
  - destruct (gate DmPairing) as [Hgate _].
    destruct (Hgate (directMessage "bob@ex" "hi") [] eq_refl)
      as (_ & _ & _ & Hpair & _ & _ & Hrun).
    destruct (Hpair (or_intror eq_refl) (Hmiss "hi"))
      as (run & Hstage & _ & _ & _ & _ & _ & _ & Hok & _).
    destruct (Hrun run Hstage eq_refl) as [-> _]. cbn [effects].
    rewrite (Hok "CODE-bob@ex" ["bob@ex"] "Your XMPP JID: bob@ex code: CODE-bob@ex"
                 [SendStanza true "bob@ex" "Your XMPP JID: bob@ex code: CODE-bob@ex" Chat;
                  StatusOutbound] eq_refl eq_refl eq_refl).
    reflexivity.
  - destruct (gate DmPairing) as [Hgate _].
    destruct (Hgate (directMessage "bob@ex" "hello?") ["bob@ex"] eq_refl)
      as (_ & _ & _ & Hpair & _ & _ & Hrun).
    destruct (Hpair (or_intror eq_refl) (Hmiss "hello?"))
      as (run & Hstage & _ & _ & _ & _ & Hdup & _).
    destruct (Hrun run Hstage eq_refl) as [-> _]. cbn [effects].
    destruct (Hdup "CODE-bob@ex" ["bob@ex"] eq_refl) as [-> _]. reflexivity.
  - reflexivity.
  - destruct (gate DmPairing) as [_ Hseq].
    apply (Hseq specPending (specStore_contract ["Carol@Ex"])).
Defined.
(* ------------------------------------------------------------------ *)
(** ** Outbound: target, reply marker and message type *)

Lemma truthyOpt_some (o : option string) (x : string) :
  truthyOpt o = Some x -> o = Some x.
Proof.
  unfold truthyOpt. destruct o as [y|]; [|discriminate].
  destruct (JS.truthy y); [now intros [= ->] | discriminate].
Qed.

Lemma isRoomJid_iff (t : string) :
  isRoomJid t = true <->
  exists j, XmppJid.parseJid t = Some j /\
            (JS.includes "conference" (XmppJid.domain j) = true \/
             JS.includes "muc" (XmppJid.domain j) = true).
Proof.
  unfold isRoomJid. destruct (XmppJid.parseJid t) as [j|] eqn:E.
  - destruct (parseJid_canonical _ _ E) as (_ & Hd & _). rewrite Hd, orb_true_iff.
    split; [intros H; now exists j | now intros (j' & [= <-] & H)].
  - split; [discriminate | now intros (j & H & _)].
Qed.

Lemma resolveTarget_ok (to : string) (opts : SendXmppOptions) (t : string) :
  resolveTarget to opts = inr t ->
  normalizeXmppJid to = Some t \/ normalizeXmppJid (optTargetOf opts) = Some t.
Proof.
  unfold resolveTarget, normalizeXmppMessagingTarget. fold (optTargetOf opts).
  destruct (truthyOpt (normalizeXmppJid to)) as [a|] eqn:E1.
  - intros [= <-]. left. now apply truthyOpt_some.
  - destruct (truthyOpt (normalizeXmppJid (optTargetOf opts))) as [b|] eqn:E2;
      [|discriminate].
    intros [= <-]. right. now apply truthyOpt_some.
Qed.

Lemma resolveTarget_invalid (to : string) (opts : SendXmppOptions) :
  normalizeXmppJid to = None -> normalizeXmppJid (optTargetOf opts) = None ->
  resolveTarget to opts = inl (ErrInvalidTarget to).
Proof.
  intros H1 H2. unfold resolveTarget, normalizeXmppMessagingTarget.
  fold (optTargetOf opts). now rewrite H1, H2.
Qed.

(** C6. [sendMessageXmpp] sends to the normal form of its [to] argument, or
    else of the target option: a bare JID, with an xmpp:/room:/user: prefix
    and the resource removed.  It throws "Invalid XMPP target: <to>" when
    neither normalizes.  With a non-empty replyTo it appends a blank line and
    "[reply:<id>]" to the body.  The stanza type is groupchat iff [isRoomJid]
    holds of the target, i.e. iff the target's domain contains "conference" or
    "muc": foo@conference.example gets groupchat, alice@example.com gets
    chat.  (The function first checks that the account is configured.) *)
Theorem sendMessageXmpp_target_marker_type :
  forall (Store : Type) (h : Host Store) (to body : string) opts,
    (normalizeXmppJid to = None -> normalizeXmppJid (optTargetOf opts) = None ->
       resolveTarget to opts = inl (ErrInvalidTarget to) /\
       prepareSend h to body opts = inl (ErrInvalidTarget to) /\
       sendErrorMessage (ErrInvalidTarget to) = "Invalid XMPP target: " ++ to /\
       forall account fid,
         configured account = true ->
         sendMessageXmpp h account fid to body opts = (inl (ErrInvalidTarget to), [])) /\
    (forall t payload ty,
       prepareSend h to body opts = inr (t, payload, ty) ->
       (normalizeXmppJid to = Some t \/ normalizeXmppJid (optTargetOf opts) = Some t) /\
       payload = sendPayload h body opts /\
       (ty = Groupchat <-> isRoomJid t = true)) /\
    (forall account fid res effs,
       sendMessageXmpp h account fid to body opts = (inr res, effs) ->
       exists live payload ty,
         prepareSend h to body opts = inr (resTarget res, payload, ty) /\
         effs = [SendStanza live (resTarget res) payload ty;
                 ActivityOutbound (accountId account)]) /\
    (forall id, optReplyTo opts = Some id -> id <> "" ->
       sendPayload h body opts
       = convertMarkdownTables h (JS.trim body) ++ JS.LF ++ JS.LF ++ "[reply:" ++ id ++ "]") /\
    (optReplyTo opts = None \/ optReplyTo opts = Some "" ->
       sendPayload h body opts = convertMarkdownTables h (JS.trim body)) /\
    (forall t, isRoomJid t = true <->
       exists j, XmppJid.parseJid t = Some j /\
                 (JS.includes "conference" (XmppJid.domain j) = true \/
                  JS.includes "muc" (XmppJid.domain j) = true)) /\
    (forall p l d r,
       In p [""; "xmpp:"; "room:"; "user:"] ->
       JS.truthy l = true -> JS.truthy d = true ->
       JS.allChars plainUnit l = true -> JS.allChars plainUnit d = true ->
       (forall x, r = Some x -> JS.allChars (fun c => negb (JS.isWhitespace c)) x = true) ->
       normalizeXmppJid (p ++ fullJid l d r)
       = Some (JS.toLowerCase l ++ "@" ++ JS.toLowerCase d)) /\
    sendMessageType "foo@conference.example" = Groupchat /\
    sendMessageType "alice@example.com" = Chat.
Proof.
  intros Store h to body opts.
  split.
  { intros H1 H2.
    pose proof (resolveTarget_invalid to opts H1 H2) as Hr.
    assert (Hp : prepareSend h to body opts = inl (ErrInvalidTarget to))
      by (unfold prepareSend; now rewrite Hr).
    split; [exact Hr|]. split; [exact Hp|]. split; [reflexivity|].
    intros account fid Hcfg. unfold sendMessageXmpp. now rewrite Hcfg, Hp. }
  split.
  { intros t payload ty. unfold prepareSend.
    destruct (resolveTarget to opts) as [e|t'] eqn:Ht; [discriminate|].
    destruct (negb (JS.truthy (JS.trim (sendPayload h body opts)))); [discriminate|].
    intros [= <- <- <-].
    split; [now apply resolveTarget_ok|]. split; [reflexivity|].
    unfold sendMessageType. destruct (isRoomJid t'); split;
      (reflexivity || discriminate). }
  split.
  { intros account fid res effs. unfold sendMessageXmpp.
    destruct (negb (configured account)); [discriminate|].
    destruct (prepareSend h to body opts) as [e|[[t payload] ty]]; [discriminate|].
    match goal with |- context [match ?c with SendFailed _ => _ | SendOk _ => _ end] =>
      destruct c end; [discriminate|].
    intros [= <- <-]. cbn [resTarget]. do 3 eexists. split; reflexivity. }
  split.
  { intros id Hid Hne. unfold sendPayload, truthyOpt, replyMarker. rewrite Hid.
    destruct id; [now elim Hne | reflexivity]. }
  split; [intros [Hid|Hid]; unfold sendPayload; now rewrite Hid|].
  split; [exact isRoomJid_iff|].
  split.
  { intros p l d r [<-|Hp] Hl1 Hd1 Hl Hd Hr.
    - now apply normalizeXmppJid_bare_target.
    - now apply normalizeXmppJid_prefixed. }
  split; reflexivity.
Qed.

Lemma sendMessageXmpp_target_marker_type_witness :
  let acc := agentAccount emptyAccountConfig in
  let opts := {| optReplyTo := Some "m42"; optTarget := None; optClient := Some true |} in
  sendMessageXmpp specHost acc "fresh" "xmpp:Foo@Conference.Example/nick" "hi" opts
  = (inr {| resMessageId := "m1"; resTarget := "foo@conference.example" |},
     [SendStanza true "foo@conference.example"
                 ("hi" ++ JS.LF ++ JS.LF ++ "[reply:m42]") Groupchat;
      ActivityOutbound "default"]) /\
  sendPayload specHost "hi" opts = "hi" ++ JS.LF ++ JS.LF ++ "[reply:m42]" /\
  normalizeXmppJid "not a jid" = None /\
  sendMessageXmpp specHost acc "fresh" "not a jid" "hi" opts
  = (inl (ErrInvalidTarget "not a jid"), []).
Proof.
  cbv zeta.
  destruct (sendMessageXmpp_target_marker_type _ specHost "not a jid" "hi"
              {| optReplyTo := Some "m42"; optTarget := None; optClient := Some true |})
    as (Hbad & _ & _ & Hmark & _).
  split; [reflexivity|].
  split; [apply (Hmark "m42" eq_refl); discriminate|].
  split; [reflexivity|].
  destruct (Hbad eq_refl eq_refl) as (_ & _ & _ & Hsend).
  apply Hsend. reflexivity.
Defined.

(** C10. With a client at hand [deliverXmppReply] sends through it with type
    groupchat iff the target string contains "@conference." or "@muc.".  This
    is not [isRoomJid]: room@chat.muc.example is a room JID for [isRoomJid], so
    [sendMessageXmpp] would send it as groupchat, while the live-client reply
    goes out as chat. *)
Theorem live_reply_message_type :
  (forall tgt,
      liveReplyMessageType tgt = Groupchat <->
      JS.includes "@conference." tgt = true \/ JS.includes "@muc." tgt = true) /\
  (forall (Store : Type) (h : Host Store) account fid payload tgt ready err effs,
      deliverXmppReply h account fid payload tgt (Some ready) = (err, effs) ->
      effs = [] \/
      exists body,
        effs = [SendStanza true tgt body (liveReplyMessageType tgt); StatusOutbound]) /\
  liveReplyMessageType "room@chat.muc.example" = Chat /\
  isRoomJid "room@chat.muc.example" = true /\
  resolveTarget "room@chat.muc.example" noSendOptions = inr "room@chat.muc.example" /\
  sendMessageType "room@chat.muc.example" = Groupchat /\
  deliverXmppReply specHost (agentAccount emptyAccountConfig) "fresh"
    (pairingReplyPayload "pong") "room@chat.muc.example" (Some true)
  = (None, [SendStanza true "room@chat.muc.example" "pong" Chat; StatusOutbound]) /\
  deliverXmppReply specHost (agentAccount emptyAccountConfig) "fresh"
    (pairingReplyPayload "pong") "room@chat.muc.example" None
  = (None, [SendStanza false "room@chat.muc.example" "pong" Groupchat;
            ActivityOutbound "default"; StatusOutbound]).
Proof.
  split.
  { intros tgt. unfold liveReplyMessageType. rewrite <- orb_true_iff.
    destruct (JS.includes "@conference." tgt || JS.includes "@muc." tgt); split;
      (reflexivity || discriminate). }
  split.
  { intros Store h account fid payload tgt ready err effs. unfold deliverXmppReply.
    match goal with |- context [if ?c then (None, []) else _] => destruct c end;
      [intros [= <- <-]; now left|].
    destruct (liveSend h tgt _ _); intros [= <- <-]; [now left|].
    right. eexists. reflexivity. }
  repeat split.
Qed.

Lemma live_reply_message_type_witness :
  deliverXmppReply specHost (agentAccount emptyAccountConfig) "fresh"
    (pairingReplyPayload "pong") "room@chat.muc.example" (Some true)
  = (None, [SendStanza true "room@chat.muc.example" "pong" Chat; StatusOutbound]) /\
  liveReplyMessageType "room@chat.muc.example" = Chat.
Proof.
  destruct live_reply_message_type as (_ & Hlive & Hchat & _).
  split; [|exact Hchat].
  destruct (Hlive _ specHost (agentAccount emptyAccountConfig) "fresh"
              (pairingReplyPayload "pong") "room@chat.muc.example" true
              None _ eq_refl) as [H|[body H]]; reflexivity.
Defined.

(* ------------------------------------------------------------------ *)
(** ** client.ts and probe.ts: the connect timeout *)

Open Scope Z_scope.

Lemma connect_never_stops jidString tmo start :
  ~ In CallStop (xmppCalls (connectXmppClient jidString tmo start)).
Proof.
  unfold connectXmppClient.
  destruct (negb _ || negb _); [simpl; tauto|].
  destruct (0 <? connectTimeout tmo); destruct start; simpl;
    repeat match goal with |- context [if ?c then _ else _] => destruct c end;
    simpl; intuition discriminate.
Qed.

(** C7. The connect timeout is [connectTimeoutMs], 15000 ms when absent (or
    zero); the probe passes 8000 ms unless its caller gives a value.  When the
    timer fires before [xmpp.start()] settles, [connectXmppClient] rejects with
    "XMPP connection timeout" and makes no further attempt, but it never calls
    [stop] on the client: the pending start is left running.  At the input
    below (a server that never answers, probed with the default timeout) the
    probe reports the timeout and the only call ever made on the client is
    [start]. *)
Theorem connect_timeout_leaves_start_pending :
  connectTimeout None = 15000 /\
  connectTimeout (Some 0) = 15000 /\
  probeConnectTimeout None = 8000 /\
  (forall jidString tmo start,
      jidFormatOk jidString = true ->
      0 < connectTimeout tmo ->
      timerWins (connectTimeout tmo) start ->
      connectXmppClient jidString tmo start
      = {| connectResult := ConnectError "XMPP connection timeout";
           xmppCalls := [CallStart];
           startStillPending := true |}) /\
  (forall jidString tmo start,
      ~ In CallStop (xmppCalls (connectXmppClient jidString tmo start))) /\
  connectXmppClient "agent@localhost" (Some 8000) StartNeverSettles
  = {| connectResult := ConnectError "XMPP connection timeout";
       xmppCalls := [CallStart];
       startStillPending := true |} /\
  probeXmpp (agentAccount emptyAccountConfig) None StartNeverSettles
  = (Some {| probeOk := false; probeError := Some "XMPP connection timeout"%string |},
     [CallStart]).
Proof.
  split; [reflexivity|]. split; [reflexivity|]. split; [reflexivity|].
  split.
  { intros jidString tmo start Hfmt Hpos Hwin. unfold connectXmppClient.
    unfold jidFormatOk in Hfmt. apply andb_true_iff in Hfmt as [-> ->].
    cbn [negb orb]. apply Z.ltb_lt in Hpos. rewrite Hpos.
    destruct start as [t|t err|]; simpl in Hwin; try reflexivity;
      (assert (E : (t <? connectTimeout tmo) = false) by (apply Z.ltb_ge; lia));
      now rewrite E. }
  split; [exact connect_never_stops|].
  split; reflexivity.
Qed.

Lemma connect_timeout_leaves_start_pending_witness :
  jidFormatOk "agent@localhost" = true /\
  0 < connectTimeout (Some 8000) /\
  timerWins (connectTimeout (Some 8000)) (StartOnline 9000) /\
  startStillPending (connectXmppClient "agent@localhost" (Some 8000) (StartOnline 9000))
  = true.
Proof.
  destruct connect_timeout_leaves_start_pending as (_ & _ & _ & Hgen & _).
  assert (H1 : jidFormatOk "agent@localhost" = true) by reflexivity.
  assert (H2 : 0 < connectTimeout (Some 8000)) by reflexivity.
  assert (H3 : timerWins (connectTimeout (Some 8000)) (StartOnline 9000))
    by (simpl; lia).
  split; [exact H1|]. split; [exact H2|]. split; [exact H3|].
  now rewrite (Hgen "agent@localhost" (Some 8000) (StartOnline 9000) H1 H2 H3).
Defined.

Close Scope Z_scope.

(* ================================================================== *)
(** * Further properties of the code *)

(* ------------------------------------------------------------------ *)
(** ** More on strings: trimming, case and replacement *)

Lemma trimStart_idem (s : string) : JS.trimStart (JS.trimStart s) = JS.trimStart s.
Proof.
  induction s as [|c r IH]; [reflexivity|]. simpl.
  destruct (JS.isWhitespace c) eqn:E; [exact IH|]. simpl. now rewrite E.
Qed.

Lemma trimEnd_idem (s : string) : JS.trimEnd (JS.trimEnd s) = JS.trimEnd s.
Proof.
  induction s as [|c r IH]; [reflexivity|]. simpl.
  destruct (JS.isWhitespace c && negb (JS.truthy (JS.trimEnd r))) eqn:E; [reflexivity|].
  simpl. now rewrite IH, E.
Qed.

Lemma trim_swap (s : string) : JS.trimStart (JS.trimEnd s) = JS.trimEnd (JS.trimStart s).
Proof.
  induction s as [|c r IH]; [reflexivity|].
  simpl. destruct (JS.isWhitespace c) eqn:E; simpl.
  - destruct (JS.trimEnd r) as [|c' r'] eqn:Er; simpl.
    + now rewrite <- IH.
    + now rewrite E.
  - now rewrite E.
Qed.

Lemma trim_idem (s : string) : JS.trim (JS.trim s) = JS.trim s.
Proof.
  unfold JS.trim. now rewrite trim_swap, trimStart_idem, trimEnd_idem.
Qed.

Lemma trimStart_lower (s : string) :
  JS.trimStart (JS.toLowerCase s) = JS.toLowerCase (JS.trimStart s).
Proof.
  induction s as [|c r IH]; [reflexivity|]. simpl.
  rewrite isWhitespace_lower. now destruct (JS.isWhitespace c).
Qed.

Lemma trimEnd_lower (s : string) :
  JS.trimEnd (JS.toLowerCase s) = JS.toLowerCase (JS.trimEnd s).
Proof.
  induction s as [|c r IH]; [reflexivity|]. simpl.
  rewrite isWhitespace_lower, IH, truthy_toLowerCase.
  now destruct (JS.isWhitespace c && negb (JS.truthy (JS.trimEnd r))).
Qed.

Lemma trim_lower (s : string) : JS.trim (JS.toLowerCase s) = JS.toLowerCase (JS.trim s).
Proof. unfold JS.trim. now rewrite trimStart_lower, trimEnd_lower. Qed.

Lemma slice_lower (n : nat) (s : string) :
  JS.slice n (JS.toLowerCase s) = JS.toLowerCase (JS.slice n s).
Proof.
  revert s. induction n as [|n IH]; intros s; [reflexivity|].
  destruct s as [|c r]; [reflexivity|]. simpl. apply IH.
Qed.

Lemma lower_fixed_trim (s : string) :
  JS.toLowerCase s = s -> JS.toLowerCase (JS.trim s) = JS.trim s.
Proof. intros H. now rewrite <- trim_lower, H. Qed.

Lemma lower_fixed_slice (n : nat) (s : string) :
  JS.toLowerCase s = s -> JS.toLowerCase (JS.slice n s) = JS.slice n s.
Proof. intros H. now rewrite <- slice_lower, H. Qed.

Lemma allChars_lower (p : ascii -> bool) (s : string) :
  (forall c, p (JS.lowerUnit c) = p c) ->
  JS.allChars p (JS.toLowerCase s) = JS.allChars p s.
Proof.
  intros Hp. induction s as [|c r IH]; [reflexivity|]. simpl. now rewrite Hp, IH.
Qed.

Lemma allChars_replaceAllFrom (p : ascii -> bool) (pat rep : string) (k : nat) (s : string) :
  JS.allChars p rep = true -> JS.allChars p s = true ->
  JS.allChars p (JS.replaceAllFrom pat rep k s) = true.
Proof.
  intros Hrep. revert k. induction s as [|c r IH]; intros k H; [reflexivity|].
  rewrite allChars_cons in H. apply andb_true_iff in H as [Hc Hr].
  cbn [JS.replaceAllFrom]. destruct k as [|k]; [|now apply IH].
  destruct (String.prefix pat (String c r)).
  - rewrite allChars_app, Hrep. now apply IH.
  - rewrite allChars_cons, Hc. now apply IH.
Qed.

Lemma allChars_replaceAll (p : ascii -> bool) (pat rep s : string) :
  JS.allChars p rep = true -> JS.allChars p s = true ->
  JS.allChars p (JS.replaceAll pat rep s) = true.
Proof. apply allChars_replaceAllFrom. Qed.

Lemma includes_splitFirst (c : ascii) (s : string) :
  JS.includes (String c "") s = match JS.splitFirst c s with Some _ => true | None => false end.
Proof.
  induction s as [|x r IH]; [reflexivity|].
  cbn [JS.includes JS.splitFirst]. rewrite IH.
  cbn [String.prefix]. rewrite prefix_empty.
  destruct (ascii_dec c x) as [->|Hne].
  - now rewrite Ascii.eqb_refl.
  - assert (E : Ascii.eqb x c = false) by (apply Ascii.eqb_neq; congruence).
    rewrite E. cbn [orb]. now destruct (JS.splitFirst c r) as [[? ?]|].
Qed.

(* ------------------------------------------------------------------ *)
(** ** normalize.ts: what the normalizers return *)

Lemma bareUnit_lower (c : ascii) : bareUnit (JS.lowerUnit c) = bareUnit c.
Proof. destruct c as [[] [] [] [] [] [] [] []]; reflexivity. Qed.

Lemma allChars_bareUnit (s : string) :
  JS.allChars bareUnit s
  = JS.allChars (fun c => negb (Ascii.eqb c "/")) s
    && JS.allChars (fun c => negb (JS.isWhitespace c)) s.
Proof.
  induction s as [|c r IH]; [reflexivity|].
  rewrite !allChars_cons, IH. unfold bareUnit.
  destruct (negb (Ascii.eqb c "/")), (negb (JS.isWhitespace c)),
           (JS.allChars (fun c => negb (Ascii.eqb c "/")) r); reflexivity.
Qed.

Lemma splitFirst_none_inv (sep : ascii) (s : string) :
  JS.splitFirst sep s = None ->
  JS.allChars (fun c => negb (Ascii.eqb c sep)) s = true.
Proof.
  induction s as [|c r IH]; [reflexivity|]. cbn [JS.splitFirst].
  destruct (Ascii.eqb c sep) eqn:E; [discriminate|].
  destruct (JS.splitFirst sep r) as [[a b]|]; [discriminate|].
  intros _. rewrite allChars_cons, E. now apply IH.
Qed.

Lemma escape_bareUnit (l : string) :
  JS.allChars bareUnit l = true -> JS.allChars bareUnit (XmppJid.escape l) = true.
Proof.
  intros Hl. unfold XmppJid.escape, XmppJid.escapeTable. cbn [fold_left].
  repeat (apply allChars_replaceAll; [reflexivity|]).
  now apply allChars_trim.
Qed.

Lemma setLocal_bareUnit (l : string) :
  JS.allChars bareUnit l = true -> JS.allChars bareUnit (XmppJid.setLocal l) = true.
Proof.
  intros Hl. unfold XmppJid.setLocal. rewrite (allChars_lower _ _ bareUnit_lower).
  destruct (XmppJid.detect l); [now apply escape_bareUnit | exact Hl].
Qed.

Lemma newJID_bareUnit (l : option string) (d : string) (r : option string) (j : XmppJid.JID) :
  XmppJid.newJID l d r = Some j ->
  JS.allChars bareUnit (match l with Some x => x | None => "" end) = true ->
  JS.allChars bareUnit d = true ->
  JS.allChars bareUnit (XmppJid.local j) = true /\
  JS.allChars bareUnit (XmppJid.domain j) = true.
Proof.
  unfold XmppJid.newJID. destruct (negb (JS.truthy d)); [discriminate|].
  intros [= <-] Hl Hd. cbn [XmppJid.local XmppJid.domain]. split.
  - now apply setLocal_bareUnit.
  - now rewrite (allChars_lower _ _ bareUnit_lower).
Qed.

Lemma parseJid_bareUnit (t : string) (j : XmppJid.JID) :
  XmppJid.parseJid t = Some j ->
  JS.allChars (fun c => negb (JS.isWhitespace c)) t = true ->
  JS.allChars bareUnit (XmppJid.local j) = true /\
  JS.allChars bareUnit (XmppJid.domain j) = true.
Proof.
  unfold XmppJid.parseJid. intros Hp Hws.
  assert (Hs1 : exists s1 r, JS.allChars bareUnit s1 = true /\
            (let '(l, d) := match JS.splitFirst "@" s1 with
                            | Some (a, b) => (Some a, b)
                            | None => (None, s1)
                            end in XmppJid.newJID l d r) = Some j).
  { destruct (JS.splitFirst "/" t) as [[a b]|] eqn:E.
    - exists a, (Some b). split; [|exact Hp].
      destruct (splitFirst_some _ _ _ _ E) as [-> Ha].
      rewrite allChars_app in Hws. apply andb_true_iff in Hws as [Hws _].
      now rewrite allChars_bareUnit, Ha, Hws.
    - exists t, None. split; [|exact Hp].
      now rewrite allChars_bareUnit, (splitFirst_none_inv _ _ E), Hws. }
  destruct Hs1 as (s1 & r & Hs1 & Hj).
  destruct (JS.splitFirst "@" s1) as [[a b]|] eqn:E.
  - destruct (splitFirst_some _ _ _ _ E) as [-> _].
    rewrite allChars_app, allChars_cons in Hs1.
    apply andb_true_iff in Hs1 as [Ha Hb]. apply andb_true_iff in Hb as [_ Hb].
    eapply newJID_bareUnit; eauto.
  - eapply newJID_bareUnit; eauto.
Qed.

Lemma bare_bareUnit (j : XmppJid.JID) :
  JS.allChars bareUnit (XmppJid.local j) = true ->
  JS.allChars bareUnit (XmppJid.domain j) = true ->
  JS.allChars bareUnit (XmppJid.local (XmppJid.bare j)) = true /\
  JS.allChars bareUnit (XmppJid.domain (XmppJid.bare j)) = true.
Proof.
  intros Hl Hd. unfold XmppJid.bare.
  destruct (JS.truthy (XmppJid.resource j)); [|now split].
  destruct (XmppJid.newJID _ _ _) as [b|] eqn:E; [|now split].
  eapply newJID_bareUnit; eauto.
Qed.

Lemma toString_bare_shape (t : string) (j : XmppJid.JID) :
  XmppJid.parseJid t = Some j ->
  JS.allChars (fun c => negb (JS.isWhitespace c)) t = true ->
  JS.truthy (XmppJid.toString (XmppJid.bare j)) = true /\
  JS.allChars bareUnit (XmppJid.toString (XmppJid.bare j)) = true.
Proof.
  intros Hp Hws.
  pose proof (parseJid_canonical _ _ Hp) as Hc.
  destruct (parseJid_bareUnit _ _ Hp Hws) as [Hl Hd].
  destruct (bare_bareUnit _ Hl Hd) as [Hl' Hd'].
  pose proof (bare_canonical _ Hc) as (_ & _ & Hne).
  unfold XmppJid.toString. rewrite (bare_resource _ Hc).
  destruct (XmppJid.local (XmppJid.bare j)) as [|c l'] eqn:El; cbn [JS.truthy].
  - now split.
  - split; [reflexivity|].
    rewrite allChars_app, Hl'. cbn [append]. now rewrite allChars_cons, Hd'.
Qed.

Lemma looksLikeXmppJid_no_ws (t : string) :
  looksLikeXmppJid t = true ->
  JS.allChars (fun c => negb (JS.isWhitespace c)) (JS.trim t) = true.
Proof.
  unfold looksLikeXmppJid, XMPP_TARGET_PATTERN_test.
  destruct (negb (JS.truthy (JS.trim t))); [discriminate|].
  destruct (JS.allChars (fun c => negb (JS.isWhitespace c)) (JS.trim t));
    [reflexivity | discriminate].
Qed.

Lemma normalizeXmppJid_inv (x v : string) :
  normalizeXmppJid x = Some v ->
  exists t j, JS.trim t = t /\ looksLikeXmppJid t = true /\
              XmppJid.parseJid t = Some j /\
              v = XmppJid.toString (XmppJid.bare j).
Proof.
  unfold normalizeXmppJid.
  destruct (negb (JS.truthy (JS.trim x))); [discriminate|].
  match goal with |- context [negb (JS.truthy ?t) || _] => set (tgt := t) end.
  assert (Ht : JS.trim tgt = tgt).
  { unfold tgt.
    repeat match goal with
           | |- context [if ?b then _ else _] => destruct b
           end; apply trim_idem. }
  destruct (JS.truthy tgt); [|discriminate]. cbn [negb orb].
  destruct (looksLikeXmppJid tgt) eqn:El; [|discriminate]. cbn [negb].
  destruct (XmppJid.parseJid tgt) as [j|] eqn:E; [|discriminate].
  intros [= <-]. now exists tgt, j.
Qed.

(** X1 (normalize.ts, normalizeXmppJid): whatever the input, a value that
    [normalizeXmppJid] returns is a bare JID in canonical string form: it is
    not empty, it is in lower case, and it contains neither a "/" (so no
    resource is left) nor whitespace.  Surrounding whitespace of the input
    does not change the result. *)
Theorem normalizeXmppJid_returns_bare :
  (forall x v : string,
      normalizeXmppJid x = Some v ->
      JS.truthy v = true /\ JS.toLowerCase v = v /\ JS.allChars bareUnit v = true) /\
  (forall x : string, normalizeXmppJid (JS.trim x) = normalizeXmppJid x).
Proof.
  split.
  - intros x v H.
    destruct (normalizeXmppJid_inv _ _ H) as (t & j & Ht & Hl & Hp & ->).
    pose proof (looksLikeXmppJid_no_ws _ Hl) as Hws. rewrite Ht in Hws.
    destruct (toString_bare_shape _ _ Hp Hws) as [H1 H2].
    split; [exact H1|]. split; [|exact H2].
    apply toString_bare_lower. eapply parseJid_canonical; eauto.
  - intros x. unfold normalizeXmppJid. now rewrite trim_idem.
Qed.

Lemma normalizeXmppJid_returns_bare_witness :
  JS.truthy "alice@example.com" = true /\
  JS.toLowerCase "alice@example.com" = "alice@example.com" /\
  JS.allChars bareUnit "alice@example.com" = true.
Proof.
  destruct normalizeXmppJid_returns_bare as [H _].
  apply (H "  XMPP: Alice@Example.COM/phone "). reflexivity.
Defined.

Lemma fullJid_lower (l d : string) (r : option string) :
  JS.toLowerCase (fullJid l d r)
  = fullJid (JS.toLowerCase l) (JS.toLowerCase d) (option_map JS.toLowerCase r).
Proof.
  unfold fullJid. rewrite toLowerCase_app. cbn [JS.toLowerCase].
  rewrite toLowerCase_app. now destruct r.
Qed.

Lemma fullJid_not_star (l d : string) (r : option string) :
  JS.truthy l = true -> String.eqb (fullJid l d r) "*" = false.
Proof.
  unfold fullJid. destruct l as [|c l']; [discriminate|]. intros _.
  cbn [append String.eqb]. destruct (Ascii.eqb c "*"); [|reflexivity].
  now destruct l'.
Qed.

Section PlainEntry.

Variables l d : string.
Variable r : option string.
Hypothesis Hl : JS.allChars plainUnit l = true.
Hypothesis Hd : JS.allChars plainUnit d = true.
Hypothesis Hl1 : JS.truthy l = true.
Hypothesis Hd1 : JS.truthy d = true.
Hypothesis Hr : forall x, r = Some x ->
  JS.allChars (fun c => negb (JS.isWhitespace c)) x = true.

Lemma normalizeXmppBareJid_full :
  normalizeXmppBareJid (fullJid l d r) = JS.toLowerCase l ++ String "@" (JS.toLowerCase d).
Proof.
  unfold normalizeXmppBareJid.
  destruct (XmppJid.parseJid (fullJid l d r)) as [j|] eqn:E.
  - now apply (fullJid_bare l d r).
  - rewrite (fullJid_parse l d r Hl Hd Hd1) in E. discriminate.
Qed.

Lemma normalizeXmppAllowEntry_full (p : string) :
  In p protocolPrefixes ->
  normalizeXmppAllowEntry (p ++ fullJid l d r)
  = JS.toLowerCase l ++ String "@" (JS.toLowerCase d).
Proof.
  intros Hp.
  assert (Hll : JS.allChars plainUnit (JS.toLowerCase l) = true)
    by now rewrite allChars_plain_lower.
  assert (Hdl : JS.allChars plainUnit (JS.toLowerCase d) = true)
    by now rewrite allChars_plain_lower.
  assert (Hl1l : JS.truthy (JS.toLowerCase l) = true) by now rewrite truthy_toLowerCase.
  assert (Hd1l : JS.truthy (JS.toLowerCase d) = true) by now rewrite truthy_toLowerCase.
  assert (Hws : JS.allChars (fun c => negb (JS.isWhitespace c)) (fullJid l d r) = true)
    by now apply fullJid_no_ws.
  assert (Hwsp : JS.allChars (fun c => negb (JS.isWhitespace c)) (p ++ fullJid l d r) = true).
  { rewrite allChars_app, Hws.
    destruct Hp as [<-|[<-|[<-|[<-|[]]]]]; reflexivity. }
  assert (Hx : forall q, In q ["xmpp:"; "user:"; "room:"] ->
                 JS.startsWith q (JS.toLowerCase (fullJid l d r)) = false).
  { intros q Hq. apply fullJid_lower_no_prefix; auto;
      destruct Hq as [<-|[<-|[<-|[]]]]; reflexivity. }
  assert (Htrim : JS.trim (JS.toLowerCase (fullJid l d r)) = JS.toLowerCase (fullJid l d r)).
  { apply trim_plain. rewrite allChars_lower; [exact Hws|].
    intros c. now rewrite isWhitespace_lower. }
  assert (Ht : JS.truthy (JS.toLowerCase (fullJid l d r)) = true).
  { rewrite truthy_toLowerCase. now apply fullJid_truthy. }
  assert (Hstar : String.eqb (JS.toLowerCase (fullJid l d r)) "*" = false).
  { rewrite fullJid_lower. now apply fullJid_not_star. }
  assert (Hparse :
    match XmppJid.parseJid (JS.toLowerCase (fullJid l d r)) with
    | Some parsed => JS.toLowerCase (XmppJid.toString (XmppJid.bare parsed))
    | None => JS.toLowerCase (fullJid l d r)
    end = JS.toLowerCase l ++ String "@" (JS.toLowerCase d)).
  { rewrite fullJid_lower.
    destruct (XmppJid.parseJid _) as [j|] eqn:E.
    - rewrite (fullJid_bare _ _ _ Hll Hdl Hl1l Hd1l j E).
      rewrite toLowerCase_app. cbn [JS.toLowerCase]. now rewrite !toLowerCase_idem.
    - rewrite (fullJid_parse _ _ _ Hll Hdl Hd1l) in E. discriminate. }
  unfold normalizeXmppAllowEntry.
  rewrite (trim_plain _ Hwsp), toLowerCase_app.
  pose proof (Hx "xmpp:" (or_introl eq_refl)) as H1.
  pose proof (Hx "user:" (or_intror (or_introl eq_refl))) as H2.
  pose proof (Hx "room:" (or_intror (or_intror (or_introl eq_refl)))) as H3.
  revert Htrim Ht Hstar Hparse H1 H2 H3.
  generalize (JS.toLowerCase (fullJid l d r)) as g.
  intros g Htrim Ht Hstar Hparse H1 H2 H3.
  unfold JS.startsWith in *.
  destruct Hp as [<-|[<-|[<-|[<-|[]]]]]; simpl;
    rewrite ?prefix_empty, ?Ht, ?H1, ?H2, ?H3; simpl;
    rewrite ?H1, ?H2, ?H3, Htrim, Ht, Hstar; simpl; exact Hparse.
Qed.

End PlainEntry.

Lemma normalizeXmppAllowEntry_lower (raw : string) :
  JS.toLowerCase (normalizeXmppAllowEntry raw) = normalizeXmppAllowEntry raw.
Proof.
  unfold normalizeXmppAllowEntry.
  assert (H0 : JS.toLowerCase (JS.toLowerCase (JS.trim raw)) = JS.toLowerCase (JS.trim raw))
    by apply toLowerCase_idem.
  revert H0. generalize (JS.toLowerCase (JS.trim raw)) as v. intros v H0.
  destruct (negb (JS.truthy v)); [reflexivity|].
  match goal with |- context [JS.trim ?t] => set (w := t) end.
  assert (Hw : JS.toLowerCase (JS.trim w) = JS.trim w).
  { apply lower_fixed_trim. unfold w.
    repeat match goal with
           | |- context [if ?b then _ else _] => destruct b
           end; repeat apply lower_fixed_slice; exact H0. }
  destruct (JS.truthy (JS.trim w) && negb (String.eqb (JS.trim w) "*")); [|exact Hw].
  destruct (XmppJid.parseJid (JS.trim w)); [apply toLowerCase_idem | exact Hw].
Qed.

(** X2 (normalize.ts, normalizeXmppAllowEntry): an allowlist entry is always
    normalised to lower case, surrounding whitespace is irrelevant, the
    wildcard is kept in any spelling with whitespace around it, and a JID
    with an optional protocol prefix and an optional resource is reduced to
    its bare JID in lower case. *)
Theorem normalizeXmppAllowEntry_canonical :
  (forall raw : string,
      JS.toLowerCase (normalizeXmppAllowEntry raw) = normalizeXmppAllowEntry raw) /\
  (forall raw : string,
      normalizeXmppAllowEntry (JS.trim raw) = normalizeXmppAllowEntry raw) /\
  (forall raw : string, JS.trim raw = "*" -> normalizeXmppAllowEntry raw = "*") /\
  (forall (p l d : string) (r : option string),
      In p protocolPrefixes ->
      JS.truthy l = true -> JS.truthy d = true ->
      JS.allChars plainUnit l = true -> JS.allChars plainUnit d = true ->
      (forall x, r = Some x -> JS.allChars (fun c => negb (JS.isWhitespace c)) x = true) ->
      normalizeXmppAllowEntry (p ++ fullJid l d r)
      = JS.toLowerCase l ++ "@" ++ JS.toLowerCase d).
Proof.
  split; [|split; [|split]].
  - apply normalizeXmppAllowEntry_lower.
  - intros raw. unfold normalizeXmppAllowEntry. now rewrite trim_idem.
  - intros raw H. unfold normalizeXmppAllowEntry. rewrite H. reflexivity.
  - intros p l d r Hp Hl1 Hd1 Hl Hd Hr.
    now apply normalizeXmppAllowEntry_full.
Qed.

Lemma normalizeXmppAllowEntry_canonical_witness :
  normalizeXmppAllowEntry " * " = "*" /\
  normalizeXmppAllowEntry ("user:" ++ fullJid "Alice" "Example.COM" (Some "Phone"))
  = "alice@example.com".
Proof.
  destruct normalizeXmppAllowEntry_canonical as (_ & _ & Hstar & Hfull).
  split.
  - apply Hstar. reflexivity.
  - apply (Hfull "user:" "Alice" "Example.COM" (Some "Phone"));
      try reflexivity.
    + simpl. tauto.
    + intros x [= <-]. reflexivity.
Defined.

(* ------------------------------------------------------------------ *)
(** ** normalize.ts: allowlists *)

Lemma truthy_ne (s : string) : JS.truthy s = true -> s <> "".
Proof. destruct s; [discriminate | discriminate]. Qed.

Lemma setAdd_In_iff (c x : string) (l : list string) :
  In c (JS.setAdd x l) <-> c = x \/ In c l.
Proof.
  unfold JS.setAdd. destruct (JS.setHas x l) eqn:E.
  - apply setHas_In in E. split; [now right|]. intros [->|H]; assumption.
  - rewrite in_app_iff. simpl. split.
    + intros [H|[<-|[]]]; [now right | now left].
    + intros [->|H]; [right; now left | now left].
Qed.

Lemma setAdd_NoDup (x : string) (l : list string) : NoDup l -> NoDup (JS.setAdd x l).
Proof.
  intros Hl. unfold JS.setAdd. destruct (JS.setHas x l) eqn:E; [exact Hl|].
  assert (Hx : ~ In x l).
  { intros Hin. apply setHas_In in Hin. congruence. }
  clear E. induction Hl as [|y l Hy Hl IH]; simpl.
  - constructor; [intros []|constructor].
  - constructor.
    + rewrite in_app_iff. simpl. intros [H|[<-|[]]]; [now apply Hy|].
      apply Hx. now left.
    + apply IH. intros H. apply Hx. now right.
Qed.

Lemma setAdd_length (x : string) (l : list string) :
  List.length (JS.setAdd x l) <= S (List.length l).
Proof.
  unfold JS.setAdd. destruct (JS.setHas x l); [lia|].
  rewrite length_app. simpl. lia.
Qed.

(** X3 (normalize.ts, normalizeXmppAllowlist; channel.ts, formatAllowFrom):
    the normalised allowlist consists exactly of the non-empty normal forms
    of the configured entries; every entry of it is in lower case, and a
    missing list is the empty list. *)
Theorem normalizeXmppAllowlist_entries :
  (forall (entries : list string) (e : string),
      In e (normalizeXmppAllowlist (Some entries)) <->
      e <> "" /\ exists raw, In raw entries /\ e = normalizeXmppAllowEntry raw) /\
  (forall (entries : option (list string)) (e : string),
      In e (normalizeXmppAllowlist entries) -> JS.toLowerCase e = e) /\
  (forall entries : list string,
      List.length (normalizeXmppAllowlist (Some entries)) <= List.length entries) /\
  normalizeXmppAllowlist None = [].
Proof.
  split; [|split; [|split]].
  - intros entries e. unfold normalizeXmppAllowlist.
    rewrite filter_In, in_map_iff. split.
    + intros [(raw & <- & Hin) Ht]. split.
      * intros E. rewrite E in Ht. discriminate.
      * now exists raw.
    + intros [Hne (raw & Hin & ->)]. split; [now exists raw|].
      destruct (normalizeXmppAllowEntry raw); [congruence | reflexivity].
  - intros entries e. unfold normalizeXmppAllowlist.
    rewrite filter_In, in_map_iff. intros [(raw & <- & _) _].
    apply normalizeXmppAllowEntry_lower.
  - intros entries. unfold normalizeXmppAllowlist.
    etransitivity; [apply filter_length_le|]. now rewrite length_map.
  - reflexivity.
Qed.

Lemma normalizeXmppAllowlist_entries_witness :
  JS.toLowerCase "alice@example.com" = "alice@example.com".
Proof.
  destruct normalizeXmppAllowlist_entries as (_ & H & _).
  apply (H (Some ["  "; "xmpp:Alice@Example.COM/phone"])).
  simpl. now left.
Defined.

(** X4 (normalize.ts, buildXmppAllowlistCandidates): the candidates of a
    message are its non-empty sender bare JID and sender JID in lower case
    and, for a group message only, its non-empty nickname in lower case;
    nothing else, without duplicates, and at most three. *)
Theorem buildXmppAllowlistCandidates_spec :
  forall (m : XmppInboundMessage),
    (forall c : string,
        In c (buildXmppAllowlistCandidates m) <->
        (senderBareJid m <> "" /\ c = JS.toLowerCase (senderBareJid m)) \/
        (senderJid m <> "" /\ c = JS.toLowerCase (senderJid m)) \/
        (isGroup m = true /\
         exists n, senderNickname m = Some n /\ n <> "" /\ c = JS.toLowerCase n)) /\
    NoDup (buildXmppAllowlistCandidates m) /\
    List.length (buildXmppAllowlistCandidates m) <= 3 /\
    (forall c, In c (buildXmppAllowlistCandidates m) -> c <> "" /\ JS.toLowerCase c = c).
Proof.
  intros m.
  assert (Hspec : forall c : string,
        In c (buildXmppAllowlistCandidates m) <->
        (senderBareJid m <> "" /\ c = JS.toLowerCase (senderBareJid m)) \/
        (senderJid m <> "" /\ c = JS.toLowerCase (senderJid m)) \/
        (isGroup m = true /\
         exists n, senderNickname m = Some n /\ n <> "" /\ c = JS.toLowerCase n)).
  { intros c. unfold buildXmppAllowlistCandidates.
    destruct (JS.truthy (senderBareJid m)) eqn:Eb;
      [apply truthy_ne in Eb | apply truthy_false in Eb];
      (destruct (JS.truthy (senderJid m)) eqn:Ej;
       [apply truthy_ne in Ej | apply truthy_false in Ej]);
      (destruct (senderNickname m) as [n|];
       [destruct (isGroup m);
        (destruct (JS.truthy n) eqn:En;
         [apply truthy_ne in En | apply truthy_false in En]); cbn [andb]|]);
      rewrite ?setAdd_In_iff; simpl;
      (split; [intros H | intros [H|[H|(Hg & n' & Hn' & H)]]]);
      try (injection Hn' as <-); try discriminate;
      try tauto; try (destruct H; congruence);
      intuition (subst; eauto 8; try congruence). }
  split; [exact Hspec|]. split; [|split].
  - unfold buildXmppAllowlistCandidates.
    destruct (senderNickname m) as [n|];
      [destruct (isGroup m && JS.truthy n)|];
      destruct (JS.truthy (senderBareJid m)), (JS.truthy (senderJid m));
      repeat apply setAdd_NoDup; constructor.
  - unfold buildXmppAllowlistCandidates.
    assert (H0 : @List.length string [] <= 0) by (simpl; lia).
    assert (Hs : forall x l k, List.length l <= k -> List.length (JS.setAdd x l) <= S k).
    { intros x l k H. pose proof (setAdd_length x l). lia. }
    destruct (senderNickname m) as [n|];
      [destruct (isGroup m && JS.truthy n)|];
      destruct (JS.truthy (senderBareJid m)), (JS.truthy (senderJid m));
      repeat (apply Hs || (apply Nat.le_le_succ_r)); simpl; lia.
  - intros c Hc. apply Hspec in Hc.
    destruct Hc as [[Hne ->]|[[Hne ->]|(_ & n & _ & Hne & ->)]];
      (split; [intros E; apply Hne; now apply toLowerCase_empty
              | apply toLowerCase_idem]).
Qed.

Lemma buildXmppAllowlistCandidates_spec_witness :
  buildXmppAllowlistCandidates (groupMessage "Room@conference.localhost" "Alice" "hi")
  = ["room@conference.localhost"; "room@conference.localhost/alice"; "alice"] /\
  "alice" <> "" /\ JS.toLowerCase "alice" = "alice".
Proof.
  split; [reflexivity|].
  destruct (buildXmppAllowlistCandidates_spec
              (groupMessage "Room@conference.localhost" "Alice" "hi")) as (_ & _ & _ & H).
  apply H. simpl. tauto.
Defined.

Lemma allowEntries_app (a b : list string) :
  allowEntries (a ++ b) = (allowEntries a ++ allowEntries b)%list.
Proof. unfold allowEntries. now rewrite map_app, filter_app. Qed.

Lemma allowEntries_lower (l : list string) :
  allowEntries (map JS.toLowerCase l) = allowEntries l.
Proof.
  unfold allowEntries. rewrite map_map. f_equal. apply map_ext.
  intros x. now rewrite trim_lower, toLowerCase_idem.
Qed.

Lemma allowEntries_trim (l : list string) :
  allowEntries (map JS.trim l) = allowEntries l.
Proof.
  unfold allowEntries. rewrite map_map. f_equal. apply map_ext.
  intros x. now rewrite trim_idem.
Qed.

Lemma allowlist_match_entries (a b : list string) (m : XmppInboundMessage) :
  allowEntries a = allowEntries b ->
  resolveXmppAllowlistMatch a m = resolveXmppAllowlistMatch b m.
Proof.
  intros H. unfold resolveXmppAllowlistMatch. fold (allowEntries a) (allowEntries b).
  now rewrite H.
Qed.

(** X5 (normalize.ts, resolveXmppAllowlistMatch): an empty allowlist admits
    nobody; adding entries never revokes a match; the reported source is
    either "wildcard", with "*" on the list, or a candidate of the message
    that is on the list, and it is reported exactly when the message is
    allowed; letter case and surrounding whitespace of the entries do not
    matter. *)
Theorem resolveXmppAllowlistMatch_laws :
  (forall m, resolveXmppAllowlistMatch [] m
             = {| matchAllowed := false; matchSource := None |}) /\
  (forall a b m,
      matchAllowed (resolveXmppAllowlistMatch a m) = true ->
      matchAllowed (resolveXmppAllowlistMatch (a ++ b) m) = true /\
      matchAllowed (resolveXmppAllowlistMatch (b ++ a) m) = true) /\
  (forall a m s,
      matchSource (resolveXmppAllowlistMatch a m) = Some s ->
      matchAllowed (resolveXmppAllowlistMatch a m) = true /\
      ((s = "wildcard" /\ In "*" (allowEntries a)) \/
       (In s (buildXmppAllowlistCandidates m) /\ In s (allowEntries a)))) /\
  (forall a m,
      matchAllowed (resolveXmppAllowlistMatch a m) = false ->
      matchSource (resolveXmppAllowlistMatch a m) = None) /\
  (forall a m,
      resolveXmppAllowlistMatch (map JS.toLowerCase a) m = resolveXmppAllowlistMatch a m /\
      resolveXmppAllowlistMatch (map JS.trim a) m = resolveXmppAllowlistMatch a m).
Proof.
  split; [|split; [|split; [|split]]].
  - intros m. unfold resolveXmppAllowlistMatch. simpl.
    destruct (find _ _) eqn:E; [|reflexivity].
    apply find_some in E as [_ E]. discriminate.
  - intros a b m H. apply allowlist_match_iff in H.
    split; apply allowlist_match_iff; rewrite allowEntries_app;
      (destruct H as [H|(c & Hc & H)];
       [left | right; exists c; split; [exact Hc|]]);
      rewrite in_app_iff; tauto.
  - intros a m s. unfold resolveXmppAllowlistMatch. fold (allowEntries a).
    destruct (JS.setHas "*" (allowEntries a)) eqn:Ew.
    + cbn. intros [= <-]. split; [reflexivity|]. left. split; [reflexivity|].
      now apply setHas_In.
    + destruct (find _ _) as [c|] eqn:E; cbn; [|discriminate].
      intros [= <-]. split; [reflexivity|]. right.
      apply find_some in E as [Hc E]. split; [exact Hc|]. now apply setHas_In.
  - intros a m. unfold resolveXmppAllowlistMatch.
    destruct (JS.setHas "*" _); [discriminate|].
    now destruct (find _ _).
  - intros a m. split; apply allowlist_match_entries;
      [apply allowEntries_lower | apply allowEntries_trim].
Qed.

Lemma resolveXmppAllowlistMatch_laws_witness :
  let m := directMessage "Bob@Example.org" "hi" in
  resolveXmppAllowlistMatch [" BOB@example.ORG "] m
  = {| matchAllowed := true; matchSource := Some "bob@example.org" |} /\
  matchAllowed (resolveXmppAllowlistMatch (["carol@example.org"] ++ [" BOB@example.ORG "]) m)
  = true /\
  In "bob@example.org" (allowEntries [" BOB@example.ORG "]).
Proof.
  destruct resolveXmppAllowlistMatch_laws as (_ & Hmono & Hsrc & _).
  split; [reflexivity|]. split.
  - apply (Hmono [" BOB@example.ORG "] ["carol@example.org"]). reflexivity.
  - destruct (Hsrc [" BOB@example.ORG "] (directMessage "Bob@Example.org" "hi")
                   "bob@example.org" eq_refl) as [_ [[H _]|[_ H]]];
      [discriminate | exact H].
Defined.

(** X6 (normalize.ts; inbound.ts, lines 107-110 and 131): allowlisting is by bare
    JID.  A configured [allowFrom] entry that names a JID with a resource is
    normalised to the bare JID, so it admits a message whose sender bare JID
    is that of the same user from any resource, in any letter case. *)
Theorem allowFrom_entry_admits_any_resource :
  forall (Store : Type) (h : Host Store) account (st : Store)
         (p l d : string) (r : option string) (l' d' : string) (r' : option string)
         (configuredEntries : list string) (m : XmppInboundMessage),
    In p protocolPrefixes ->
    JS.truthy l = true -> JS.truthy d = true ->
    JS.allChars plainUnit l = true -> JS.allChars plainUnit d = true ->
    (forall x, r = Some x -> JS.allChars (fun c => negb (JS.isWhitespace c)) x = true) ->
    allowFrom (config account) = Some configuredEntries ->
    In (p ++ fullJid l d r) configuredEntries ->
    JS.toLowerCase l' = JS.toLowerCase l -> JS.toLowerCase d' = JS.toLowerCase d ->
    senderBareJid m = normalizeXmppBareJid (fullJid l' d' r') ->
    matchAllowed (resolveXmppAllowlistMatch (effectiveAllowFrom h account st) m) = true.
Proof.
  intros Store h account st p l d r l' d' r' entries m
         Hp Hl1 Hd1 Hl Hd Hr Hcfg Hin Hll Hdl Hm.
  set (b := JS.toLowerCase l ++ String "@" (JS.toLowerCase d)).
  assert (Hl' : JS.allChars plainUnit l' = true)
    by now rewrite <- allChars_plain_lower, Hll, allChars_plain_lower.
  assert (Hd' : JS.allChars plainUnit d' = true)
    by now rewrite <- allChars_plain_lower, Hdl, allChars_plain_lower.
  assert (Hl1' : JS.truthy l' = true)
    by now rewrite <- truthy_toLowerCase, Hll, truthy_toLowerCase.
  assert (Hd1' : JS.truthy d' = true)
    by now rewrite <- truthy_toLowerCase, Hdl, truthy_toLowerCase.
  assert (Hb : senderBareJid m = b).
  { rewrite Hm, (normalizeXmppBareJid_full l' d' r' Hl' Hd' Hl1' Hd1'), Hll, Hdl.
    reflexivity. }
  assert (Hbt : JS.truthy b = true).
  { unfold b. destruct (JS.toLowerCase l) eqn:E; [|reflexivity].
    apply toLowerCase_empty in E. subst. discriminate. }
  assert (Hblow : JS.toLowerCase b = b).
  { unfold b. rewrite toLowerCase_app. cbn [JS.toLowerCase].
    now rewrite !toLowerCase_idem. }
  assert (Hbtrim : JS.trim b = b).
  { apply trim_plain. unfold b. rewrite allChars_app, allChars_cons.
    rewrite !(allChars_lower (fun c => negb (JS.isWhitespace c)))
      by (intros c; now rewrite isWhitespace_lower).
    rewrite (allChars_impl _ _ _ plainUnit_not_ws Hl),
            (allChars_impl _ _ _ plainUnit_not_ws Hd). reflexivity. }
  apply allowlist_match_iff. right. exists b. split.
  - rewrite <- Hblow, <- Hb. apply candidates_bare. now rewrite Hb.
  - unfold allowEntries. apply filter_In. split; [|exact Hbt].
    apply in_map_iff. exists b. split; [now rewrite Hbtrim, Hblow|].
    apply effectiveAllowFrom_spec. left. rewrite Hcfg.
    unfold normalizeXmppAllowlist. apply filter_In. split; [|exact Hbt].
    apply in_map_iff. exists (p ++ fullJid l d r). split; [|exact Hin].
    now apply normalizeXmppAllowEntry_full.
Qed.

Lemma allowFrom_entry_admits_any_resource_witness :
  let account :=
    agentAccount {| dmPolicy := Some DmAllowlist;
                    allowFrom := Some ["xmpp:" ++ fullJid "Alice" "Example.com" (Some "laptop")];
                    groupPolicy := None; groupAllowFrom := None; rooms := None;
                    autoJoinRooms := None;
       blockStreaming := None |} in
  let it := resolveXmppInboundTarget (fullJid "alice" "EXAMPLE.com" (Some "phone")) "chat" in
  let m := {| messageId := "1"; target := itTarget it; senderJid := itSenderJid it;
              senderBareJid := itSenderBareJid it; senderResource := itSenderResource it;
              senderNickname := itSenderNickname it; text := "hi"; timestamp := 0%Z;
              isGroup := itIsGroup it; stanzaId := None |} in
  matchAllowed (resolveXmppAllowlistMatch (effectiveAllowFrom specHost account []) m) = true.
Proof.
  cbv zeta.
  eapply (allowFrom_entry_admits_any_resource (list string) specHost _ []
            "xmpp:" "Alice" "Example.com" (Some "laptop")
            "alice" "EXAMPLE.com" (Some "phone"));
    try reflexivity.
  - simpl. tauto.
  - intros x [= <-]. reflexivity.
  - simpl. now left.
Defined.

(* ------------------------------------------------------------------ *)
(** ** policy.ts: the group sender gate and the room match *)

Lemma length_pos_nil {A} (l : list A) : (0 <? List.length l) = false <-> l = [].
Proof. destruct l; cbn; split; intros H; try reflexivity; discriminate. Qed.

(** X7 (policy.ts, resolveXmppGroupSenderAllowed; inbound.ts, lines 157-168):
    a room-level allowlist that is not empty after normalisation decides
    alone, whatever the account-level list and the policy are; otherwise a
    non-empty account-level list decides alone; with both empty the sender is
    allowed exactly under the open policy.  A group message that passed the
    access gate and whose sender the gate rejects is dropped with the log
    line naming the policy: nothing is dispatched or sent and the store is
    unchanged. *)
Theorem group_sender_gate :
  (forall gp gp' m outer outer' inner,
      normalizeXmppAllowlist (Some inner) <> [] ->
      resolveXmppGroupSenderAllowed gp m outer inner
      = resolveXmppGroupSenderAllowed gp' m outer' inner) /\
  (forall gp gp' m outer inner,
      normalizeXmppAllowlist (Some inner) = [] ->
      normalizeXmppAllowlist (Some outer) <> [] ->
      resolveXmppGroupSenderAllowed gp m outer inner
      = resolveXmppGroupSenderAllowed gp' m outer []) /\
  (forall gp m outer inner,
      normalizeXmppAllowlist (Some inner) = [] ->
      normalizeXmppAllowlist (Some outer) = [] ->
      (resolveXmppGroupSenderAllowed gp m outer inner = true <-> policyOf gp = GroupOpen)) /\
  (forall gp m outer inner,
      In "*" (normalizeXmppAllowlist (Some inner)) ->
      resolveXmppGroupSenderAllowed gp m outer inner = true) /\
  (forall (Store : Type) (h : Host Store) cfg account client fid m (st : Store),
      isGroup m = true ->
      JS.truthy (JS.trim (text m)) = true ->
      gateAllowed (groupAccessOf cfg account m) = true ->
      groupSenderAllowedOf h cfg account m st = false ->
      handleXmppInbound h cfg account client fid m st
      = {| effects := [StatusInbound (timestamp m);
                       Log ("xmpp: drop group sender " ++ senderDisplayOf m ++ " (policy="
                            ++ groupPolicyName (effectiveGroupPolicy cfg account) ++ ")")];
           finalStore := st; fulfilled := true |}).
Proof.
  split; [|split; [|split; [|split]]].
  - intros gp gp' m outer outer' inner Hne.
    unfold resolveXmppGroupSenderAllowed.
    destruct (0 <? List.length (normalizeXmppAllowlist (Some inner))) eqn:E; [reflexivity|].
    apply length_pos_nil in E. contradiction.
  - intros gp gp' m outer inner Hi Ho.
    unfold resolveXmppGroupSenderAllowed. rewrite Hi.
    change (normalizeXmppAllowlist (Some [])) with (@nil string).
    destruct (normalizeXmppAllowlist (Some outer)); [congruence | reflexivity].
  - intros gp m outer inner Hi Ho.
    unfold resolveXmppGroupSenderAllowed, policyOf. rewrite Hi, Ho.
    cbn [List.length Nat.ltb Nat.leb].
    destruct gp as [[]|]; simpl; split; congruence.
  - intros gp m outer inner Hin.
    unfold resolveXmppGroupSenderAllowed.
    destruct (0 <? List.length (normalizeXmppAllowlist (Some inner))) eqn:E.
    + apply allowlist_match_iff. left. unfold allowEntries.
      apply filter_In. split; [|reflexivity].
      apply in_map_iff. exists "*". split; [reflexivity | exact Hin].
    + apply length_pos_nil in E. rewrite E in Hin. destruct Hin.
  - intros Store h cfg account client fid m st Hg Hb Hgate Hsender.
    rewrite handle_group by assumption. cbv zeta.
    now rewrite Hgate, Hsender.
Qed.

Lemma group_sender_gate_witness :
  let m := groupMessage "room@conference.localhost" "alice" "hello" in
  resolveXmppGroupSenderAllowed (Some GroupOpen) m ["alice"] ["carol@example.org"] = false /\
  resolveXmppGroupSenderAllowed (Some GroupOpen) m ["alice"] [" "] = true /\
  (resolveXmppGroupSenderAllowed (Some GroupOpen) m [] [] = true <->
   policyOf (Some GroupOpen) = GroupOpen) /\
  resolveXmppGroupSenderAllowed None m [] ["room:*"] = true /\
  effects (handleXmppInbound specHost plainConfig lockedRoomAccount (Some true) "fresh" m [])
  = [StatusInbound 0%Z;
     Log "xmpp: drop group sender alice@room@conference.localhost (policy=open)"].
Proof.
  cbv zeta.
  destruct group_sender_gate as (H1 & H2 & H3 & H4 & H5).
  split; [|split; [|split; [|split]]].
  - rewrite (H1 (Some GroupOpen) None _ ["alice"] [] ["carol@example.org"]);
      [reflexivity | discriminate].
  - rewrite (H2 (Some GroupOpen) None _ ["alice"] [" "]);
      [reflexivity | reflexivity | discriminate].
  - apply H3; reflexivity.
  - apply H4. simpl. now left.
  - rewrite H5; reflexivity.
Defined.

Lemma roomMatch_config_source (ro : option Rooms) (tgt : string) (c : XmppRoomConfig) :
  roomConfig (resolveXmppRoomMatch ro tgt) = Some c ->
  (exists key, roomsGet (roomsOf ro) key = Some c /\
               JS.toLowerCase key = JS.toLowerCase tgt) \/
  (In tgt JS.OBJECT_PROTOTYPE_KEYS /\ ~ In tgt (roomsKeys (roomsOf ro)) /\
   c = inheritedProperty).
Proof.
  destruct (roomsRead (roomsOf ro) tgt) as [direct|] eqn:Ed.
  - destruct (roomMatch_direct ro tgt direct Ed) as [_ ->]. intros [= <-].
    unfold roomsRead in Ed.
    destruct (roomsGet (roomsOf ro) tgt) as [v|] eqn:Eg.
    + injection Ed as <-. left. now exists tgt.
    + destruct (JS.isInherited tgt) eqn:Ei; [|discriminate].
      injection Ed as <-. right. split; [now apply isInherited_In|]. split; [|reflexivity].
      intros Hin. destruct (roomsGet_in_keys _ _ Hin) as [v Hv]. congruence.
  - destruct (find (fun k => String.eqb (JS.toLowerCase k) (JS.toLowerCase tgt))
                   (roomsKeys (roomsOf ro))) as [k|] eqn:Ef.
    + destruct (roomMatch_found ro tgt k Ed Ef) as (_ & -> & _).
      apply find_some in Ef as [_ Ek]. apply String.eqb_eq in Ek.
      intros H. left. now exists k.
    + destruct (roomMatch_not_found ro tgt Ed Ef) as [-> _]. discriminate.
Qed.

Lemma roomMatch_allowed_iff (ro : option Rooms) (tgt : string) :
  roomAllowed (resolveXmppRoomMatch ro tgt) = true <->
  (exists key, In key (roomsKeys (roomsOf ro)) /\
               JS.toLowerCase key = JS.toLowerCase tgt) \/
  In tgt JS.OBJECT_PROTOTYPE_KEYS \/
  In "*" (roomsKeys (roomsOf ro)).
Proof.
  split.
  - intros H.
    destruct (roomsRead (roomsOf ro) tgt) as [direct|] eqn:Ed.
    + unfold roomsRead in Ed.
      destruct (roomsGet (roomsOf ro) tgt) as [v|] eqn:Eg.
      * left. exists tgt. split; [eapply roomsGet_some_key; eauto | reflexivity].
      * destruct (JS.isInherited tgt) eqn:Ei; [|discriminate].
        right. left. now apply isInherited_In.
    + destruct (find (fun k => String.eqb (JS.toLowerCase k) (JS.toLowerCase tgt))
                     (roomsKeys (roomsOf ro))) as [k|] eqn:Ef.
      * apply find_some in Ef as [Hk Ek]. apply String.eqb_eq in Ek.
        left. now exists k.
      * destruct (roomMatch_not_found ro tgt Ed Ef) as [_ Ha]. rewrite Ha in H.
        right. right. apply wildcard_key_iff.
        destruct (roomsGet (roomsOf ro) "*"); [discriminate | discriminate].
  - intros H. apply roomMatch_matched.
    destruct H as [H|[H|H]]; [now left | right; now left |].
    right. right. now apply wildcard_key_iff.
Qed.

(** X8 (policy.ts, resolveXmppRoomMatch): a room is allowed exactly when the
    match returns a room config or a wildcard config, which is exactly when
    some key equals the target up to letter case, or the target is the name
    of a property that the rooms object inherits, or there is a "*" key.
    The wildcard config is always the entry stored under "*".  A room config
    that is returned is stored under a key that equals the target up to
    letter case, or else the target is the name of an inherited property, no
    key of the map, and the config is that property, on which every field
    is undefined.  For targets that are not such names, whether the room is
    allowed does not depend on the letter case of the target. *)
Theorem resolveXmppRoomMatch_invariants :
  forall (ro : option Rooms) (tgt : string),
    let rs := match ro with Some l => l | None => [] end in
    let rm := resolveXmppRoomMatch ro tgt in
    (roomAllowed rm = true <-> roomConfig rm <> None \/ wildcardConfig rm <> None) /\
    (roomAllowed rm = true <->
     (exists key, In key (roomsKeys rs) /\ JS.toLowerCase key = JS.toLowerCase tgt) \/
     In tgt JS.OBJECT_PROTOTYPE_KEYS \/
     In "*" (roomsKeys rs)) /\
    wildcardConfig rm = roomsGet rs "*" /\
    (forall c, roomConfig rm = Some c ->
       (exists key, roomsGet rs key = Some c /\
                    JS.toLowerCase key = JS.toLowerCase tgt) \/
       (In tgt JS.OBJECT_PROTOTYPE_KEYS /\ ~ In tgt (roomsKeys rs) /\
        roomRequireMention c = None /\ roomEnabled c = None /\
        roomAllowFrom c = None /\ roomSkills c = None /\
        roomSystemPrompt c = None)) /\
    (In tgt JS.OBJECT_PROTOTYPE_KEYS -> roomConfig rm <> None) /\
    (forall tgt', JS.toLowerCase tgt' = JS.toLowerCase tgt ->
       ~ In tgt JS.OBJECT_PROTOTYPE_KEYS -> ~ In tgt' JS.OBJECT_PROTOTYPE_KEYS ->
       roomAllowed (resolveXmppRoomMatch ro tgt') = roomAllowed rm).
Proof.
  intros ro tgt rs rm. change rs with (roomsOf ro) in *.
  assert (Hcfg : roomAllowed rm = true <->
                 roomConfig rm <> None \/ wildcardConfig rm <> None).
  { unfold rm. rewrite roomMatch_wildcard. split.
    - intros H.
      destruct (roomsRead (roomsOf ro) tgt) as [direct|] eqn:Ed.
      + destruct (roomMatch_direct ro tgt direct Ed) as [_ ->]. left. discriminate.
      + destruct (find (fun k => String.eqb (JS.toLowerCase k) (JS.toLowerCase tgt))
                       (roomsKeys (roomsOf ro))) as [k|] eqn:Ef.
        * destruct (roomMatch_found ro tgt k Ed Ef) as (_ & -> & Hne). now left.
        * destruct (roomMatch_not_found ro tgt Ed Ef) as [_ Ha]. rewrite Ha in H.
          right. destruct (roomsGet (roomsOf ro) "*"); discriminate.
    - intros [H|H].
      + destruct (roomConfig (resolveXmppRoomMatch ro tgt)) as [c|] eqn:Ec; [|congruence].
        apply roomMatch_allowed_iff.
        destruct (roomMatch_config_source _ _ _ Ec) as [(key & Hk & He)|(Hp & _)].
        * left. exists key. split; [eapply roomsGet_some_key; eauto | exact He].
        * right. now left.
      + apply roomMatch_allowed_iff. right. right. now apply wildcard_key_iff. }
  repeat apply conj.
  - apply Hcfg.
  - apply Hcfg.
  - apply roomMatch_allowed_iff.
  - apply roomMatch_allowed_iff.
  - apply roomMatch_wildcard.
  - intros c Hc. destruct (roomMatch_config_source _ _ _ Hc) as [H|(Hp & Hk & ->)];
      [now left | right; now repeat split].
  - intros Hp.
    destruct (roomsRead (roomsOf ro) tgt) as [direct|] eqn:Ed.
    + unfold rm. destruct (roomMatch_direct ro tgt direct Ed) as [_ ->]. discriminate.
    + apply roomsRead_none in Ed as [_ Ed]. apply isInherited_In in Hp. congruence.
  - intros tgt' He Hp Hp'. unfold rm.
    destruct (roomAllowed (resolveXmppRoomMatch ro tgt)) eqn:E.
    + apply roomMatch_allowed_iff in E. apply roomMatch_allowed_iff.
      destruct E as [(key & Hk & Hl)|[H|H]];
        [left; exists key; split; congruence | now elim Hp | now right; right].
    + destruct (roomAllowed (resolveXmppRoomMatch ro tgt')) eqn:E'; [|reflexivity].
      apply roomMatch_allowed_iff in E'.
      assert (H : roomAllowed (resolveXmppRoomMatch ro tgt) = true).
      { apply roomMatch_allowed_iff.
        destruct E' as [(key & Hk & Hl)|[H|H]];
          [left; exists key; split; congruence | now elim Hp' | now right; right]. }
      congruence.
Qed.

Lemma resolveXmppRoomMatch_invariants_witness :
  roomAllowed (resolveXmppRoomMatch (rooms (config mentionRoomAccount))
                                    "ROOM@Conference.Localhost") = true /\
  (exists key, roomsGet (roomsOf (rooms (config mentionRoomAccount))) key
               = roomConfig (resolveXmppRoomMatch (rooms (config mentionRoomAccount))
                                                  "ROOM@Conference.Localhost") /\
               JS.toLowerCase key = "room@conference.localhost") /\
  roomConfig (resolveXmppRoomMatch (rooms (config mentionRoomAccount)) "toString") <> None.
Proof.
  destruct (resolveXmppRoomMatch_invariants (rooms (config mentionRoomAccount))
              "room@conference.localhost") as (_ & _ & _ & _ & _ & Hcase).
  destruct (resolveXmppRoomMatch_invariants (rooms (config mentionRoomAccount))
              "ROOM@Conference.Localhost") as (_ & _ & _ & Hkey & _).
  destruct (resolveXmppRoomMatch_invariants (rooms (config mentionRoomAccount))
              "toString") as (_ & _ & _ & _ & Hproto & _).
  split; [|split].
  - rewrite (Hcase "ROOM@Conference.Localhost"); [reflexivity | reflexivity | |];
      simpl; intuition discriminate.
  - destruct (Hkey _ eq_refl) as [(key & Hk & He)|(Hp & _)].
    + exists key. split; [exact Hk | exact He].
    + exfalso. simpl in Hp. intuition discriminate.
  - apply Hproto. simpl. auto 20.
Defined.

(* ------------------------------------------------------------------ *)
(** ** muc.ts: occupant JIDs *)

Lemma split_second (s : string) :
  nth_error (JS.split "/" s) 1
  = match JS.splitFirst "/" s with
    | Some (_, rest) => Some (beforeFirstSlash rest)
    | None => None
    end.
Proof.
  destruct (JS.splitFirst "/" s) as [[a b]|] eqn:E.
  - rewrite (split_splitFirst_some _ _ _ _ E). cbn [nth_error].
    pose proof (split_head b) as H.
    destruct (JS.split "/" b) as [|x xs] eqn:Eb; [|exact (f_equal Some H)].
    exfalso. destruct b; simpl in Eb; [discriminate|].
    destruct (Ascii.eqb a0 "/"); [discriminate|].
    destruct (JS.split "/" b); discriminate.
  - now rewrite (split_splitFirst_none _ _ E).
Qed.

(** X9 (muc.ts, isOccupantJid, getRoomJidFromOccupant,
    getNicknameFromOccupant, parseMucStanza; monitor.ts,
    resolveXmppInboundTarget): the room of an occupant JID is the part before
    its first "/", a nickname is returned exactly for the JIDs that
    [isOccupantJid] accepts, and the occupant JID that joinMucRoom builds from
    a room without "/" and a nickname without "/" is taken apart into the
    same room and nickname.  For a groupchat stanza with a sender
    [parseMucStanza] finds the room and the nickname that the monitor puts
    into the inbound message. *)
Theorem occupant_jid_round_trip :
  (forall occ : string,
      getRoomJidFromOccupant occ = beforeFirstSlash occ /\
      (isOccupantJid occ = true <-> getNicknameFromOccupant occ <> None)) /\
  (forall room nick : string,
      JS.allChars (fun c => negb (Ascii.eqb c "/")) room = true ->
      isOccupantJid (occupantJidOf room nick) = true /\
      getRoomJidFromOccupant (occupantJidOf room nick) = room /\
      getNicknameFromOccupant (occupantJidOf room nick) = Some (beforeFirstSlash nick) /\
      (JS.allChars (fun c => negb (Ascii.eqb c "/")) nick = true ->
       getNicknameFromOccupant (occupantJidOf room nick) = Some nick)) /\
  (forall from : string,
      from <> "" ->
      let info := parseMucStanza (Some from) (Some "groupchat") in
      let it := resolveXmppInboundTarget from "groupchat" in
      isGroupChat info = true /\
      roomJid info = Some (itTarget it) /\
      mucSenderNickname info = itSenderNickname it /\
      senderFullJid info = Some (itSenderJid it)) /\
  (forall from type : option string,
      type <> Some "groupchat" \/ from = None \/ from = Some "" ->
      isGroupChat (parseMucStanza from type) = false).
Proof.
  split; [|split; [|split]].
  - intros occ. split; [apply split_head|].
    unfold isOccupantJid, getNicknameFromOccupant.
    rewrite split_second. change "/"%string with (String "/" "").
    rewrite includes_splitFirst.
    destruct (JS.splitFirst "/" occ) as [[a b]|]; split; congruence.
  - intros room nick Hroom. unfold occupantJidOf. cbn [append].
    pose proof (splitFirst_app "/" room nick Hroom) as Hs.
    unfold isOccupantJid, getRoomJidFromOccupant, getNicknameFromOccupant.
    rewrite split_head, split_second. change "/"%string with (String "/" "").
    rewrite includes_splitFirst. unfold beforeFirstSlash at 1. rewrite Hs.
    split; [reflexivity|]. split; [reflexivity|]. split; [reflexivity|].
    intros Hn. unfold beforeFirstSlash. now rewrite (splitFirst_none _ _ Hn).
  - intros from Hne. cbv zeta. unfold parseMucStanza, resolveXmppInboundTarget.
    destruct from as [|c r]; [congruence|]. cbn [truthyOpt JS.truthy].
    change (String.eqb "groupchat" "groupchat") with true. cbn iota.
    cbn [isGroupChat roomJid mucSenderNickname senderFullJid
         itTarget itSenderNickname itSenderJid].
    repeat split.
  - intros from type H. unfold parseMucStanza.
    destruct type as [t|]; [|reflexivity].
    destruct (truthyOpt from) as [f|] eqn:Ef; [|reflexivity].
    destruct (String.eqb t "groupchat") eqn:Et; [|reflexivity].
    apply String.eqb_eq in Et. subst.
    destruct H as [H | [-> | ->]]; [congruence | discriminate | discriminate].
Qed.

Lemma occupant_jid_round_trip_witness :
  getRoomJidFromOccupant (occupantJidOf "room@conference.localhost" "openclaw")
  = "room@conference.localhost" /\
  getNicknameFromOccupant (occupantJidOf "room@conference.localhost" "openclaw")
  = Some "openclaw" /\
  isGroupChat (parseMucStanza (Some "room@conference.localhost/alice") (Some "chat")) = false /\
  roomJid (parseMucStanza (Some "room@conference.localhost/alice") (Some "groupchat"))
  = Some "room@conference.localhost".
Proof.
  destruct occupant_jid_round_trip as (_ & Hrt & Hmon & Hnot).
  destruct (Hrt "room@conference.localhost" "openclaw" eq_refl) as (_ & Hroom & _ & Hnick).
  split; [exact Hroom|]. split; [exact (Hnick eq_refl)|]. split.
  - apply Hnot. left. discriminate.
  - destruct (Hmon "room@conference.localhost/alice") as (_ & H & _); [discriminate|].
    exact H.
Defined.

(* ------------------------------------------------------------------ *)
(** ** presence.ts: the presence tracker *)

Lemma mapGet_set_same (k : string) (v : PresenceState) (m : Presences) :
  mapGet (mapSet k v m) k = Some v.
Proof.
  induction m as [|[k' x] rest IH]; simpl.
  - now rewrite String.eqb_refl.
  - destruct (String.eqb k' k) eqn:E; simpl; now rewrite E.
Qed.

Lemma mapGet_set_other (k k' : string) (v : PresenceState) (m : Presences) :
  k' <> k -> mapGet (mapSet k v m) k' = mapGet m k'.
Proof.
  intros Hne. induction m as [|[k0 x] rest IH]; simpl.
  - destruct (String.eqb k k') eqn:E; [|reflexivity].
    apply String.eqb_eq in E. congruence.
  - destruct (String.eqb k0 k) eqn:E; simpl.
    + apply String.eqb_eq in E. subst k0.
      destruct (String.eqb k k') eqn:E'; [|reflexivity].
      apply String.eqb_eq in E'. congruence.
    + now rewrite IH.
Qed.

Lemma mapSet_keys (k : string) (v : PresenceState) (m : Presences) :
  map fst (mapSet k v m)
  = if JS.setHas k (map fst m) then map fst m else (map fst m ++ [k])%list.
Proof.
  induction m as [|[k0 x] rest IH]; simpl; [reflexivity|].
  rewrite (String.eqb_sym k k0).
  destruct (String.eqb k0 k) eqn:E; simpl; [reflexivity|].
  rewrite IH. unfold JS.setHas. now destruct (existsb (String.eqb k) (map fst rest)).
Qed.

Lemma mapSet_In (k : string) (v : PresenceState) (m : Presences) (k' : string)
    (s : PresenceState) :
  In (k', s) (mapSet k v m) -> (k' = k /\ s = v) \/ In (k', s) m.
Proof.
  induction m as [|[k0 x] rest IH]; simpl.
  - intros [[= <- <-]|[]]. now left.
  - destruct (String.eqb k0 k) eqn:E; simpl.
    + apply String.eqb_eq in E. subst k0.
      intros [[= <- <-]|H]; [now left | right; now right].
    + intros [H|H]; [right; now left|].
      destruct (IH H) as [H'|H']; [now left | right; now right].
Qed.

Lemma mapGet_In (m : Presences) (k : string) (s : PresenceState) :
  mapGet m k = Some s -> In (k, s) m.
Proof.
  induction m as [|[k0 x] rest IH]; simpl; [discriminate|].
  destruct (String.eqb k0 k) eqn:E.
  - apply String.eqb_eq in E. subst. intros [= <-]. now left.
  - intros H. right. now apply IH.
Qed.

(** X10 (presence.ts, PresenceTracker.handlePresence, isAvailable,
    getPresence, clear): presence is tracked per bare JID.  After an
    unavailable presence the sender's bare JID is reported unavailable, with
    the time of the event as [lastSeen]; after an available presence (no type,
    or "probe") it is reported available with the status, show and priority
    of the event; every other type leaves the tracker as it was; the state of
    every other bare JID is untouched; a JID never seen, and every JID after
    [clear], is unavailable.  For a plain JID the resource and the letter case
    of the queried JID do not matter. *)
Theorem presence_tracker_step :
  forall (now : Z) (ev : XmppPresenceEvent) (ps : Presences) (j : string),
    let ps' := PresenceTracker.handlePresence now ev ps in
    let bare := normalizeXmppBareJid (prFrom ev) in
    (normalizeXmppBareJid j = bare ->
       (PresenceTracker.announcesUnavailable ev = true ->
          PresenceTracker.getPresence j ps'
          = Some {| psJid := bare; psAvailable := false; psStatus := None; psShow := None;
                    psPriority := None; psLastSeen := Some now |} /\
          PresenceTracker.isAvailable j ps' = false) /\
       (PresenceTracker.announcesAvailable ev = true ->
          PresenceTracker.getPresence j ps'
          = Some {| psJid := bare; psAvailable := true; psStatus := prStatus ev;
                    psShow := prShow ev; psPriority := prPriority ev;
                    psLastSeen := None |} /\
          PresenceTracker.isAvailable j ps' = true)) /\
    (normalizeXmppBareJid j <> bare ->
       PresenceTracker.getPresence j ps' = PresenceTracker.getPresence j ps /\
       PresenceTracker.isAvailable j ps' = PresenceTracker.isAvailable j ps) /\
    (PresenceTracker.announcesUnavailable ev = false ->
     PresenceTracker.announcesAvailable ev = false -> ps' = ps) /\
    PresenceTracker.isAvailable j (PresenceTracker.clear ps) = false /\
    (PresenceTracker.getPresence j ps = None -> PresenceTracker.isAvailable j ps = false) /\
    (forall l d l' d' r r',
       JS.truthy l = true -> JS.truthy d = true ->
       JS.allChars plainUnit l = true -> JS.allChars plainUnit d = true ->
       JS.toLowerCase l' = JS.toLowerCase l -> JS.toLowerCase d' = JS.toLowerCase d ->
       prFrom ev = fullJid l d r ->
       PresenceTracker.announcesAvailable ev = true ->
       PresenceTracker.isAvailable (fullJid l' d' r') ps' = true).
Proof.
  intros now ev ps j ps' bare.
  assert (Hun : PresenceTracker.announcesUnavailable ev = true ->
                ps' = mapSet bare {| psJid := bare; psAvailable := false; psStatus := None;
                                     psShow := None; psPriority := None;
                                     psLastSeen := Some now |} ps).
  { unfold ps', PresenceTracker.handlePresence, PresenceTracker.announcesUnavailable.
    destruct (prType ev) as [t|]; [|discriminate]. now intros ->. }
  assert (Hav : PresenceTracker.announcesAvailable ev = true ->
                ps' = mapSet bare {| psJid := bare; psAvailable := true;
                                     psStatus := prStatus ev; psShow := prShow ev;
                                     psPriority := prPriority ev; psLastSeen := None |} ps).
  { unfold ps', PresenceTracker.handlePresence, PresenceTracker.announcesAvailable.
    destruct (prType ev) as [t|]; [|reflexivity].
    intros H. destruct (String.eqb t "unavailable") eqn:E; [|now rewrite H].
    apply String.eqb_eq in E. subst. discriminate. }
  assert (Hno : PresenceTracker.announcesUnavailable ev = false ->
                PresenceTracker.announcesAvailable ev = false -> ps' = ps).
  { unfold ps', PresenceTracker.handlePresence, PresenceTracker.announcesUnavailable,
      PresenceTracker.announcesAvailable.
    destruct (prType ev) as [t|]; [|discriminate]. now intros -> ->. }
  assert (Hplain : forall l d l' d' r r',
       JS.truthy l = true -> JS.truthy d = true ->
       JS.allChars plainUnit l = true -> JS.allChars plainUnit d = true ->
       JS.toLowerCase l' = JS.toLowerCase l -> JS.toLowerCase d' = JS.toLowerCase d ->
       normalizeXmppBareJid (fullJid l' d' r') = normalizeXmppBareJid (fullJid l d r)).
  { intros l d l' d' r r' Hl1 Hd1 Hl Hd Hll Hdl.
    rewrite (normalizeXmppBareJid_full l d r Hl Hd Hl1 Hd1).
    rewrite normalizeXmppBareJid_full, Hll, Hdl; try reflexivity.
    - now rewrite <- allChars_plain_lower, Hll, allChars_plain_lower.
    - now rewrite <- allChars_plain_lower, Hdl, allChars_plain_lower.
    - now rewrite <- truthy_toLowerCase, Hll, truthy_toLowerCase.
    - now rewrite <- truthy_toLowerCase, Hdl, truthy_toLowerCase. }
  unfold PresenceTracker.getPresence, PresenceTracker.isAvailable.
  split; [|split; [|split; [|split; [|split]]]].
  - intros Hj. rewrite Hj. split; intros H.
    + rewrite (Hun H), mapGet_set_same. now split.
    + rewrite (Hav H), mapGet_set_same. now split.
  - intros Hj.
    assert (H : mapGet ps' (normalizeXmppBareJid j) = mapGet ps (normalizeXmppBareJid j)).
    { destruct (PresenceTracker.announcesUnavailable ev) eqn:Eu.
      - rewrite (Hun eq_refl). now apply mapGet_set_other.
      - destruct (PresenceTracker.announcesAvailable ev) eqn:Ea.
        + rewrite (Hav eq_refl). now apply mapGet_set_other.
        + now rewrite (Hno eq_refl eq_refl). }
    now rewrite H.
  - exact Hno.
  - reflexivity.
  - now intros ->.
  - intros l d l' d' r r' Hl1 Hd1 Hl Hd Hll Hdl Hfrom Ha.
    rewrite (Hplain l d l' d' r r') by assumption.
    rewrite (Hav Ha). unfold bare. rewrite Hfrom, mapGet_set_same. reflexivity.
Qed.

Lemma presence_tracker_step_witness :
  let online := {| prFrom := "Alice@Example.com/phone"; prType := None;
                   prStatus := Some "here"; prShow := None; prPriority := Some 5%Z |} in
  let offline := {| prFrom := "alice@example.com/laptop"; prType := Some "unavailable";
                    prStatus := None; prShow := None; prPriority := None |} in
  let ps := PresenceTracker.handlePresence 10%Z online [] in
  PresenceTracker.isAvailable (fullJid "ALICE" "example.COM" (Some "desk")) ps = true /\
  PresenceTracker.isAvailable "alice@example.com"
    (PresenceTracker.handlePresence 20%Z offline ps) = false /\
  PresenceTracker.isAvailable "bob@example.com" ps = false.
Proof.
  cbv zeta.
  set (online := {| prFrom := "Alice@Example.com/phone"; prType := None;
                    prStatus := Some "here"; prShow := None; prPriority := Some 5%Z |}).
  set (offline := {| prFrom := "alice@example.com/laptop"; prType := Some "unavailable";
                     prStatus := None; prShow := None; prPriority := None |}).
  split; [|split].
  - destruct (presence_tracker_step 10%Z online [] "x") as (_ & _ & _ & _ & _ & H).
    apply (H "Alice" "Example.com" "ALICE" "example.COM" (Some "phone") (Some "desk"));
      reflexivity.
  - destruct (presence_tracker_step 20%Z offline
                (PresenceTracker.handlePresence 10%Z online []) "alice@example.com")
      as (H & _).
    destruct (H eq_refl) as [Hu _]. destruct (Hu eq_refl) as [_ Hoff]. exact Hoff.
  - destruct (presence_tracker_step 10%Z online [] "bob@example.com")
      as (_ & _ & _ & _ & H & _).
    apply H. reflexivity.
Defined.

Lemma stateFromEvent_more (seen more : list (Z * XmppPresenceEvent)) k s :
  stateFromEvent seen k s -> stateFromEvent (seen ++ more) k s.
Proof.
  intros (Hj & now & ev & Hin & Hk & H). split; [exact Hj|].
  exists now, ev. split; [apply in_app_iff; now left | now split].
Qed.

Lemma mapSet_invariant (seen : list (Z * XmppPresenceEvent)) (now : Z)
    (ev : XmppPresenceEvent) (k : string) (v : PresenceState) (ps : Presences) :
  trackerInvariant seen ps ->
  stateFromEvent [(now, ev)] k v ->
  trackerInvariant (seen ++ [(now, ev)]) (mapSet k v ps).
Proof.
  intros (Hnd & Hlen & Hst) Hv. split; [|split].
  - rewrite mapSet_keys. destruct (JS.setHas k (map fst ps)) eqn:E; [exact Hnd|].
    assert (Hk : ~ In k (map fst ps)).
    { intros Hin. apply setHas_In in Hin. congruence. }
    clear E Hst Hlen. induction (map fst ps) as [|y l IH]; simpl.
    + constructor; [intros []|constructor].
    + inversion Hnd as [|? ? Hy Hl]; subst. constructor.
      * rewrite in_app_iff. simpl. intros [H|[<-|[]]]; [now apply Hy|].
        apply Hk. now left.
      * apply IH; [exact Hl|]. intros H. apply Hk. now right.
  - rewrite length_app. simpl.
    assert (H : List.length (mapSet k v ps) <= S (List.length ps)).
    { rewrite <- (length_map fst), mapSet_keys.
      destruct (JS.setHas k (map fst ps)); rewrite ?length_app, ?length_map; simpl; lia. }
    lia.
  - intros k' s Hin. destruct (mapSet_In _ _ _ _ _ Hin) as [[-> ->]|H].
    + destruct Hv as (Hj & n & e & Hi & Hrest). split; [exact Hj|].
      exists n, e. split; [apply in_app_iff; now right | exact Hrest].
    + apply stateFromEvent_more. now apply Hst.
Qed.

Lemma handlePresence_invariant (seen : list (Z * XmppPresenceEvent)) (now : Z)
    (ev : XmppPresenceEvent) (ps : Presences) :
  trackerInvariant seen ps ->
  trackerInvariant (seen ++ [(now, ev)]) (PresenceTracker.handlePresence now ev ps).
Proof.
  intros Hinv.
  assert (Hkeep : trackerInvariant (seen ++ [(now, ev)]) ps).
  { destruct Hinv as (Hnd & Hlen & Hst). split; [exact Hnd|]. split.
    - rewrite length_app. simpl. lia.
    - intros k s Hin. apply stateFromEvent_more. now apply Hst. }
  unfold PresenceTracker.handlePresence.
  assert (Hav : PresenceTracker.announcesAvailable ev = true ->
    trackerInvariant (seen ++ [(now, ev)])
      (mapSet (normalizeXmppBareJid (prFrom ev))
         {| psJid := normalizeXmppBareJid (prFrom ev); psAvailable := true;
            psStatus := prStatus ev; psShow := prShow ev; psPriority := prPriority ev;
            psLastSeen := None |} ps)).
  { intros Ha. apply mapSet_invariant; [exact Hinv|]. split; [reflexivity|].
    exists now, ev. split; [now left|]. split; [reflexivity|]. cbn. now repeat split. }
  unfold PresenceTracker.announcesAvailable in Hav.
  destruct (prType ev) as [t|] eqn:Et; [|now apply Hav].
  destruct (String.eqb t "unavailable") eqn:Eu.
  - apply mapSet_invariant; [exact Hinv|]. split; [reflexivity|].
    exists now, ev. split; [now left|]. split; [reflexivity|]. cbn.
    unfold PresenceTracker.announcesUnavailable. rewrite Et. now split.
  - destruct (negb (JS.truthy t) || String.eqb t "probe") eqn:Ea;
      [now apply Hav | exact Hkeep].
Qed.

Lemma handleAllPresences_invariant (rest seen : list (Z * XmppPresenceEvent))
    (ps : Presences) :
  trackerInvariant seen ps ->
  trackerInvariant (seen ++ rest) (PresenceTracker.handleAllPresences rest ps).
Proof.
  revert seen ps. induction rest as [|[now ev] rest IH]; intros seen ps Hinv.
  - now rewrite app_nil_r.
  - cbn [PresenceTracker.handleAllPresences].
    replace (seen ++ (now, ev) :: rest)%list with ((seen ++ [(now, ev)]) ++ rest)%list
      by (now rewrite <- app_assoc).
    apply IH. now apply handlePresence_invariant.
Qed.

(** X11 (presence.ts, PresenceTracker): a tracker that started empty and has
    handled any sequence of presence events holds at most one state per bare
    JID and at most as many states as it has handled events; every state is
    stored under its own [jid] and is what one of the handled events left
    behind; a JID is reported available only if an available presence of its
    bare JID was handled. *)
Theorem presence_tracker_invariants :
  forall events : list (Z * XmppPresenceEvent),
    let ps := PresenceTracker.handleAllPresences events [] in
    NoDup (map psJid (PresenceTracker.getAllPresences ps)) /\
    List.length (PresenceTracker.getAllPresences ps) <= List.length events /\
    (forall k s, In (k, s) ps -> stateFromEvent events k s) /\
    (forall j, PresenceTracker.isAvailable j ps = true ->
       exists now ev, In (now, ev) events /\
                      normalizeXmppBareJid (prFrom ev) = normalizeXmppBareJid j /\
                      PresenceTracker.announcesAvailable ev = true).
Proof.
  intros events ps.
  assert (Hinv : trackerInvariant events ps).
  { apply (handleAllPresences_invariant events [] []).
    split; [constructor|]. split; [simpl; lia | intros k s []]. }
  destruct Hinv as (Hnd & Hlen & Hst).
  split; [|split; [|split]].
  - unfold PresenceTracker.getAllPresences. rewrite map_map.
    replace (map (fun x => psJid (snd x)) ps) with (map fst ps); [exact Hnd|].
    apply map_ext_in. intros [k s] Hin. cbn. now destruct (Hst k s Hin) as [-> _].
  - unfold PresenceTracker.getAllPresences. now rewrite length_map.
  - exact Hst.
  - intros j. unfold PresenceTracker.isAvailable.
    destruct (mapGet ps (normalizeXmppBareJid j)) as [s|] eqn:E; [|discriminate].
    intros Ha. apply mapGet_In in E.
    destruct (Hst _ _ E) as (_ & now & ev & Hin & Hk & H).
    rewrite Ha in H. exists now, ev. split; [exact Hin|]. split; [now rewrite Hk | apply H].
Qed.

Lemma presence_tracker_invariants_witness :
  let online := {| prFrom := "Alice@Example.com/phone"; prType := None;
                   prStatus := Some "here"; prShow := None; prPriority := Some 5%Z |} in
  let other := {| prFrom := "alice@example.com/laptop"; prType := Some "subscribe";
                  prStatus := None; prShow := None; prPriority := None |} in
  exists now ev,
    In (now, ev) [(10%Z, online); (20%Z, other)] /\
    normalizeXmppBareJid (prFrom ev) = "alice@example.com" /\
    PresenceTracker.announcesAvailable ev = true.
Proof.
  cbv zeta.
  apply (presence_tracker_invariants
           [(10%Z, {| prFrom := "Alice@Example.com/phone"; prType := None;
                      prStatus := Some "here"; prShow := None; prPriority := Some 5%Z |});
            (20%Z, {| prFrom := "alice@example.com/laptop"; prType := Some "subscribe";
                      prStatus := None; prShow := None; prPriority := None |})]
           ) with (j := "alice@example.com").
  reflexivity.
Defined.

(* ------------------------------------------------------------------ *)
(** ** client.ts and monitor.ts: from a stanza to an inbound message *)

Lemma truthyOpt_none (o : option string) :
  truthyOpt o = None <-> o = None \/ o = Some "".
Proof.
  destruct o as [[|c s]|]; cbn; split; intros H; try tauto; try discriminate.
  - destruct H as [H|H]; discriminate.
Qed.

Lemma truthyOpt_truthy (o : option string) (x : string) :
  truthyOpt o = Some x -> o = Some x /\ x <> "".
Proof.
  destruct o as [[|c s]|]; cbn; try discriminate. intros [= <-]. split; [reflexivity|discriminate].
Qed.

(** X12 (client.ts, handleMessageStanza; monitor.ts, lines 104-153): a
    message stanza without a body, with an empty body or without a sender
    never reaches the monitor: no activity is recorded and no handler is
    called.  When a message is delivered, its text is the stanza's non-empty
    body, its sender JID is the stanza's sender, it is a group message exactly
    when the stanza's type is "groupchat" (a stanza without a type is handled
    as a direct message), its time is the delayed-delivery time if there is
    one and the current time otherwise, and the activity record made first
    carries that time. *)
Theorem stanza_to_inbound_message :
  forall account hasClient custom (now : Z) (fid : string) (stanza : MessageStanza),
    let acts := monitorOnStanza account hasClient custom now fid stanza in
    (stBody stanza = None \/ stBody stanza = Some "" \/
     stFrom stanza = None \/ stFrom stanza = Some "" -> acts = []) /\
    (forall m, deliveredMessage acts = Some m ->
       stBody stanza = Some (text m) /\ text m <> "" /\
       stFrom stanza = Some (senderJid m) /\
       (isGroup m = true <-> stType stanza = Some "groupchat") /\
       timestamp m = match stDelay stanza with Some d => d | None => now end /\
       stanzaId m = stId stanza /\
       (fid <> "" -> messageId m <> "") /\
       exists call, acts = [RecordInboundActivity (accountId account) (timestamp m); call]).
Proof.
  intros account hasClient custom now fid stanza acts. split.
  - intros H. unfold acts, monitorOnStanza, handleMessageStanza.
    destruct (truthyOpt (stBody stanza)) as [b|] eqn:Eb.
    + destruct (truthyOpt (stFrom stanza)) as [f|] eqn:Ef; [|reflexivity].
      apply truthyOpt_truthy in Eb as [Eb Hb]. apply truthyOpt_truthy in Ef as [Ef Hf].
      rewrite Eb, Ef in H.
      destruct H as [H|[H|[H|H]]]; try discriminate; congruence.
    + reflexivity.
  - intros m. unfold acts, monitorOnStanza, handleMessageStanza.
    destruct (truthyOpt (stBody stanza)) as [b|] eqn:Eb; [|discriminate].
    destruct (truthyOpt (stFrom stanza)) as [f|] eqn:Ef; [|discriminate].
    apply truthyOpt_truthy in Eb as [Eb Hb]. apply truthyOpt_truthy in Ef as [Ef Hf].
    unfold monitorOnMessage. cbn [evFrom evType evBody evId evDelay].
    destruct (negb hasClient); [discriminate|].
    destruct (String.eqb (normalizeXmppBareJid f) (bareJid account)); [discriminate|].
    set (ty := match truthyOpt (stType stanza) with Some t => t | None => "normal" end).
    assert (Hty : String.eqb ty "groupchat" = true <-> stType stanza = Some "groupchat").
    { unfold ty. destruct (stType stanza) as [t|]; [|cbn; split; discriminate].
      destruct t as [|c s]; [cbn; split; discriminate|].
      cbn [truthyOpt JS.truthy]. split.
      - intros H. apply String.eqb_eq in H. now rewrite H.
      - intros [= -> ->]. reflexivity. }
    assert (Hg : itIsGroup (resolveXmppInboundTarget f ty) = String.eqb ty "groupchat").
    { unfold resolveXmppInboundTarget. now destruct (String.eqb ty "groupchat"). }
    assert (Hs : itSenderJid (resolveXmppInboundTarget f ty) = f).
    { unfold resolveXmppInboundTarget. now destruct (String.eqb ty "groupchat"). }
    assert (Hid : fid <> "" ->
                  match stId stanza with
                  | Some i => if JS.truthy i then i else fid
                  | None => fid
                  end <> "").
    { intros Hfid. destruct (stId stanza) as [[|c s]|]; cbn; try assumption. discriminate. }
    destruct custom; cbn [deliveredMessage]; intros [= <-];
      cbn [text senderJid isGroup timestamp stanzaId messageId];
      rewrite Hg, Hs, Eb, Ef; repeat (split; [first [reflexivity | assumption | apply Hty]|]);
      eauto.
Qed.

Lemma stanza_to_inbound_message_witness :
  let stanza := {| stType := None; stFrom := Some "Bob@Example.org/phone";
                   stTo := Some "agent@localhost"; stId := None;
                   stBody := Some "hello"; stDelay := Some 42%Z |} in
  let noBody := {| stType := Some "chat"; stFrom := Some "bob@example.org";
                   stTo := None; stId := None; stBody := None; stDelay := None |} in
  monitorOnStanza (agentAccount emptyAccountConfig) true false 7%Z "fresh" noBody = [] /\
  exists m,
    deliveredMessage (monitorOnStanza (agentAccount emptyAccountConfig) true false 7%Z
                                      "fresh" stanza) = Some m /\
    text m = "hello" /\ timestamp m = 42%Z /\ messageId m <> "".
Proof.
  cbv zeta. split.
  - apply stanza_to_inbound_message. now left.
  - eexists. split; [reflexivity|].
    edestruct (stanza_to_inbound_message (agentAccount emptyAccountConfig) true false 7%Z
                 "fresh" {| stType := None; stFrom := Some "Bob@Example.org/phone";
                            stTo := Some "agent@localhost"; stId := None;
                            stBody := Some "hello"; stDelay := Some 42%Z |})
      as (_ & H).
    destruct (H _ eq_refl) as (_ & _ & _ & _ & Ht & _ & Hid & _).
    split; [reflexivity|]. split; [exact Ht|]. apply Hid. discriminate.
Defined.

(* ------------------------------------------------------------------ *)
(** ** inbound.ts: the pipeline as a whole *)

Lemma effectiveDmPolicy_iff account :
  (effectiveDmPolicy account = DmOpen <-> dmPolicy (config account) = Some DmOpen) /\
  (effectiveDmPolicy account = DmDisabled <-> dmPolicy (config account) = Some DmDisabled) /\
  (effectiveDmPolicy account = DmPairing <->
   dmPolicy (config account) = None \/ dmPolicy (config account) = Some DmPairing).
Proof.
  unfold effectiveDmPolicy.
  destruct (dmPolicy (config account)) as [[]|]; repeat split;
    try discriminate; try reflexivity; try (intros [H|H]; discriminate); auto.
Qed.

Section PipelineRuns.

Context {Store : Type}.
Variable h : Host Store.
Variable cfg : PipelineConfig.
Variable account : ResolvedXmppAccount.
Variable client : option bool.
Variable freshId : string.

Lemma enforce_outcome m st :
  match enforceDmPolicy h account client freshId m st with
  | inl _ =>
      effectiveDmPolicy account = DmOpen \/
      (effectiveDmPolicy account <> DmDisabled /\
       matchAllowed (resolveXmppAllowlistMatch (effectiveAllowFrom h account st) m) = true)
  | inr run =>
      existsb isDispatch (effects run) = false /\
      existsb isSessionRecord (effects run) = false /\
      effectiveDmPolicy account <> DmOpen /\
      (effectiveDmPolicy account = DmDisabled \/
       matchAllowed (resolveXmppAllowlistMatch (effectiveAllowFrom h account st) m) = false) /\
      ((existsb isUpsert (effects run) || existsb isSend (effects run) = true \/
        fulfilled run = false \/ finalStore run <> st) ->
       effectiveDmPolicy account = DmPairing /\
       matchAllowed (resolveXmppAllowlistMatch (effectiveAllowFrom h account st) m) = false) /\
      (fulfilled run = false ->
       upsertPairingRequest h CHANNEL_ID (JS.toLowerCase (senderBareJid m))
                            (senderBareJid m) st = None /\
       finalStore run = st)
  end.
Proof.
  unfold enforceDmPolicy.
  destruct (effectiveDmPolicy account) eqn:Hp.
  - destruct (matchAllowed _) eqn:Hm; [right; split; [discriminate | reflexivity]|].
    pose proof (pairing_no_dispatch h account client freshId m st) as Hn.
    pose proof (pairing_no_session h account client freshId m st) as Hns.
    pose proof (pairing_outcome h account client freshId m st) as Ho. cbv zeta in Ho.
    destruct (fulfilled (pairingChallenge h account client freshId m st)) eqn:Hf.
    + cbn [effects finalStore fulfilled]. rewrite !existsb_app, Hn, Hns.
      split; [reflexivity|]. split; [reflexivity|]. split; [discriminate|].
      split; [now right|]. split; [now split | discriminate].
    + split; [exact Hn|]. split; [exact Hns|]. split; [discriminate|].
      split; [now right|]. split; [now split|]. intros _.
      destruct (upsertPairingRequest _ _ _ _ _) as [[[code created] st']|].
      * destruct Ho as (Ho & _). congruence.
      * now destruct Ho as (_ & Ho & _).
  - destruct (matchAllowed _) eqn:Hm; [right; split; [discriminate | reflexivity]|].
    cbn. split; [reflexivity|]. split; [reflexivity|]. split; [discriminate|].
    split; [now right|].
    split; [|discriminate]. intros [H|[H|H]]; [discriminate | discriminate | now elim H].
  - now left.
  - cbn. split; [reflexivity|]. split; [reflexivity|]. split; [discriminate|].
    split; [now left|].
    split; [|discriminate]. intros [H|[H|H]]; [discriminate | discriminate | now elim H].
Qed.

(** The agent stage, step by step. *)
Lemma routeToAgent_explicit m body wasMentioned commandAuthorized rm :
  let route := resolveAgentRoute h (accountId account)
                 (if isGroup m then "group" else "direct") (target m) in
  let storePath := resolveStorePath h (routeAgentId route) in
  let envelope :=
    formatAgentEnvelope h (if isGroup m then target m else senderDisplayOf m)
      (timestamp m) (readSessionUpdatedAt h storePath (routeSessionKey route)) body in
  let ctx := finalizeInboundContext h
               (inboundContext m body wasMentioned commandAuthorized rm route envelope) in
  let sessionKey :=
    match ctxSessionKey ctx with Some k => k | None => routeSessionKey route end in
  let recording :=
    SessionRecord storePath sessionKey ctx
    :: map (fun err => LogError ("xmpp: failed updating session meta: " ++ err))
           (fst (recordInboundSession h storePath sessionKey ctx)) in
  let skillFilter := match roomConfig rm with Some rc => roomSkills rc | None => None end in
  let disableBlockStreaming := option_map negb (blockStreaming (config account)) in
  let dispatched :=
    runDispatcher h account client freshId (target m)
      (dispatchReplyWithBufferedBlockDispatcher h ctx skillFilter disableBlockStreaming) in
  routeToAgent h account client freshId m body wasMentioned commandAuthorized rm
  = if snd (recordInboundSession h storePath sessionKey ctx)
    then ((recording ++ AgentDispatch ctx skillFilter disableBlockStreaming
                     :: fst dispatched)%list, snd dispatched)
    else (recording, false).
Proof.
  cbv zeta. unfold routeToAgent.
  destruct (recordInboundSession h _ _ _) as [errs recorded]. cbn [fst snd].
  destruct recorded; cbn [negb]; [|reflexivity].
  now destruct (runDispatcher h account client freshId (target m) _).
Qed.

(** In the agent stage a stanza is sent only after the dispatch. *)
Lemma route_send_dispatched m body wasMentioned commandAuthorized rm :
  existsb isSend
    (fst (routeToAgent h account client freshId m body wasMentioned commandAuthorized rm))
  = true ->
  existsb isDispatch
    (fst (routeToAgent h account client freshId m body wasMentioned commandAuthorized rm))
  = true.
Proof.
  rewrite routeToAgent_explicit. cbv zeta.
  destruct (snd (recordInboundSession h _ _ _)); cbn [fst existsb isSend isDispatch orb].
  - intros _. rewrite existsb_app. cbn [existsb isDispatch orb]. now rewrite orb_true_r.
  - now rewrite (record_errors_silent isSend) by reflexivity.
Qed.

(** A run either went through every gate and is the run of the agent stage,
    or it stopped at a gate and never reached that stage. *)
Lemma handle_cases m st :
  let r := handleXmppInbound h cfg account client freshId m st in
  let body := JS.trim (text m) in
  let routed :=
    routeToAgent h account client freshId m body (wasMentionedIn h account body)
                 (fst (commandGateOf h cfg account m st)) (roomMatchOf account m) in
  let pass :=
    JS.truthy body = true /\
    (isGroup m = true ->
       gateAllowed (groupAccessOf cfg account m) = true /\
       groupSenderAllowedOf h cfg account m st = true /\
       snd (commandGateOf h cfg account m st) = false /\
       shouldSkip (mentionGateOf h cfg account m st) = false) /\
    (isGroup m = false ->
       effectiveDmPolicy account = DmOpen \/
       (effectiveDmPolicy account <> DmDisabled /\
        matchAllowed (resolveXmppAllowlistMatch (effectiveAllowFrom h account st) m)
        = true)) in
  (pass /\ r = {| effects := StatusInbound (timestamp m) :: fst routed;
                  finalStore := st; fulfilled := snd routed |}) \/
  (~ pass /\
   existsb isSessionRecord (effects r) = false /\
   existsb isDispatch (effects r) = false /\
   (isGroup m = true ->
    finalStore r = st /\ fulfilled r = true /\
    existsb isSend (effects r) = false /\ existsb isUpsert (effects r) = false)).
Proof.
  cbv zeta.
  destruct (JS.truthy (JS.trim (text m))) eqn:Hb.
  2:{ right. rewrite (handle_blank h cfg account client freshId m st Hb). cbn.
      split; [intros [H _]; discriminate | now repeat split]. }
  destruct (isGroup m) eqn:Hg.
  - rewrite (handle_group h cfg account client freshId m st Hg Hb). cbv zeta.
    destruct (gateAllowed (groupAccessOf cfg account m));
      destruct (groupSenderAllowedOf h cfg account m st);
      destruct (snd (commandGateOf h cfg account m st));
      destruct (shouldSkip (mentionGateOf h cfg account m st));
      cbn [negb];
      try (right; split;
           [intros (_ & H & _); destruct (H eq_refl) as (H1 & H2 & H3 & H4); discriminate
           | now repeat split]).
    left. split; [|reflexivity]. split; [reflexivity|]. split; [now intros _ | discriminate].
  - rewrite (handle_direct h cfg account client freshId m st Hg Hb).
    pose proof (enforce_outcome m st) as He.
    destruct (enforceDmPolicy h account client freshId m st) as [[]|run].
    + left. split; [|reflexivity]. split; [reflexivity|]. split; [discriminate|].
      intros _. exact He.
    + right. destruct He as (Hn & Hns & Hopen & Hmiss & _).
      cbn [effects existsb isSessionRecord isDispatch orb]. split.
      * intros (_ & _ & H). destruct (H eq_refl) as [H'|[Hd Hm]]; [contradiction|].
        destruct Hmiss as [Hmiss|Hmiss]; congruence.
      * split; [exact Hns|]. split; [exact Hn | discriminate].
Qed.

End PipelineRuns.

(** X13 (inbound.ts, handleXmppInbound, lines 81-358): a message reaches the
    agent stage exactly when it passes every gate: its trimmed body is not
    empty and, for a group message, the access gate allows the room, the
    sender gate allows the sender, the command is not blocked and the mention
    gate does not skip; for a direct message, the DM policy is open, or it is
    not disabled and the sender matches the account's allowFrom together with
    the store.  The run of such a message is the inbound status update
    followed by the agent stage: the session is recorded with the finalized
    context, every error of the recording is logged, and a rejected recording
    ends the run, rejected; otherwise the dispatcher is called once, with the
    skills of the matched room and the block-streaming setting of the
    account, its deliveries go to the target of the message, and the run is
    fulfilled when the dispatcher is.  The agent is dispatched exactly when
    the message passes every gate and the recording is fulfilled. *)
Theorem dispatch_iff_all_gates_pass :
  forall (Store : Type) (h : Host Store) cfg account client fid m (st : Store),
    let r := handleXmppInbound h cfg account client fid m st in
    let body := JS.trim (text m) in
    let gp := match groupPolicy (config account) with
              | Some p => Some p
              | None => defaultGroupPolicy cfg
              end in
    let rm := resolveXmppRoomMatch (rooms (config account)) (target m) in
    let stored := Some (match readAllowFromStore h CHANNEL_ID st with
                        | Some l => l
                        | None => []
                        end) in
    let allowDm :=
      filter JS.truthy (normalizeXmppAllowlist (allowFrom (config account))
                        ++ normalizeXmppAllowlist stored)%list in
    let allowGroup :=
      filter JS.truthy (normalizeXmppAllowlist (groupAllowFrom (config account))
                        ++ normalizeXmppAllowlist stored)%list in
    let roomAllow :=
      let direct :=
        normalizeXmppAllowlist
          (match roomConfig rm with Some rc => roomAllowFrom rc | None => None end) in
      let wildcard :=
        normalizeXmppAllowlist
          (match wildcardConfig rm with Some rc => roomAllowFrom rc | None => None end) in
      if 0 <? List.length direct then direct else wildcard in
    let allowCommands := if isGroup m then allowGroup else allowDm in
    let commandGate :=
      resolveControlCommandGate h
        (match useAccessGroupsSetting cfg with Some false => false | _ => true end)
        (0 <? List.length allowCommands)
        (matchAllowed (resolveXmppAllowlistMatch allowCommands m))
        (shouldHandleTextCommands h) (hasControlCommand h body) in
    let wasMentioned :=
      matchesMentionPatterns h body || explicitMentionTest (jid account) body in
    let requireMention :=
      resolveXmppRequireMention (roomConfig rm) (wildcardConfig rm) in
    let gatesPass :=
      JS.truthy body = true /\
      (isGroup m = true ->
         gateAllowed (resolveXmppGroupAccessGate gp rm) = true /\
         resolveXmppGroupSenderAllowed gp m allowGroup roomAllow = true /\
         snd commandGate = false /\
         shouldSkip (resolveXmppMentionGate true requireMention wasMentioned
                       (hasControlCommand h body) (shouldHandleTextCommands h)
                       (fst commandGate)) = false) /\
      (isGroup m = false ->
         dmPolicy (config account) = Some DmOpen \/
         (dmPolicy (config account) <> Some DmDisabled /\
          matchAllowed (resolveXmppAllowlistMatch allowDm m) = true)) in
    let route := resolveAgentRoute h (accountId account)
                   (if isGroup m then "group" else "direct") (target m) in
    let storePath := resolveStorePath h (routeAgentId route) in
    let envelope :=
      formatAgentEnvelope h (if isGroup m then target m else senderBareJid m)
        (timestamp m) (readSessionUpdatedAt h storePath (routeSessionKey route)) body in
    let ctx := finalizeInboundContext h
                 (inboundContext m body wasMentioned (fst commandGate) rm route envelope) in
    let sessionKey :=
      match ctxSessionKey ctx with Some k => k | None => routeSessionKey route end in
    let recording :=
      SessionRecord storePath sessionKey ctx
      :: map (fun err => LogError ("xmpp: failed updating session meta: " ++ err))
             (fst (recordInboundSession h storePath sessionKey ctx)) in
    let skillFilter := match roomConfig rm with Some rc => roomSkills rc | None => None end in
    let disableBlockStreaming := option_map negb (blockStreaming (config account)) in
    let dispatched :=
      runDispatcher h account client fid (target m)
        (dispatchReplyWithBufferedBlockDispatcher h ctx skillFilter disableBlockStreaming) in
    (existsb isSessionRecord (effects r) = true <-> gatesPass) /\
    (gatesPass ->
       r = if snd (recordInboundSession h storePath sessionKey ctx)
           then {| effects :=
                     StatusInbound (timestamp m)
                     :: (recording ++ AgentDispatch ctx skillFilter disableBlockStreaming
                                   :: fst dispatched)%list;
                   finalStore := st; fulfilled := snd dispatched |}
           else {| effects := StatusInbound (timestamp m) :: recording;
                   finalStore := st; fulfilled := false |}) /\
    (existsb isDispatch (effects r) = true <->
       gatesPass /\ snd (recordInboundSession h storePath sessionKey ctx) = true) /\
    (existsb isDispatch (fst dispatched) = false /\
     existsb isSessionRecord (fst dispatched) = false /\
     existsb isUpsert (fst dispatched) = false).
Proof.
  intros Store h cfg account client fid m st r body gp rm stored allowDm allowGroup
         roomAllow allowCommands commandGate wasMentioned requireMention gatesPass
         route storePath envelope ctx sessionKey recording skillFilter
         disableBlockStreaming dispatched.
  assert (Ea : groupAccessOf cfg account m = resolveXmppGroupAccessGate gp rm)
    by apply groupAccessOf_spec.
  assert (Es : groupSenderAllowedOf h cfg account m st
               = resolveXmppGroupSenderAllowed gp m allowGroup roomAllow)
    by apply groupSenderAllowedOf_spec.
  assert (Ec : commandGateOf h cfg account m st = commandGate) by reflexivity.
  assert (Em : isGroup m = true ->
               mentionGateOf h cfg account m st
               = resolveXmppMentionGate true requireMention wasMentioned
                   (hasControlCommand h body) (shouldHandleTextCommands h)
                   (fst commandGate)).
  { intros Hg. rewrite (mentionGateOf_group h cfg account m st Hg). reflexivity. }
  assert (Ed : isGroup m = false -> senderDisplayOf m = senderBareJid m).
  { intros Hg. unfold senderDisplayOf. now rewrite Hg. }
  destruct (effectiveDmPolicy_iff account) as (Popen & Pdis & _).
  assert (Hroute : routeToAgent h account client fid m body (wasMentionedIn h account body)
                     (fst (commandGateOf h cfg account m st)) (roomMatchOf account m)
                   = if snd (recordInboundSession h storePath sessionKey ctx)
                     then ((recording ++ AgentDispatch ctx skillFilter disableBlockStreaming
                                      :: fst dispatched)%list, snd dispatched)
                     else (recording, false)).
  { assert (El : (if isGroup m then target m else senderDisplayOf m)
                 = (if isGroup m then target m else senderBareJid m)).
    { unfold senderDisplayOf. now destruct (isGroup m). }
    rewrite routeToAgent_explicit. cbv zeta. rewrite El. reflexivity. }
  assert (Hquiet : forall p : Effect -> bool,
            (forall live to body ty, p (SendStanza live to body ty) = false) ->
            (forall a, p (ActivityOutbound a) = false) ->
            p StatusOutbound = false ->
            (forall line, p (LogError line) = false) ->
            existsb p (fst dispatched) = false).
  { intros p H1 H2 H3 H4. now apply dispatcher_silent. }
  pose proof (handle_cases h cfg account client fid m st) as Hcases. cbv zeta in Hcases.
  fold r body in Hcases. rewrite Hroute in Hcases.
  assert (Hpass : JS.truthy body = true /\
                  (isGroup m = true ->
                   gateAllowed (groupAccessOf cfg account m) = true /\
                   groupSenderAllowedOf h cfg account m st = true /\
                   snd (commandGateOf h cfg account m st) = false /\
                   shouldSkip (mentionGateOf h cfg account m st) = false) /\
                  (isGroup m = false ->
                   effectiveDmPolicy account = DmOpen \/
                   (effectiveDmPolicy account <> DmDisabled /\
                    matchAllowed (resolveXmppAllowlistMatch
                                    (effectiveAllowFrom h account st) m) = true))
                  <-> gatesPass).
  { unfold gatesPass. rewrite Ea, Es, Ec.
    change (effectiveAllowFrom h account st) with allowDm.
    split; intros (Hb & Hgrp & Hdm); (split; [exact Hb|]); split.
    - intros Hg. rewrite <- (Em Hg). now apply Hgrp.
    - intros Hg. destruct (Hdm Hg) as [H|[H1 H2]]; [left; now apply Popen|].
      right. split; [|exact H2]. intros H. now apply H1, Pdis.
    - intros Hg. rewrite (Em Hg). now apply Hgrp.
    - intros Hg. destruct (Hdm Hg) as [H|[H1 H2]]; [left; now apply Popen|].
      right. split; [|exact H2]. intros H. now apply H1, Pdis. }
  assert (Hrun : gatesPass ->
            r = if snd (recordInboundSession h storePath sessionKey ctx)
                then {| effects :=
                          StatusInbound (timestamp m)
                          :: (recording ++ AgentDispatch ctx skillFilter disableBlockStreaming
                                        :: fst dispatched)%list;
                        finalStore := st; fulfilled := snd dispatched |}
                else {| effects := StatusInbound (timestamp m) :: recording;
                        finalStore := st; fulfilled := false |}).
  { intros Hg. destruct Hcases as [[_ Hr]|[Hn _]]; [|elim Hn; now apply Hpass].
    rewrite Hr. now destruct (snd (recordInboundSession h storePath sessionKey ctx)). }
  assert (Hrec_silent : forall p : Effect -> bool,
            (forall line, p (LogError line) = false) ->
            existsb p (map (fun err => LogError ("xmpp: failed updating session meta: "
                                                 ++ err))
                           (fst (recordInboundSession h storePath sessionKey ctx)))
            = false).
  { intros p Hp. now apply record_errors_silent. }
  repeat apply conj.
  - intros H. destruct Hcases as [[Hp _]|(_ & Hns & _)]; [now apply Hpass | congruence].
  - intros Hg. rewrite (Hrun Hg).
    now destruct (snd (recordInboundSession h storePath sessionKey ctx)).
  - exact Hrun.
  - intros H. destruct Hcases as [[Hp Hr]|(_ & _ & Hnd & _)]; [|congruence].
    split; [now apply Hpass|].
    destruct (snd (recordInboundSession h storePath sessionKey ctx)) eqn:E; [reflexivity|].
    rewrite Hr in H. cbn [fst effects existsb isDispatch orb] in H. unfold recording in H.
    cbn [existsb isDispatch orb] in H. rewrite Hrec_silent in H by reflexivity.
    discriminate.
  - intros [Hg Hrecd]. rewrite (Hrun Hg), Hrecd.
    cbn [effects existsb isDispatch orb]. rewrite existsb_app.
    cbn [existsb isDispatch orb]. now rewrite orb_true_r.
  - now apply Hquiet.
  - now apply Hquiet.
  - now apply Hquiet.
Qed.

Lemma dispatch_iff_all_gates_pass_witness :
  let m := directMessage "bob@example.org" "hi" in
  let nbsp := String (ascii_of_nat 160) EmptyString in
  let account :=
    agentAccount {| dmPolicy := Some DmAllowlist; allowFrom := Some ["Bob@Example.org/x"];
                    groupPolicy := None; groupAllowFrom := None; rooms := None;
                    autoJoinRooms := None; blockStreaming := None |} in
  handleXmppInbound specHost plainConfig account None "fresh" m []
  = {| effects :=
         [StatusInbound 0%Z;
          SessionRecord "sessions/main" "agent:main:xmpp:direct:bob@example.org"
            (inboundContext m "hi" false true
               (resolveXmppRoomMatch None "bob@example.org")
               (specRoute "default" "direct" "bob@example.org")
               "[XMPP bob@example.org] hi");
          AgentDispatch
            (inboundContext m "hi" false true
               (resolveXmppRoomMatch None "bob@example.org")
               (specRoute "default" "direct" "bob@example.org")
               "[XMPP bob@example.org] hi") None None;
          SendStanza false "bob@example.org" "echo: hi" Chat;
          ActivityOutbound "default";
          StatusOutbound];
       finalStore := []; fulfilled := true |} /\
  existsb isDispatch
    (effects (handleXmppInbound specHost plainConfig account None "fresh" m [])) = true /\
  effects (handleXmppInbound specHost plainConfig account None "fresh"
                             (directMessage "bob@example.org" nbsp) []) = [].
Proof.
  cbv zeta.
  match goal with |- handleXmppInbound ?h ?c ?a ?cl ?f ?m ?st = _ /\ _ =>
    destruct (dispatch_iff_all_gates_pass (list string) h c a cl f m st)
      as (_ & Hrun & Hiff & _)
  end.
  split; [|split].
  - rewrite Hrun; [reflexivity|].
    split; [reflexivity|]. split; [discriminate|].
    intros _. right. split; [discriminate | reflexivity].
  - apply Hiff. split; [|reflexivity].
    split; [reflexivity|]. split; [discriminate|].
    intros _. right. split; [discriminate | reflexivity].
  - reflexivity.
Defined.

(** What a run of the pipeline can be. *)
Lemma handle_run_invariants :
  forall (Store : Type) (h : Host Store) cfg account client fid m (st : Store),
    let r := handleXmppInbound h cfg account client fid m st in
    let allowDm :=
      filter JS.truthy
        (normalizeXmppAllowlist (allowFrom (config account))
         ++ normalizeXmppAllowlist
              (Some (match readAllowFromStore h CHANNEL_ID st with
                     | Some l => l
                     | None => []
                     end)))%list in
    let pairingMiss :=
      isGroup m = false /\
      (dmPolicy (config account) = None \/ dmPolicy (config account) = Some DmPairing) /\
      matchAllowed (resolveXmppAllowlistMatch allowDm m) = false /\
      existsb isSessionRecord (effects r) = false /\
      existsb isDispatch (effects r) = false in
    (JS.truthy (JS.trim (text m)) = false ->
       r = {| effects := []; finalStore := st; fulfilled := true |}) /\
    (JS.truthy (JS.trim (text m)) = true ->
       exists rest, effects r = StatusInbound (timestamp m) :: rest) /\
    (isGroup m = true ->
       finalStore r = st /\ existsb isUpsert (effects r) = false /\
       (existsb isSend (effects r) = true -> existsb isDispatch (effects r) = true)) /\
    List.length (filter isDispatch (effects r)) <= 1 /\
    (existsb isUpsert (effects r) = true \/ finalStore r <> st -> pairingMiss) /\
    (existsb isSend (effects r) = true ->
       pairingMiss \/ existsb isDispatch (effects r) = true) /\
    (fulfilled r = false ->
       finalStore r = st /\
       (existsb isSessionRecord (effects r) = true \/
        (pairingMiss /\
         upsertPairingRequest h CHANNEL_ID (JS.toLowerCase (senderBareJid m))
                              (senderBareJid m) st = None))).
Proof.
  intros Store h cfg account client fid m st r allowDm pairingMiss.
  destruct (effectiveDmPolicy_iff account) as (_ & _ & Ppair).
  pose proof (handle_cases h cfg account client fid m st) as Hcases. cbv zeta in Hcases.
  fold r in Hcases.
  set (routed := routeToAgent h account client fid m (JS.trim (text m))
                   (wasMentionedIn h account (JS.trim (text m)))
                   (fst (commandGateOf h cfg account m st)) (roomMatchOf account m)) in *.
  assert (Hrouted : existsb isSessionRecord (fst routed) = true /\
                    existsb isUpsert (fst routed) = false /\
                    List.length (filter isDispatch (fst routed)) <= 1 /\
                    (existsb isSend (fst routed) = true ->
                     existsb isDispatch (fst routed) = true)).
  { split; [apply route_records|]. split; [apply route_no_upsert|].
    split; [apply route_dispatch_once | apply route_send_dispatched]. }
  destruct Hrouted as (Rrec & Rup & Ronce & Rsend).
  assert (Hblank : JS.truthy (JS.trim (text m)) = false ->
                   r = {| effects := []; finalStore := st; fulfilled := true |})
    by apply handle_blank.
  assert (Hdirect : isGroup m = false -> JS.truthy (JS.trim (text m)) = true ->
            match enforceDmPolicy h account client fid m st with
            | inr run => r = {| effects := StatusInbound (timestamp m) :: effects run;
                                finalStore := finalStore run; fulfilled := fulfilled run |}
            | inl _ => True
            end).
  { intros Hg Hb. unfold r. rewrite (handle_direct h cfg account client fid m st Hg Hb).
    now destruct (enforceDmPolicy h account client fid m st). }
  pose proof (enforce_outcome h account client fid m st) as He.
  assert (Hstopped : existsb isSessionRecord (effects r) = false ->
            existsb isDispatch (effects r) = false ->
            (existsb isUpsert (effects r) || existsb isSend (effects r) = true \/
             fulfilled r = false \/ finalStore r <> st) ->
            pairingMiss /\
            (fulfilled r = false ->
             finalStore r = st /\
             upsertPairingRequest h CHANNEL_ID (JS.toLowerCase (senderBareJid m))
                                  (senderBareJid m) st = None)).
  { intros Hns Hnd Hact.
    destruct (JS.truthy (JS.trim (text m))) eqn:Hb.
    2:{ rewrite (Hblank eq_refl) in Hact. cbn in Hact.
        destruct Hact as [H|[H|H]]; [discriminate | discriminate | now elim H]. }
    destruct (isGroup m) eqn:Hg.
    - destruct Hcases as [[_ Hr]|(_ & _ & _ & Hgrp)].
      + rewrite Hr in Hns. cbn [effects existsb isSessionRecord orb] in Hns. congruence.
      + destruct (Hgrp eq_refl) as (Hst & Hf & Hsend & Hup).
        rewrite Hst, Hf, Hsend, Hup in Hact.
        destruct Hact as [H|[H|H]]; [discriminate | discriminate | now elim H].
    - specialize (Hdirect eq_refl eq_refl).
      destruct (enforceDmPolicy h account client fid m st) as [[]|run].
      + destruct Hcases as [[_ Hr]|(Hn & _)].
        * rewrite Hr in Hns. cbn [effects existsb isSessionRecord orb] in Hns. congruence.
        * elim Hn. split; [reflexivity|]. split; [discriminate|]. intros _. exact He.
      + destruct He as (_ & _ & _ & _ & Hpair & Hrej).
        rewrite Hdirect in Hact.
        cbn [effects finalStore fulfilled existsb isUpsert isSend orb] in Hact.
        destruct (Hpair Hact) as [Hp Hm]. split.
        * split; [reflexivity|]. split; [now apply Ppair|]. now repeat split.
        * rewrite Hdirect. cbn [fulfilled finalStore]. intros Hf.
          destruct (Hrej Hf) as [Hu Hs]. now split. }
  assert (Hpassed : existsb isSessionRecord (effects r) = true ->
            r = {| effects := StatusInbound (timestamp m) :: fst routed;
                   finalStore := st; fulfilled := snd routed |}).
  { intros Hs. destruct Hcases as [[_ Hr]|(_ & Hns & _)]; [exact Hr | congruence]. }
  assert (Hsplit : existsb isSessionRecord (effects r) = true \/
                   (existsb isSessionRecord (effects r) = false /\
                    existsb isDispatch (effects r) = false)).
  { destruct Hcases as [[_ Hr]|(_ & Hns & Hnd & _)]; [left | now right].
    rewrite Hr. cbn [effects existsb isSessionRecord orb]. exact Rrec. }
  repeat apply conj.
  - exact Hblank.
  - intros Hb. destruct (isGroup m) eqn:Hg.
    + unfold r. rewrite (handle_group h cfg account client fid m st Hg Hb). cbv zeta.
      repeat match goal with |- context [if ?c then _ else _] => destruct c end;
        cbn [effects]; eauto.
    + unfold r. rewrite (handle_direct h cfg account client fid m st Hg Hb).
      destruct (enforceDmPolicy h account client fid m st); cbn [effects]; eauto.
  - intros Hg. destruct Hcases as [[_ Hr]|(_ & _ & _ & Hgrp)].
    + rewrite Hr. cbn [effects finalStore existsb isUpsert isSend isDispatch orb].
      now repeat split.
    + destruct (Hgrp Hg) as (Hst & _ & Hsend & Hup).
      split; [exact Hst|]. split; [exact Hup|]. congruence.
  - destruct Hsplit as [Hs|[_ Hnd]].
    + rewrite (Hpassed Hs). cbn [effects filter isDispatch]. exact Ronce.
    + rewrite (existsb_filter_nil isDispatch _ Hnd). cbn. lia.
  - intros Hact. destruct Hsplit as [Hs|[Hns Hnd]].
    + exfalso. rewrite (Hpassed Hs) in Hact.
      cbn [effects finalStore existsb isUpsert orb] in Hact.
      destruct Hact as [H|H]; [congruence | now elim H].
    + apply (Hstopped Hns Hnd).
      destruct Hact as [H|H]; [left; now rewrite H | right; now right].
  - intros Hsend. destruct Hsplit as [Hs|[Hns Hnd]].
    + right. rewrite (Hpassed Hs) in *.
      cbn [effects existsb isSend isDispatch orb] in *. now apply Rsend.
    + left. apply (Hstopped Hns Hnd). left. rewrite Hsend. apply orb_true_r.
  - intros Hf. destruct Hsplit as [Hs|[Hns Hnd]].
    + split; [now rewrite (Hpassed Hs) | now left].
    + destruct (Hstopped Hns Hnd) as [Hp H]; [right; now left|].
      split; [now apply H|]. right. split; [exact Hp | now apply H].
Qed.

(** X14 (inbound.ts, handleXmppInbound): what a run of the pipeline can be.
    A body that is blank after trimming does nothing at all.  Otherwise the
    first effect is the inbound status update.  A group message never touches
    the pairing store, and a stanza sent in its run is a reply of the agent:
    the run has dispatched.  A run dispatches at most once.  A run that
    records a pairing request or changes the store is the run of a direct
    message under the pairing policy (the default) whose sender is not on
    the allowlist, and it never reaches the agent stage.  A run that sends a
    stanza is such a run or has dispatched.  A run is rejected only when it
    has reached the agent stage, or when the pairing store throws; either
    way the store is unchanged. *)
Theorem inbound_run_invariants :
  forall (Store : Type) (h : Host Store) cfg account client fid m (st : Store),
    let r := handleXmppInbound h cfg account client fid m st in
    let allowDm :=
      filter JS.truthy
        (normalizeXmppAllowlist (allowFrom (config account))
         ++ normalizeXmppAllowlist
              (Some (match readAllowFromStore h CHANNEL_ID st with
                     | Some l => l
                     | None => []
                     end)))%list in
    let pairingMiss :=
      isGroup m = false /\
      (dmPolicy (config account) = None \/ dmPolicy (config account) = Some DmPairing) /\
      matchAllowed (resolveXmppAllowlistMatch allowDm m) = false /\
      existsb isSessionRecord (effects r) = false /\
      existsb isDispatch (effects r) = false in
    (JS.truthy (JS.trim (text m)) = false ->
       r = {| effects := []; finalStore := st; fulfilled := true |}) /\
    (JS.truthy (JS.trim (text m)) = true ->
       exists rest, effects r = StatusInbound (timestamp m) :: rest) /\
    (isGroup m = true ->
       finalStore r = st /\ existsb isUpsert (effects r) = false /\
       (existsb isSend (effects r) = true -> existsb isDispatch (effects r) = true)) /\
    List.length (filter isDispatch (effects r)) <= 1 /\
    (existsb isUpsert (effects r) = true \/ finalStore r <> st -> pairingMiss) /\
    (existsb isSend (effects r) = true ->
       pairingMiss \/ existsb isDispatch (effects r) = true) /\
    (fulfilled r = false ->
       finalStore r = st /\
       (existsb isSessionRecord (effects r) = true \/
        (pairingMiss /\
         upsertPairingRequest h CHANNEL_ID (JS.toLowerCase (senderBareJid m))
                              (senderBareJid m) st = None))).
Proof. exact handle_run_invariants. Qed.

Lemma inbound_run_invariants_witness :
  let m := directMessage "bob@example.org" "hi" in
  let r := handleXmppInbound specHost plainConfig pairingAccount None "fresh" m [] in
  finalStore r = ["bob@example.org"] /\
  dmPolicy (config pairingAccount) = None /\
  existsb isSessionRecord (effects r) = false /\
  existsb isDispatch (effects r) = false.
Proof.
  cbv zeta. split; [reflexivity|].
  edestruct (inbound_run_invariants (list string) specHost plainConfig pairingAccount None
               "fresh" (directMessage "bob@example.org" "hi") [])
    as (_ & _ & _ & _ & H & _).
  destruct H as (_ & Hp & _ & Hns & Hn); [right; discriminate|].
  split; [reflexivity|]. now split.
Defined.

(* ------------------------------------------------------------------ *)
(** ** send.ts: failures of [sendMessageXmpp] *)

Lemma trimStart_nonblank (s : string) :
  JS.allChars JS.isWhitespace s = false ->
  exists c r, JS.trimStart s = String c r /\ JS.isWhitespace c = false.
Proof.
  induction s as [|c r IH]; [discriminate|]. cbn [JS.allChars JS.trimStart].
  destruct (JS.isWhitespace c) eqn:E; [exact IH|]. intros _. now exists c, r.
Qed.

Lemma trim_nonblank (s : string) :
  JS.allChars JS.isWhitespace s = false -> JS.truthy (JS.trim s) = true.
Proof.
  intros H. unfold JS.trim.
  destruct (trimStart_nonblank s H) as (c & r & -> & Hc).
  cbn [JS.trimEnd]. now rewrite Hc.
Qed.

Lemma replyMarker_nonblank (prepared id : string) :
  JS.truthy (JS.trim (prepared ++ replyMarker id)) = true.
Proof.
  apply trim_nonblank. unfold replyMarker.
  rewrite !allChars_app. cbn. apply andb_false_r.
Qed.

Lemma sendMessageXmpp_no_trace {Store} (h : Host Store) account (fid to body : string) opts :
  forall e, fst (sendMessageXmpp h account fid to body opts) = inl e ->
            snd (sendMessageXmpp h account fid to body opts) = [].
Proof.
  intros e. unfold sendMessageXmpp. destruct (negb (configured account)); [reflexivity|].
  destruct (prepareSend h to body opts) as [e'|[[tgt payload] ty]]; [reflexivity|].
  match goal with |- context [match ?c with SendFailed _ => _ | SendOk _ => _ end] =>
    destruct c end; [reflexivity | discriminate].
Qed.

Lemma sendMessageXmpp_sent {Store} (h : Host Store) account (fid to body : string) opts :
  forall res, fst (sendMessageXmpp h account fid to body opts) = inr res ->
              existsb isSend (snd (sendMessageXmpp h account fid to body opts)) = true.
Proof.
  intros res. unfold sendMessageXmpp. destruct (negb (configured account)); [discriminate|].
  destruct (prepareSend h to body opts) as [e'|[[tgt payload] ty]]; [discriminate|].
  match goal with |- context [match ?c with SendFailed _ => _ | SendOk _ => _ end] =>
    destruct c end; [discriminate | reflexivity].
Qed.

(** X15 (send.ts, sendMessageXmpp, lines 33-97): a send that fails leaves no
    trace: no stanza and no activity record.  An account that is not
    configured is rejected before anything else is looked at.  With a reply
    id the payload is never blank, so even a blank text is sent (as the
    marker alone); without one, a text that is blank after the table
    conversion is rejected as empty once the target is valid.  The returned
    message id is never empty when the generated id is not. *)
Theorem sendMessageXmpp_failures :
  forall (Store : Type) (h : Host Store) account (fid to body : string) opts,
    let result := sendMessageXmpp h account fid to body opts in
    (forall e, fst result = inl e -> snd result = []) /\
    (configured account = false ->
       result = (inl (ErrNotConfigured (accountId account)), [])) /\
    (forall id, optReplyTo opts = Some id -> id <> "" ->
       fst result <> inl ErrEmptyMessage) /\
    (configured account = true ->
     truthyOpt (optReplyTo opts) = None ->
     JS.truthy (JS.trim (convertMarkdownTables h (JS.trim body))) = false ->
     forall t, resolveTarget to opts = inr t ->
       result = (inl ErrEmptyMessage, [])) /\
    (forall res, fst result = inr res -> fid <> "" -> resMessageId res <> "").
Proof.
  intros Store h account fid to body opts result. unfold result, sendMessageXmpp.
  split; [|split; [|split; [|split]]].
  - apply sendMessageXmpp_no_trace.
  - now intros ->.
  - intros id Hid Hne. destruct (negb (configured account)); [discriminate|].
    unfold prepareSend. destruct (resolveTarget to opts) as [e|tgt] eqn:E; cbn.
    + unfold resolveTarget in E.
      destruct (truthyOpt (normalizeXmppMessagingTarget to)); [discriminate|].
      destruct (truthyOpt (normalizeXmppMessagingTarget _)); [discriminate|].
      injection E as <-. discriminate.
    + unfold sendPayload. rewrite Hid. cbn [truthyOpt].
      destruct id as [|c s]; [congruence|]. cbn [JS.truthy].
      rewrite replyMarker_nonblank. cbn [negb].
      match goal with |- context [match ?c with SendFailed _ => _ | SendOk _ => _ end] =>
        destruct c end; discriminate.
  - intros Hc Hr Hblank t Ht. rewrite Hc. cbn [negb].
    unfold prepareSend. rewrite Ht. unfold sendPayload. rewrite Hr, Hblank. reflexivity.
  - intros res. destruct (negb (configured account)); [discriminate|].
    destruct (prepareSend h to body opts) as [e'|[[tgt payload] ty]]; [discriminate|].
    match goal with |- context [match ?c with SendFailed _ => _ | SendOk _ => _ end] =>
      destruct c as [err|id] end; [discriminate|].
    cbn. intros [= <-] Hfid. cbn. destruct id; [exact Hfid | discriminate].
Qed.

Lemma sendMessageXmpp_failures_witness :
  let acc := agentAccount emptyAccountConfig in
  let reply := {| optReplyTo := Some "m41"; optTarget := None; optClient := None |} in
  fst (sendMessageXmpp specHost acc "fresh" "bob@example.org" "  " reply)
    <> inl ErrEmptyMessage /\
  snd (sendMessageXmpp specHost acc "fresh" "bob@example.org" "  " reply)
  = [SendStanza false "bob@example.org" (JS.LF ++ JS.LF ++ "[reply:m41]") Chat;
     ActivityOutbound "default"] /\
  sendMessageXmpp specHost acc "fresh" "bob@example.org" "  " noSendOptions
  = (inl ErrEmptyMessage, []).
Proof.
  cbv zeta. split; [|split].
  - destruct (sendMessageXmpp_failures (list string) specHost
                (agentAccount emptyAccountConfig) "fresh" "bob@example.org" "  "
                {| optReplyTo := Some "m41"; optTarget := None; optClient := None |})
      as (_ & _ & H & _).
    apply (H "m41"); [reflexivity | discriminate].
  - reflexivity.
  - destruct (sendMessageXmpp_failures (list string) specHost
                (agentAccount emptyAccountConfig) "fresh" "bob@example.org" "  "
                noSendOptions) as (_ & _ & _ & H & _).
    apply (H eq_refl eq_refl eq_refl "bob@example.org"). reflexivity.
Defined.

(* ------------------------------------------------------------------ *)
(** ** inbound.ts: [deliverXmppReply] *)

(** X16 (inbound.ts, deliverXmppReply, lines 40-79): a payload with a blank
    text and no media is not sent.  A list of media URLs that is not empty
    replaces the single media URL.  Through the monitor's client the reply id
    of the payload is ignored and the body is the trimmed text followed,
    after an empty line, by one "Attachment: " line per URL.  A delivery that
    fails leaves no trace, and the outbound status update is made exactly
    when a stanza was sent. *)
Theorem deliverXmppReply_behaviour :
  forall (Store : Type) (h : Host Store) account (fid : string) payload (tgt : string)
         (client : option bool),
    let result := deliverXmppReply h account fid payload tgt client in
    (JS.trim (match payloadText payload with Some t => t | None => "" end) = "" ->
     (payloadMediaUrls payload = None \/ payloadMediaUrls payload = Some []) ->
     (payloadMediaUrl payload = None \/ payloadMediaUrl payload = Some "") ->
     result = (None, [])) /\
    (forall u us single,
       payloadMediaUrls payload = Some (u :: us) ->
       result = deliverXmppReply h account fid
                  {| payloadText := payloadText payload;
                     payloadMediaUrls := payloadMediaUrls payload;
                     payloadMediaUrl := single;
                     payloadReplyToId := payloadReplyToId payload |} tgt client) /\
    (forall ready replyTo,
       deliverXmppReply h account fid payload tgt (Some ready)
       = deliverXmppReply h account fid
           {| payloadText := payloadText payload;
              payloadMediaUrls := payloadMediaUrls payload;
              payloadMediaUrl := payloadMediaUrl payload;
              payloadReplyToId := replyTo |} tgt (Some ready)) /\
    (forall ready t u us id,
       payloadText payload = Some t -> JS.trim t <> "" ->
       payloadMediaUrls payload = Some (u :: us) ->
       liveSend h tgt (JS.trim t ++ JS.LF ++ JS.LF
                       ++ joinLines (map (fun url => "Attachment: " ++ url) (u :: us)))
                (liveReplyMessageType tgt) = SendOk id ->
       deliverXmppReply h account fid payload tgt (Some ready)
       = (None, [SendStanza true tgt
                   (JS.trim t ++ JS.LF ++ JS.LF
                    ++ joinLines (map (fun url => "Attachment: " ++ url) (u :: us)))
                   (liveReplyMessageType tgt);
                 StatusOutbound])) /\
    (forall err, fst result = Some err -> snd result = []) /\
    (In StatusOutbound (snd result) <-> existsb isSend (snd result) = true).
Proof.
  intros Store h account fid payload tgt client result. unfold result.
  split; [|split; [|split; [|split; [|split]]]].
  - intros Ht Hl Hs. unfold deliverXmppReply. rewrite Ht.
    destruct Hl as [-> | ->]; destruct Hs as [-> | ->]; reflexivity.
  - intros u us single Hl. unfold deliverXmppReply. cbn. now rewrite Hl.
  - intros ready replyTo. reflexivity.
  - intros ready t u us id Ht Hne Hl Hsend. unfold deliverXmppReply.
    rewrite Ht, Hl.
    destruct (JS.trim t) as [|c s] eqn:Et; [congruence|].
    cbn [JS.truthy negb andb].
    assert (Hm : JS.truthy (joinLines (map (fun url => "Attachment: " ++ url) (u :: us)))
                 = true) by (cbn; now destruct (map _ us)).
    rewrite Hm, Hsend. reflexivity.
  - intros err. unfold deliverXmppReply.
    match goal with |- context [if ?c then (None, []) else _] => destruct c end;
      [discriminate|].
    destruct client.
    + destruct (liveSend _ _ _ _); [reflexivity | discriminate].
    + match goal with |- context [sendMessageXmpp h account fid ?a ?b ?c] =>
        pose proof (sendMessageXmpp_no_trace h account fid a b c) as Hs;
        destruct (sendMessageXmpp h account fid a b c) as [[e|res] effs]
      end; cbn in *; [intros _; now apply (Hs e) | discriminate].
  - unfold deliverXmppReply.
    match goal with |- context [if ?c then (None, []) else _] => destruct c end;
      [cbn; split; [intros [] | discriminate]|].
    destruct client.
    + destruct (liveSend _ _ _ _); cbn [snd In existsb isSend orb].
      * split; [intros [] | discriminate].
      * split; [reflexivity | intros _; right; now left].
    + match goal with |- context [sendMessageXmpp h account fid ?a ?b ?c] =>
        pose proof (sendMessageXmpp_no_trace h account fid a b c) as Hs;
        pose proof (sendMessageXmpp_sent h account fid a b c) as Hok;
        destruct (sendMessageXmpp h account fid a b c) as [[e|res] effs]
      end; cbn in *.
      * rewrite (Hs e eq_refl). cbn. split; [intros [] | discriminate].
      * rewrite existsb_app, (Hok res eq_refl). cbn. split; [reflexivity|].
        intros _. apply in_app_iff. right. now left.
Qed.

Lemma deliverXmppReply_behaviour_witness :
  let payload := {| payloadText := Some " see "; payloadMediaUrls := Some ["http://a"; "http://b"];
                    payloadMediaUrl := Some "http://c"; payloadReplyToId := Some "m7" |} in
  deliverXmppReply specHost (agentAccount emptyAccountConfig) "fresh" payload
                   "bob@example.org" (Some true)
  = (None, [SendStanza true "bob@example.org"
              ("see" ++ JS.LF ++ JS.LF ++ "Attachment: http://a" ++ JS.LF
               ++ "Attachment: http://b") Chat;
            StatusOutbound]) /\
  deliverXmppReply specHost (agentAccount emptyAccountConfig) "fresh"
    {| payloadText := Some "  "; payloadMediaUrls := Some []; payloadMediaUrl := None;
       payloadReplyToId := Some "m7" |} "bob@example.org" None
  = (None, []).
Proof.
  cbv zeta. split.
  - destruct (deliverXmppReply_behaviour (list string) specHost
                (agentAccount emptyAccountConfig) "fresh"
                {| payloadText := Some " see ";
                   payloadMediaUrls := Some ["http://a"; "http://b"];
                   payloadMediaUrl := Some "http://c"; payloadReplyToId := Some "m7" |}
                "bob@example.org" (Some true)) as (_ & _ & _ & H & _).
    apply (H true " see " "http://a" ["http://b"] "m1"); try reflexivity. discriminate.
  - destruct (deliverXmppReply_behaviour (list string) specHost
                (agentAccount emptyAccountConfig) "fresh"
                {| payloadText := Some "  "; payloadMediaUrls := Some [];
                   payloadMediaUrl := None; payloadReplyToId := Some "m7" |}
                "bob@example.org" None) as (H & _).
    apply H; cbn; tauto.
Defined.

(* ------------------------------------------------------------------ *)
(** ** probe.ts *)

(** X17 (probe.ts, probeXmpp; client.ts, lines 143-155): a probe of an
    account that is not configured reports "missing JID or password" without
    connecting.  A probe whose timeout is absent or not negative always
    returns, however the server behaves; a timeout of 0 stands for the
    connect default of 15000 ms.  The probe reports success exactly when it
    has no error, and it stops the client exactly in that case: after
    starting it, once. *)
Theorem probeXmpp_outcomes :
  forall account (timeoutMs : option Z) (start : StartBehaviour),
    let result := probeXmpp account timeoutMs start in
    (configured account = false ->
       result = (Some {| probeOk := false;
                         probeError := Some "missing JID or password" |}, [])) /\
    ((timeoutMs = None \/ exists t, timeoutMs = Some t /\ (0 <= t)%Z) ->
       fst result <> None) /\
    (timeoutMs = Some 0%Z -> result = probeXmpp account (Some 15000%Z) start) /\
    (forall p, fst result = Some p ->
       (probeOk p = true <-> probeError p = None) /\
       (probeOk p = true <-> In CallStop (snd result)) /\
       (probeOk p = true -> snd result = [CallStart; CallStop])).
Proof.
  intros account timeoutMs start result. unfold result, probeXmpp.
  split; [|split; [|split]].
  - now intros ->.
  - intros Ht. destruct (negb (configured account)); [discriminate|].
    unfold connectXmppClient.
    destruct (negb (JS.truthy _) || negb (JS.truthy _)); [discriminate|].
    assert (Hpos : (0 <? connectTimeout (Some (probeConnectTimeout timeoutMs)))%Z = true).
    { apply Z.ltb_lt. unfold connectTimeout, probeConnectTimeout.
      destruct Ht as [-> | (t & -> & Hge)]; [reflexivity|].
      destruct (Z.eqb_spec t 0); lia. }
    rewrite Hpos.
    destruct start as [t|t err|];
      repeat match goal with |- context [if ?c then _ else _] => destruct c end;
      discriminate.
  - intros ->. reflexivity.
  - intros p. destruct (negb (configured account)).
    { cbn. intros [= <-]. cbn. repeat split; try discriminate. intros []. }
    pose proof (connect_never_stops (jid account)
                  (Some (probeConnectTimeout timeoutMs)) start) as Hns.
    assert (Hstart : connectResult (connectXmppClient (jid account)
                       (Some (probeConnectTimeout timeoutMs)) start) = Connected ->
                     xmppCalls (connectXmppClient (jid account)
                       (Some (probeConnectTimeout timeoutMs)) start) = [CallStart]).
    { unfold connectXmppClient.
      repeat match goal with
             | |- context [if ?c then _ else _] => destruct c
             | |- context [match ?s with StartOnline _ => _ | _ => _ end] => destruct s
             end; cbn; congruence. }
    destruct (connectResult _) eqn:Ec; cbn; try discriminate; intros [= <-]; cbn.
    + rewrite (Hstart eq_refl). cbn. repeat split; auto.
    + repeat split; try discriminate. intros H. now elim Hns.
Qed.

Lemma probeXmpp_outcomes_witness :
  fst (probeXmpp (agentAccount emptyAccountConfig) (Some 0%Z) StartNeverSettles) <> None /\
  probeXmpp (agentAccount emptyAccountConfig) (Some 500%Z) (StartOnline 20%Z)
  = (Some {| probeOk := true; probeError := None |}, [CallStart; CallStop]).
Proof.
  split.
  - apply probeXmpp_outcomes. right. exists 0%Z. split; [reflexivity | lia].
  - destruct (probeXmpp_outcomes (agentAccount emptyAccountConfig) (Some 500%Z)
                (StartOnline 20%Z)) as (_ & _ & _ & H).
    destruct (H {| probeOk := true; probeError := None |} eq_refl) as (_ & _ & Hc).
    reflexivity.
Defined.

(* ------------------------------------------------------------------ *)
(** ** inbound.ts: the explicit mention *)















(* ------------------------------------------------------------------ *)
(** ** accounts.ts: values read from the environment *)

Lemma digitsValue_nonneg (s : string) (acc : Z) (seen : bool) (v : Z) :
  (0 <= acc)%Z -> digitsValue acc seen s = Some v -> (0 <= v)%Z.
Proof.
  revert acc seen. induction s as [|c r IH]; intros acc seen Hacc; cbn [digitsValue].
  - destruct seen; [intros [= <-]; exact Hacc | discriminate].
  - destruct (isDigit c).
    + apply IH. lia.
    + destruct seen; [intros [= <-]; exact Hacc | discriminate].
Qed.

(** X19 (accounts.ts, parseIntEnv, lines 31-40): a port taken from the
    environment is an integer between 1 and 65535; a missing or blank value,
    and every value that starts with a minus sign, gives no port; surrounding
    whitespace is ignored. *)
Theorem parseIntEnv_port_range :
  (forall (value : option string) (p : Z),
      parseIntEnv value = Some p -> (1 <= p <= 65535)%Z) /\
  parseIntEnv None = None /\
  (forall v : string, JS.trim v = "" -> parseIntEnv (Some v) = None) /\
  (forall s : string, parseIntEnv (Some (String "-" s)) = None) /\
  (forall v : string, parseIntEnv (Some (JS.trim v)) = parseIntEnv (Some v)).
Proof.
  split; [|split; [|split; [|split]]].
  - intros value p. unfold parseIntEnv. destruct value as [v|]; [|discriminate].
    destruct (negb (JS.truthy (JS.trim v))); [discriminate|].
    destruct (parseInt10 (JS.trim v)) as [parsed|]; [|discriminate].
    destruct (parsed <=? 0)%Z eqn:E1; [discriminate|].
    destruct (65535 <? parsed)%Z eqn:E2; [discriminate|].
    cbn. intros [= <-]. apply Z.leb_gt in E1. apply Z.ltb_ge in E2. lia.
  - reflexivity.
  - intros v H. unfold parseIntEnv. now rewrite H.
  - intros s. unfold parseIntEnv.
    assert (Ht : JS.trim (String "-" s) = String "-" (JS.trimEnd s)) by reflexivity.
    rewrite Ht. cbn [JS.truthy negb]. unfold parseInt10.
    cbn [JS.trimStart]. change (JS.isWhitespace "-") with false. cbn iota.
    change (Ascii.eqb "-" "-") with true. cbn iota.
    destruct (digitsValue 0 false (JS.trimEnd s)) as [v|] eqn:E; [|reflexivity].
    cbn [option_map].
    assert (Hv : (0 <= v)%Z) by (eapply digitsValue_nonneg; [|exact E]; lia).
    assert (Hle : (- v <=? 0)%Z = true) by (apply Z.leb_le; lia).
    now rewrite Hle.
  - intros v. unfold parseIntEnv. now rewrite trim_idem.
Qed.

Lemma parseIntEnv_port_range_witness :
  parseIntEnv (Some " 5223 ") = Some 5223%Z /\ (1 <= 5223 <= 65535)%Z /\
  parseIntEnv (Some "   ") = None.
Proof.
  destruct parseIntEnv_port_range as (Hrange & _ & Hblank & _).
  split; [reflexivity|]. split.
  - apply (Hrange (Some " 5223 ")). reflexivity.
  - apply Hblank. reflexivity.
Defined.

Lemma splitRuns_nonempty (b : bool) (s : string) : splitRuns b s <> [].
Proof.
  revert b. induction s as [|c r IH]; intros b; cbn [splitRuns]; [discriminate|].
  destruct (isListSeparator c).
  - destruct b; [apply IH | discriminate].
  - destruct (splitRuns false r); discriminate.
Qed.

Lemma splitRuns_nosep (b : bool) (s : string) (e : string) :
  In e (splitRuns b s) -> JS.allChars (fun c => negb (isListSeparator c)) e = true.
Proof.
  revert b e. induction s as [|c r IH]; intros b e; cbn [splitRuns].
  - intros [<-|[]]. reflexivity.
  - destruct (isListSeparator c) eqn:Ec.
    + destruct b; [apply IH|]. intros [<-|H]; [reflexivity | eapply IH; eauto].
    + destruct (splitRuns false r) as [|h t] eqn:Er.
      * intros [<-|[]]. cbn. now rewrite Ec.
      * intros [<-|H].
        -- rewrite allChars_cons, Ec. cbn [negb andb]. apply (IH false). rewrite Er. now left.
        -- apply (IH false). rewrite Er. now right.
Qed.

Lemma splitRuns_clean_end (e : string) :
  JS.allChars (fun c => negb (isListSeparator c)) e = true -> splitRuns false e = [e].
Proof.
  induction e as [|c r IH]; [reflexivity|]. rewrite allChars_cons. intros H.
  apply andb_true_iff in H as [Hc Hr]. apply negb_true_iff in Hc.
  cbn [splitRuns]. now rewrite Hc, (IH Hr).
Qed.

Lemma splitRuns_clean (e rest : string) (sep : ascii) :
  isListSeparator sep = true ->
  JS.allChars (fun c => negb (isListSeparator c)) e = true ->
  splitRuns false (e ++ String sep rest) = e :: splitRuns true rest.
Proof.
  intros Hsep. induction e as [|c r IH]; cbn [append splitRuns].
  - now rewrite Hsep.
  - rewrite allChars_cons. intros H.
    apply andb_true_iff in H as [Hc Hr]. apply negb_true_iff in Hc.
    now rewrite Hc, (IH Hr).
Qed.

Lemma splitRuns_resume (s : string) (c : ascii) :
  isListSeparator c = false -> splitRuns true (String c s) = splitRuns false (String c s).
Proof. intros H. cbn [splitRuns]. now rewrite H. Qed.

Lemma clean_head (e : string) :
  cleanListEntry e ->
  exists c r, e = String c r /\ JS.isWhitespace c = false /\ isListSeparator c = false.
Proof.
  intros (Hne & Htrim & Hsep). destruct e as [|c r]; [congruence|].
  exists c, r. split; [reflexivity|]. split.
  - destruct (JS.isWhitespace c) eqn:E; [|reflexivity]. exfalso.
    unfold JS.trim in Htrim. cbn [JS.trimStart] in Htrim. rewrite E in Htrim.
    assert (Hlen : forall s, String.length (JS.trimEnd s) <= String.length s).
    { induction s as [|x s IH]; cbn; [lia|].
      destruct (JS.isWhitespace x && negb (JS.truthy (JS.trimEnd s))); cbn; lia. }
    assert (Hlen' : forall s, String.length (JS.trimStart s) <= String.length s).
    { induction s as [|x s IH]; cbn; [lia|].
      destruct (JS.isWhitespace x); cbn; lia. }
    pose proof (Hlen (JS.trimStart r)) as H1. pose proof (Hlen' r) as H2.
    rewrite Htrim in H1. cbn in H1. lia.
  - rewrite allChars_cons in Hsep. apply andb_true_iff in Hsep as [Hc _].
    now apply negb_true_iff in Hc.
Qed.

Lemma splitRuns_join (sep : ascii) (l : list string) :
  isListSeparator sep = true -> l <> [] ->
  (forall e, In e l -> cleanListEntry e) ->
  splitRuns false (joinWith sep l) = l.
Proof.
  intros Hsep. induction l as [|e l IH]; [congruence|]. intros _ Hclean.
  destruct l as [|e' l'].
  - cbn [joinWith]. apply splitRuns_clean_end. apply (Hclean e). now left.
  - change (joinWith sep (e :: e' :: l')) with (e ++ String sep (joinWith sep (e' :: l'))).
    rewrite splitRuns_clean; [|exact Hsep | apply (Hclean e); now left].
    f_equal.
    destruct (clean_head e') as (c & r & He & _ & Hc); [apply Hclean; right; now left|].
    assert (Hj : exists rest, joinWith sep (e' :: l') = String c rest).
    { rewrite He. destruct l'; cbn [joinWith append]; eauto. }
    destruct Hj as (rest & Hj). rewrite Hj, (splitRuns_resume _ _ Hc), <- Hj.
    apply IH; [discriminate|]. intros x Hx. apply Hclean. now right.
Qed.

(** X20 (accounts.ts, parseListEnv, lines 42-51): a room list taken from the
    environment is never an empty list, and each of its entries is not empty,
    has no surrounding whitespace and contains none of the separators
    newline, "," and ";".  Conversely, such entries joined by one of the
    separators are read back unchanged. *)
Theorem parseListEnv_entries :
  (forall (value : option string) (l : list string),
      parseListEnv value = Some l ->
      l <> [] /\ forall e, In e l -> cleanListEntry e) /\
  (forall (sep : ascii) (l : list string),
      isListSeparator sep = true -> l <> [] ->
      (forall e, In e l -> cleanListEntry e) ->
      parseListEnv (Some (joinWith sep l)) = Some l).
Proof.
  split.
  - intros value l. unfold parseListEnv. destruct value as [v|]; [|discriminate].
    destruct (negb (JS.truthy (JS.trim v))); [discriminate|].
    destruct (filter JS.truthy (map JS.trim (splitRuns false v))) as [|x xs] eqn:E;
      [discriminate|].
    cbn. intros [= <-]. split; [discriminate|].
    intros e He. rewrite <- E in He. apply filter_In in He as [He Ht].
    apply in_map_iff in He as (raw & <- & Hraw).
    split; [now apply truthy_ne|]. split; [apply trim_idem|].
    apply allChars_trim. eapply splitRuns_nosep; eauto.
  - intros sep l Hsep Hne Hclean. unfold parseListEnv.
    assert (Hblank : JS.truthy (JS.trim (joinWith sep l)) = true).
    { apply trim_nonblank. destruct l as [|e l']; [congruence|].
      destruct (clean_head e) as (c & r & -> & Hws & _); [apply Hclean; now left|].
      destruct l'; cbn [joinWith append JS.allChars]; now rewrite Hws. }
    rewrite Hblank. cbn [negb].
    rewrite (splitRuns_join sep l Hsep Hne Hclean).
    assert (Hmap : map JS.trim l = l).
    { clear Hblank Hne. induction l as [|e l IH]; [reflexivity|]. cbn [map].
      destruct (Hclean e (or_introl eq_refl)) as (_ & -> & _).
      rewrite IH; [reflexivity|]. intros x Hx. apply Hclean. now right. }
    assert (Hfil : filter JS.truthy l = l).
    { clear Hblank Hne Hmap. induction l as [|e l IH]; [reflexivity|]. cbn [filter].
      destruct (Hclean e (or_introl eq_refl)) as (He & _).
      destruct e; [congruence|]. cbn [JS.truthy].
      rewrite IH; [reflexivity|]. intros x Hx. apply Hclean. now right. }
    rewrite Hmap, Hfil. destruct l; [congruence | reflexivity].
Qed.

Lemma parseListEnv_entries_witness :
  parseListEnv (Some " a@conference.x ,; b@conference.x;;")
  = Some ["a@conference.x"; "b@conference.x"] /\
  parseListEnv (Some (joinWith ";" ["a@conference.x"; "b room"]))
  = Some ["a@conference.x"; "b room"] /\
  cleanListEntry "b@conference.x".
Proof.
  destruct parseListEnv_entries as (Hparse & Hjoin).
  split; [reflexivity|]. split.
  - apply Hjoin; [reflexivity | discriminate|].
    intros e [<-|[<-|[]]]; repeat split; discriminate.
  - destruct (Hparse (Some " a@conference.x ,; b@conference.x;;")
                     ["a@conference.x"; "b@conference.x"] eq_refl) as [_ H].
    apply H. right. now left.
Defined.

(* ------------------------------------------------------------------ *)
(** ** accounts.ts: resolving an account *)

Lemma truthyOpt_trim (o : option string) (x : string) :
  truthyOpt (option_map JS.trim o) = Some x -> JS.trim x = x /\ x <> "".
Proof.
  destruct o as [s|]; cbn [option_map truthyOpt]; [|discriminate].
  destruct (JS.truthy (JS.trim s)) eqn:E; [|discriminate].
  intros [= <-]. split; [apply trim_idem | now apply truthy_ne].
Qed.

Lemma resolvePassword_shape (env : XmppEnv) (readFile : string -> option string)
    (accountId : string) (merged : XmppAccountSettings) :
  (snd (resolvePassword env readFile accountId merged) = PwNone ->
   fst (resolvePassword env readFile accountId merged) = "") /\
  JS.trim (fst (resolvePassword env readFile accountId merged))
  = fst (resolvePassword env readFile accountId merged).
Proof.
  unfold resolvePassword.
  assert (Hc : forall o, truthyOpt (option_map JS.trim o) = truthyOpt (option_map JS.trim o))
    by reflexivity.
  repeat match goal with
         | |- context [match truthyOpt (option_map JS.trim ?o) with _ => _ end] =>
             let E := fresh "E" in
             destruct (truthyOpt (option_map JS.trim o)) eqn:E;
             [apply truthyOpt_trim in E as [? ?]|]
         | |- context [match readFile ?p with _ => _ end] => destruct (readFile p)
         | |- context [if ?b then _ else _] => destruct b
         end; cbn; split; try assumption; try discriminate; try reflexivity;
    try apply trim_idem.
Qed.

(** X21 (accounts.ts, resolvePassword, lines 90-118): the password is empty
    exactly when its source is "none", and it never has surrounding
    whitespace.  The environment is consulted for the default account only:
    for any other account the result does not depend on it, and for the
    default account a non-blank XMPP_PASSWORD wins over everything else.  A
    readable password file with non-blank content wins over the configured
    password; an unreadable or blank file, or a blank file name, falls back to
    the configured password. *)
Theorem resolvePassword_precedence :
  forall (env : XmppEnv) (readFile : string -> option string) (accountId : string)
         (merged : XmppAccountSettings),
    let r := resolvePassword env readFile accountId merged in
    let usable (o : option string) :=
      match o with Some s => JS.trim s <> "" | None => False end in
    (snd r = PwNone <-> fst r = "") /\
    JS.trim (fst r) = fst r /\
    (accountId <> DEFAULT_ACCOUNT_ID ->
       forall env', resolvePassword env' readFile accountId merged = r) /\
    (accountId = DEFAULT_ACCOUNT_ID ->
       forall p, XMPP_PASSWORD env = Some p -> JS.trim p <> "" -> r = (JS.trim p, PwEnv)) /\
    (accountId <> DEFAULT_ACCOUNT_ID \/ ~ usable (XMPP_PASSWORD env) ->
       (forall path content,
          cfgPasswordFile (connection merged) = Some path -> JS.trim path <> "" ->
          readFile (JS.trim path) = Some content -> JS.trim content <> "" ->
          r = (JS.trim content, PwPasswordFile)) /\
       ((~ usable (cfgPasswordFile (connection merged)) \/
         (forall path, cfgPasswordFile (connection merged) = Some path ->
                       ~ usable (readFile (JS.trim path)))) ->
        r = match cfgPassword (connection merged) with
            | Some p => if JS.truthy (JS.trim p) then (JS.trim p, PwConfig) else ("", PwNone)
            | None => ("", PwNone)
            end)).
Proof.
  intros env readFile accountId merged r usable.
  assert (Hcfg : forall (P : string * PasswordSource -> Prop),
            (forall x, JS.trim x = x -> x <> "" -> P (x, PwConfig)) ->
            P ("", PwNone) ->
            P (match truthyOpt (option_map JS.trim (cfgPassword (connection merged))) with
               | Some configPassword => (configPassword, PwConfig)
               | None => ("", PwNone)
               end)).
  { intros P H1 H2.
    destruct (truthyOpt (option_map JS.trim (cfgPassword (connection merged)))) as [x|] eqn:E;
      [|exact H2].
    destruct (truthyOpt_trim _ _ E). now apply H1. }
  assert (Hshape : forall (P : string * PasswordSource -> Prop),
            (forall x s, JS.trim x = x -> x <> "" -> s <> PwNone -> P (x, s)) ->
            P ("", PwNone) -> P r).
  { intros P H1 H2. unfold r, resolvePassword.
    assert (Hc : P (match truthyOpt (option_map JS.trim (cfgPassword (connection merged))) with
                    | Some configPassword => (configPassword, PwConfig)
                    | None => ("", PwNone)
                    end)).
    { apply Hcfg; [|exact H2]. intros x Hx Hne. apply H1; [exact Hx | exact Hne | discriminate]. }
    assert (Hf : P (match truthyOpt (option_map JS.trim (cfgPasswordFile (connection merged))) with
                    | Some path =>
                        match readFile path with
                        | Some content =>
                            if JS.truthy (JS.trim content)
                            then (JS.trim content, PwPasswordFile)
                            else match truthyOpt (option_map JS.trim
                                                    (cfgPassword (connection merged))) with
                                 | Some configPassword => (configPassword, PwConfig)
                                 | None => ("", PwNone)
                                 end
                        | None => match truthyOpt (option_map JS.trim
                                                     (cfgPassword (connection merged))) with
                                  | Some configPassword => (configPassword, PwConfig)
                                  | None => ("", PwNone)
                                  end
                        end
                    | None => match truthyOpt (option_map JS.trim
                                                 (cfgPassword (connection merged))) with
                              | Some configPassword => (configPassword, PwConfig)
                              | None => ("", PwNone)
                              end
                    end)).
    { destruct (truthyOpt (option_map JS.trim (cfgPasswordFile (connection merged))));
        [|exact Hc].
      destruct (readFile s) as [content|]; [|exact Hc].
      destruct (JS.truthy (JS.trim content)) eqn:E; [|exact Hc].
      apply H1; [apply trim_idem | now apply truthy_ne | discriminate]. }
    destruct (String.eqb accountId DEFAULT_ACCOUNT_ID); [|exact Hf].
    destruct (truthyOpt (option_map JS.trim (XMPP_PASSWORD env))) as [x|] eqn:E; [|exact Hf].
    destruct (truthyOpt_trim _ _ E). apply H1; [assumption | assumption | discriminate]. }
  split; [|split; [|split; [|split]]].
  - apply Hshape; cbn.
    + intros x s _ Hx Hs. split; congruence.
    + split; reflexivity.
  - apply Hshape; cbn; [now intros x s Hx _ _ | reflexivity].
  - intros Hne env'. unfold r, resolvePassword.
    apply String.eqb_neq in Hne. now rewrite Hne.
  - intros -> p Hp Hne. unfold r, resolvePassword. rewrite String.eqb_refl, Hp.
    cbn [option_map truthyOpt].
    destruct (JS.trim p); [congruence | reflexivity].
  - intros Henv.
    assert (Hskip : r = match truthyOpt (option_map JS.trim
                                           (cfgPasswordFile (connection merged))) with
                        | Some path =>
                            match readFile path with
                            | Some content =>
                                if JS.truthy (JS.trim content)
                                then (JS.trim content, PwPasswordFile)
                                else match truthyOpt (option_map JS.trim
                                                        (cfgPassword (connection merged))) with
                                     | Some configPassword => (configPassword, PwConfig)
                                     | None => ("", PwNone)
                                     end
                            | None => match truthyOpt (option_map JS.trim
                                                         (cfgPassword (connection merged))) with
                                      | Some configPassword => (configPassword, PwConfig)
                                      | None => ("", PwNone)
                                      end
                            end
                        | None => match truthyOpt (option_map JS.trim
                                                     (cfgPassword (connection merged))) with
                                  | Some configPassword => (configPassword, PwConfig)
                                  | None => ("", PwNone)
                                  end
                        end).
    { unfold r, resolvePassword.
      destruct (String.eqb accountId DEFAULT_ACCOUNT_ID) eqn:Eid; [|reflexivity].
      destruct Henv as [Hne|Hno]; [apply String.eqb_eq in Eid; contradiction|].
      unfold usable in Hno. destruct (XMPP_PASSWORD env) as [p|]; [|reflexivity].
      cbn [option_map truthyOpt].
      destruct (JS.trim p) eqn:Ep; [reflexivity|]. exfalso. apply Hno. discriminate. }
    assert (Hconfig : match truthyOpt (option_map JS.trim (cfgPassword (connection merged))) with
                      | Some configPassword => (configPassword, PwConfig)
                      | None => ("", PwNone)
                      end
                      = match cfgPassword (connection merged) with
                        | Some p => if JS.truthy (JS.trim p) then (JS.trim p, PwConfig)
                                    else ("", PwNone)
                        | None => ("", PwNone)
                        end).
    { destruct (cfgPassword (connection merged)) as [p|]; [|reflexivity].
      cbn [option_map truthyOpt]. now destruct (JS.truthy (JS.trim p)). }
    rewrite Hskip. split.
    + intros path content Hpath Hne Hread Hcontent. rewrite Hpath.
      cbn [option_map truthyOpt].
      destruct (JS.trim path) eqn:Ep; [congruence|]. cbn [JS.truthy]. rewrite Hread.
      destruct (JS.trim content); [congruence | reflexivity].
    + intros Hno. rewrite <- Hconfig. unfold usable in Hno.
      destruct (cfgPasswordFile (connection merged)) as [path|]; [|reflexivity].
      cbn [option_map truthyOpt].
      destruct (JS.trim path) eqn:Ep; [reflexivity|]. cbn [JS.truthy].
      destruct Hno as [Hno|Hno]; [exfalso; apply Hno; discriminate|].
      specialize (Hno path eq_refl). rewrite Ep in Hno.
      destruct (readFile (String a s)) as [content|]; [|reflexivity].
      destruct (JS.trim content) eqn:Ec; [reflexivity|]. exfalso. apply Hno. discriminate.
Qed.

Lemma resolvePassword_precedence_witness :
  resolvePassword sampleEnv sampleReadFile "default" sampleSettings = ("secret", PwEnv) /\
  resolvePassword sampleEnv sampleReadFile "work" sampleSettings
  = ("filepw", PwPasswordFile).
Proof.
  split.
  - destruct (resolvePassword_precedence sampleEnv sampleReadFile "default" sampleSettings)
      as (_ & _ & _ & H & _).
    apply (H eq_refl " secret "); [reflexivity | discriminate].
  - destruct (resolvePassword_precedence sampleEnv sampleReadFile "work" sampleSettings)
      as (_ & _ & _ & _ & H).
    destruct H as [H _]; [left; discriminate|].
    apply (H " /run/xmpp-password " ("filepw" ++ JS.LF)); try reflexivity; discriminate.
Defined.

Lemma parseIntEnv_in_range (value : option string) (p : Z) :
  parseIntEnv value = Some p -> (1 <= p <= 65535)%Z.
Proof.
  unfold parseIntEnv. destruct value as [v|]; [|discriminate].
  destruct (negb (JS.truthy (JS.trim v))); [discriminate|].
  destruct (parseInt10 (JS.trim v)) as [parsed|]; [|discriminate].
  destruct (parsed <=? 0)%Z eqn:E1; [discriminate|].
  destruct (65535 <? parsed)%Z eqn:E2; [discriminate|].
  cbn. intros [= <-]. apply Z.leb_gt in E1. apply Z.ltb_ge in E2. lia.
Qed.

Lemma toString_bare_truthy (j : XmppJid.JID) :
  canonical j -> JS.truthy (XmppJid.toString (XmppJid.bare j)) = true.
Proof.
  intros Hc. pose proof (bare_canonical _ Hc) as (_ & _ & Hne).
  unfold XmppJid.toString. rewrite (bare_resource _ Hc).
  destruct (XmppJid.local (XmppJid.bare j)); [exact Hne | reflexivity].
Qed.

Lemma normalizeXmppBareJid_truthy (s : string) :
  JS.truthy s = true -> JS.trim s = s -> JS.truthy (normalizeXmppBareJid s) = true.
Proof.
  intros Ht Htrim. unfold normalizeXmppBareJid.
  destruct (XmppJid.parseJid s) as [j|] eqn:E.
  - apply toString_bare_truthy. eapply parseJid_canonical; eauto.
  - now rewrite Htrim.
Qed.

Lemma jsOr_trimmed (o : option string) (b : string) :
  JS.trim b = b -> JS.trim (jsOr (option_map JS.trim o) b) = jsOr (option_map JS.trim o) b.
Proof.
  intros Hb. unfold jsOr.
  destruct (truthyOpt (option_map JS.trim o)) as [x|] eqn:E; [|exact Hb].
  now destruct (truthyOpt_trim _ _ E).
Qed.

Lemma split_at_plain (l d : string) :
  JS.allChars plainUnit l = true -> JS.allChars plainUnit d = true ->
  JS.split "@" (l ++ String "@" d) = [l; d].
Proof.
  intros Hl Hd.
  rewrite (split_splitFirst_some "@" _ l d).
  - rewrite (split_splitFirst_none "@" d); [reflexivity|].
    apply splitFirst_none. apply (plain_no_unit "@" d eq_refl Hd).
  - apply splitFirst_app. apply (plain_no_unit "@" l eq_refl Hl).
Qed.


(** X22 (accounts.ts, resolveXmppAccount, closure [resolve], lines
    143-213): in every resolved account [jid] and [bareJid] are the same, the
    account is configured exactly when that JID and the password are not
    empty, and an account without a password source is not configured.  The
    resource is never empty and has no surrounding whitespace.  A port that
    is not set in the configuration is between 1 and 65535.  For an account
    other than the default one the environment is not read at all: the port
    defaults to 5222 and TLS to on.  A configured JID with a resource is
    resolved to its bare JID in lower case, and without a host override the
    host is the domain of that JID. *)
Theorem resolveAccount_invariants :
  forall (normalizeAccountId : option string -> string) (env : XmppEnv)
         (readFile : string -> option string) (cfg : option XmppConfig) (id : string),
    let r := resolveAccount normalizeAccountId env readFile cfg id in
    let merged := connection (mergeXmppAccountConfig normalizeAccountId cfg id) in
    accountId (fst r) = id /\
    jid (fst r) = bareJid (fst r) /\
    (configured (fst r) = true <-> jid (fst r) <> "" /\ rcPassword (snd r) <> "") /\
    (rcPasswordSource (snd r) = PwNone -> configured (fst r) = false) /\
    (rcResource (snd r) <> "" /\ JS.trim (rcResource (snd r)) = rcResource (snd r)) /\
    (cfgPort merged = None -> (1 <= rcPort (snd r) <= 65535)%Z) /\
    (id <> DEFAULT_ACCOUNT_ID ->
       (forall env', resolveAccount normalizeAccountId env' readFile cfg id = r) /\
       (cfgPort merged = None -> rcPort (snd r) = 5222%Z) /\
       (cfgTls merged = None -> rcTls (snd r) = true)) /\
    (forall l d res,
       JS.truthy l = true -> JS.truthy d = true ->
       JS.allChars plainUnit l = true -> JS.allChars plainUnit d = true ->
       (forall x, res = Some x -> JS.allChars (fun c => negb (JS.isWhitespace c)) x = true) ->
       cfgJid merged = Some (fullJid l d res) ->
       jid (fst r) = JS.toLowerCase l ++ "@" ++ JS.toLowerCase d /\
       (cfgHost merged = None ->
        id <> DEFAULT_ACCOUNT_ID \/ XMPP_HOST env = None ->
        rcHost (snd r) = JS.toLowerCase d)).
Proof.
  intros normalizeAccountId env readFile cfg id r merged.
  unfold r, resolveAccount. fold merged.
  cbn [fst snd accountId jid bareJid configured rcPassword rcPasswordSource rcResource
       rcPort rcTls rcHost].
  set (jidValue := JS.trim (jsOr (option_map JS.trim (cfgJid merged)) _)).
  set (pw := resolvePassword env readFile id (mergeXmppAccountConfig normalizeAccountId cfg id)).
  assert (Hjt : JS.trim jidValue = jidValue) by apply trim_idem.
  assert (Hbare : JS.truthy (if JS.truthy jidValue then normalizeXmppBareJid jidValue else "")
                  = JS.truthy jidValue).
  { destruct (JS.truthy jidValue) eqn:E; [|reflexivity].
    now apply normalizeXmppBareJid_truthy. }
  split; [reflexivity|]. split; [reflexivity|]. split; [|split; [|split; [|split; [|split]]]].
  - split.
    + intros H. apply andb_true_iff in H as [H1 H2]. split.
      * apply truthy_ne. now rewrite Hbare.
      * now apply truthy_ne.
    + intros [H1 H2]. apply andb_true_iff. split.
      * rewrite <- Hbare. destruct (if JS.truthy jidValue then _ else _); [congruence | reflexivity].
      * destruct (fst pw); [congruence | reflexivity].
  - intros Hs.
    destruct (resolvePassword_shape env readFile id
                (mergeXmppAccountConfig normalizeAccountId cfg id)) as [Hn _].
    fold pw in Hn. rewrite (Hn Hs). apply andb_false_r.
  - assert (Hres : JS.trim (jsOr (option_map JS.trim (cfgResource merged)) "openclaw")
                   = jsOr (option_map JS.trim (cfgResource merged)) "openclaw")
      by (apply jsOr_trimmed; reflexivity).
    rewrite Hres. split; [|exact Hres].
    unfold jsOr.
    destruct (truthyOpt (option_map JS.trim (cfgResource merged))) as [x|] eqn:E;
      [now destruct (truthyOpt_trim _ _ E) | discriminate].
  - intros Hport. rewrite Hport. cbn [nullish].
    destruct (String.eqb id DEFAULT_ACCOUNT_ID).
    + destruct (parseIntEnv (XMPP_PORT env)) as [p|] eqn:E.
      * now apply (parseIntEnv_in_range _ _ E).
      * destruct (match cfgTls merged with Some b => b | None => _ end); lia.
    + destruct (match cfgTls merged with Some b => b | None => _ end); lia.
  - intros Hne. apply String.eqb_neq in Hne. split; [|split].
    + intros env'. unfold resolveAccount, pw, jidValue, resolvePassword. fold merged.
      rewrite !Hne. reflexivity.
    + intros Hport. rewrite Hport, Hne. cbn [nullish].
      now destruct (match cfgTls merged with Some b => b | None => _ end).
    + intros Htls. now rewrite Htls, Hne.
  - intros l d res Hl1 Hd1 Hl Hd Hres Hjid.
    assert (Hws : JS.trim (fullJid l d res) = fullJid l d res)
      by (apply trim_plain; apply (fullJid_no_ws l d res Hl Hd Hres)).
    assert (Hv : jidValue = fullJid l d res).
    { unfold jidValue. rewrite Hjid. cbn [option_map]. rewrite Hws.
      unfold jsOr. cbn [truthyOpt]. rewrite (fullJid_truthy l d res Hl Hl1). exact Hws. }
    rewrite Hv, (fullJid_truthy l d res Hl Hl1).
    rewrite (normalizeXmppBareJid_full l d res Hl Hd Hl1 Hd1).
    split; [reflexivity|]. intros Hhost Hsrc. rewrite Hhost. cbn [option_map].
    assert (Hh : jsOr None (jsOr (if String.eqb id DEFAULT_ACCOUNT_ID
                                  then option_map JS.trim (XMPP_HOST env) else Some "") "")
                 = "").
    { destruct Hsrc as [Hne| ->].
      - apply String.eqb_neq in Hne. now rewrite Hne.
      - now destruct (String.eqb id DEFAULT_ACCOUNT_ID). }
    rewrite Hh. change (JS.trim "") with "".
    rewrite split_at_plain by (now rewrite allChars_plain_lower).
    cbn [nth_error]. unfold jsOr. cbn [truthyOpt JS.truthy].
    now rewrite truthy_toLowerCase, Hd1.
Qed.

Lemma resolveAccount_invariants_witness :
  let r := resolveAccount sampleNormalizeAccountId sampleEnv sampleReadFile sampleConfig
                          "Work" in
  jid (fst r) = "bot@example.org" /\ rcHost (snd r) = "example.org" /\
  rcPort (snd r) = 5222%Z /\ rcTls (snd r) = true /\ configured (fst r) = true.
Proof.
  cbv zeta.
  destruct (resolveAccount_invariants sampleNormalizeAccountId sampleEnv sampleReadFile
              sampleConfig "Work") as (_ & _ & Hconf & _ & _ & _ & Henv & Hjid).
  destruct (Hjid "Bot" "Example.org" (Some "home")) as [Hj Hh]; try reflexivity.
  { intros x [= <-]. reflexivity. }
  destruct Henv as (_ & Hport & Htls); [discriminate|].
  split; [exact Hj|]. split; [apply Hh; [reflexivity | left; discriminate]|].
  split; [apply Hport; reflexivity|]. split; [apply Htls; reflexivity|].
  apply Hconf. split; discriminate.
Defined.

Lemma configuredIds_fold (normalizeAccountId : option string -> string)
    (keys acc : list string) (x : string) :
  In x (fold_left (fun ids key =>
                     if JS.truthy (JS.trim key)
                     then JS.setAdd (normalizeAccountId (Some key)) ids else ids)
                  keys acc) <->
  In x acc \/
  exists key, In key keys /\ JS.trim key <> "" /\ x = normalizeAccountId (Some key).
Proof.
  revert acc. induction keys as [|k keys IH]; intros acc; cbn [fold_left].
  - split; [now left | intros [H|(key & [] & _)]; exact H].
  - rewrite IH. destruct (JS.truthy (JS.trim k)) eqn:E.
    + rewrite setAdd_In_iff. split.
      * intros [[->|H]|(key & Hk & Hne & ->)].
        -- right. exists k. split; [now left|]. split; [now apply truthy_ne | reflexivity].
        -- now left.
        -- right. exists key. split; [now right | now split].
      * intros [H|(key & [<-|Hk] & Hne & ->)].
        -- left. now right.
        -- left. now left.
        -- right. exists key. now split.
    + split.
      * intros [H|(key & Hk & Hne & ->)]; [now left|].
        right. exists key. split; [now right | now split].
      * intros [H|(key & [<-|Hk] & Hne & ->)]; [now left | |].
        -- apply truthy_false in E. congruence.
        -- right. exists key. now split.
Qed.

Lemma configuredIds_NoDup (normalizeAccountId : option string -> string)
    (keys acc : list string) :
  NoDup acc ->
  NoDup (fold_left (fun ids key =>
                      if JS.truthy (JS.trim key)
                      then JS.setAdd (normalizeAccountId (Some key)) ids else ids)
                   keys acc).
Proof.
  revert acc. induction keys as [|k keys IH]; intros acc Hacc; cbn [fold_left]; [exact Hacc|].
  apply IH. destruct (JS.truthy (JS.trim k)); [now apply setAdd_NoDup | exact Hacc].
Qed.

Lemma resolveAccount_id (normalizeAccountId : option string -> string) (env : XmppEnv)
    (readFile : string -> option string) (cfg : option XmppConfig) (id : string) :
  accountId (fst (resolveAccount normalizeAccountId env readFile cfg id)) = id.
Proof. reflexivity. Qed.

(** X23 (accounts.ts, listXmppAccountIds, resolveDefaultXmppAccountId,
    resolveXmppAccount, lines 53-65 and 120-234): whatever the order of the
    locale sort is, as long as sorting keeps the elements: the list of account
    ids is never empty; it holds the default id alone when no account is
    configured, and otherwise exactly the normalised non-blank keys of
    [accounts], which are collected without duplicates; the default account
    id is always one of the listed ids, and it is "default" whenever that is
    listed.  [resolveXmppAccount] returns the account that was asked for
    whenever an id is given; without one it returns either that account or the
    default account, the latter only if it is configured and the former is
    not; so it returns an account that is not configured only if neither of
    the two is. *)
Theorem account_selection :
  forall (normalizeAccountId : option string -> string)
         (localeSort : list string -> list string)
         (env : XmppEnv) (readFile : string -> option string) (cfg : option XmppConfig),
    (forall l x, In x (localeSort l) <-> In x l) ->
    let ids := listXmppAccountIds normalizeAccountId localeSort cfg in
    let configuredIds := listConfiguredAccountIds normalizeAccountId cfg in
    let defaultId := resolveDefaultXmppAccountId normalizeAccountId localeSort cfg in
    let resolve := resolveAccount normalizeAccountId env readFile cfg in
    ids <> [] /\
    NoDup configuredIds /\
    (configuredIds = [] -> ids = [DEFAULT_ACCOUNT_ID]) /\
    (configuredIds <> [] ->
       forall x, In x ids <->
         exists xmpp l key, cfg = Some xmpp /\ accounts xmpp = Some l /\
                            In key (map fst l) /\ JS.trim key <> "" /\
                            x = normalizeAccountId (Some key)) /\
    In defaultId ids /\
    (In DEFAULT_ACCOUNT_ID ids -> defaultId = DEFAULT_ACCOUNT_ID) /\
    (forall param : option string,
       let r := resolveXmppAccount normalizeAccountId localeSort env readFile cfg param in
       let primary := resolve (normalizeAccountId param) in
       ((exists a, param = Some a /\ JS.trim a <> "") -> r = primary) /\
       (r = primary \/
        (r = resolve defaultId /\ configured (fst r) = true /\
         configured (fst primary) = false)) /\
       (configured (fst r) = false ->
          configured (fst primary) = false /\
          ((param = None \/ exists a, param = Some a /\ JS.trim a = "") ->
           configured (fst (resolve defaultId)) = false))).
Proof.
  intros normalizeAccountId localeSort env readFile cfg Hsort ids configuredIds defaultId
         resolve.
  assert (Hmem : forall x, In x configuredIds <->
            exists xmpp l key, cfg = Some xmpp /\ accounts xmpp = Some l /\
                               In key (map fst l) /\ JS.trim key <> "" /\
                               x = normalizeAccountId (Some key)).
  { intros x. unfold configuredIds, listConfiguredAccountIds.
    destruct cfg as [xmpp|].
    - destruct (accounts xmpp) as [l|] eqn:El.
      + rewrite configuredIds_fold. split.
        * intros [[]|(key & Hk & Hne & ->)]. exists xmpp, l, key. now repeat split.
        * intros (xmpp' & l' & key & [= <-] & Hl & Hk & Hne & ->).
          rewrite El in Hl. injection Hl as <-. right. exists key. now split.
      + split; [intros [] | intros (xmpp' & l' & key & [= <-] & Hl & _); congruence].
    - split; [intros [] | intros (xmpp' & l' & key & H & _); discriminate]. }
  assert (Hids : ids = if List.length configuredIds =? 0 then [DEFAULT_ACCOUNT_ID]
                       else localeSort configuredIds) by reflexivity.
  assert (Hne : ids <> []).
  { rewrite Hids. destruct configuredIds as [|x xs] eqn:E; [discriminate|].
    cbn [List.length Nat.eqb]. intros Hnil.
    assert (Hin : In x (localeSort (x :: xs))) by (apply Hsort; now left).
    rewrite Hnil in Hin. destruct Hin. }
  assert (Hdef : In defaultId ids /\ (In DEFAULT_ACCOUNT_ID ids -> defaultId = DEFAULT_ACCOUNT_ID)).
  { unfold defaultId, resolveDefaultXmppAccountId. fold ids.
    destruct (JS.setHas DEFAULT_ACCOUNT_ID ids) eqn:E.
    - split; [now apply setHas_In | reflexivity].
    - split.
      + destruct ids; [congruence | now left].
      + intros Hin. apply setHas_In in Hin. congruence. }
  split; [exact Hne|]. split; [|split; [|split; [|split; [|split]]]].
  - unfold configuredIds, listConfiguredAccountIds.
    destruct cfg as [xmpp|]; [|constructor].
    destruct (accounts xmpp); [|constructor].
    apply configuredIds_NoDup. constructor.
  - intros E. rewrite Hids, E. reflexivity.
  - intros Hc x. rewrite <- Hmem, Hids.
    destruct configuredIds; [congruence|]. cbn [List.length Nat.eqb]. apply Hsort.
  - apply Hdef.
  - apply Hdef.
  - intros param r primary. unfold r, resolveXmppAccount.
    fold resolve. fold primary. fold defaultId.
    set (explicit := match param with
                     | Some a => JS.truthy (JS.trim a)
                     | None => false
                     end).
    assert (Hex : (exists a, param = Some a /\ JS.trim a <> "") -> explicit = true).
    { intros (a & -> & Ha). unfold explicit. destruct (JS.trim a); [congruence | reflexivity]. }
    assert (Hnex : (param = None \/ exists a, param = Some a /\ JS.trim a = "") ->
                   explicit = false).
    { intros [->|(a & -> & Ha)]; unfold explicit; [reflexivity | now rewrite Ha]. }
    assert (Hsame : String.eqb defaultId (accountId (fst primary)) = true ->
                    resolve defaultId = primary).
    { intros E. apply String.eqb_eq in E. unfold primary in E.
      unfold resolve in E. rewrite resolveAccount_id in E. now rewrite E. }
    split; [|split].
    + intros H. now rewrite (Hex H).
    + destruct explicit; [now left|].
      destruct (configured (fst primary)) eqn:Ep; [now left|].
      destruct (String.eqb defaultId (accountId (fst primary))); [now left|].
      destruct (configured (fst (resolve defaultId))) eqn:Ef; cbn [negb]; [|now left].
      right. now repeat split.
    + destruct explicit eqn:Ee.
      * intros H. split; [exact H|]. intros H'. specialize (Hnex H'). discriminate.
      * destruct (configured (fst primary)) eqn:Ep; [congruence|].
        destruct (String.eqb defaultId (accountId (fst primary))) eqn:Es.
        -- intros _. split; [reflexivity|]. intros _. now rewrite (Hsame eq_refl).
        -- destruct (configured (fst (resolve defaultId))) eqn:Ef; cbn [negb];
             [congruence|]. intros _. now split.
Qed.

Lemma account_selection_witness :
  listXmppAccountIds sampleNormalizeAccountId sampleSort sampleConfig = ["work"] /\
  In (resolveDefaultXmppAccountId sampleNormalizeAccountId sampleSort sampleConfig)
     (listXmppAccountIds sampleNormalizeAccountId sampleSort sampleConfig) /\
  resolveXmppAccount sampleNormalizeAccountId sampleSort sampleEnv sampleReadFile
                     sampleConfig (Some " Work ")
  = resolveAccount sampleNormalizeAccountId sampleEnv sampleReadFile sampleConfig "work".
Proof.
  destruct (account_selection sampleNormalizeAccountId sampleSort sampleEnv sampleReadFile
              sampleConfig) as (_ & _ & _ & _ & Hdef & _ & Hres).
  { intros l x. reflexivity. }
  split; [reflexivity|]. split; [exact Hdef|].
  destruct (Hres (Some " Work ")) as (Hexp & _).
  apply Hexp. exists " Work ". split; [reflexivity | discriminate].
Defined.

(* ------------------------------------------------------------------ *)
(** ** channel.ts: target resolution *)

(** X24 (channel.ts, resolver.resolveTargets, lines 259-284): the results
    answer the inputs one by one, in order.  An input that is not a valid JID
    is never resolved, whatever the kind, and carries the note "invalid XMPP
    JID".  A valid input resolves to its normalised bare JID under exactly
    one of the two kinds: as a group if that JID is a room JID, as a user
    otherwise; a result is resolved exactly when it has no note. *)
Theorem resolveTargets_kinds :
  forall (inputs : list string) (kind : string),
    map rtInput (resolveTargets inputs kind) = inputs /\
    (forall t, In t (resolveTargets inputs kind) ->
       (rtResolved t = true <-> rtNote t = None) /\
       (normalizeXmppJid (rtInput t) = None ->
          rtResolved t = false /\ rtId t = None /\ rtNote t = Some "invalid XMPP JID") /\
       (forall v, normalizeXmppJid (rtInput t) = Some v ->
          rtId t = Some v /\ rtName t = Some v /\
          rtResolved t = if String.eqb kind "group" then isRoomJid v
                         else negb (isRoomJid v))) /\
    (forall input v other,
       normalizeXmppJid input = Some v -> other <> "group" ->
       map rtResolved (resolveTargets [input] "group")
       = map negb (map rtResolved (resolveTargets [input] other))).
Proof.
  intros inputs kind.
  assert (Hnorm : forall input v, normalizeXmppJid input = Some v ->
                    truthyOpt (normalizeXmppMessagingTarget input) = Some v).
  { intros input v H. unfold normalizeXmppMessagingTarget. rewrite H. cbn [truthyOpt].
    destruct (normalizeXmppJid_inv _ _ H) as (t & j & _ & _ & Hp & ->).
    now rewrite (toString_bare_truthy j (parseJid_canonical _ _ Hp)). }
  split; [|split].
  - unfold resolveTargets. rewrite map_map.
    induction inputs as [|i l IH]; [reflexivity|]. cbn [map]. rewrite IH. f_equal.
    destruct (truthyOpt (normalizeXmppMessagingTarget i)); [|reflexivity].
    now destruct (String.eqb kind "group").
  - intros t Ht. unfold resolveTargets in Ht. apply in_map_iff in Ht as (input & <- & _).
    destruct (normalizeXmppJid input) as [v|] eqn:E.
    + rewrite (Hnorm _ _ E).
      destruct (String.eqb kind "group"); cbn;
        (split; [destruct (isRoomJid v); cbn; split; congruence|]);
        (split; [rewrite E; discriminate|]);
        intros v'; rewrite E; intros [= <-]; now repeat split.
    + unfold normalizeXmppMessagingTarget. rewrite E. cbn.
      split; [split; discriminate|]. split; [now intros _|]. rewrite E. discriminate.
  - intros input v other Hv Hother. unfold resolveTargets. cbn [map].
    rewrite (Hnorm _ _ Hv). apply String.eqb_neq in Hother. rewrite Hother.
    change (String.eqb "group" "group") with true. cbn.
    now rewrite negb_involutive.
Qed.

Lemma resolveTargets_kinds_witness :
  map rtResolved (resolveTargets ["Room@Conference.example.org/nick"; "bob@example.org"; "nobody"]
                                 "group")
  = [true; false; false] /\
  map rtResolved (resolveTargets ["Room@Conference.example.org/nick"] "group")
  = map negb (map rtResolved (resolveTargets ["Room@Conference.example.org/nick"] "user")).
Proof.
  split; [reflexivity|].
  destruct (resolveTargets_kinds [] "") as (_ & _ & H).
  apply (H _ "room@conference.example.org"); [reflexivity | discriminate].
Defined.

(* ------------------------------------------------------------------ *)
(** ** channel.ts: the directory *)

Lemma fold_left_pointwise {A B} (f g : A -> B -> A) (l : list B) (a : A) :
  (forall x y, f x y = g x y) -> fold_left f l a = fold_left g l a.
Proof.
  intros H. revert a. induction l as [|b l IH]; intros a; [reflexivity|].
  cbn [fold_left]. now rewrite H, IH.
Qed.

Lemma fold_setAdd_if_In (f : string -> option string) (l acc : list string) (x : string) :
  In x (fold_left (fun ids e => match f e with Some v => JS.setAdd v ids | None => ids end)
                  l acc) <->
  In x acc \/ exists e, In e l /\ f e = Some x.
Proof.
  revert acc. induction l as [|e l IH]; intros acc; cbn [fold_left].
  - split; [now left | intros [H|(e & [] & _)]; exact H].
  - rewrite IH. destruct (f e) as [v|] eqn:E.
    + rewrite setAdd_In_iff. split.
      * intros [[->|H]|(e' & He' & Hf)]; [right; exists e; split; [now left | exact E]
                                          | now left
                                          | right; exists e'; split; [now right | exact Hf]].
      * intros [H|(e' & [<-|He'] & Hf)];
          [left; now right
          | left; left; congruence
          | right; exists e'; now split].
    + split.
      * intros [H|(e' & He' & Hf)]; [now left | right; exists e'; split; [now right | exact Hf]].
      * intros [H|(e' & [<-|He'] & Hf)]; [now left | congruence | right; exists e'; now split].
Qed.

Lemma fold_setAdd_if_NoDup (f : string -> option string) (l acc : list string) :
  NoDup acc ->
  NoDup (fold_left (fun ids e => match f e with Some v => JS.setAdd v ids | None => ids end)
                   l acc).
Proof.
  revert acc. induction l as [|e l IH]; intros acc Hacc; cbn [fold_left]; [exact Hacc|].
  apply IH. destruct (f e); [now apply setAdd_NoDup | exact Hacc].
Qed.

Lemma NoDup_filter {A} (p : A -> bool) (l : list A) : NoDup l -> NoDup (filter p l).
Proof.
  induction 1 as [|x l Hx Hl IH]; cbn; [constructor|].
  destruct (p x); [|exact IH]. constructor; [|exact IH].
  intros H. apply filter_In in H. tauto.
Qed.

Lemma NoDup_firstn {A} (n : nat) (l : list A) : NoDup l -> NoDup (firstn n l).
Proof.
  revert n. induction l as [|x l IH]; intros n Hl; destruct n; cbn; try constructor.
  - inversion Hl as [|? ? Hx Hl']; subst. intros H. apply Hx.
    eapply (In_nth_error) in H. destruct H as (k & Hk).
    assert (Hin : In x (firstn n l)) by (eapply nth_error_In; eauto).
    clear -Hin. revert n Hin. induction l as [|y l IH]; intros n; destruct n; cbn; try tauto.
    intros [H|H]; [now left | right; eapply IH; eauto].
  - apply IH. now inversion Hl.
Qed.

Lemma firstn_In {A} (n : nat) (l : list A) (x : A) : In x (firstn n l) -> In x l.
Proof.
  revert n. induction l as [|y l IH]; intros n; destruct n; cbn; try tauto.
  intros [H|H]; [now left | right; eapply IH; eauto].
Qed.

Lemma sliceLimit_In (limit : option Z) (l : list string) (x : string) :
  In x (sliceLimit limit l) -> In x l.
Proof.
  unfold sliceLimit. destruct limit as [z|]; [|tauto].
  destruct (z =? 0)%Z; [tauto|]. destruct (0 <? z)%Z; apply firstn_In.
Qed.

Lemma sliceLimit_NoDup (limit : option Z) (l : list string) :
  NoDup l -> NoDup (sliceLimit limit l).
Proof.
  intros H. unfold sliceLimit. destruct limit as [z|]; [|exact H].
  destruct (z =? 0)%Z; [exact H|]. destruct (0 <? z)%Z; now apply NoDup_firstn.
Qed.

Lemma sliceLimit_length (z : Z) (l : list string) :
  (0 < z)%Z -> (Z.of_nat (List.length (sliceLimit (Some z) l)) <= z)%Z.
Proof.
  intros Hz. unfold sliceLimit.
  destruct (Z.eqb_spec z 0); [lia|]. destruct (Z.ltb_spec 0 z); [|lia].
  rewrite length_firstn. lia.
Qed.

Lemma NoDup_map_inj {A B} (f : A -> B) (l : list A) :
  (forall x y, f x = f y -> x = y) -> NoDup l -> NoDup (map f l).
Proof.
  intros Hf. induction 1 as [|x l Hx Hl IH]; cbn; constructor; [|exact IH].
  intros H. apply in_map_iff in H as (y & Hy & Hin). apply Hf in Hy. congruence.
Qed.

(** X25 (channel.ts, directory.listPeers and directory.listGroups, lines
    288-321): the peers listed are the normal forms of the account's
    [allowFrom] entries, without the wildcard and without empty entries; the
    groups listed are the auto-join rooms and the keys of [rooms] other than
    "*".  No id is listed twice, every id listed contains the query when one
    is given, and a positive limit bounds the length.  Without query and
    limit every such peer and group is listed. *)
Theorem directory_listing :
  forall (account : ResolvedXmppAccount) (query : option string) (limit : option Z),
    let peers := map deId (listPeers account query limit) in
    let groups := map deId (listGroups account query limit) in
    let entries := match allowFrom (config account) with Some l => l | None => [] end in
    let autoJoin := match autoJoinRooms (config account) with Some l => l | None => [] end in
    let keys := roomsKeys (roomsOf (rooms (config account))) in
    NoDup peers /\ NoDup groups /\
    (forall id, In id peers ->
       id <> "" /\ id <> "*" /\ matchesQuery query id = true /\
       exists entry, In entry entries /\ id = normalizeXmppAllowEntry entry) /\
    (forall id, In id groups ->
       matchesQuery query id = true /\ (In id autoJoin \/ (In id keys /\ id <> "*"))) /\
    (forall z, limit = Some z -> (0 < z)%Z ->
       (Z.of_nat (List.length peers) <= z)%Z /\ (Z.of_nat (List.length groups) <= z)%Z) /\
    (forall e, In e (listPeers account query limit) -> deKind e = "user") /\
    (forall e, In e (listGroups account query limit) ->
       deKind e = "group" /\ deName e = Some (deId e)) /\
    (forall entry,
       In entry entries ->
       normalizeXmppAllowEntry entry <> "" -> normalizeXmppAllowEntry entry <> "*" ->
       In (normalizeXmppAllowEntry entry) (map deId (listPeers account None None))) /\
    (forall room,
       In room autoJoin \/ (In room keys /\ room <> "*") ->
       In room (map deId (listGroups account None None))).
Proof.
  intros account query limit peers groups entries autoJoin keys.
  set (fp := fun entry =>
               if JS.truthy (normalizeXmppAllowEntry entry)
                  && negb (String.eqb (normalizeXmppAllowEntry entry) "*")
               then Some (normalizeXmppAllowEntry entry) else None).
  set (fk := fun room : string => if negb (String.eqb room "*") then Some room else None).
  assert (Hpe : forall q lim, map deId (listPeers account q lim)
            = sliceLimit lim (filter (matchesQuery q)
                (fold_left (fun ids e => match fp e with
                                         | Some v => JS.setAdd v ids
                                         | None => ids
                                         end) entries []))).
  { intros q lim. unfold listPeers. rewrite map_map. cbn [deId]. rewrite map_id.
    f_equal. f_equal. fold entries. apply fold_left_pointwise. intros ids e. unfold fp.
    now destruct (JS.truthy (normalizeXmppAllowEntry e)
                  && negb (String.eqb (normalizeXmppAllowEntry e) "*")). }
  assert (Hgr : forall q lim, map deId (listGroups account q lim)
            = sliceLimit lim (filter (matchesQuery q)
                (fold_left (fun ids e => match fk e with
                                         | Some v => JS.setAdd v ids
                                         | None => ids
                                         end) keys
                   (fold_left (fun ids e => match Some e with
                                            | Some v => JS.setAdd v ids
                                            | None => ids
                                            end) autoJoin [])))).
  { intros q lim. unfold listGroups. rewrite map_map. cbn [deId]. rewrite map_id.
    f_equal. f_equal. fold autoJoin. unfold keys, roomsOf.
    apply fold_left_pointwise. intros ids e. unfold fk.
    now destruct (negb (String.eqb e "*")). }
  assert (Hfp : forall e x, fp e = Some x <->
            x = normalizeXmppAllowEntry e /\ x <> "" /\ x <> "*").
  { intros e x. unfold fp.
    destruct (JS.truthy (normalizeXmppAllowEntry e)) eqn:Et; cbn [andb].
    - destruct (String.eqb (normalizeXmppAllowEntry e) "*") eqn:Es; cbn [negb].
      + apply String.eqb_eq in Es. split; [discriminate | intros (-> & _ & H); congruence].
      + apply String.eqb_neq in Es. apply truthy_ne in Et.
        split; [intros [= <-]; now repeat split | intros (-> & _); reflexivity].
    - apply truthy_false in Et.
      split; [discriminate | intros (-> & H & _); congruence]. }
  assert (Hfk : forall e x, fk e = Some x <-> x = e /\ x <> "*").
  { intros e x. unfold fk. destruct (String.eqb e "*") eqn:Es; cbn [negb].
    - apply String.eqb_eq in Es. split; [discriminate | intros (-> & H); congruence].
    - apply String.eqb_neq in Es. split; [intros [= <-]; now split | intros (-> & _); reflexivity]. }
  unfold peers, groups. rewrite !Hpe, !Hgr.
  split; [|split; [|split; [|split; [|split; [|split; [|split; [|split]]]]]]].
  - apply sliceLimit_NoDup, NoDup_filter, fold_setAdd_if_NoDup. constructor.
  - apply sliceLimit_NoDup, NoDup_filter, fold_setAdd_if_NoDup.
    apply (fold_setAdd_if_NoDup (fun e => Some e)). constructor.
  - intros id Hid. apply sliceLimit_In, filter_In in Hid as [Hid Hq].
    apply fold_setAdd_if_In in Hid as [[]|(e & He & Hf)].
    apply Hfp in Hf as (-> & H1 & H2). repeat split; try assumption. now exists e.
  - intros id Hid. apply sliceLimit_In, filter_In in Hid as [Hid Hq].
    split; [exact Hq|].
    apply fold_setAdd_if_In in Hid as [Hid|(e & He & Hf)].
    + apply (fold_setAdd_if_In (fun e => Some e)) in Hid as [[]|(e & He & [= <-])].
      now left.
    + apply Hfk in Hf as (-> & H). right. now split.
  - intros z -> Hz. split; now apply sliceLimit_length.
  - intros e He. unfold listPeers in He. now apply in_map_iff in He as (x & <- & _).
  - intros e He. unfold listGroups in He. now apply in_map_iff in He as (x & <- & _).
  - intros entry Hin H1 H2. cbn [sliceLimit]. apply filter_In. split; [|reflexivity].
    apply fold_setAdd_if_In. right. exists entry. split; [exact Hin|].
    apply Hfp. now repeat split.
  - intros room Hroom. cbn [sliceLimit]. apply filter_In. split; [|reflexivity].
    apply fold_setAdd_if_In. destruct Hroom as [Ha|[Hk Hne]].
    + left. apply (fold_setAdd_if_In (fun e => Some e)). right. now exists room.
    + right. exists room. split; [exact Hk|]. apply Hfk. now split.
Qed.

Lemma directory_listing_witness :
  map deId (listPeers directoryAccount None None) = ["alice@example.org"; "bob@example.org"] /\
  map deId (listGroups directoryAccount None None)
  = ["team@conference.example.org"; "ops@conference.example.org"] /\
  (Z.of_nat (List.length (map deId (listPeers directoryAccount (Some "example") (Some 1%Z))))
   <= 1)%Z /\
  In (normalizeXmppAllowEntry "xmpp:Bob@Example.org")
     (map deId (listPeers directoryAccount None None)).
Proof.
  split; [reflexivity|]. split; [reflexivity|]. split.
  - destruct (directory_listing directoryAccount (Some "example") (Some 1%Z))
      as (_ & _ & _ & _ & H & _).
    destruct (H 1%Z eq_refl) as [Hp _]; [lia | exact Hp].
  - destruct (directory_listing directoryAccount None None)
      as (_ & _ & _ & _ & _ & _ & _ & H & _).
    apply H; [cbn; tauto | discriminate | discriminate].
Defined.

(* ------------------------------------------------------------------ *)
(** ** channel.ts: pairing ids *)

Lemma beforeFirstSlash_no_slash (s : string) :
  JS.allChars (fun c => negb (Ascii.eqb c "/")) (beforeFirstSlash s) = true.
Proof.
  unfold beforeFirstSlash. destruct (JS.splitFirst "/" s) as [[a b]|] eqn:E.
  - now destruct (splitFirst_some _ _ _ _ E).
  - now apply splitFirst_none_inv.
Qed.

Lemma lower_fixed_prefix (a b : string) :
  JS.toLowerCase (a ++ b) = a ++ b -> JS.toLowerCase a = a.
Proof.
  induction a as [|c a IH]; cbn; [reflexivity|].
  intros [= Hc H]. now rewrite Hc, (IH H).
Qed.

Lemma beforeFirstSlash_lower (s : string) :
  JS.toLowerCase s = s -> JS.toLowerCase (beforeFirstSlash s) = beforeFirstSlash s.
Proof.
  unfold beforeFirstSlash. destruct (JS.splitFirst "/" s) as [[a b]|] eqn:E; [|tauto].
  destruct (splitFirst_some _ _ _ _ E) as [-> _]. apply lower_fixed_prefix.
Qed.

(** X26 (channel.ts, normalizePairingTarget and pairing.notifyApproval,
    lines 131-155; inbound.ts, lines 182-186): a pairing target is in lower
    case and has no "/" and no surrounding whitespace; a blank id has no
    target and its approval fails with "invalid XMPP pairing id" before
    anything is sent.  The id under which the pipeline files a pairing
    request for a plain sender, the sender's bare JID in lower case, is its own
    pairing target and a valid send target, so the approval notice goes back
    to that bare JID. *)
Theorem pairing_target_round_trip :
  (forall raw : string,
      let t := normalizePairingTarget raw in
      JS.toLowerCase t = t /\ JS.trim t = t /\
      JS.allChars (fun c => negb (Ascii.eqb c "/")) t = true) /\
  (forall (Store : Type) (h : Host Store) account fid msg id,
      JS.trim id = "" ->
      notifyApproval h account fid msg id
      = (Some ("invalid XMPP pairing id: " ++ id), [])) /\
  (forall (l d : string) (r : option string) (m : XmppInboundMessage),
      JS.truthy l = true -> JS.truthy d = true ->
      JS.allChars plainUnit l = true -> JS.allChars plainUnit d = true ->
      senderBareJid m = normalizeXmppBareJid (fullJid l d r) ->
      let id := JS.toLowerCase (senderBareJid m) in
      id = senderBareJid m /\
      normalizePairingTarget id = id /\
      resolveTarget (normalizePairingTarget id) noSendOptions = inr id /\
      forall (Store : Type) (h : Host Store) account fid msg,
        notifyApproval h account fid msg id
        = match sendMessageXmpp h account fid id msg noSendOptions with
          | (inl e, effs) => (Some (sendErrorMessage e), effs)
          | (inr _, effs) => (None, effs)
          end).
Proof.
  split; [|split].
  - intros raw t. unfold t, normalizePairingTarget.
    destruct (JS.truthy (normalizeXmppAllowEntry raw)); cbn [negb]; [|now repeat split].
    rewrite split_head. split; [|split].
    + apply lower_fixed_trim, beforeFirstSlash_lower, normalizeXmppAllowEntry_lower.
    + apply trim_idem.
    + apply allChars_trim, beforeFirstSlash_no_slash.
  - intros Store h account fid msg id Hid. unfold notifyApproval, normalizePairingTarget.
    unfold normalizeXmppAllowEntry. rewrite Hid. reflexivity.
  - intros l d r m Hl1 Hd1 Hl Hd Hm id.
    assert (Hb : senderBareJid m = JS.toLowerCase l ++ String "@" (JS.toLowerCase d)).
    { rewrite Hm. now apply normalizeXmppBareJid_full. }
    assert (Hll : JS.allChars plainUnit (JS.toLowerCase l) = true)
      by now rewrite allChars_plain_lower.
    assert (Hdl : JS.allChars plainUnit (JS.toLowerCase d) = true)
      by now rewrite allChars_plain_lower.
    assert (Hl1l : JS.truthy (JS.toLowerCase l) = true) by now rewrite truthy_toLowerCase.
    assert (Hd1l : JS.truthy (JS.toLowerCase d) = true) by now rewrite truthy_toLowerCase.
    assert (Hid : id = senderBareJid m).
    { unfold id. rewrite Hb, toLowerCase_app. cbn [JS.toLowerCase].
      now rewrite !toLowerCase_idem. }
    assert (Hfull : senderBareJid m = fullJid (JS.toLowerCase l) (JS.toLowerCase d) None).
    { rewrite Hb. unfold fullJid. now rewrite append_empty_r. }
    assert (Hentry : normalizeXmppAllowEntry (senderBareJid m) = senderBareJid m).
    { assert (Hr0 : forall x, @None string = Some x ->
                JS.allChars (fun c => negb (JS.isWhitespace c)) x = true) by discriminate.
      pose proof (normalizeXmppAllowEntry_full _ _ None Hll Hdl Hl1l Hd1l Hr0 ""
                    (or_introl eq_refl)) as He.
      cbn [append] in He. rewrite <- Hfull in He. rewrite He.
      now rewrite !toLowerCase_idem, Hb. }
    assert (Hslash : beforeFirstSlash (senderBareJid m) = senderBareJid m).
    { unfold beforeFirstSlash. rewrite splitFirst_none; [reflexivity|].
      rewrite Hb, allChars_app, allChars_cons.
      now rewrite (plain_no_unit "/" _ eq_refl Hll), (plain_no_unit "/" _ eq_refl Hdl). }
    assert (Htrim : JS.trim (senderBareJid m) = senderBareJid m).
    { apply trim_plain. rewrite Hb, allChars_app, allChars_cons.
      now rewrite (allChars_impl _ _ _ plainUnit_not_ws Hll),
                  (allChars_impl _ _ _ plainUnit_not_ws Hdl). }
    assert (Htruthy : JS.truthy (senderBareJid m) = true).
    { rewrite Hb. destruct (JS.toLowerCase l); [discriminate | reflexivity]. }
    assert (Htarget : normalizePairingTarget (senderBareJid m) = senderBareJid m).
    { unfold normalizePairingTarget. rewrite Hentry, Htruthy. cbn [negb].
      now rewrite split_head, Hslash. }
    assert (Hnorm : normalizeXmppJid (senderBareJid m) = Some (senderBareJid m)).
    { rewrite Hfull at 1.
      rewrite (normalizeXmppJid_bare_target _ _ None Hll Hdl Hl1l Hd1l) by discriminate.
      now rewrite !toLowerCase_idem, Hb. }
    rewrite Hid. split; [reflexivity|]. split; [exact Htarget|]. split.
    + rewrite Htarget. unfold resolveTarget, normalizeXmppMessagingTarget.
      rewrite Hnorm. cbn [truthyOpt]. now rewrite Htruthy.
    + intros Store h account fid msg. unfold notifyApproval.
      now rewrite Htarget, Htruthy.
Qed.

Lemma pairing_target_round_trip_witness :
  let m := directMessage "bob@example.org" "hi" in
  normalizePairingTarget (JS.toLowerCase (senderBareJid m)) = "bob@example.org" /\
  notifyApproval specHost pairingAccount "fresh" "approved" "   "
  = (Some "invalid XMPP pairing id:    ", []) /\
  notifyApproval specHost pairingAccount "fresh" "approved" "bob@example.org"
  = (None, [SendStanza false "bob@example.org" "approved" Chat; ActivityOutbound "default"]).
Proof.
  cbv zeta.
  destruct pairing_target_round_trip as (_ & Hblank & Hid).
  destruct (Hid "Bob" "Example.org" (Some "phone") (directMessage "bob@example.org" "hi"))
    as (_ & Ht & _ & Hn); try reflexivity.
  split; [exact Ht|]. split; [apply Hblank; reflexivity|].
  etransitivity; [exact (Hn (list string) specHost pairingAccount "fresh" "approved")|].
  reflexivity.
Defined.

(* ------------------------------------------------------------------ *)
(** ** accounts.ts, client.ts and probe.ts together *)




(* ------------------------------------------------------------------ *)
(** ** inbound.ts: sequences of messages *)

Lemma handle_quiet {Store} (h : Host Store) cfg account client fid m (st : Store) :
  let r := handleXmppInbound h cfg account client fid m st in
  List.length (filter isDispatch (effects r))
  <= (if JS.truthy (JS.trim (text m)) then 1 else 0) /\
  (isGroup m = true \/
   (dmPolicy (config account) <> None /\ dmPolicy (config account) <> Some DmPairing) ->
   finalStore r = st /\ existsb isUpsert (effects r) = false /\
   sentPairingReply (effects r) = false /\
   (existsb isSend (effects r) = true -> existsb isDispatch (effects r) = true)).
Proof.
  cbv zeta.
  destruct (handle_run_invariants Store h cfg account client fid m st)
    as (Hblank & _ & _ & Honce & Hup & Hsend & _).
  split.
  - destruct (JS.truthy (JS.trim (text m))) eqn:Hb; [exact Honce|].
    rewrite (Hblank eq_refl). cbn. lia.
  - intros Hq.
    assert (Hno : ~ (isGroup m = false /\
                     (dmPolicy (config account) = None \/
                      dmPolicy (config account) = Some DmPairing))).
    { intros [Hg Hp]. destruct Hq as [Hq|[H1 H2]]; [congruence|].
      destruct Hp; contradiction. }
    assert (Hst : finalStore (handleXmppInbound h cfg account client fid m st) = st).
    { destruct (handle_shape h cfg account client fid m st) as [[_ H]|(Hg & Hp & _)];
        [exact H|].
      elim Hno. split; [exact Hg|]. now apply effectiveDmPolicy_iff. }
    split; [exact Hst|]. split.
    { destruct (existsb isUpsert (effects (handleXmppInbound h cfg account client fid m st)))
        eqn:E; [|reflexivity].
      elim Hno. destruct Hup as (Hg & Hp & _); [now left | now split]. }
    split.
    { destruct (handle_shape h cfg account client fid m st) as [[H _]|(Hg & Hp & _)];
        [exact H|].
      elim Hno. split; [exact Hg|]. now apply effectiveDmPolicy_iff. }
    intros Hs. destruct (Hsend Hs) as [(Hg & Hp & _)|Hd]; [|exact Hd].
    elim Hno. now split.
Qed.

(** X28 (inbound.ts, handleXmppInbound, run on the messages of an account one
    after the other): along any sequence of messages the agent is dispatched
    at most once per message whose body is not blank; and when every message
    is a group message, or the DM policy is set and is not "pairing", the
    pairing store is the same at the end as at the start, no pairing request
    is filed, no pairing reply is sent, and stanzas are sent only if the agent
    has been dispatched, whatever the host does. *)
Theorem inbound_sequence_invariants :
  forall (Store : Type) (h : Host Store) cfg account client fid
         (messages : list XmppInboundMessage) (st : Store),
    let run := handleAll h cfg account client fid messages st in
    List.length (filter isDispatch (fst run))
    <= List.length (filter (fun m => JS.truthy (JS.trim (text m))) messages) /\
    ((forall m, In m messages -> isGroup m = true) \/
     (dmPolicy (config account) <> None /\ dmPolicy (config account) <> Some DmPairing) ->
     snd run = st /\ existsb isUpsert (fst run) = false /\
     (forall id, pairingRepliesTo h cfg account client fid id messages st = 0) /\
     (existsb isSend (fst run) = true -> existsb isDispatch (fst run) = true)).
Proof.
  intros Store h cfg account client fid messages. cbv zeta.
  induction messages as [|m rest IH]; intros st.
  - cbn. split; [lia|]. intros _. repeat split. discriminate.
  - cbn [handleAll pairingRepliesTo].
    pose proof (handle_quiet h cfg account client fid m st) as Hq. cbv zeta in Hq.
    destruct Hq as [Hcount Hquiet].
    specialize (IH (finalStore (handleXmppInbound h cfg account client fid m st))).
    destruct (handleAll h cfg account client fid rest
                (finalStore (handleXmppInbound h cfg account client fid m st)))
      as [effs st'] eqn:Erest.
    cbn [fst snd] in *. destruct IH as [IHc IHq]. split.
    + rewrite filter_app, length_app. cbn [filter].
      destruct (JS.truthy (JS.trim (text m))); cbn [List.length]; lia.
    + intros Hall.
      assert (Hm : isGroup m = true \/
                   (dmPolicy (config account) <> None /\
                    dmPolicy (config account) <> Some DmPairing)).
      { destruct Hall as [Hall|Hp]; [left; apply Hall; now left | now right]. }
      destruct (Hquiet Hm) as (Hs & Hup & Hreply & Hsend).
      assert (Hrest : (forall m', In m' rest -> isGroup m' = true) \/
                      (dmPolicy (config account) <> None /\
                       dmPolicy (config account) <> Some DmPairing)).
      { destruct Hall as [Hall|Hp]; [left; intros m' Hm'; apply Hall; now right | now right]. }
      destruct (IHq Hrest) as (Hs' & Hup' & Hreply' & Hsend').
      rewrite !existsb_app, Hup, Hup'.
      split; [congruence|]. split; [reflexivity|]. split.
      * intros id. rewrite Hreply, andb_false_r. cbn. rewrite Hs. rewrite Hs in Hreply'.
        apply Hreply'.
      * intros H. apply orb_true_iff in H. apply orb_true_iff.
        destruct H as [H|H]; [left; now apply Hsend | right; now apply Hsend'].
Qed.

Lemma inbound_sequence_invariants_witness :
  let msgs := [groupMessage "room@conference.localhost" "alice" "hello";
               groupMessage "room@conference.localhost" "bob" "  ";
               groupMessage "room@conference.localhost" "carol" "Agent: help"] in
  let run := handleAll specHost plainConfig mentionRoomAccount (Some true) "fresh" msgs [] in
  snd run = [] /\ existsb isUpsert (fst run) = false /\
  existsb isSend (fst run) = true /\
  List.length (filter isDispatch (fst run)) = 1.
Proof.
  cbv zeta.
  destruct (inbound_sequence_invariants (list string) specHost plainConfig mentionRoomAccount
              (Some true) "fresh"
              [groupMessage "room@conference.localhost" "alice" "hello";
               groupMessage "room@conference.localhost" "bob" "  ";
               groupMessage "room@conference.localhost" "carol" "Agent: help"] [])
    as [_ H].
  destruct H as (Hs & Hup & _).
  - left. intros m [<-|[<-|[<-|[]]]]; reflexivity.
  - split; [exact Hs|]. split; [exact Hup|]. split; reflexivity.
Defined.
